(* ===== verification/_CoqProject ===== *)
-Q . S2P
Prelude.v
Monad.v
Refine.v
Typing.v
Types.v
LogRing.v
RingBuf.v
Queue.v
Redis.v
Fifo.v
RingConc.v
Mtl.v
Config.v
Quorum.v
Membership.v
HashTable.v
HashMap.v
State.v
Utils.v
Log.v
Serialize.v
Containers.v
Snapshot.v
Pipes.v
PrimaryCtx.v
RaftLog.v
Raft.v
XApp.v
Server.v
RaftServer.v
Invariant.v
Commit.v
Election.v
Replication.v
Install.v
XRepl.v
Worker.v
Tasks.v
Init.v
Bootstrap.v
Lifecycle.v
Delivery.v
RaftSnap.v
CatchUp.v
Replicas.v
XStream.v
Streams.v
StateTypes.v
ServerTypes.v
ThreadTypes.v
Backup.v
Examples.v
Xapp.v
Xapp2.v
XappRuns.v
Sender.v
Sender2.v
SenderRuns.v
Cluster.v
Sample.v
Consensus.v
Components.v
WireProps.v
TaskProps.v
StartProps.v
ClusterProps.v
DeliveryProps.v
SnapshotProps.v
StreamProps.v
TypeProps.v
ExampleProps.v
