(* ===== verification/Prelude.v ===== *)
(** * RFT: a verification library for the RIC Fault Tolerance library

    RFT replicates the state of xApps. It has two halves. A raft cluster keeps
    the membership: elections, a replicated log of configuration entries, and
    snapshots of the configuration. Next to it, the primary of a context sends
    its commands asynchronously to its backups. The source is C with POSIX
    threads; RMR carries the messages and Redis the address of the leader. Two
    sample xApps and two senders of requests use it (examples/).

    ** The model

    Every function of the library is a function of the state monad [M] of
    Monad.v over the memory it works on. Its result is a value and a new state
    or a [fault]: an access outside an array or a block, a NULL dereference, a
    failed assertion, [exit( 1 )], a thread that locks a mutex it holds, or a
    loop that needs more turns than its bound. The bounds ([fuel]) are computed
    from the state, as the number of entries between two indices or the slots
    of a ring; the theorems about the functions exclude the fault [OutOfFuel],
    so they are large enough, and total correctness is what is proved.
    A mutex is the flag "held by the running thread" beside the data it guards;
    one definition is one stretch of code that a thread runs with its locks,
    between two waits. Integers keep their widths ([u32], [u64], [i32]).
    What lies outside the repository is an argument: the results of the system
    calls and allocations ([sys], [allocs]), of RMR's send functions, of Redis,
    of [rand( )] and the clock; the size of RMR's address buffer ([Rmr]) and
    the byte order of the host ([Host]) are type classes.

    ** The files

    - Prelude.v, Monad.v, Refine.v, Typing.v: integers, bytes, C strings; the
      monad, lenses, locks and the predicate transformer [wp] with its rules;
      refinement of a sequence of operations by a specification; a typing of
      computations by invariants of the state (class [Typed]).
    - Types.v, State.v: the structures of include/types.h and the globals of
      log.c, snapshot.c and rft.c, in one record [St].
    - LogRing.v (static/logring.c), Log.v, RaftLog.v, Serialize.v (log.c).
    - RingBuf.v, RingConc.v (static/ringbuf.c): the ring of tasks, and a step
      relation of the accesses of its producers and its consumer. Queue.v
      (static/queue.c): a doubly linked list in a heap. Fifo.v: the class
      [Fifo] of first-in first-out buffers, with both as instances.
    - Redis.v (static/redis.c): the commands over the class [Hiredis]; the
      class [RedisServer] states the documented answers of Redis in terms of
      the events a client causes, and several clients share one history.
    - Mtl.v (mtl.c), Utils.v (utils.c, include/utils.h).
    - Config.v, Quorum.v, Membership.v (config.c): the members as heap objects,
      the representation predicate [cfg_rep] of a list of servers, and the
      refinement of the operations to that list.
    - HashTable.v, HashMap.v (static/hashtable.c): the chains of cells and
      their refinement to finite maps. Containers.v: the histories of the log
      ring, the logs and the hash table.
    - Snapshot.v, PrimaryCtx.v (snapshot.c and the snapshots of config.c).
      Pipes.v: the pipe between the process that takes a snapshot and the
      thread that stores it, with partial reads and writes.
    - Raft.v, XApp.v, Server.v (rft.c): the consensus handlers, the replication
      of the xApp's state, the worker and the loops of the other threads.
      RaftServer.v: the thread of a server as a machine over its loops.
      Tasks.v: the way of a message through the task ring to the worker.
      Init.v, Lifecycle.v: [rft_init], the bootstrap and [rft_shutdown].
    - Invariant.v to Worker.v, Bootstrap.v: the proofs about them.
      [core s L C] says that the state [s] holds the raft log [L] and the
      members [C] and that its parts agree; [inv] adds what holds between two
      messages. Commit.v, Election.v, Replication.v, Install.v and XRepl.v
      specify one group of handlers each, Worker.v the dispatch of all
      messages, Bootstrap.v the first server of a cluster. Delivery.v and
      CatchUp.v follow a message from the leader to a follower and back,
      RaftSnap.v the thread that stores a raft snapshot, Replicas.v a cluster
      whose logs diverge.
    - XStream.v, Streams.v, Backup.v: the commands of the xApps between any
      number of servers, as a step relation and as exchanges of a primary with
      its backup.
    - StateTypes.v, ServerTypes.v, ThreadTypes.v: every operation keeps the
      values of the state within the C types of their fields.
    - Examples.v, Xapp.v, Xapp2.v, Sender.v, Sender2.v (examples/): the sample
      programs over the model of the library; XappRuns.v and SenderRuns.v: the
      proofs about their runs.
    - Cluster.v: several servers and a network that may lose, repeat and
      reorder what they send, as a step relation over the stretches of code of
      the files above, with its invariant.
    - Sample.v: a sample cluster for the instances. Consensus.v, Components.v,
      WireProps.v, TaskProps.v, StartProps.v, ClusterProps.v, DeliveryProps.v,
      SnapshotProps.v, StreamProps.v, TypeProps.v and ExampleProps.v: the
      properties with their instances; two more are in Pipes.v and RaftServer.v.

    ** What the theorems show

    - Containers (Components.v, TaskProps.v): through every history of
      operations the log ring is a bounded deque, a log a list with consecutive
      indices, the configuration a list of servers, the hash table a finite
      map, the task ring and the queue first-in first-out buffers. In every
      interleaving of its threads the ring delivers what was inserted, in
      order, and loses no wake-up.
    - Wire format (WireProps.v): serialization is inverted by deserialization;
      the sizes, the byte order and the parsers of numbers.
    - One server (Consensus.v): the worker keeps the invariant of the server on
      every well-formed message and releases its mutexes; a server votes once
      in a term, for an up-to-date candidate; a leader has a majority of the
      members, counted once; committed entries stay; the leader commits what a
      majority holds of its own term; snapshots restore the members. The
      thread of a removed server ends and releases it (RaftServer.v).
    - A leader and a follower (DeliveryProps.v): AppendEntries as a function of
      the log; an exchange of messages transfers the entries sent, or moves the
      leader back, and enough of them bring the follower's log up to date.
    - Snapshots (Pipes.v, SnapshotProps.v): the parent reads from the pipe what
      the child has written, however the bytes are split, stores it, and
      compacts the log exactly behind what the snapshot covers.
    - Several servers (ClusterProps.v, StartProps.v): a term has at most one
      leader while the membership does not change; a cluster is founded by one
      server only; a leader that stops removes only its own address.
    - The commands of the xApps (StreamProps.v): over an arbitrary network every
      server applies a prefix of the commands of every other server, each once
      and in order; a backup catches up with its primary.
    - Types (TypeProps.v): in every run of the threads the memory holds values
      of its C types, and the messages sent hold values of theirs.
    - The samples (ExampleProps.v): from its start on the sample xApp counts
      every request and has the library replicate the new counter, every
      replica holds a value the counter has had, and the sample sender stays
      inside its arrays if it warms up with no more messages than it measures.
    - The start (StartProps.v): [rft_init] establishes the invariant that the
      worker keeps, and the bootstrap makes the first server a member by a
      committed entry.

    Where the code departs from its intention the theorems say so: the deadlock
    of the last log term, the inverted test of the election timer, the term
    that a snapshot lowers, the replicas that commit different entries after a
    request behind the commit index, the growth of the serialization buffer,
    the read past the end of a server entry, the wake-up on an empty ring; of
    the samples, the overflow by the warm-up, the report without a reply, the
    deviation in mixed units.

    ** What is not modelled

    The logger, the statistics and the release functions of the containers, the
    accessors for the unit tests, and the tests. Of the samples, the
    scheduling class and how the numbers of the report are printed. The calls of the library in the samples lack arguments that its
    header declares; the model passes them ([Examples.with_rft]). The runs of
    the command streams leave out the installation of an xApp snapshot, whose
    effect on the state is the callback's. The condition variables order the turns of the
    threads and carry no data. Interleavings inside one stretch of locked code
    do not exist in the C program; the few reads it makes outside its locks are
    modelled at one instant. The cluster has a fixed membership, and a server
    that ends its process does not come back: the library keeps its term and
    its vote in memory only. *)

From Stdlib Require Export ZArith Ascii String Lia Bool.
From stdpp Require Export base strings gmap fin_maps option.
From stdpp Require Export list.

#[export] Set Default Goal Selector "!".

(** The facts that automate the proofs about the servers: they are added next
    to their lemmas. *)
Create HintDb server.

Declare Scope rft_scope.
Delimit Scope rft_scope with rft.
Open Scope Z_scope.

(** ** Machine integers

    Values of unsigned C types are integers of [Z]; every arithmetic result is
    reduced with the wrap-around of its width. *)

Definition u8 (z : Z) : Z := z mod 2 ^ 8.
Definition u32 (z : Z) : Z := z mod 2 ^ 32.
Definition u64 (z : Z) : Z := z mod 2 ^ 64.

(** Conversion to a signed 32-bit [int] (two's complement). *)
Definition i32 (z : Z) : Z := (z + 2 ^ 31) mod 2 ^ 32 - 2 ^ 31.

Definition UINT_MAX : Z := 2 ^ 32 - 1.
Definition ULONG_MAX : Z := 2 ^ 64 - 1.
Definition INT_MAX : Z := 2 ^ 31 - 1.
Definition INT_MIN : Z := - 2 ^ 31.
Definition LONG_MAX : Z := 2 ^ 63 - 1.
Definition LONG_MIN : Z := - 2 ^ 63.

Notation is_u32 z := (0 <= z < 2 ^ 32)%Z.
Notation is_u64 z := (0 <= z < 2 ^ 64)%Z.

(** C's truth values: [0] is false, everything else is true. *)
Definition b2z (b : bool) : Z := if b then 1 else 0.
Definition truthy (z : Z) : bool := negb (z =? 0).

Lemma u32_small z : is_u32 z -> u32 z = z.
Proof. intros H. unfold u32. by rewrite Z.mod_small. Qed.

Lemma u64_small z : is_u64 z -> u64 z = z.
Proof. intros H. unfold u64. by rewrite Z.mod_small. Qed.

(** The inner reductions of a difference do not matter. *)
Lemma u32_sub_l a b : u32 (u32 a - b) = u32 (a - b).
Proof. unfold u32. by rewrite Zminus_mod_idemp_l. Qed.

Lemma u32_range z : is_u32 (u32 z).
Proof. apply Z.mod_pos_bound. lia. Qed.

Lemma i32_range z : INT_MIN <= i32 z <= INT_MAX.
Proof.
  unfold i32, INT_MIN, INT_MAX. pose proof (Z.mod_pos_bound (z + 2 ^ 31) (2 ^ 32) ltac:(lia)). lia.
Qed.

Lemma u64_range z : is_u64 (u64 z).
Proof. apply Z.mod_pos_bound. lia. Qed.

(** Wrap-around arithmetic may be reduced at the end only. *)
Lemma u64_add_l a b : u64 (u64 a + b) = u64 (a + b).
Proof. unfold u64. by rewrite Zplus_mod_idemp_l. Qed.

Lemma u64_add_r a b : u64 (a + u64 b) = u64 (a + b).
Proof. unfold u64. by rewrite Zplus_mod_idemp_r. Qed.

Lemma u64_sub_l a b : u64 (u64 a - b) = u64 (a - b).
Proof. unfold u64. by rewrite Zminus_mod_idemp_l. Qed.

Lemma u64_sub_r a b : u64 (a - u64 b) = u64 (a - b).
Proof. unfold u64. by rewrite Zminus_mod_idemp_r. Qed.

#[export] Hint Resolve u32_range u64_range : server.

Lemma truthy_b2z b : truthy (b2z b) = b.
Proof. by destruct b. Qed.

(** ** Modular indices of the circular buffers *)

Lemma land_mask a k : 0 <= k -> Z.land a (2 ^ k - 1) = a mod 2 ^ k.
Proof. intros Hk. by rewrite <- Z.land_ones, Z.ones_equiv, <- Z.sub_1_r. Qed.

(** Truncation to 32 or 64 bits does not change an index modulo a smaller power of two. *)
Lemma mod_pow_mod a j k : 0 <= k <= j -> (a mod 2 ^ j) mod 2 ^ k = a mod 2 ^ k.
Proof.
  intros H. replace (2 ^ j) with (2 ^ k * 2 ^ (j - k)).
  - apply Z.mod_mod_divide. exists (2 ^ (j - k)). lia.
  - rewrite <- Z.pow_add_r by lia. f_equal. lia.
Qed.

Lemma land_u32 a k : 0 <= k <= 32 -> Z.land (u32 a) (2 ^ k - 1) = a mod 2 ^ k.
Proof. intros Hk. rewrite land_mask by lia. by apply mod_pow_mod. Qed.

Lemma mod_succ s a : 0 <= a < s -> (a + 1) mod s = if a + 1 =? s then 0 else a + 1.
Proof.
  intros H. destruct (Z.eqb_spec (a + 1) s) as [->|].
  - apply Z.mod_same. lia.
  - apply Z.mod_small. lia.
Qed.

Lemma mod_pred s a : 0 <= a < s -> (a - 1) mod s = if a =? 0 then s - 1 else a - 1.
Proof.
  intros H. destruct (Z.eqb_spec a 0) as [->|].
  - symmetry. apply (Z.mod_unique _ _ (-1)); lia.
  - apply Z.mod_small. lia.
Qed.

Lemma mod_diff s a b : 0 <= a < s -> 0 <= b < s ->
  (a - b) mod s = if a <? b then a - b + s else a - b.
Proof.
  intros Ha Hb. destruct (Z.ltb_spec a b).
  - symmetry. apply (Z.mod_unique _ _ (-1)); lia.
  - apply Z.mod_small. lia.
Qed.

Lemma mod_sum s a b : 0 <= a < s -> 0 <= b < s ->
  (a + b) mod s = if a + b <? s then a + b else a + b - s.
Proof.
  intros Ha Hb. destruct (Z.ltb_spec (a + b) s).
  - apply Z.mod_small. lia.
  - symmetry. apply (Z.mod_unique _ _ 1); lia.
Qed.

(** The test [( n & (n - 1) ) == 0] of the ring constructors: powers of two. *)
Lemma land_pred_pow2 n : 0 < n -> Z.land n (n - 1) = 0 <-> exists k, 0 <= k /\ n = 2 ^ k.
Proof.
  intros Hn. split.
  - intros H. exists (Z.log2 n). pose proof (Z.log2_nonneg n) as Hk.
    pose proof (Z.log2_spec n Hn) as [Hl Hu]. split; [done|].
    destruct (Z.eq_dec n (2 ^ Z.log2 n)) as [|Hne]; [done|exfalso].
    assert (Z.log2 (n - 1) = Z.log2 n) as El
      by (apply Z.log2_unique; [done|lia]).
    assert (Z.testbit (Z.land n (n - 1)) (Z.log2 n) = true) as Hb.
    { rewrite Z.land_spec, Z.bit_log2 by done.
      rewrite <- El, Z.bit_log2; [done|].
      assert (1 <= 2 ^ Z.log2 n) by (apply Z.lt_pred_le, Z.pow_pos_nonneg; lia). lia. }
    rewrite H, Z.bits_0 in Hb. done.
  - intros (k & Hk & ->). rewrite land_mask by done. apply Z.mod_same.
    pose proof (Z.pow_pos_nonneg 2 k). lia.
Qed.

(** Case analysis on the comparisons a goal or a hypothesis still contains. *)
Ltac zcases :=
  repeat match goal with
  | |- context [Z.eqb ?a ?b] => destruct (Z.eqb_spec a b)
  | |- context [Z.ltb ?a ?b] => destruct (Z.ltb_spec a b)
  | |- context [Z.leb ?a ?b] => destruct (Z.leb_spec a b)
  | H : context [Z.eqb ?a ?b] |- _ => destruct (Z.eqb_spec a b)
  | H : context [Z.ltb ?a ?b] |- _ => destruct (Z.ltb_spec a b)
  | H : context [Z.leb ?a ?b] |- _ => destruct (Z.leb_spec a b)
  end.

(** ** Bytes and the little-endian memory image of integers *)

Notation byte := ascii.
Notation bytes := (list ascii).

Definition byte_val (b : byte) : Z := Z.of_N (N_of_ascii b).
Definition byte_of (z : Z) : byte := ascii_of_N (Z.to_N (u8 z)).

Lemma byte_val_range b : 0 <= byte_val b < 256.
Proof. unfold byte_val. pose proof (N_ascii_bounded b). lia. Qed.

Lemma byte_val_of z : byte_val (byte_of z) = u8 z.
Proof.
  unfold byte_val, byte_of, u8. pose proof (Z.mod_pos_bound z (2 ^ 8)).
  rewrite N_ascii_embedding; lia.
Qed.

Lemma byte_of_val b : byte_of (byte_val b) = b.
Proof.
  unfold byte_of, byte_val, u8. pose proof (N_ascii_bounded b).
  rewrite Z.mod_small by lia. rewrite N2Z.id. apply ascii_N_embedding.
Qed.

(** [le_bytes n z] is the image of the [n]-byte integer [z], least significant
    byte first; [le_val] reads it back. *)
Fixpoint le_bytes (n : nat) (z : Z) : bytes :=
  match n with
  | O => []
  | S n => byte_of z :: le_bytes n (z / 256)
  end.

Fixpoint le_val (bs : bytes) : Z :=
  match bs with
  | [] => 0
  | b :: bs => byte_val b + 256 * le_val bs
  end.

Lemma length_le_bytes n z : length (le_bytes n z) = n.
Proof. revert z. induction n; intros z; simpl; congruence. Qed.

Lemma le_val_bytes n z : le_val (le_bytes n z) = z mod 2 ^ (8 * Z.of_nat n).
Proof.
  revert z. induction n as [|n IH]; intros z; cbn [le_bytes le_val].
  - by rewrite Z.mod_1_r.
  - rewrite IH, byte_val_of. unfold u8.
    replace (2 ^ (8 * Z.of_nat (S n))) with (256 * 2 ^ (8 * Z.of_nat n)).
    + change (2 ^ 8) with 256. rewrite Z.rem_mul_r; lia.
    + change 256 with (2 ^ 8). rewrite <- Z.pow_add_r by lia. f_equal. lia.
Qed.

Lemma le_bytes_val bs : le_bytes (length bs) (le_val bs) = bs.
Proof.
  induction bs as [|b bs IH]; [done|]. cbn [length le_val le_bytes].
  pose proof (byte_val_range b).
  f_equal.
  - unfold byte_of, u8. rewrite Z.mul_comm, Z_mod_plus_full.
    rewrite Z.mod_small by (simpl; lia).
    unfold byte_val. rewrite N2Z.id. apply ascii_N_embedding.
  - rewrite Z.mul_comm, Z.div_add by lia. rewrite Z.div_small by lia. done.
Qed.

Lemma le_val_range bs : 0 <= le_val bs < 2 ^ (8 * Z.of_nat (length bs)).
Proof.
  rewrite <- (le_bytes_val bs) at 1 2. rewrite le_val_bytes.
  apply Z.mod_pos_bound. apply Z.pow_pos_nonneg; lia.
Qed.

(** [sub_bytes i n l]: the [n] bytes of [l] from offset [i], if they exist. *)
Definition sub_bytes {A} (i n : nat) (l : list A) : option (list A) :=
  if decide (i + n <= length l)%nat then Some (take n (drop i l)) else None.

Lemma sub_bytes_app_r {A} (a b : list A) n :
  n = length b -> sub_bytes (length a) n (a ++ b) = Some b.
Proof.
  intros ->. unfold sub_bytes. rewrite length_app, decide_True by lia.
  by rewrite drop_app_length, take_ge by lia.
Qed.

Lemma sub_bytes_app_l {A} (a b : list A) n :
  n = length a -> sub_bytes 0 n (a ++ b) = Some a.
Proof.
  intros ->. unfold sub_bytes. rewrite length_app, decide_True by lia.
  by rewrite drop_0, take_app_length.
Qed.

Lemma sub_bytes_app_mid {A} (a b c : list A) i n :
  i = length a -> n = length b -> sub_bytes i n (a ++ b ++ c) = Some b.
Proof.
  intros -> ->. unfold sub_bytes. rewrite !length_app, decide_True by lia.
  by rewrite drop_app_length, take_app_length.
Qed.

(** A read inside a block does not depend on what follows the block. *)
Lemma sub_bytes_more {A} i n (l r t : list A) :
  sub_bytes i n l = Some r -> sub_bytes i n (l ++ t) = Some r.
Proof.
  unfold sub_bytes. case_decide; [|done]. intros [= <-]. rewrite length_app, decide_True by lia.
  by rewrite drop_app_le, take_app_le by (rewrite ?length_drop; lia).
Qed.

Lemma sub_bytes_length {A} i n (l r : list A) :
  sub_bytes i n l = Some r -> length r = n.
Proof.
  unfold sub_bytes. case_decide; intros [= <-]. rewrite length_take, length_drop. lia.
Qed.

(** ** NUL-terminated strings held in fixed-size character arrays *)

Definition NUL : ascii := "000"%char.

(** The string a C function reads from [bs]: up to the first NUL; [None] when
    the bytes hold no terminator (the read leaves the array). *)
Fixpoint cstring (bs : bytes) : option string :=
  match bs with
  | [] => None
  | c :: bs => if decide (c = NUL) then Some EmptyString
               else s ← cstring bs; Some (String c s)
  end.

(** A string holds no NUL character: it is the value of some C string. *)
Definition no_nul (s : string) : Prop := Forall (fun c => c <> NUL) (list_ascii_of_string s).

(** The image of a string in an array of [n] bytes, terminator and zero
    padding included, cut to [n - 1] characters. *)
Definition carray (n : nat) (s : string) : bytes :=
  take (n - 1) (list_ascii_of_string s) ++
  replicate (n - length (take (n - 1) (list_ascii_of_string s))) NUL.

Lemma length_carray n s : (0 < n)%nat -> length (carray n s) = n.
Proof.
  intros Hn. unfold carray. rewrite length_app, length_replicate, length_take. lia.
Qed.

Lemma cstring_app (s : string) (bs : bytes) :
  no_nul s -> cstring (list_ascii_of_string s ++ NUL :: bs) = Some s.
Proof.
  unfold no_nul. induction s as [|c s IH]; simpl; [done|].
  intros [Hc Hs]%Forall_cons_iff. rewrite decide_False by done. by rewrite IH.
Qed.

Lemma cstring_carray n s tl :
  no_nul s -> (String.length s < n)%nat -> cstring (carray n s ++ tl) = Some s.
Proof.
  intros Hs Hl. unfold carray.
  assert (length (list_ascii_of_string s) = String.length s) as E.
  { clear. induction s; simpl; congruence. }
  rewrite take_ge by lia.
  destruct (n - length (list_ascii_of_string s))%nat eqn:En; [lia|].
  simpl. rewrite <- app_assoc. simpl. by apply cstring_app.
Qed.

(** ** Lists *)

Lemma singleton_lookup_eq {A} (a : A) n : n = 0%nat -> [a] !! n = Some a.
Proof. by intros ->. Qed.

Lemma singleton_lookup_ne {A} (a : A) n : n <> 0%nat -> [a] !! n = None.
Proof. by destruct n. Qed.

(** The element a search finds may change, as long as it still satisfies the
    predicate. *)
Lemma list_find_insert {A} (P : A -> Prop) `{!forall x, Decision (P x)} l i x y :
  list_find P l = Some (i, x) -> P y -> list_find P (<[i := y]> l) = Some (i, y).
Proof.
  intros (Hi & _ & Hno)%list_find_Some Hy. apply list_find_Some.
  split; [apply list_lookup_insert_eq; by eapply lookup_lt_Some|]. split; [done|].
  intros j z Hj Hlt. rewrite list_lookup_insert_ne in Hj by lia. by eapply Hno.
Qed.
