(* ===== verification/Monad.v ===== *)
(** * The effects of the C code

    A function of the library that reads or writes a global is a computation
    of the state-and-fault monad [M S A]: it is run in the state [S] of its
    component and ends with a value and the new state, or with a [fault], the
    ways in which the C code ends the process or leaves the language.
    [wp E m s Q] is the (total-correctness) weakest precondition: [m], run in
    [s], ends with a value and a state in [Q], or with a fault that [E]
    tolerates. *)

From S2P Require Import Prelude.
Open Scope Z_scope.

(** The mutexes of the library, named after the source's variables. *)
Inductive mutex :=
| raft_state_lock | election_timeout_lock | replica_lock        (* rft.c *)
| installing_xapp_snapshot_lock                                  (* rft.c *)
| raft_log_lock | server_log_lock                                (* log.c *)
| config_lock                                                    (* config.c *)
| xapp_snapshot_lock | raft_snapshot_lock                        (* snapshot.c *)
| xapp_in_progress_lock | raft_in_progress_lock                   (* snapshot.c *)
| ring_wlock | ring_rlock | ring_cond_lock.                       (* static/ringbuf.c *)

#[export] Instance mutex_eq_dec : EqDecision mutex.
Proof. solve_decision. Defined.

(** How a C computation ends when it does not return. *)
Inductive fault :=
| Exit                       (* exit( 1 ) after a fatal message *)
| AssertFail                 (* a failed assert( ) *)
| SelfDeadlock (m : mutex)   (* a thread locks a mutex it already holds *)
| NullDeref                  (* a NULL pointer is dereferenced *)
| OutOfBounds                (* an access outside an object *)
| UseAfterFree               (* an access to a freed object *)
| Uninitialised              (* a value is read that was never written *)
| OutOfFuel.                 (* a loop ran longer than its bound (never happens) *)

Inductive outcome (S A : Type) :=
| Ok (a : A) (s : S)
| Fault (f : fault).
Arguments Ok {S A} a s.
Arguments Fault {S A} f.

Definition M (S A : Type) : Type := S -> outcome S A.

#[export] Instance M_ret {S} : MRet (M S) := fun A a s => Ok a s.
#[export] Instance M_bind {S} : MBind (M S) := fun A B k m s =>
  match m s with
  | Ok a s' => k a s'
  | Fault f => Fault f
  end.

Section Primitives.
Context {S : Type}.

Definition get : M S S := fun s => Ok s s.
Definition gets {A} (f : S -> A) : M S A := fun s => Ok (f s) s.
Definition modify (f : S -> S) : M S unit := fun s => Ok tt (f s).
Definition fail {A} (f : fault) : M S A := fun _ => Fault f.
Definition exit1 {A} : M S A := fail Exit.

Definition assert (b : bool) : M S unit := if b then mret tt else fail AssertFail.

(** [from_opt f o]: the value of [o]; the fault [f] when there is none. *)
Definition from_opt {A} (f : fault) (o : option A) : M S A :=
  match o with Some a => mret a | None => fail f end.

Definition when (b : bool) (m : M S unit) : M S unit := if b then m else mret tt.

(** [for( i = i0; i < i0 + n; i++ ) body] *)
Fixpoint for_ (n i : nat) (body : nat -> M S unit) : M S unit :=
  match n with
  | O => mret tt
  | Datatypes.S n => body i;; for_ n (Datatypes.S i) body
  end.

(** The same loop left early with a value by a [return] or a [break]. *)
Fixpoint for_find {A} (n i : nat) (body : nat -> M S (option A)) : M S (option A) :=
  match n with
  | O => mret None
  | Datatypes.S n =>
      r ← body i;
      match r with
      | Some a => mret (Some a)
      | None => for_find n (Datatypes.S i) body
      end
  end.

End Primitives.

(** ** Components of a larger state *)

Record lens (S T : Type) := Lens { lget : S -> T; lput : T -> S -> S }.
Arguments Lens {S T} lget lput.
Arguments lget {S T} l s.
Arguments lput {S T} l t s.

(** [zoom L m] runs [m] on the part [L] of the state; the rest is unchanged. *)
Definition zoom {S T A} (L : lens S T) (m : M T A) : M S A := fun s =>
  match m (lget L s) with
  | Ok a t => Ok a (lput L t s)
  | Fault f => Fault f
  end.

Definition lens_comp {S T U} (L : lens S T) (K : lens T U) : lens S U :=
  Lens (fun s => lget K (lget L s)) (fun u s => lput L (lput K u (lget L s)) s).

(** A mutex is a flag, "held by the running thread". Locking a mutex the
    thread holds never returns: the source's mutexes are not recursive. *)
Definition lock {S} (m : mutex) (L : lens S bool) : M S unit := fun s =>
  if lget L s then Fault (SelfDeadlock m) else Ok tt (lput L true s).
Definition unlock {S} (L : lens S bool) : M S unit := modify (lput L false).

(** ** Weakest preconditions *)

Section Wp.
Context {S : Type} (E : fault -> Prop).

Definition wp {A} (m : M S A) (s : S) (Q : A -> S -> Prop) : Prop :=
  match m s with
  | Ok a s' => Q a s'
  | Fault f => E f
  end.

Lemma wp_mono {A} (m : M S A) s (Q R : A -> S -> Prop) :
  wp m s Q -> (forall a s', Q a s' -> R a s') -> wp m s R.
Proof. unfold wp. destruct (m s); auto. Qed.

Lemma wp_ret {A} (a : A) s Q : Q a s -> wp (mret a) s Q.
Proof. done. Qed.

Lemma wp_bind {A B} (m : M S A) (k : A -> M S B) s Q :
  wp m s (fun a s' => wp (k a) s' Q) -> wp (m ≫= k) s Q.
Proof. unfold wp, mbind, M_bind. by destruct (m s). Qed.

Lemma wp_bind_inv {A B} (m : M S A) (k : A -> M S B) s Q :
  wp (m ≫= k) s Q -> wp m s (fun a s' => wp (k a) s' Q).
Proof. unfold wp, mbind, M_bind. by destruct (m s). Qed.

Lemma wp_bind_assoc {A B D} (m : M S A) (f : A -> M S B) (g : B -> M S D) s Q :
  wp ((m ≫= f) ≫= g) s Q -> wp (m ≫= (fun a => f a ≫= g)) s Q.
Proof. unfold wp, mbind, M_bind. by destruct (m s). Qed.

Lemma wp_gets {A} (f : S -> A) s Q : Q (f s) s -> wp (gets f) s Q.
Proof. done. Qed.

Lemma wp_modify (f : S -> S) s (Q : unit -> S -> Prop) : Q tt (f s) -> wp (modify f) s Q.
Proof. done. Qed.

Lemma wp_fail {A} f s (Q : A -> S -> Prop) : E f -> wp (fail f) s Q.
Proof. done. Qed.

Lemma wp_from_opt {A} f (o : option A) s (Q : A -> S -> Prop) :
  match o with Some a => Q a s | None => E f end -> wp (from_opt f o) s Q.
Proof. by destruct o. Qed.

Lemma wp_assert b s (Q : unit -> S -> Prop) :
  b = true -> Q tt s -> wp (assert b) s Q.
Proof. by intros ->. Qed.

Lemma wp_lock m L s (Q : unit -> S -> Prop) :
  lget L s = false -> Q tt (lput L true s) -> wp (lock m L) s Q.
Proof. unfold wp, lock. by intros ->. Qed.

Lemma wp_unlock L s (Q : unit -> S -> Prop) : Q tt (lput L false s) -> wp (unlock L) s Q.
Proof. done. Qed.

(** Two facts about the same run. *)
Lemma wp_conj {A} (m : M S A) s (Q R : A -> S -> Prop) :
  wp m s Q -> wp m s R -> wp m s (fun a s' => Q a s' /\ R a s').
Proof. unfold wp. by destruct (m s). Qed.

(** A computation that is known to end in a value. *)
Lemma wp_eq {A} (m : M S A) s a s' (Q : A -> S -> Prop) :
  m s = Ok a s' -> Q a s' -> wp m s Q.
Proof. unfold wp. by intros ->. Qed.

Lemma wp_eq_inv {A} (m : M S A) s a s' (Q : A -> S -> Prop) :
  m s = Ok a s' -> wp m s Q -> Q a s'.
Proof. unfold wp. by intros ->. Qed.

End Wp.

Lemma wp_zoom {S T A} E (L : lens S T) (m : M T A) s Q :
  wp E m (lget L s) (fun a t => Q a (lput L t s)) -> wp E (zoom L m) s Q.
Proof. unfold wp, zoom. by destruct (m (lget L s)). Qed.

Lemma wp_fault_mono {S A} (E F : fault -> Prop) (m : M S A) s Q :
  (forall f, E f -> F f) -> wp E m s Q -> wp F m s Q.
Proof. unfold wp. destruct (m s); auto. Qed.

(** The two tolerances used by the theorems: no fault at all, and the
    deliberate [exit( 1 )] only. *)
Definition never (f : fault) : Prop := False.
Definition only_exit (f : fault) : Prop := f = Exit.

Lemma wp_never {S A} (m : M S A) s Q :
  wp never m s Q -> exists a s', m s = Ok a s' /\ Q a s'.
Proof. unfold wp. destruct (m s) as [a s'|f]; [by exists a, s'|done]. Qed.

Lemma never_wp {S A} E (m : M S A) s Q : wp never m s Q -> wp E m s Q.
Proof. apply wp_fault_mono. done. Qed.

(** Equations of the monad, for executable specifications. *)
Lemma bind_Ok {S A B} (m : M S A) (k : A -> M S B) s a s' :
  m s = Ok a s' -> (m ≫= k) s = k a s'.
Proof. unfold mbind, M_bind. by intros ->. Qed.

Lemma bind_Fault {S A B} (m : M S A) (k : A -> M S B) s f :
  m s = Fault f -> (m ≫= k) s = Fault f.
Proof. unfold mbind, M_bind. by intros ->. Qed.

Lemma zoom_Ok {S T A} (L : lens S T) (m : M T A) s a t :
  m (lget L s) = Ok a t -> zoom L m s = Ok a (lput L t s).
Proof. unfold zoom. by intros ->. Qed.

Lemma zoom_Fault {S T A} (L : lens S T) (m : M T A) s f :
  m (lget L s) = Fault f -> zoom L m s = Fault f.
Proof. unfold zoom. by intros ->. Qed.

(** [wp_step] runs one primitive of the program in the goal. *)
Ltac wp_step :=
  lazymatch goal with
  | |- wp _ (_ ≫= _) _ _ => apply wp_bind
  | |- wp _ (mbind _ _) _ _ => apply wp_bind
  | |- wp _ (mret _) _ _ => apply wp_ret
  | |- wp _ (gets _) _ _ => apply wp_gets
  | |- wp _ get _ _ => apply wp_ret
  | |- wp _ (modify _) _ _ => apply wp_modify
  | |- wp _ (unlock _) _ _ => apply wp_unlock
  | |- wp _ (zoom _ _) _ _ => apply wp_zoom
  | |- wp _ (when ?b _) _ _ => unfold when
  end.
Ltac wp_steps := repeat (wp_step; cbv beta).

#[export] Hint Resolve wp_ret wp_gets wp_modify : wp.

(** [mrun] unfolds the primitives of the monad, for goals that state the exact
    outcome of a short program. *)
Ltac mrun :=
  cbv [mbind M_bind mret M_ret get gets modify fail exit1 from_opt when assert zoom
       lock unlock]; cbv beta iota zeta.

(** ** Loops over the elements of a list *)

(** A search loop whose body reads element [i] of [l] and stops at the first
    one with [P] is [list_find]. *)
Lemma for_find_list_find {S A X} (P : X -> Prop) `{!forall x, Decision (P x)}
    (h : nat -> A) (l : list X) (body : nat -> M S (option A)) s k :
  (forall i x, l !! i = Some x ->
     body (k + i)%nat s = Ok (if decide (P x) then Some (h (k + i)%nat) else None) s) ->
  for_find (length l) k body s = Ok ((fun ix => h (k + fst ix)%nat) <$> list_find P l) s.
Proof.
  revert k. induction l as [|x l IH]; intros k Hb; [done|].
  cbn [length for_find list_find]. unfold mbind, M_bind.
  pose proof (Hb 0%nat x eq_refl) as H0. rewrite Nat.add_0_r in H0. rewrite H0.
  destruct (decide (P x)) as [HP|HP]; [simpl; by rewrite Nat.add_0_r|].
  rewrite (IH (Datatypes.S k)).
  - f_equal. destruct (list_find P l) as [[i y]|]; [|done]. simpl. do 2 f_equal. lia.
  - intros i y Hi. specialize (Hb (Datatypes.S i) y Hi).
    by replace (k + Datatypes.S i)%nat with (Datatypes.S k + i)%nat in Hb by lia.
Qed.

(** A loop over [l] keeps an invariant that every iteration keeps. *)
Lemma wp_for {S X} E (I : nat -> S -> Prop) (l : list X) (body : nat -> M S unit) s k (Q : unit -> S -> Prop) :
  I k s ->
  (forall i x s, l !! i = Some x -> I (k + i)%nat s ->
     wp E (body (k + i)%nat) s (fun _ s' => I (Datatypes.S (k + i)) s')) ->
  (forall s, I (k + length l)%nat s -> Q tt s) ->
  wp E (for_ (length l) k body) s Q.
Proof.
  revert s k. induction l as [|x l IH]; intros s k Hi Hb HQ.
  - change (Q tt s). apply HQ. simpl. replace (k + 0)%nat with k by lia. done.
  - cbn [length for_]. apply wp_bind.
    pose proof (Hb 0%nat x s eq_refl) as H0. rewrite Nat.add_0_r in H0.
    specialize (H0 Hi). eapply wp_mono; [exact H0|].
    intros [] s' Hs'. cbv beta. apply IH; [done|..].
    + intros i y s1 Hy H1. replace (Datatypes.S k + i)%nat with (k + Datatypes.S i)%nat in * by lia.
      by eapply Hb.
    + intros s1 H1. apply HQ. cbn [length].
      replace (k + Datatypes.S (length l))%nat with (Datatypes.S k + length l)%nat by lia. done.
Qed.
