(* ===== verification/Refine.v ===== *)
(** * Refinement of abstract data types

    A component offers operations, a specification says what each of them
    answers and does to an abstract value. [Refines] is the promise of one
    step, for the operations [ok] allows; [refines_all] extends it to every
    sequence of operations, which is what a client of the component relies on.
    The ring, the logs, the hash table, the configuration and the buffers are
    instances. *)

From S2P Require Import Prelude Monad.
Open Scope Z_scope.

Section Refine.
Context {Op Out S A : Type}.
Context (run : Op -> M S Out) (spec : Op -> A -> Out * A) (ok : Op -> A -> Prop).
Context (rep : S -> A -> Prop).

Class Refines := refines_step : forall op s a, rep s a -> ok op a ->
  exists s', run op s = Ok (spec op a).1 s' /\ rep s' (spec op a).2.

(** A sequence of operations, the answers in order. *)
Fixpoint run_all (ops : list Op) : M S (list Out) :=
  match ops with
  | [] => mret []
  | op :: ops => o ← run op; os ← run_all ops; mret (o :: os)
  end.

Fixpoint spec_all (ops : list Op) (a : A) : list Out * A :=
  match ops with
  | [] => ([], a)
  | op :: ops => let '(o, a) := spec op a in let '(os, a) := spec_all ops a in (o :: os, a)
  end.

Fixpoint ok_all (ops : list Op) (a : A) : Prop :=
  match ops with
  | [] => True
  | op :: ops => ok op a /\ ok_all ops (spec op a).2
  end.

Lemma refines_all `{Refines} ops s a :
  rep s a -> ok_all ops a ->
  exists s', run_all ops s = Ok (spec_all ops a).1 s' /\ rep s' (spec_all ops a).2.
Proof.
  revert s a. induction ops as [|op ops IH]; intros s a R Hok; [by exists s|].
  destruct Hok as [Ho Hok]. destruct (refines_step op s a R Ho) as (s1 & E1 & R1).
  destruct (IH s1 _ R1 Hok) as (s' & E' & R'). exists s'. cbn [run_all spec_all].
  rewrite (bind_Ok _ _ _ _ _ E1), (bind_Ok _ _ _ _ _ E').
  destruct (spec op a) as [o a1]. cbn in *. destruct (spec_all ops a1). done.
Qed.

End Refine.
