(* ===== verification/Typing.v ===== *)
(** * Types of the C data

    [typed] says that a piece of memory holds values of its C types: integers
    of the width of their fields, names that fit their arrays, enumerations
    among their constants. [ty m R]: a computation started in a typed state
    ends in a typed state with a result in [R], or with a fault. The rules
    below follow the structure of a program; nothing else about the state is
    assumed. *)

From S2P Require Import Prelude Monad.
Open Scope Z_scope.

Class Typed (A : Type) := typed : A -> Prop.

#[export] Instance typed_bool : Typed bool := fun _ => True.
#[export] Instance typed_unit : Typed unit := fun _ => True.
#[export] Instance typed_pair {A B} `{Typed A} `{Typed B} : Typed (A * B) :=
  fun p => typed p.1 /\ typed p.2.
#[export] Instance typed_option {A} `{Typed A} : Typed (option A) :=
  fun o => match o with Some a => typed a | None => True end.
Lemma typed_None {A} `{Typed A} : typed (None : option A).
Proof. done. Qed.
Lemma typed_Some {A} `{Typed A} (a : A) : typed a -> typed (Some a).
Proof. done. Qed.
#[export] Instance typed_list {A} `{Typed A} : Typed (list A) := Forall typed.

(** The proofs about the operations are found by this database. *)
Create HintDb typing discriminated.
#[export] Hint Constants Opaque : typing.
#[export] Hint Resolve typed_None typed_Some : typing.

Definition ty {S A} `{Typed S} (m : M S A) (R : A -> Prop) : Prop :=
  forall s, typed s -> match m s with Ok a s' => R a /\ typed s' | Fault _ => True end.

Notation anything := (fun _ => True).

Section Rules.
Context {S : Type} `{Typed S}.

Lemma ty_mono {A} (m : M S A) (R R' : A -> Prop) : ty m R -> (forall a, R a -> R' a) -> ty m R'.
Proof. intros Hm HR s Hs. specialize (Hm s Hs). destruct (m s) as [a s'|]; [|done]. naive_solver. Qed.

Lemma ty_any {A} (m : M S A) (R : A -> Prop) : ty m R -> ty m anything.
Proof. intros Hm. by eapply ty_mono. Qed.

Lemma ty_ret {A} (a : A) (R : A -> Prop) : R a -> ty (mret a : M S A) R.
Proof. by intros Ha s Hs. Qed.

Lemma ty_bind {A B} (m : M S A) (k : A -> M S B) (R : A -> Prop) (Q : B -> Prop) :
  ty m R -> (forall a, R a -> ty (k a) Q) -> ty (m ≫= k) Q.
Proof.
  intros Hm Hk s Hs. unfold mbind, M_bind. specialize (Hm s Hs). destruct (m s) as [a s'|]; [|done].
  destruct Hm as [Ha Hs']. by apply Hk.
Qed.

(** What is read from a typed state is known of the value. *)
Lemma ty_gets {A} (f : S -> A) : ty (gets f) (fun a => exists s, typed s /\ a = f s).
Proof. intros s Hs. split; [by exists s|done]. Qed.

Lemma ty_get : ty (get : M S S) typed.
Proof. by intros s Hs. Qed.

Lemma ty_modify (f : S -> S) : (forall s, typed s -> typed (f s)) -> ty (modify f) anything.
Proof. intros Hf s Hs. split; [done|by apply Hf]. Qed.

Lemma ty_fail {A} f (R : A -> Prop) : ty (fail f : M S A) R.
Proof. done. Qed.

Lemma ty_from_opt {A} f (o : option A) (R : A -> Prop) :
  (forall a, o = Some a -> R a) -> ty (from_opt f o : M S A) R.
Proof. intros Ho s Hs. destruct o; [|done]. split; [by apply Ho|done]. Qed.

Lemma ty_assert b : ty (assert b : M S unit) (fun _ => b = true).
Proof. by destruct b. Qed.

Lemma ty_when b (m : M S unit) : (b = true -> ty m anything) -> ty (when b m) anything.
Proof. destruct b; [intros Hm; by apply Hm|]. by intros _ s Hs. Qed.

Lemma ty_for n i (body : nat -> M S unit) :
  (forall j, ty (body j) anything) -> ty (for_ n i body) anything.
Proof.
  intros Hb. revert i. induction n as [|n IH]; intros i; [by apply ty_ret|].
  eapply ty_bind; [apply Hb|]. intros _ _. apply IH.
Qed.

Lemma ty_for_find {A} n i (body : nat -> M S (option A)) (R : option A -> Prop) :
  R None -> (forall j, ty (body j) R) -> ty (for_find n i body) R.
Proof.
  intros H0 Hb. revert i. induction n as [|n IH]; intros i; [by apply ty_ret|].
  eapply ty_bind; [apply Hb|]. intros [a|] Ha; [by apply ty_ret|apply IH].
Qed.

(** A part of the memory that may change within its type. *)
Class TypedLens {T} `{Typed T} (L : lens S T) := {
  typed_get : forall s, typed s -> typed (lget L s);
  typed_put : forall t s, typed s -> typed t -> typed (lput L t s) }.

Lemma ty_zoom {T A} `{Typed T} (L : lens S T) `{!TypedLens L} (m : M T A) R : ty m R -> ty (zoom L m) R.
Proof.
  intros Hm s Hs. unfold zoom. specialize (Hm (lget L s) (typed_get s Hs)).
  destruct (m (lget L s)) as [a t|]; [|done]. destruct Hm as [Ha Ht]. split; [done|by apply typed_put].
Qed.

Lemma ty_lock m (L : lens S bool) `{!TypedLens L} : ty (lock m L) anything.
Proof. intros s Hs. unfold lock. destruct (lget L s); [done|]. split; [done|by apply typed_put]. Qed.

Lemma ty_unlock (L : lens S bool) `{!TypedLens L} : ty (unlock L) anything.
Proof. apply ty_modify. intros s Hs. by apply typed_put. Qed.

End Rules.

#[export] Hint Extern 0 (TypedLens _) => (apply _) : typing.
#[export] Hint Extern 2 (ty (zoom _ _) _) => (apply ty_zoom; [apply _|]) : typing.

(** One rule for the head of the program. [ty_go] follows the program as far as
    the rules and the database lead; it leaves the side conditions. *)
Ltac ty_step :=
  lazymatch goal with
  | |- ty (mret _) _ => apply ty_ret
  | |- ty (_ ≫= _) _ =>
      let H := fresh "H" in
      first [ eapply ty_bind; [solve [eauto with typing nocore]|intros ? H; cbv beta in H]
            | eapply ty_bind; [ty_head|intros ? H; cbv beta in H]
            | eapply ty_bind with (R := anything); [|intros ? _] ]
  | |- ty (gets _) _ => eapply ty_mono; [apply ty_gets|]; intros ? (? & ? & ->)
  | |- ty get _ => eapply ty_mono; [apply ty_get|]; intros ? ?
  | |- ty (modify _) _ => eapply ty_mono; [apply ty_modify; intros ? ?|intros ? _]
  | |- ty (from_opt _ _) _ => apply ty_from_opt; intros ? ?
  | |- ty (fail _) _ => apply ty_fail
  | |- ty exit1 _ => apply ty_fail
  | |- ty (zoom _ _) _ =>
      first [ eapply ty_mono; [solve [eauto with typing nocore]|]; intros ? ? | apply ty_zoom; try apply _ ]
  | |- ty (lock _ _) _ => eapply ty_mono; [apply ty_lock; apply _|intros ? _]
  | |- ty (unlock _) _ => eapply ty_mono; [apply ty_unlock; apply _|intros ? _]
  | |- ty (when _ _) _ => eapply ty_mono; [apply ty_when; intros ?|intros ? _]
  | |- ty (for_ _ _ _) _ => eapply ty_mono; [apply ty_for; intros ?|intros ? _]
  | |- ty (match ?x with _ => _ end) _ => destruct x eqn:?
  | |- ty _ _ => eapply ty_mono; [solve [eauto with typing nocore]|]; intros ? ?
  end
with ty_head :=
  lazymatch goal with
  | |- ty (gets _) _ => apply ty_gets
  | |- ty get _ => apply ty_get
  | |- ty (modify _) _ => apply ty_modify; intros ? ?
  | |- ty (from_opt _ ?o) _ => refine (ty_from_opt _ o (fun a => o = Some a) _); intros ? ?; assumption
  | |- ty (assert _) _ => apply ty_assert
  | |- ty (lock _ _) _ => apply ty_lock; apply _
  | |- ty (unlock _) _ => apply ty_unlock; apply _
  | |- ty (when _ _) _ => apply ty_when; intros ?
  | |- ty (for_ _ _ _) _ => apply ty_for; intros ?
  | |- ty (mret ?a) _ => apply (ty_ret a (fun x => x = a) eq_refl)
  | |- ty (zoom _ _) _ => apply ty_zoom; first [apply _ | solve [eauto with typing nocore] | ty_head]
  | |- ty (fail _) _ => apply ty_fail
  end.
