(* ===== verification/Types.v ===== *)
(** * The data types of include/types.h, include/rft.h and include/rft_private.h

    One record per structure of the source, one field per field, with a short
    prefix that keeps the field names apart. Enumerations and flags are the
    integers the compiler uses, since the code also stores values it received
    from the network in them. Fixed arrays that hold NUL-terminated strings
    are strings; pointers to character data are byte lists; a pointer that may
    be NULL is an option. *)

From S2P Require Import Prelude Monad.
Open Scope Z_scope.

(** RMR's header is not part of the repository: the size of its source-address
    buffer is a parameter, documented there to leave room for a name and its
    terminator. *)
Class Rmr := { RMR_MAX_SRC : nat; RMR_MAX_SRC_pos : (1 < RMR_MAX_SRC)%nat }.

Definition rmr_64 : Rmr := {| RMR_MAX_SRC := 64; RMR_MAX_SRC_pos := ltac:(lia) |}.

Notation server_id_t := string (only parsing).
Notation target_t := string (only parsing).
Notation term_t := Z (only parsing).
Notation index_t := Z (only parsing).

(** The value [memccpy( dst, src, '\0', n )] followed by [dst[n] = '\0'] leaves
    in [dst], for an array of [n + 1] characters. *)
Fixpoint str_cut (n : nat) (s : string) : string :=
  match n, s with
  | S n, String c s => String c (str_cut n s)
  | _, _ => EmptyString
  end.

Lemma str_cut_id n s : (String.length s <= n)%nat -> str_cut n s = s.
Proof.
  revert n. induction s as [|c s IH]; intros [|n] H; simpl in *; try done; [lia|].
  rewrite IH; [done|lia].
Qed.

Lemma str_cut_length n s : (String.length (str_cut n s) <= n)%nat.
Proof. revert s. induction n as [|n IH]; intros [|c s]; cbn; try lia. specialize (IH s). lia. Qed.

(** ** Enumerations *)

(** [term_match_e] *)
Inductive term_match_e := E_OUTDATED_MSG | E_TERMS_MATCH | E_OUTDATED_TERM.
#[export] Instance term_match_eq_dec : EqDecision term_match_e.
Proof. solve_decision. Defined.

(** [raft_voting_member_e] *)
Definition NON_VOTING_MEMBER : Z := 0.
Definition VOTING_MEMBER : Z := 1.

(** [log_type_e] *)
Definition RAFT_LOG : Z := 0.
Definition SERVER_LOG : Z := 1.

(** [log_entry_type_e] *)
Definition RAFT_CONFIG : Z := 0.
Definition RAFT_COMMAND : Z := 1.
Definition RAFT_NOOP : Z := 2.
Definition SERVER_COMMAND : Z := 3.

(** [raft_config_cmd_e] *)
Definition ADD_MEMBER : Z := 0.
Definition DEL_MEMBER : Z := 1.

(** [server_active_status_e] *)
Inductive server_active_status_e := SHUTDOWN | RUNNING.
#[export] Instance active_eq_dec : EqDecision server_active_status_e.
Proof. solve_decision. Defined.

(** [replication_type_e] *)
Inductive replication_type_e := GLOBAL | PARTIAL.
#[export] Instance replication_type_eq_dec : EqDecision replication_type_e.
Proof. solve_decision. Defined.

(** The server states of rft_private.h *)
Inductive role := INIT_SERVER | FOLLOWER | CANDIDATE | LEADER.
#[export] Instance role_eq_dec : EqDecision role.
Proof. solve_decision. Defined.

(** [role_e] of rft.h *)
Definition RFT_NONE : Z := 0.
Definition RFT_PRIMARY : Z := 1.
Definition RFT_BACKUP : Z := 2.

(** errno values the library sets *)
Inductive errno_t := ENONE | EINVAL | ENOMEM | ENODATA | ENOBUFS.
#[export] Instance errno_eq_dec : EqDecision errno_t.
Proof. solve_decision. Defined.

(** ** Structures *)

Record timespec := Timespec { tv_sec : Z; tv_nsec : Z }.

(** [raft_state_t] *)
Record raft_state_t := RaftState {
  m_state : role;
  m_current_term : term_t;
  m_rcv_votes : Z;
  m_self_id : server_id_t;
  m_voted_for : server_id_t;
  m_current_leader : server_id_t;
  m_commit_index : index_t;
  m_last_applied : index_t }.

(** [server_t]; the condition variables, the thread id and the wormhole id are
    handles of the thread and messaging libraries and are left out. *)
Record server_t := Server {
  s_server_id : server_id_t;
  s_target : target_t;
  s_status : Z;
  s_voted_for_me : Z;
  s_next_index : index_t;
  s_match_index : index_t;
  s_active : server_active_status_e;
  s_replied_ts : timespec;
  s_hb_timeouts : Z;
  s_replica_index : index_t;
  s_master_index : index_t }.

(** Servers are heap objects shared by the configuration, the replica list and
    their threads. *)
Notation loc := positive.

(** [raft_config_t] *)
Record raft_config_t := RaftConfig {
  c_size : Z;
  c_voting_members : Z;
  c_is_changing : Z;
  c_servers : list loc }.

(** [server_conf_cmd_data_t] *)
Record server_conf_cmd_data_t := ConfCmd { cc_server_id : server_id_t; cc_target : target_t }.

(** [log_entry_t]. Fields the source leaves uninitialised are 0 here; no code
    reads them before they are set. *)
Record log_entry_t := LogEntry {
  e_term : term_t;
  e_index : index_t;
  e_dlen : Z;
  e_clen : Z;
  e_klen : Z;
  e_type : Z;
  e_command : Z;
  e_context : option string;
  e_key : option string;
  e_data : bytes }.

(** [sizeof(log_entry_t)] on an LP64 target: three 8-byte integers, four 4-byte
    ones and three pointers. *)
Definition sizeof_log_entry : Z := 64.

(** What an entry adds to the [memsize] of its log. *)
Definition entry_size (e : log_entry_t) : Z :=
  sizeof_log_entry + e_dlen e + e_clen e + e_klen e.

Definition set_index (i : index_t) (e : log_entry_t) : log_entry_t :=
  LogEntry (e_term e) i (e_dlen e) (e_clen e) (e_klen e) (e_type e) (e_command e)
    (e_context e) (e_key e) (e_data e).

(** [request_append_entries_t] and [reply_append_entries_t] *)
Record request_append_entries_t := ReqAppend {
  ra_term : term_t;
  ra_leader_id : server_id_t;
  ra_prev_log_index : index_t;
  ra_prev_log_term : term_t;
  ra_leader_commit : index_t;
  ra_n_entries : Z;
  ra_entries : list log_entry_t }.

Record reply_append_entries_t := RepAppend {
  pa_term : term_t;
  pa_last_log_index : index_t;
  pa_success : Z;
  pa_server_id : server_id_t }.

(** [replication_request_t] and [replication_reply_t] *)
Record replication_request_t := ReqRepl {
  rr_master_index : index_t;
  rr_server_id : server_id_t;
  rr_n_entries : Z;
  rr_entries : list log_entry_t }.

Record replication_reply_t := RepRepl {
  pr_success : Z;
  pr_replica_index : index_t;
  pr_server_id : server_id_t }.

(** [request_vote_t] and [reply_vote_t] *)
Record request_vote_t := ReqVote {
  rv_term : term_t;
  rv_last_log_index : index_t;
  rv_last_log_term : term_t;
  rv_candidate_id : server_id_t }.

Record reply_vote_t := RepVote {
  pv_term : term_t;
  pv_granted : Z;
  pv_voter : server_id_t }.

(** [membership_request_t] *)
Record membership_request_t := ReqMember {
  mr_last_log_index : index_t;
  mr_server_id : server_id_t }.

(** [xapp_snapshot_t] and [raft_snapshot_t]; [data] is NULL until a snapshot exists. *)
Record xapp_snapshot_t := XappSnapshot {
  xs_last_index : index_t;
  xs_dlen : Z;
  xs_items : Z;
  xs_data : option bytes }.

Record raft_snapshot_t := RaftSnapshot {
  rs_last_term : term_t;
  rs_last_index : index_t;
  rs_dlen : Z;
  rs_items : Z;
  rs_data : option bytes }.

(** The snapshot requests and replies *)
Record xapp_snapshot_request_t := ReqXsnap {
  xq_server_id : server_id_t;
  xq_snapshot : xapp_snapshot_t }.

Record xapp_snapshot_reply_t := RepXsnap {
  xp_success : Z;
  xp_last_index : index_t;
  xp_server_id : server_id_t }.

Record raft_snapshot_request_t := ReqRsnap {
  rq_term : term_t;
  rq_leader_id : server_id_t;
  rq_snapshot : raft_snapshot_t }.

Record raft_snapshot_reply_t := RepRsnap {
  rp_success : Z;
  rp_term : term_t;
  rp_last_index : index_t;
  rp_server_id : server_id_t }.

(** ** Commands of configuration entries

    [(server_conf_cmd_data_t * ) entry->data]: two character arrays in a row,
    read through the cast; [None] when the bytes do not hold them. *)
Section ConfCmd.
Context `{Rmr}.

Definition sizeof_server_id : nat := RMR_MAX_SRC.
Definition sizeof_target : nat := RMR_MAX_SRC + 6.
Definition sizeof_conf_cmd : nat := sizeof_server_id + sizeof_target.

Definition cmd_of_bytes (bs : bytes) : option server_conf_cmd_data_t :=
  id_bs ← sub_bytes 0 sizeof_server_id bs;
  tg_bs ← sub_bytes sizeof_server_id sizeof_target bs;
  id ← cstring id_bs;
  tg ← cstring tg_bs;
  Some (ConfCmd id tg).

Definition bytes_of_cmd (c : server_conf_cmd_data_t) : bytes :=
  carray sizeof_server_id (cc_server_id c) ++ carray sizeof_target (cc_target c).

(** A string that fits an array of [n] characters with its terminator. *)
Definition fits (n : nat) (s : string) : Prop := no_nul s /\ (String.length s < n)%nat.

Lemma cmd_of_bytes_of_cmd c :
  fits sizeof_server_id (cc_server_id c) -> fits sizeof_target (cc_target c) ->
  cmd_of_bytes (bytes_of_cmd c) = Some c.
Proof.
  intros [Hi Hil] [Ht Htl]. unfold cmd_of_bytes, bytes_of_cmd.
  pose proof RMR_MAX_SRC_pos.
  assert (length (carray sizeof_server_id (cc_server_id c)) = sizeof_server_id) as Li
    by (apply length_carray; unfold sizeof_server_id; lia).
  assert (length (carray sizeof_target (cc_target c)) = sizeof_target) as Lt
    by (apply length_carray; unfold sizeof_target; lia).
  rewrite sub_bytes_app_l by done. simpl.
  rewrite <- Li at 1. rewrite sub_bytes_app_r by done. simpl.
  rewrite <- (app_nil_r (carray sizeof_server_id _)), cstring_carray by done. simpl.
  rewrite <- (app_nil_r (carray sizeof_target _)), cstring_carray by done. simpl.
  by destruct c.
Qed.

End ConfCmd.
