(* ===== verification/LogRing.v ===== *)
(** * The ring of log entries (src/static/logring.c)

    [logring] is [logring_t]: a circular array of entry pointers with 32-bit
    [head] and [tail] indices kept below the (power of two) size. [ring_rep r l]
    says that the ring holds exactly the entries [l], oldest first, and NULL
    everywhere else; the theorems show that every operation does to [l] what
    its comment promises: insertion at the end, extraction at either end,
    lookup by log index. *)

From S2P Require Import Prelude Monad Types.
Open Scope Z_scope.

Record logring := LogRing {
  r_head : Z;
  r_tail : Z;
  r_size : Z;
  r_mask : Z;
  r_data : list (option log_entry_t) }.

(** ** Operations *)

(** [malloc_ring] and [malloc_data] tell whether the two allocations succeed. *)
Definition log_ring_create (malloc_ring malloc_data : bool) (size : Z) : errno_t + logring :=
  if size =? 0 then inl EINVAL else
  let size := if size <? 16 then 16 else size in
  if negb (Z.land size (u32 (size - 1)) =? 0) then inl EINVAL else
  if negb malloc_ring then inl ENOMEM else
  if negb malloc_data then inl ENOMEM else
  inr (LogRing 0 0 size (u32 (size - 1)) (replicate (Z.to_nat size) None)).

Definition log_ring_size (r : logring) : Z := r_mask r.

Definition log_ring_count (r : logring) : Z :=
  Z.land (u32 (r_head r - r_tail r)) (r_mask r).

(** [ring->data[i]] and [ring->data[i] = p] *)
Definition data_rd (i : Z) : M logring (option log_entry_t) :=
  d ← gets r_data; from_opt OutOfBounds (d !! Z.to_nat i).

Definition data_wr (i : Z) (p : option log_entry_t) : M logring unit := fun r =>
  if decide (Z.to_nat i < length (r_data r))%nat
  then Ok tt (LogRing (r_head r) (r_tail r) (r_size r) (r_mask r)
                (<[Z.to_nat i := p]> (r_data r)))
  else Fault OutOfBounds.

Definition set_head (h : Z) : M logring unit :=
  modify (fun r => LogRing h (r_tail r) (r_size r) (r_mask r) (r_data r)).
Definition set_tail (t : Z) : M logring unit :=
  modify (fun r => LogRing (r_head r) t (r_size r) (r_mask r) (r_data r)).

Definition log_ring_insert (entry : log_entry_t) : M logring Z :=
  r ← get;
  let next := Z.land (u32 (r_head r + 1)) (r_mask r) in
  if negb (next =? r_tail r) then
    data_wr (r_head r) (Some entry);;
    set_head next;;
    mret 1
  else mret 0.

Definition log_ring_extract : M logring (option log_entry_t) :=
  r ← get;
  if negb (r_tail r =? r_head r) then
    ptr ← data_rd (r_tail r);
    data_wr (r_tail r) None;;
    set_tail (Z.land (u32 (r_tail r + 1)) (r_mask r));;
    mret ptr
  else mret None.

Definition log_ring_extract_r : M logring (option log_entry_t) :=
  r ← get;
  if negb (r_tail r =? r_head r) then
    let h := Z.land (u32 (r_head r - 1)) (r_mask r) in
    set_head h;;
    ptr ← data_rd h;
    data_wr h None;;
    mret ptr
  else mret None.

(** [log_index], [tidx], [hidx] and [offset] are 64-bit; [tail + offset] is
    computed in 64 bits before the mask. *)
Definition log_ring_get (log_index : index_t) : M logring (option log_entry_t) :=
  r ← get;
  p ← data_rd (r_tail r);
  match p with
  | None => mret None
  | Some t =>
      let tidx := e_index t in
      q ← data_rd (Z.land (u32 (r_head r - 1)) (r_mask r));
      h ← from_opt NullDeref q;
      let hidx := e_index h in
      if (tidx <=? log_index) && (log_index <=? hidx) then
        let offset := u64 (log_index - tidx) in
        data_rd (Z.land (u64 (r_tail r + offset)) (r_mask r))
      else mret None
  end.

(** ** Representation *)

(** Projections of explicit rings. *)
Ltac ring_simpl := cbn [r_data r_head r_tail r_size r_mask].

Record ring_wf (r : logring) : Prop := {
  wf_size : exists k, 4 <= k <= 31 /\ r_size r = 2 ^ k;
  wf_mask : r_mask r = r_size r - 1;
  wf_data : length (r_data r) = Z.to_nat (r_size r);
  wf_head : 0 <= r_head r < r_size r;
  wf_tail : 0 <= r_tail r < r_size r }.

(** Slot [j] of a ring that holds [l]. *)
Definition slot (r : logring) (l : list log_entry_t) (j : Z) : option log_entry_t :=
  l !! Z.to_nat ((j - r_tail r) mod r_size r).

Record ring_rep (r : logring) (l : list log_entry_t) : Prop := {
  rep_wf : ring_wf r;
  rep_len : Z.of_nat (length l) = (r_head r - r_tail r) mod r_size r;
  rep_data : forall j, 0 <= j < r_size r -> r_data r !! Z.to_nat j = Some (slot r l j) }.

Lemma ring_size_bounds r : ring_wf r -> 16 <= r_size r <= 2 ^ 31.
Proof.
  intros [(k & Hk & ->) _ _ _ _]. split.
  - change 16 with (2 ^ 4). apply Z.pow_le_mono_r; lia.
  - apply Z.pow_le_mono_r; lia.
Qed.

(** The mask of a well-formed ring is reduction modulo its size. *)
Lemma ring_mask r a : ring_wf r -> Z.land a (r_mask r) = a mod r_size r.
Proof.
  intros [(k & Hk & Hs) Hm _ _ _]. rewrite Hm, Hs. apply land_mask. lia.
Qed.

Lemma mask_u32 r a : ring_wf r -> Z.land (u32 a) (r_mask r) = a mod r_size r.
Proof.
  intros H. rewrite ring_mask by done. destruct H as [(k & Hk & ->) _ _ _ _].
  apply mod_pow_mod. lia.
Qed.

Lemma mask_u64 r a : ring_wf r -> Z.land (u64 a) (r_mask r) = a mod r_size r.
Proof.
  intros H. rewrite ring_mask by done. destruct H as [(k & Hk & ->) _ _ _ _].
  apply mod_pow_mod. lia.
Qed.

Lemma ring_rep_length r l : ring_rep r l -> Z.of_nat (length l) < r_size r.
Proof.
  intros [W L _]. pose proof (ring_size_bounds r W).
  rewrite L. apply Z.mod_pos_bound. lia.
Qed.

Lemma data_rd_rep r l j :
  ring_rep r l -> 0 <= j < r_size r -> data_rd j r = Ok (slot r l j) r.
Proof.
  intros R Hj. unfold data_rd. mrun. by rewrite (rep_data r l R j Hj).
Qed.

Lemma data_wr_ok r j p :
  ring_wf r -> 0 <= j < r_size r ->
  data_wr j p r = Ok tt (LogRing (r_head r) (r_tail r) (r_size r) (r_mask r)
                           (<[Z.to_nat j := p]> (r_data r))).
Proof.
  intros W Hj. unfold data_wr. rewrite decide_True; [done|].
  rewrite (wf_data r W). lia.
Qed.

(** The slots of the array after one write. *)
Lemma lookup_wr (d : list (option log_entry_t)) i j p :
  0 <= i -> 0 <= j -> (Z.to_nat i < length d)%nat ->
  <[Z.to_nat i := p]> d !! Z.to_nat j = if i =? j then Some p else d !! Z.to_nat j.
Proof.
  intros Hi Hj Hl. destruct (Z.eqb_spec i j) as [->|Hne].
  - by apply list_lookup_insert_eq.
  - apply list_lookup_insert_ne. lia.
Qed.

(** The head of a ring is [length l] slots after its tail. *)
Lemma rep_head r l : ring_rep r l ->
  r_head r = (r_tail r + Z.of_nat (length l)) mod r_size r.
Proof.
  intros [W L _]. rewrite L. pose proof (ring_size_bounds r W).
  rewrite Z.add_mod_idemp_r by lia.
  replace (r_tail r + (r_head r - r_tail r)) with (r_head r) by lia.
  symmetry. apply Z.mod_small, (wf_head r W).
Qed.

(** Only [length l] slots are in use, those from the tail on. *)
Lemma slot_lookup r l j :
  ring_wf r -> 0 <= j < r_size r ->
  slot r l j = l !! Z.to_nat (if j <? r_tail r then j - r_tail r + r_size r else j - r_tail r).
Proof. intros W Hj. unfold slot. by rewrite mod_diff by (done || apply W). Qed.

Lemma rep_len_cases r l : ring_rep r l ->
  Z.of_nat (length l) =
    if r_head r <? r_tail r then r_head r - r_tail r + r_size r else r_head r - r_tail r.
Proof. intros [W L _]. rewrite L. apply mod_diff; apply W. Qed.

(** ** What the operations do to the represented entries *)

Lemma log_ring_count_rep r l :
  ring_rep r l -> log_ring_count r = Z.of_nat (length l).
Proof.
  intros R. unfold log_ring_count. rewrite mask_u32 by apply R. symmetry. apply R.
Qed.

Lemma log_ring_size_rep r l :
  ring_rep r l -> log_ring_size r = r_size r - 1.
Proof. intros R. apply (wf_mask _ (rep_wf _ _ R)). Qed.

Lemma insert_room r l e :
  ring_rep r l -> Z.of_nat (length l) < log_ring_size r ->
  exists r', log_ring_insert e r = Ok 1 r' /\ ring_rep r' (l ++ [e]) /\
    r_size r' = r_size r.
Proof.
  intros R Hroom. rewrite (log_ring_size_rep r l R) in Hroom.
  pose proof (rep_wf _ _ R) as W. pose proof (ring_size_bounds r W) as Hs.
  pose proof (rep_len_cases r l R) as L.
  pose proof (wf_head r W) as Hh. pose proof (wf_tail r W) as Ht.
  unfold log_ring_insert. mrun. rewrite mask_u32, mod_succ by done.
  destruct (Z.eqb_spec (if r_head r + 1 =? r_size r then 0 else r_head r + 1) (r_tail r));
    [zcases; lia|]. cbn [negb].
  rewrite data_wr_ok by done. unfold set_head. mrun. eexists. split; [reflexivity|]. split; [|done].
  split; ring_simpl.
  - destruct W. split; ring_simpl; rewrite ?length_insert; try done. zcases; lia.
  - rewrite length_app, Nat2Z.inj_add, L. simpl. rewrite mod_diff by (zcases; lia).
    zcases; lia.
  - intros j Hj. rewrite lookup_wr by (rewrite ?(wf_data r W); lia).
    rewrite (rep_data r l R j Hj), slot_lookup by done.
    unfold slot; cbn [r_tail r_size]. rewrite mod_diff by lia. rewrite lookup_app.
    destruct (Z.eqb_spec (r_head r) j) as [<-|Hne].
    + rewrite lookup_ge_None_2 by (zcases; lia). f_equal. symmetry.
      apply singleton_lookup_eq. zcases; lia.
    + destruct (l !! _) eqn:El; [done|]. apply lookup_ge_None in El.
      f_equal. symmetry. apply singleton_lookup_ne. zcases; lia.
Qed.

Lemma insert_full r l e :
  ring_rep r l -> Z.of_nat (length l) = log_ring_size r -> log_ring_insert e r = Ok 0 r.
Proof.
  intros R Hfull. rewrite (log_ring_size_rep r l R) in Hfull.
  pose proof (rep_wf _ _ R) as W. pose proof (rep_len_cases r l R) as L.
  pose proof (wf_head r W) as Hh. pose proof (wf_tail r W) as Ht.
  unfold log_ring_insert. mrun. rewrite mask_u32, mod_succ by done.
  destruct (Z.eqb_spec (if r_head r + 1 =? r_size r then 0 else r_head r + 1) (r_tail r));
    [done|]. zcases; lia.
Qed.

(** An empty ring answers NULL and is unchanged. *)
Lemma extract_empty r : ring_rep r [] ->
  log_ring_extract r = Ok None r /\ log_ring_extract_r r = Ok None r.
Proof.
  intros R. pose proof (rep_len_cases r [] R) as L.
  pose proof (wf_head r (rep_wf _ _ R)). pose proof (wf_tail r (rep_wf _ _ R)).
  unfold log_ring_extract, log_ring_extract_r. mrun. cbn in L.
  destruct (Z.eqb_spec (r_tail r) (r_head r)); [done|]. zcases; lia.
Qed.

Lemma nonempty_indices r e l :
  ring_rep r (e :: l) -> (r_tail r =? r_head r) = false.
Proof.
  intros R. pose proof (rep_len_cases r _ R) as L. cbn in L.
  pose proof (ring_size_bounds r (rep_wf _ _ R)). zcases; lia.
Qed.

(** The oldest entry leaves the ring first (FIFO). *)
Lemma extract_oldest r e l :
  ring_rep r (e :: l) ->
  exists r', log_ring_extract r = Ok (Some e) r' /\ ring_rep r' l /\ r_size r' = r_size r.
Proof.
  intros R. pose proof (rep_wf _ _ R) as W. pose proof (ring_size_bounds r W) as Hs.
  pose proof (rep_len_cases r _ R) as L. cbn in L.
  pose proof (wf_head r W) as Hh. pose proof (wf_tail r W) as Ht.
  unfold log_ring_extract. mrun. rewrite (nonempty_indices r e l R). cbn [negb].
  rewrite (data_rd_rep r _ _ R) by done.
  rewrite data_wr_ok by done. unfold set_tail. mrun.
  assert (slot r (e :: l) (r_tail r) = Some e) as ->.
  { unfold slot. by rewrite Z.sub_diag, Z.mod_0_l by lia. }
  rewrite mask_u32, mod_succ by done.
  eexists. split; [reflexivity|]. split; [|done]. split; ring_simpl.
  - destruct W. split; ring_simpl; rewrite ?length_insert; try done. zcases; lia.
  - rewrite mod_diff by (zcases; lia). zcases; lia.
  - intros j Hj. rewrite lookup_wr by (rewrite ?(wf_data r W); lia).
    rewrite (rep_data r _ R j Hj), slot_lookup by done.
    unfold slot; cbn [r_tail r_size]. rewrite mod_diff by (zcases; lia).
    destruct (Z.eqb_spec (r_tail r) j) as [<-|Hne].
    + f_equal. symmetry. apply lookup_ge_None_2. zcases; lia.
    + f_equal.
      replace (Z.to_nat (if j <? r_tail r then j - r_tail r + r_size r else j - r_tail r))
        with (S (Z.to_nat (if j <? (if r_tail r + 1 =? r_size r then 0 else r_tail r + 1)
          then j - (if r_tail r + 1 =? r_size r then 0 else r_tail r + 1) + r_size r
          else j - (if r_tail r + 1 =? r_size r then 0 else r_tail r + 1)))); [done|].
      zcases; lia.
Qed.

(** The newest entry leaves the ring first (LIFO). *)
Lemma extract_newest r l e :
  ring_rep r (l ++ [e]) ->
  exists r', log_ring_extract_r r = Ok (Some e) r' /\ ring_rep r' l /\ r_size r' = r_size r.
Proof.
  intros R. pose proof (rep_wf _ _ R) as W. pose proof (ring_size_bounds r W) as Hs.
  pose proof (rep_len_cases r _ R) as L. rewrite length_app in L. cbn in L.
  pose proof (wf_head r W) as Hh. pose proof (wf_tail r W) as Ht.
  unfold log_ring_extract_r. mrun.
  assert ((r_tail r =? r_head r) = false) as -> by (zcases; lia). cbn [negb].
  rewrite mask_u32, mod_pred by done.
  set (h := if r_head r =? 0 then r_size r - 1 else r_head r - 1).
  assert (0 <= h < r_size r) as Hhr by (unfold h; zcases; lia).
  unfold data_rd, set_head, data_wr. mrun. ring_simpl.
  rewrite (rep_data r _ R h Hhr), slot_lookup by done.
  ring_simpl.
  rewrite decide_True by (rewrite (wf_data r W); lia).
  assert ((l ++ [e]) !! Z.to_nat (if h <? r_tail r then h - r_tail r + r_size r
            else h - r_tail r) = Some e) as ->.
  { rewrite lookup_app_r by (unfold h; zcases; lia).
    apply singleton_lookup_eq. unfold h in *; zcases; lia. }
  eexists. split; [reflexivity|]. split; [|done]. split; ring_simpl.
  - destruct W. split; ring_simpl; rewrite ?length_insert; done.
  - rewrite mod_diff by done. unfold h; zcases; lia.
  - intros j Hj. rewrite lookup_wr by (rewrite ?(wf_data r W); lia).
    rewrite (rep_data r _ R j Hj), slot_lookup by done.
    unfold slot; cbn [r_tail r_size]. rewrite mod_diff by done. rewrite lookup_app.
    destruct (Z.eqb_spec h j) as [<-|Hne].
    + f_equal. symmetry. apply lookup_ge_None_2. unfold h; zcases; lia.
    + destruct (l !! _) eqn:El; [done|]. apply lookup_ge_None in El.
      f_equal. apply singleton_lookup_ne. unfold h in *; zcases; lia.
Qed.

(** Entries that carry consecutive log indices, the first one [i]. *)
Definition contiguous (i : index_t) (l : list log_entry_t) : Prop :=
  forall k e, l !! k = Some e -> e_index e = i + Z.of_nat k.

(** The entry with log index [idx] in a log whose first index is [i]. *)
Definition log_lookup (i : index_t) (l : list log_entry_t) (idx : index_t)
  : option log_entry_t :=
  if i <=? idx then l !! Z.to_nat (idx - i) else None.

Lemma contiguous_app i l e :
  contiguous i l -> e_index e = i + Z.of_nat (length l) -> contiguous i (l ++ [e]).
Proof.
  intros C He k x Hk. apply lookup_app_Some in Hk as [Hk|[Hl Hk]]; [by apply C|].
  apply list_lookup_singleton_Some in Hk as [Hk ->]. rewrite He. lia.
Qed.

Lemma contiguous_app_inv i l l' : contiguous i (l ++ l') -> contiguous i l.
Proof. intros C k e Hk. apply C. by apply lookup_app_l_Some. Qed.

Lemma contiguous_tail i e l : contiguous i (e :: l) -> contiguous (i + 1) l.
Proof. intros C k x Hk. rewrite (C (S k) x Hk). lia. Qed.

Lemma contiguous_nil i : contiguous i [].
Proof. by intros k e Hk. Qed.

Lemma slot_at r l k :
  ring_wf r -> 0 <= k < r_size r ->
  slot r l ((r_tail r + k) mod r_size r) = l !! Z.to_nat k.
Proof.
  intros W Hk. unfold slot. pose proof (ring_size_bounds r W).
  rewrite Zminus_mod_idemp_l. replace (r_tail r + k - r_tail r) with k by lia.
  by rewrite Z.mod_small.
Qed.

(** Lookup by log index finds the entry with that index, and nothing outside. *)
Lemma log_ring_get_rep r l i idx :
  ring_rep r l -> contiguous i l -> is_u64 idx -> 0 <= i ->
  i + Z.of_nat (length l) <= 2 ^ 64 ->
  log_ring_get idx r = Ok (log_lookup i l idx) r.
Proof.
  intros R C Hidx Hi Hmax. pose proof (rep_wf _ _ R) as W.
  pose proof (ring_size_bounds r W) as Hs. pose proof (rep_len_cases r l R) as L.
  pose proof (wf_head r W) as Hh. pose proof (wf_tail r W) as Ht.
  pose proof (ring_rep_length r l R) as Hlen.
  unfold log_ring_get, log_lookup. mrun. rewrite (data_rd_rep r l _ R) by done.
  assert (slot r l (r_tail r) = l !! 0%nat) as ->
    by (unfold slot; by rewrite Z.sub_diag, Z.mod_0_l by lia).
  destruct l as [|t l']; [by destruct (i <=? idx)|].
  change ((t :: l') !! 0%nat) with (Some t). cbv beta iota.
  pose proof (C 0%nat t eq_refl) as Et. rewrite Z.add_0_r in Et.
  rewrite mask_u32 by done.
  assert ((r_head r - 1) mod r_size r
    = (r_tail r + (Z.of_nat (length (t :: l')) - 1)) mod r_size r) as ->.
  { rewrite (rep_head r _ R), Zminus_mod_idemp_l. f_equal. lia. }
  rewrite (data_rd_rep r _ _ R) by (apply Z.mod_pos_bound; lia).
  rewrite slot_at by (done || (simpl in *; lia)).
  destruct ((t :: l') !! Z.to_nat (Z.of_nat (length (t :: l')) - 1)) as [h|] eqn:Eh.
  2: { apply lookup_ge_None in Eh. simpl in Eh. lia. }
  rewrite Et, (C _ h Eh).
  destruct (Z.leb_spec i idx); simpl; [|done].
  destruct (Z.leb_spec idx (i + Z.of_nat (Z.to_nat (Z.of_nat (S (length l')) - 1))));
    simpl in *.
  - rewrite (u64_small (idx - i)) by lia. rewrite mask_u64 by done.
    rewrite (data_rd_rep r _ _ R) by (apply Z.mod_pos_bound; lia).
    by rewrite slot_at by (done || lia).
  - symmetry. f_equal. apply lookup_ge_None_2. simpl. lia.
Qed.

(** Construction: a power of two between 16 and 2^31 slots, all NULL. *)
Lemma create_ok size r :
  is_u32 size -> log_ring_create true true size = inr r ->
  ring_rep r [] /\ r_size r = Z.max 16 size.
Proof.
  intros Hsz. unfold log_ring_create.
  destruct (Z.eqb_spec size 0); [done|].
  set (n0 := if size <? 16 then 16 else size).
  assert (n0 = Z.max 16 size) as En by (unfold n0; zcases; lia).
  rewrite u32_small by lia.
  destruct (Z.eqb_spec (Z.land n0 (n0 - 1)) 0) as [Hp|]; [|done].
  cbn [negb]. intros [= <-]. split; [|done].
  apply land_pred_pow2 in Hp as (k & Hk & Ek); [|lia].
  assert (4 <= k <= 31).
  { split.
    - apply (Z.pow_le_mono_r_iff 2); lia.
    - enough (k < 32) by lia. apply (Z.pow_lt_mono_r_iff 2); lia. }
  split; cbn [r_head r_tail r_size r_mask r_data].
  - split; ring_simpl; [by exists k|done|by rewrite length_replicate|lia|lia].
  - ring_simpl. by rewrite Z.mod_0_l by lia.
  - intros j Hj. rewrite lookup_replicate_2 by lia. done.
Qed.

(** Every size that is not a power of two after rounding up to 16 is refused. *)
Lemma create_einval size :
  is_u32 size ->
  log_ring_create true true size = inl EINVAL <->
  size = 0 \/ ~ exists k, 0 <= k /\ Z.max 16 size = 2 ^ k.
Proof.
  intros Hsz. unfold log_ring_create.
  destruct (Z.eqb_spec size 0); [tauto|].
  set (n0 := if size <? 16 then 16 else size).
  assert (n0 = Z.max 16 size) as En by (unfold n0; zcases; lia).
  rewrite u32_small, <- En by lia.
  pose proof (land_pred_pow2 n0 ltac:(lia)) as Hp.
  destruct (Z.eqb_spec (Z.land n0 (n0 - 1)) 0) as [H0|H0]; cbn [negb].
  - split; [done|]. intros [?|Hn]; [done|]. destruct Hn. by apply Hp.
  - split; [|done]. intros _. right. intros Hk. by apply H0, Hp.
Qed.
