(* ===== verification/RingBuf.v ===== *)
(** * The task ring (src/static/ringbuf.c)

    A circular array with free-running 32-bit indices: [head] and [tail] count
    insertions and extractions modulo 2^32 and are masked on each access. The
    optional locks and the condition of the source are options, NULL or the
    flag of the mutex. Elements are non-NULL pointers, here values of [D]. *)

From S2P Require Import Prelude Monad Refine Types.
Open Scope Z_scope.

Definition RING_NONE : Z := 0.
Definition RING_MP : Z := 1.
Definition RING_MC : Z := 2.
Definition RING_EBLOCK : Z := 4.

(** [b_cond] is the condition variable: never written ([None]), NULL ([Some
    false]) or initialised. *)
Record ringbuf (D : Type) := RingBuf {
  b_head : Z;
  b_tail : Z;
  b_size : Z;
  b_mask : Z;
  b_flags : Z;
  b_cond_th : Z;
  b_cond_lock : option bool;
  b_cond : option bool;
  b_wlock : option bool;
  b_rlock : option bool;
  b_data : list (option D) }.
Arguments RingBuf {D}.
Arguments b_head {D}. Arguments b_tail {D}. Arguments b_size {D}. Arguments b_mask {D}.
Arguments b_flags {D}. Arguments b_cond_th {D}. Arguments b_cond_lock {D}. Arguments b_cond {D}.
Arguments b_wlock {D}. Arguments b_rlock {D}. Arguments b_data {D}.

Section RingBuf.
Context {D : Type}.
Implicit Types r : ringbuf D.

Definition set_b_head (v : Z) r : ringbuf D :=
  RingBuf v (b_tail r) (b_size r) (b_mask r) (b_flags r) (b_cond_th r) (b_cond_lock r) (b_cond r)
    (b_wlock r) (b_rlock r) (b_data r).
Definition set_b_tail (v : Z) r : ringbuf D :=
  RingBuf (b_head r) v (b_size r) (b_mask r) (b_flags r) (b_cond_th r) (b_cond_lock r) (b_cond r)
    (b_wlock r) (b_rlock r) (b_data r).
Definition set_b_cond_th (v : Z) r : ringbuf D :=
  RingBuf (b_head r) (b_tail r) (b_size r) (b_mask r) (b_flags r) v (b_cond_lock r) (b_cond r)
    (b_wlock r) (b_rlock r) (b_data r).
Definition set_b_cond_lock (v : option bool) r : ringbuf D :=
  RingBuf (b_head r) (b_tail r) (b_size r) (b_mask r) (b_flags r) (b_cond_th r) v (b_cond r)
    (b_wlock r) (b_rlock r) (b_data r).
Definition set_b_wlock (v : option bool) r : ringbuf D :=
  RingBuf (b_head r) (b_tail r) (b_size r) (b_mask r) (b_flags r) (b_cond_th r) (b_cond_lock r)
    (b_cond r) v (b_rlock r) (b_data r).
Definition set_b_rlock (v : option bool) r : ringbuf D :=
  RingBuf (b_head r) (b_tail r) (b_size r) (b_mask r) (b_flags r) (b_cond_th r) (b_cond_lock r)
    (b_cond r) (b_wlock r) v (b_data r).
Definition set_b_data (v : list (option D)) r : ringbuf D :=
  RingBuf (b_head r) (b_tail r) (b_size r) (b_mask r) (b_flags r) (b_cond_th r) (b_cond_lock r)
    (b_cond r) (b_wlock r) (b_rlock r) v.

Definition cond_lock_l : lens (ringbuf D) (option bool) := Lens b_cond_lock set_b_cond_lock.
Definition wlock_l : lens (ringbuf D) (option bool) := Lens b_wlock set_b_wlock.
Definition rlock_l : lens (ringbuf D) (option bool) := Lens b_rlock set_b_rlock.

(** [if( lock ) pthread_mutex_lock( lock )] *)
Definition lock_opt {S} (m : mutex) (L : lens S (option bool)) : M S unit := fun s =>
  match lget L s with
  | Some true => Fault (SelfDeadlock m)
  | Some false => Ok tt (lput L (Some true) s)
  | None => Ok tt s
  end.
Definition unlock_opt {S} (L : lens S (option bool)) : M S unit := fun s =>
  match lget L s with Some _ => Ok tt (lput L (Some false) s) | None => Ok tt s end.

(** [if( ring->cond )] *)
Definition has_cond : M (ringbuf D) bool :=
  c ← gets b_cond; from_opt Uninitialised c.

(** ** Creation and release *)

Definition ring_free r : outcome unit Z :=
  match b_cond r with
  | None => Fault Uninitialised
  | Some _ => Ok 1 tt
  end.

(** Which of the allocations succeed. *)
Record ring_mem := RingMem {
  ma_ring : bool; ma_data : bool; ma_wlock : bool; ma_rlock : bool; ma_cond_lock : bool;
  ma_cond : bool }.
Definition ring_mem_ok : ring_mem := RingMem true true true true true true.

(** A failed creation returns NULL with an errno, if it sets one. *)
Definition ring_create (mem : ring_mem) (size flags : Z) : outcome unit (option errno_t + ringbuf D) :=
  if size =? 0 then Ok (inl None) tt else
  let size := if size <? 16 then 16 else size in
  if negb (Z.land size (u32 (size - 1)) =? 0) then Ok (inl (Some EINVAL)) tt else
  if negb (ma_ring mem) then Ok (inl (Some ENOMEM)) tt else
  if negb (ma_data mem) then Ok (inl (Some ENOMEM)) tt else
  let mp := truthy (Z.land flags RING_MP) in
  let mc := truthy (Z.land flags RING_MC) in
  let eb := truthy (Z.land flags RING_EBLOCK) in
  let new cond_lock cond wlock rlock :=
    RingBuf 0 0 size (u32 (size - 1)) flags 0 cond_lock cond wlock rlock
      (replicate (Z.to_nat size) None) in
  (* gives the ring back and returns NULL *)
  let failed r := match ring_free r with Ok _ _ => Ok (inl (Some ENOMEM)) tt | Fault f => Fault f end in
  if mp && negb (ma_wlock mem) then failed (new None None None None) else
  let wlock := if mp then Some false else None in
  if mc && negb (ma_rlock mem) then failed (new None None wlock None) else
  let rlock := if mc then Some false else None in
  if eb then
    if negb (ma_cond_lock mem) then failed (new None (Some false) wlock rlock) else
    if negb (ma_cond mem) then
      (* the ring is given back, and then its condition is initialised *)
      match ring_free (new (Some false) (Some false) wlock rlock) with
      | Ok _ _ => Fault UseAfterFree
      | Fault f => Fault f
      end
    else Ok (inr (new (Some false) (Some true) wlock rlock)) tt
  else Ok (inr (new None (Some false) wlock rlock)) tt.

(** ** Operations *)

Definition ring_count r : Z := u32 (b_head r - b_tail r).
Definition ring_count_free r : Z := u32 (b_mask r + b_tail r - b_head r).
Definition ring_size r : Z := u32 (b_size r - 1).
Definition ring_is_empty r : Z := b2z (negb (truthy (ring_count r))).
Definition ring_is_full r : Z := b2z (ring_count_free r =? 0).

(** [ring->data[i]] and its assignment *)
Definition b_rd (i : Z) : M (ringbuf D) (option D) :=
  d ← gets b_data; from_opt OutOfBounds (d !! Z.to_nat i).
Definition b_wr (i : Z) (p : option D) : M (ringbuf D) unit := fun r =>
  if decide (Z.to_nat i < length (b_data r))%nat
  then Ok tt (set_b_data (<[Z.to_nat i := p]> (b_data r)) r) else Fault OutOfBounds.

(** The accesses a producer makes to what it shares with the consumer, in the
    order of the code, ... *)
Definition ins_room : M (ringbuf D) bool := gets (fun r => 0 <? ring_count_free r).
Definition ins_store (d : D) : M (ringbuf D) unit :=
  r ← get; b_wr (Z.land (b_head r) (b_mask r)) (Some d).
Definition ins_publish : M (ringbuf D) unit := modify (fun r => set_b_head (u32 (b_head r + 1)) r).

(** ... and those of a consumer. *)
Definition ext_some : M (ringbuf D) bool := gets (fun r => 0 <? ring_count r).
Definition ext_load : M (ringbuf D) (option D) :=
  r ← get; b_rd (Z.land (b_tail r) (b_mask r)).
Definition ext_clear : M (ringbuf D) unit :=
  r ← get; b_wr (Z.land (b_tail r) (b_mask r)) None.
Definition ext_advance : M (ringbuf D) unit := modify (fun r => set_b_tail (u32 (b_tail r + 1)) r).

(** A consumer that found the ring empty goes to sleep: the wait releases the
    lock of the condition. *)
Definition ext_sleep : M (ringbuf D) unit :=
  modify (fun r => set_b_cond_th (b_cond_th r + 1) r);;
  unlock_opt cond_lock_l.

(** Waking a consumer that waits for the condition. *)
Definition ring_signal : M (ringbuf D) unit :=
  cond ← has_cond;
  when cond (
    lock_opt ring_cond_lock cond_lock_l;;
    r ← get;
    when (0 <? b_cond_th r) (modify (set_b_cond_th (b_cond_th r - 1)));;
    unlock_opt cond_lock_l).

Definition ring_insert (data : option D) : M (ringbuf D) Z :=
  d ← from_opt AssertFail data;
  lock_opt ring_wlock wlock_l;;
  room ← ins_room;
  ret ← (if room : bool then ins_store d;; ins_publish;; ring_signal;; mret 1 else mret 0);
  unlock_opt wlock_l;;
  mret ret.

(** The end of an extraction: the oldest element, if there is one. *)
Definition ring_take : M (ringbuf D) (option D) :=
  some ← ext_some;
  ptr ← (if some : bool then ptr ← ext_load; ext_clear;; ext_advance;; mret ptr else mret None);
  unlock_opt rlock_l;;
  mret ptr.

(** An extraction returns, or it waits for the condition: its lock is free
    during the wait, while the lock of the consumers stays taken. *)
Inductive extract_res := Extracted (p : option D) | Waiting.

Definition ring_extract_timeout : M (ringbuf D) extract_res :=
  lock_opt ring_rlock rlock_l;;
  cond ← has_cond;
  r ← get;
  if cond && (ring_count r =? 0) then
    lock_opt ring_cond_lock cond_lock_l;;
    r ← get;
    if ring_count r =? 0 then
      ext_sleep;;
      mret Waiting
    else
      unlock_opt cond_lock_l;;
      p ← ring_take; mret (Extracted p)
  else p ← ring_take; mret (Extracted p).

(** The rest of the function after the wait, which ended by a signal (or for no
    reason, as POSIX allows) or because the time is over. *)
Definition ring_extract_resume (timedout : bool) : M (ringbuf D) (option D) :=
  lock_opt ring_cond_lock cond_lock_l;;
  unlock_opt cond_lock_l;;
  if timedout then unlock_opt rlock_l;; mret None else ring_take.

Definition ring_get : M (ringbuf D) (option D) :=
  lock_opt ring_rlock rlock_l;;
  ptr ← ext_load;
  unlock_opt rlock_l;;
  mret ptr.

(** ** Representation

    [ring_view r n w]: [n] elements are between tail and head, and [w] lists
    all the slots from the tail on, whatever turn the indices are in. *)

Definition b_pos r (i : Z) : nat := Z.to_nat ((b_tail r + i) mod b_size r).

Record ring_view r (n : nat) (w : list (option D)) : Prop := {
  bv_size : exists k, 4 <= k <= 31 /\ b_size r = 2 ^ k;
  bv_mask : b_mask r = b_size r - 1;
  bv_data : length (b_data r) = length w;
  bv_len : Z.of_nat (length w) = b_size r;
  bv_tail : is_u32 (b_tail r);
  bv_head : b_head r = u32 (b_tail r + Z.of_nat n);
  bv_count : (n < length w)%nat;
  bv_slots : forall i, (i < length w)%nat -> b_data r !! b_pos r (Z.of_nat i) = w !! i }.

Lemma view_bounds r n w : ring_view r n w -> 16 <= b_size r <= 2 ^ 31.
Proof.
  intros [(k & Hk & ->) _ _ _ _ _ _ _]. split.
  - change 16 with (2 ^ 4). apply Z.pow_le_mono_r; lia.
  - apply Z.pow_le_mono_r; lia.
Qed.

(** Masking a 32-bit index is reduction modulo the size. *)
Lemma view_mask r n w a : ring_view r n w -> Z.land (u32 a) (b_mask r) = a mod b_size r.
Proof.
  intros V. destruct (bv_size _ _ _ V) as (k & Hk & Es).
  rewrite (bv_mask _ _ _ V), Es. apply land_u32. lia.
Qed.

Lemma view_head r n w : ring_view r n w ->
  Z.to_nat (Z.land (b_head r) (b_mask r)) = b_pos r (Z.of_nat n).
Proof. intros V. by rewrite (bv_head _ _ _ V), (view_mask r n w) by done. Qed.

Lemma view_tail r n w : ring_view r n w ->
  Z.to_nat (Z.land (b_tail r) (b_mask r)) = b_pos r 0.
Proof.
  intros V. rewrite <- (u32_small (b_tail r)) by apply V. rewrite (view_mask r n w) by done.
  unfold b_pos. by rewrite Z.add_0_r.
Qed.

Lemma view_pos_lt r n w i : ring_view r n w -> (b_pos r i < length (b_data r))%nat.
Proof.
  intros V. pose proof (view_bounds _ _ _ V). unfold b_pos.
  rewrite (bv_data _ _ _ V). pose proof (bv_len _ _ _ V).
  pose proof (Z.mod_pos_bound (b_tail r + i) (b_size r)). lia.
Qed.

Lemma view_pos_inj r n w i j : ring_view r n w -> (i < length w)%nat -> (j < length w)%nat ->
  b_pos r (Z.of_nat i) = b_pos r (Z.of_nat j) -> i = j.
Proof.
  intros V Hi Hj. pose proof (view_bounds _ _ _ V) as Hs. pose proof (bv_len _ _ _ V) as Hl.
  unfold b_pos. rewrite (Zplus_mod (b_tail r) (Z.of_nat i)), (Zplus_mod (b_tail r) (Z.of_nat j)).
  rewrite (Z.mod_small (Z.of_nat i)), (Z.mod_small (Z.of_nat j)) by lia.
  set (t := b_tail r mod b_size r). assert (0 <= t < b_size r) as Ht by (apply Z.mod_pos_bound; lia).
  rewrite !mod_sum by lia. zcases; lia.
Qed.

Lemma view_write r n w i p : ring_view r n w -> (i < length w)%nat ->
  ring_view (set_b_data (<[b_pos r (Z.of_nat i) := p]> (b_data r)) r) n (<[i := p]> w).
Proof.
  intros V Hi. pose proof V as [Vs Vm Vd Vl Vt Vh Vc Vsl].
  split; try done; cbn [b_data b_size b_tail set_b_data]; rewrite ?length_insert; try done.
  intros j Hj. change (b_pos (set_b_data _ r) (Z.of_nat j)) with (b_pos r (Z.of_nat j)).
  destruct (decide (i = j)) as [<-|Hne].
  - rewrite !list_lookup_insert_eq; [done|done|by eapply view_pos_lt].
  - rewrite !list_lookup_insert_ne; [by apply Vsl|done|].
    intros E. by eapply Hne, view_pos_inj.
Qed.

(** ** The accesses *)

Lemma view_count r n w : ring_view r n w -> ring_count r = Z.of_nat n.
Proof.
  intros V. pose proof (view_bounds _ _ _ V). pose proof (bv_len _ _ _ V). pose proof (bv_count _ _ _ V).
  unfold ring_count. rewrite (bv_head _ _ _ V). unfold u32. rewrite Zminus_mod_idemp_l.
  replace (_ - _) with (Z.of_nat n) by lia. apply Z.mod_small. lia.
Qed.

Lemma view_count_free r n w : ring_view r n w -> ring_count_free r = b_size r - 1 - Z.of_nat n.
Proof.
  intros V. pose proof (view_bounds _ _ _ V). pose proof (bv_len _ _ _ V). pose proof (bv_count _ _ _ V).
  unfold ring_count_free. rewrite (bv_head _ _ _ V), (bv_mask _ _ _ V). unfold u32.
  rewrite Zminus_mod_idemp_r. replace (_ - (_ + _)) with (b_size r - 1 - Z.of_nat n) by lia.
  apply Z.mod_small. lia.
Qed.

Lemma ins_room_run r n w : ring_view r n w ->
  ins_room r = Ok (bool_decide (Z.of_nat n < b_size r - 1)) r.
Proof.
  intros V. unfold ins_room. mrun. rewrite (view_count_free r n w V).
  case_bool_decide; zcases; done || lia.
Qed.

Lemma ext_some_run r n w : ring_view r n w -> ext_some r = Ok (bool_decide (n <> 0)%nat) r.
Proof.
  intros V. unfold ext_some. mrun. rewrite (view_count r n w V).
  case_bool_decide; zcases; done || lia.
Qed.

Lemma ins_store_run r n w d : ring_view r n w -> exists r',
  ins_store d r = Ok tt r' /\ ring_view r' n (<[n := Some d]> w) /\
  r' = set_b_data (b_data r') r.
Proof.
  intros V. unfold ins_store, b_wr. mrun. rewrite (view_head r n w V).
  rewrite decide_True by (by eapply view_pos_lt).
  eexists. split; [done|]. split; [|done]. apply view_write; [done|]. apply V.
Qed.

Lemma ins_publish_run r n w : ring_view r n w -> Z.of_nat n < b_size r - 1 -> exists r',
  ins_publish r = Ok tt r' /\ ring_view r' (S n) w /\ r' = set_b_head (b_head r') r.
Proof.
  intros V Hn. eexists. split; [done|]. split; [|done].
  pose proof V as [Vs Vm Vd Vl Vt Vh Vc Vsl]. split; try done; cbn; [|lia].
  rewrite Vh. unfold u32. rewrite Zplus_mod_idemp_l. f_equal. lia.
Qed.

Lemma ext_load_run r n w p : ring_view r n w -> w !! 0%nat = Some p -> ext_load r = Ok p r.
Proof.
  intros V Hp. unfold ext_load, b_rd. mrun. rewrite (view_tail r n w V).
  pose proof (bv_slots _ _ _ V 0%nat ltac:(by eapply lookup_lt_Some)) as E.
  change (Z.of_nat 0) with 0 in E. by rewrite E, Hp.
Qed.

Lemma ext_clear_run r n w : ring_view r n w -> exists r',
  ext_clear r = Ok tt r' /\ ring_view r' n (<[0%nat := None]> w) /\
  r' = set_b_data (b_data r') r.
Proof.
  intros V. unfold ext_clear, b_wr. mrun. rewrite (view_tail r n w V).
  rewrite decide_True by (by eapply view_pos_lt).
  eexists. split; [done|]. split; [|done]. apply (view_write r n w 0 None V).
  pose proof (bv_count _ _ _ V). lia.
Qed.

Lemma ext_advance_run r n x w : ring_view r (S n) (x :: w) -> exists r',
  ext_advance r = Ok tt r' /\ ring_view r' n (w ++ [x]) /\ r' = set_b_tail (b_tail r') r.
Proof.
  intros V. eexists. split; [done|]. split; [|done]. pose proof (view_bounds _ _ _ V) as Hb.
  pose proof V as [Vs Vm Vd Vl Vt Vh Vc Vsl]. destruct Vs as (k & Hk & Es).
  assert (length (w ++ [x]) = length (x :: w)) as Hlen by (rewrite length_app; simpl; lia).
  split; try (rewrite ?Hlen; done); cbn [set_b_tail b_size b_tail b_head b_data].
  - by exists k.
  - apply u32_range.
  - rewrite Vh. unfold u32. rewrite Zplus_mod_idemp_l. f_equal. lia.
  - rewrite Hlen. simpl in *. lia.
  - intros i Hi. rewrite Hlen in Hi. unfold b_pos. cbn [set_b_tail b_size b_tail].
    assert ((u32 (b_tail r + 1) + Z.of_nat i) mod b_size r = (b_tail r + Z.of_nat (S i)) mod b_size r) as ->.
    { rewrite <- Zplus_mod_idemp_l. unfold u32. rewrite Es, mod_pow_mod, Zplus_mod_idemp_l by lia.
      f_equal. lia. }
    destruct (decide (S i < length (x :: w))%nat) as [Hlt|Hge].
    + pose proof (Vsl (S i) Hlt) as E. unfold b_pos in E. rewrite E. cbn in Hlt |- *.
      by rewrite lookup_app_l by lia.
    + pose proof (Vsl 0%nat ltac:(cbn; lia)) as E. unfold b_pos in E.
      assert (Z.of_nat (S i) = b_size r) as -> by lia.
      change (Z.of_nat 0) with 0 in E. rewrite Z.add_0_r in E.
      replace (b_tail r + b_size r) with (b_tail r + 1 * b_size r) by lia.
      rewrite Z_mod_plus_full, E. cbn in Hi, Hge |- *.
      rewrite lookup_app_r by lia. by replace (i - length w)%nat with 0%nat by lia.
Qed.

End RingBuf.
