(* ===== verification/Queue.v ===== *)
(** * The queue of nodes (src/static/queue.c)

    A doubly linked list of heap nodes with its length. A pointer to a queue
    is an [option]; freed nodes leave the heap, so that a use after [free]
    is a fault. Elements are non-NULL pointers, here values of [D]. *)

From S2P Require Import Prelude Monad Types.
Open Scope Z_scope.

(** [node_t] *)
Record node_t (D : Type) := Node { n_next : option loc; n_prev : option loc; n_data : D }.
Arguments Node {D}. Arguments n_next {D}. Arguments n_prev {D}. Arguments n_data {D}.

(** [queue_t], with the heap its nodes live in *)
Record queue_t (D : Type) := Queue {
  q_len : Z;
  q_head : option loc;
  q_tail : option loc;
  q_heap : gmap loc (node_t D) }.
Arguments Queue {D}. Arguments q_len {D}. Arguments q_head {D}. Arguments q_tail {D}.
Arguments q_heap {D}.

Section Queue.
Context {D : Type}.
Implicit Types q : queue_t D.

Definition set_q_len (v : Z) q : queue_t D := Queue v (q_head q) (q_tail q) (q_heap q).
Definition set_q_head (v : option loc) q : queue_t D := Queue (q_len q) v (q_tail q) (q_heap q).
Definition set_q_tail (v : option loc) q : queue_t D := Queue (q_len q) (q_head q) v (q_heap q).
Definition set_q_heap (v : gmap loc (node_t D)) q : queue_t D :=
  Queue (q_len q) (q_head q) (q_tail q) v.
Definition set_n_next (v : option loc) (n : node_t D) : node_t D := Node v (n_prev n) (n_data n).
Definition set_n_prev (v : option loc) (n : node_t D) : node_t D := Node (n_next n) v (n_data n).

Definition new_queue (malloc_ok : bool) : option (queue_t D) :=
  if malloc_ok then Some (Queue 0 None None ∅) else None.

(** The queue is given back only when it is empty. *)
Definition destroy_queue (queue : option (queue_t D)) : Z * option (queue_t D) :=
  match queue with
  | None => (0, None)
  | Some q => match q_head q with Some _ => (0, Some q) | None => (1, None) end
  end.

(** ** Nodes *)

Definition node_rd (p : loc) : M (queue_t D) (node_t D) :=
  h ← gets q_heap; from_opt UseAfterFree (h !! p).
Definition node_wr (p : loc) (f : node_t D -> node_t D) : M (queue_t D) unit :=
  n ← node_rd p; modify (fun q => set_q_heap (<[p := f n]> (q_heap q)) q).
Definition node_new (n : node_t D) : M (queue_t D) loc := fun q =>
  let p := fresh (dom (q_heap q)) in Ok p (set_q_heap (<[p := n]> (q_heap q)) q).
Definition node_free (p : loc) : M (queue_t D) unit :=
  node_rd p;; modify (fun q => set_q_heap (delete p (q_heap q)) q).

(** The accesses to [*queue] behind the test that it is not NULL. *)
Definition on_queue {A} (m : M (queue_t D) A) : M (option (queue_t D)) A := fun o =>
  match o with
  | None => Fault NullDeref
  | Some q => match m q with Ok a q' => Ok a (Some q') | Fault f => Fault f end
  end.

(** ** Operations *)

Definition enqueue (malloc_ok : bool) (data : option D) : M (option (queue_t D)) Z :=
  queue ← get;
  match queue with None => mret 0 | Some _ =>
  match data with None => mret 0 | Some d =>
  if negb malloc_ok then mret 0 else
  on_queue (
    tail ← gets q_tail;
    node ← node_new (Node None tail d);
    (match tail with
     | Some t => node_wr t (set_n_next (Some node))
     | None => modify (set_q_head (Some node))
     end);;
    modify (set_q_tail (Some node));;
    modify (fun q => set_q_len (u64 (q_len q + 1)) q);;
    mret 1)
  end end.

Definition dequeue : M (option (queue_t D)) (option D * errno_t) :=
  queue ← get;
  match queue with None => mret (None, EINVAL) | Some _ =>
  on_queue (
    head ← gets q_head;
    match head with None => mret (None, ENONE) | Some p =>
      node ← node_rd p;
      modify (set_q_head (n_next node));;
      (match n_next node with
       | None => modify (set_q_tail None)
       | Some h => node_wr h (set_n_prev None)
       end);;
      node_free p;;
      modify (fun q => set_q_len (u64 (q_len q - 1)) q);;
      mret (Some (n_data node), ENONE)
    end)
  end.

(** ** Representation

    The nodes of [ps] hold the values [l], each linked to its neighbours, and
    the heap holds nothing else. *)

Definition before (ps : list loc) (i : nat) : option loc :=
  match i with O => None | S i => ps !! i end.

Definition nodes_at (h : gmap loc (node_t D)) (ps : list loc) (l : list D) : Prop :=
  forall i p d, ps !! i = Some p -> l !! i = Some d ->
    h !! p = Some (Node (ps !! S i) (before ps i) d).

Record nodes_rep q (ps : list loc) (l : list D) : Prop := {
  nr_len : q_len q = u64 (Z.of_nat (length l));
  nr_length : length ps = length l;
  nr_head : q_head q = head ps;
  nr_tail : q_tail q = last ps;
  nr_nodup : NoDup ps;
  nr_dom : dom (q_heap q) = list_to_set ps;
  nr_nodes : nodes_at (q_heap q) ps l }.

Definition queue_rep (o : option (queue_t D)) (l : list D) : Prop :=
  exists q ps, o = Some q /\ nodes_rep q ps l.

Lemma new_queue_rep : queue_rep (new_queue true) [].
Proof. eexists _, []. split; [reflexivity|]. split; try done. constructor. Qed.

Lemma enqueue_refused malloc_ok data (o : option (queue_t D)) :
  o = None \/ data = None \/ malloc_ok = false -> enqueue malloc_ok data o = Ok 0 o.
Proof.
  intros H. unfold enqueue. mrun. destruct o; [|done]. destruct data; [|done].
  destruct malloc_ok; [|done]. by destruct H as [?|[?|?]].
Qed.

Lemma dom_at q ps l p : nodes_rep q ps l -> p ∉ ps -> q_heap q !! p = None.
Proof.
  intros R Hp. apply not_elem_of_dom. rewrite (nr_dom q ps l R).
  by rewrite elem_of_list_to_set.
Qed.

(** Linking a new node behind the last one. *)
Lemma nodes_at_snoc h ps t l dt p d :
  NoDup (ps ++ [t]) -> p ∉ ps ++ [t] -> length ps = length l ->
  nodes_at h (ps ++ [t]) (l ++ [dt]) ->
  nodes_at (<[t := Node (Some p) (before (ps ++ [t]) (length ps)) dt]> (<[p := Node None (Some t) d]> h))
    ((ps ++ [t]) ++ [p]) ((l ++ [dt]) ++ [d]).
Proof.
  intros Hnd Hp Hlen H i x dx Hx Hd.
  assert (t <> p) as Htp by (intros ->; apply Hp, elem_of_app; right; by left).
  apply lookup_snoc_Some in Hx as [[Hi Hx]|[-> ->]].
  - rewrite length_app in Hi. cbn in Hi.
    rewrite lookup_app_l in Hd by (rewrite length_app; cbn; lia).
    assert (before ((ps ++ [t]) ++ [p]) i = before (ps ++ [t]) i) as ->.
    { destruct i; [done|]. cbn. by rewrite lookup_app_l by (rewrite length_app; cbn; lia). }
    assert (x <> p) as Hxp by (intros ->; destruct Hp; by apply (list_elem_of_lookup_2 _ i)).
    destruct (decide (i = length ps)) as [->|Hne].
    + rewrite lookup_app_r, Nat.sub_diag in Hx by lia. injection Hx as <-.
      rewrite Hlen, lookup_app_r, Nat.sub_diag in Hd by lia. injection Hd as <-.
      rewrite lookup_insert_eq. do 2 f_equal. symmetry.
      rewrite lookup_app_r by (rewrite length_app; cbn; lia).
      apply singleton_lookup_eq. rewrite length_app. cbn. lia.
    + assert (x <> t) as Hxt.
      { intros ->. apply Hne. eapply NoDup_lookup; [exact Hnd|exact Hx|].
        by rewrite lookup_app_r, Nat.sub_diag. }
      rewrite !lookup_insert_ne by done. rewrite (H i x dx Hx Hd). do 2 f_equal. symmetry.
      apply lookup_app_l. rewrite length_app. cbn. lia.
  - rewrite lookup_insert_ne, lookup_insert_eq by done.
    rewrite lookup_app_r in Hd by (rewrite !length_app; cbn; lia).
    rewrite !length_app, Hlen, Nat.sub_diag in Hd. injection Hd as <-. f_equal. f_equal.
    + symmetry. apply lookup_ge_None_2. rewrite !length_app. cbn. lia.
    + rewrite length_app, Nat.add_comm. cbn. rewrite lookup_app_l by (rewrite length_app; cbn; lia).
      by rewrite lookup_app_r, Nat.sub_diag.
Qed.

Lemma last_node q ps t l : nodes_rep q (ps ++ [t]) l -> exists l' dt,
  l = l' ++ [dt] /\ length ps = length l' /\
  q_heap q !! t = Some (Node None (before (ps ++ [t]) (length ps)) dt).
Proof.
  intros R. pose proof (nr_length _ _ _ R) as Hlen. rewrite length_app in Hlen. cbn in Hlen.
  destruct l as [|dt l' _] using rev_ind; [cbn in Hlen; lia|]. rewrite length_app in Hlen. cbn in Hlen.
  exists l', dt. split; [done|]. split; [lia|].
  rewrite (nr_nodes _ _ _ R (length ps) t dt).
  - do 2 f_equal. apply lookup_ge_None_2. rewrite length_app. cbn. lia.
  - by rewrite lookup_app_r, Nat.sub_diag.
  - rewrite lookup_app_r by lia. apply singleton_lookup_eq. lia.
Qed.

Lemma enqueue_rep o l d : queue_rep o l -> exists o',
  enqueue true (Some d) o = Ok 1 o' /\ queue_rep o' (l ++ [d]).
Proof.
  intros (q & ps & -> & R). set (p := fresh (dom (q_heap q))).
  assert (p ∉ ps) as Hin.
  { rewrite <- (elem_of_list_to_set (C := gset loc)), <- (nr_dom q ps l R). apply is_fresh. }
  assert (u64 (q_len q + 1) = u64 (Z.of_nat (length (l ++ [d])))) as Hl'.
  { rewrite (nr_len _ _ _ R), length_app. cbn. rewrite u64_add_l. f_equal. lia. }
  unfold enqueue, on_queue, node_new, node_wr, node_rd. mrun. cbn [negb].
  fold p. rewrite (nr_tail _ _ _ R). destruct ps as [|t ps _] using rev_ind.
  - pose proof (nr_length _ _ _ R). destruct l; [|done]. cbn.
    eexists. split; [reflexivity|]. eexists _, [p]. split; [reflexivity|].
    split; cbn; try done.
    + apply NoDup_singleton.
    + rewrite dom_insert_L, (nr_dom _ _ _ R). done.
    + intros [|i] p' d' [= <-] [= <-]. by rewrite lookup_insert_eq.
  - destruct (last_node q ps t l R) as (l' & dt & -> & Hlen & Et).
    assert (p <> t) as Hpt by (intros ->; apply Hin, elem_of_app; right; by left).
    rewrite last_snoc. cbn. rewrite (lookup_insert_ne _ p t) by done. rewrite Et. cbn.
    eexists. split; [reflexivity|]. eexists _, ((ps ++ [t]) ++ [p]). split; [reflexivity|].
    split; cbn.
    + done.
    + rewrite !length_app, Hlen. done.
    + rewrite (nr_head _ _ _ R). by destruct ps.
    + by rewrite last_snoc.
    + apply NoDup_app. split; [apply R|]. split; [|apply NoDup_singleton].
      by intros x Hx ->%list_elem_of_singleton.
    + rewrite !dom_insert_L, (nr_dom _ _ _ R), !list_to_set_app_L. clear. set_solver.
    + apply nodes_at_snoc; [apply R|done|done|apply R].
Qed.

(** Unlinking the first node. *)
Lemma nodes_at_tail h p p' ps d d' l :
  NoDup (p :: p' :: ps) -> nodes_at h (p :: p' :: ps) (d :: d' :: l) ->
  nodes_at (delete p (<[p' := Node (ps !! 0%nat) None d']> h)) (p' :: ps) (d' :: l).
Proof.
  intros Hnd H i x dx Hx Hd. apply NoDup_cons in Hnd as [Hp Hnd].
  assert (x <> p) as Hxp by (intros ->; apply Hp; by apply (list_elem_of_lookup_2 _ i)).
  rewrite lookup_delete_ne by done. destruct i as [|i].
  - injection Hx as <-. injection Hd as <-. by rewrite lookup_insert_eq.
  - assert (x <> p') as Hxp'.
    { intros ->. apply NoDup_cons in Hnd as [Hn _]. apply Hn. by apply (list_elem_of_lookup_2 _ i). }
    rewrite lookup_insert_ne by done. exact (H (S (S i)) x dx Hx Hd).
Qed.

Lemma dequeue_empty o : queue_rep o [] -> dequeue o = Ok (None, ENONE) o.
Proof.
  intros (q & ps & -> & R). unfold dequeue, on_queue. mrun. rewrite (nr_head _ _ _ R).
  pose proof (nr_length _ _ _ R). by destruct ps.
Qed.

Lemma dequeue_rep o d l : queue_rep o (d :: l) -> exists o',
  dequeue o = Ok (Some d, ENONE) o' /\ queue_rep o' l.
Proof.
  intros (q & ps & -> & R). pose proof (nr_length _ _ _ R) as Hlen.
  destruct ps as [|p ps]; [done|]. cbn in Hlen.
  pose proof (nr_nodes _ _ _ R 0%nat p d eq_refl eq_refl) as Ep.
  assert (u64 (q_len q - 1) = u64 (Z.of_nat (length l))) as Hl'.
  { rewrite (nr_len _ _ _ R), u64_sub_l. cbn. f_equal. lia. }
  pose proof (nr_nodup _ _ _ R) as Hnd. pose proof (nr_dom _ _ _ R) as Hdom.
  unfold dequeue, on_queue, node_wr, node_free, node_rd. mrun. rewrite (nr_head _ _ _ R). cbn.
  rewrite Ep. cbn. destruct ps as [|p' ps]; cbn.
  - destruct l; [|done]. rewrite Ep. cbn. eexists. split; [reflexivity|].
    eexists _, []. split; [reflexivity|]. split; cbn; try done; [constructor|].
    rewrite dom_delete_L, Hdom. clear. set_solver.
  - destruct l as [|d' l]; [done|].
    pose proof (nr_nodes _ _ _ R 1%nat p' d' eq_refl eq_refl) as Ep'. cbn in Ep'. rewrite Ep'.
    assert (p <> p') as Hne by (intros ->; apply NoDup_cons in Hnd as [Hn _]; apply Hn; by left).
    cbn. rewrite lookup_insert_ne by done. rewrite Ep. cbn. eexists. split; [reflexivity|].
    eexists _, (p' :: ps). split; [reflexivity|]. split; cbn; try done.
    + cbn in Hlen. lia.
    + rewrite (nr_tail _ _ _ R). by rewrite last_cons; destruct (last (p' :: ps)) eqn:E; [|apply last_None in E].
    + by apply NoDup_cons in Hnd as [_ ?].
    + assert (p ∉ p' :: ps) as Hp by (by apply NoDup_cons in Hnd as [? _]).
      rewrite dom_delete_L, dom_insert_L, Hdom. cbn. clear -Hp. set_solver.
    + apply (nodes_at_tail (q_heap q) p p' ps d d' l Hnd (nr_nodes _ _ _ R)).
Qed.

(** Only an empty queue is destroyed, and no node is leaked then. *)
Lemma destroy_queue_rep o l : queue_rep o l ->
  destroy_queue o = match l with [] => (1, None) | _ => (0, o) end /\
  (l = [] -> forall q, o = Some q -> q_heap q = ∅).
Proof.
  intros (q & ps & -> & R). cbn. rewrite (nr_head _ _ _ R).
  pose proof (nr_length _ _ _ R) as Hlen. split; [by destruct l, ps|].
  intros -> ? [= <-]. destruct ps; [|done]. apply dom_empty_iff_L. by rewrite (nr_dom _ _ _ R).
Qed.

End Queue.
