(* ===== verification/Redis.v ===== *)
(** * Access to Redis (src/static/redis.c)

    The functions over hiredis, which is not part of the repository: the class
    [Hiredis] has its two calls as operations on the connection with the
    server behind it. The laws of [RedisServer] are the documented answers of
    the commands the code uses, in terms of the events that the client has
    caused at the server; they leave open when a command fails. *)

From S2P Require Import Prelude Monad Types.
Open Scope Z_scope.
Open Scope string_scope.

(** What the code reads of a [redisReply]. *)
Record redisReply := RedisReply { rd_str : option string; rd_len : Z; rd_elements : Z }.

(** [redisCommand] with the words of the command: NULL is a failed command;
    [redisReconnect] answers whether it is REDIS_OK. *)
Class Hiredis (R : Type) := {
  redisCommand : list string -> R -> option redisReply * R;
  redisReconnect : R -> bool * R }.

Section Redis.
Context `{Hiredis R}.

Definition command (words : list string) : M R (option redisReply) := fun r =>
  let '(reply, r) := redisCommand words r in Ok reply r.
Definition reconnect : M R bool := fun r => let '(ok, r) := redisReconnect r in Ok ok r.

(** After a failed command the context is used again only when it could be
    connected anew. *)
Definition command_or_exit (words : list string) : M R (option redisReply) :=
  reply ← command words;
  match reply with
  | Some _ => mret reply
  | None => ok ← reconnect; when (negb ok) exit1;; mret None
  end.

Definition redis_sync_get_value (key : string) : M R (option redisReply) :=
  command_or_exit ["GET"; key].

(** [if( reply->len ) if( strcmp( reply->str, str ) == 0 )] *)
Definition reply_is (str : string) (reply : redisReply) : M R bool :=
  if truthy (rd_len reply)
  then s ← from_opt NullDeref (rd_str reply); mret (bool_decide (s = str))
  else mret false.

Definition redis_sync_set_if_no_key (key value : string) : M R Z :=
  reply ← command_or_exit ["SET"; key; value; "NX"];
  reply ← from_opt NullDeref reply;
  ok ← reply_is "OK" reply;
  mret (b2z ok).

Definition redis_sync_set_key (key value : string) : M R Z :=
  reply ← command_or_exit ["SET"; key; value];
  reply ← from_opt NullDeref reply;
  ok ← reply_is "OK" reply;
  mret (b2z ok).

(** A reply whose string, if it has one, is [str]. *)
Definition unless (str : string) (reply : redisReply) : bool :=
  match rd_str reply with Some s => bool_decide (s = str) | None => true end.

Definition redis_sync_safe_ep_del (key endpoint : string) : M R Z :=
  reply ← command_or_exit ["WATCH"; key];
  reply ← from_opt NullDeref reply;
  watched ← (if truthy (rd_len reply) then reply_is "OK" reply else mret true);
  if negb watched then mret 0 else
  reply ← redis_sync_get_value key;
  match reply with None => mret 0 | Some reply =>
  match rd_str reply with None => mret 0 | Some str =>
  if negb (bool_decide (str = endpoint)) then
    reply ← command ["UNWATCH"];
    match reply with None => mret 0 | Some _ => mret 1 end
  else
    multi ← command ["MULTI"];
    match multi with None => mret 0 | Some multi =>
    if negb (unless "OK" multi) then mret 0 else
    del ← command ["DEL"; key];
    match del with None => mret 0 | Some del =>
    if negb (unless "QUEUED" del) then mret 0 else
    exec ← command ["EXEC"];
    match exec with None => mret 0 | Some exec =>
    if negb (rd_elements exec =? 1)%Z then mret 0 else mret 1
    end end end end end.

End Redis.

(** ** The server *)

(** What a command of a client has done at the server: the value it has read,
    or the values of the key before and after its write. *)
Inductive event :=
| Read (key : string) (value : option string)
| Wrote (key : string) (old new : option string).

(** [rs_events] is the history of one client. The others belong to its
    connection: [rs_watch] the watched key with its value at that time,
    [rs_dirty] that the key has been changed since, [rs_queue] the keys that the
    open transaction removes. *)
Class RedisServer (R : Type) `{Hiredis R} := {
  rs_events : R -> list event;
  rs_watch : R -> option (string * option string);
  rs_dirty : R -> bool;
  rs_queue : R -> option (list string);
  (** SET key value NX stores the value where there is none, and answers OK then. *)
  set_nx_law : forall k v r x r', rs_queue r = None ->
    redisCommand ["SET"; k; v; "NX"] r = (Some x, r') -> rs_queue r' = None /\
    ((rd_str x = Some "OK" /\ rd_len x = 2%Z /\
      rs_events r' = (rs_events r ++ [Wrote k None (Some v)])%list) \/
     (rd_str x = None /\ rd_len x = 0%Z /\
      exists v', rs_events r' = (rs_events r ++ [Read k (Some v')])%list));
  (** WATCH answers OK and remembers the value. *)
  watch_law : forall k r x r', rs_queue r = None ->
    redisCommand ["WATCH"; k] r = (Some x, r') -> rs_events r' = rs_events r /\
    rd_str x = Some "OK" /\ rd_len x = 2%Z /\ rs_queue r' = None /\
    exists v, rs_watch r' = Some (k, v);
  (** GET answers the value or nil. *)
  get_law : forall k r x r', rs_queue r = None -> redisCommand ["GET"; k] r = (x, r') ->
    match x with
    | Some x => rs_queue r' = None /\ rs_watch r' = rs_watch r /\
        rs_events r' = (rs_events r ++ [Read k (rd_str x)])%list /\
        (rs_dirty r' = false -> forall v, rs_watch r = Some (k, v) -> rd_str x = v)
    | None => rs_events r' = rs_events r \/
        exists v, rs_events r' = (rs_events r ++ [Read k v])%list
    end;
  unwatch_law : forall r x r', rs_queue r = None -> redisCommand ["UNWATCH"] r = (x, r') ->
    rs_events r' = rs_events r;
  (** Between MULTI and EXEC the commands are queued. *)
  multi_law : forall r x r', rs_queue r = None -> redisCommand ["MULTI"] r = (x, r') ->
    rs_events r' = rs_events r /\ forall y, x = Some y ->
    rd_str y = Some "OK" /\ rs_watch r' = rs_watch r /\ rs_queue r' = Some [] /\
    (rs_dirty r' = false -> rs_dirty r = false);
  del_law : forall k q r x r', rs_queue r = Some q -> redisCommand ["DEL"; k] r = (x, r') ->
    rs_events r' = rs_events r /\ forall y, x = Some y ->
    rd_str y = Some "QUEUED" /\ rs_watch r' = rs_watch r /\ rs_queue r' = Some (q ++ [k])%list /\
    (rs_dirty r' = false -> rs_dirty r = false);
  (** EXEC runs them, unless the watched key has changed. *)
  exec_law : forall k v r x r', rs_queue r = Some [k] -> rs_watch r = Some (k, v) ->
    redisCommand ["EXEC"] r = (x, r') ->
    (rs_events r' = rs_events r /\ forall y, x = Some y -> rd_elements y = 0%Z) \/
    (rs_dirty r = false /\ rs_events r' = (rs_events r ++ [Wrote k v None])%list /\
     forall y, x = Some y -> rd_elements y = 1%Z);
  reconnect_law : forall r ok r', redisReconnect r = (ok, r') -> rs_events r' = rs_events r }.

(** ** What the functions do *)

(** The process ends when no new connection is possible; a failed command with
    a new connection is followed by the use of the missing reply. *)
Definition no_reply (f : fault) : Prop := f = Exit \/ f = NullDeref.

(** The only write that [redis_sync_safe_ep_del] may cause. *)
Definition own_removal (key endpoint : string) (e : event) : Prop :=
  match e with
  | Read k _ => k = key
  | Wrote k old new => k = key /\ old = Some endpoint /\ new = None
  end.

Section Server.
Context {R : Type} `{RedisServer R}.

Lemma wp_command E words r (Q : option redisReply -> R -> Prop) :
  (forall x r', redisCommand words r = (x, r') -> Q x r') -> wp E (command words) r Q.
Proof. intros HQ. unfold wp, command. destruct (redisCommand words r) as [x r'] eqn:Ec. by apply HQ. Qed.

Lemma wp_command_exit words r (Q : option redisReply -> R -> Prop) :
  (forall x r', redisCommand words r = (Some x, r') -> Q (Some x) r') ->
  (forall r1 r2, redisCommand words r = (None, r1) -> rs_events r2 = rs_events r1 -> Q None r2) ->
  wp no_reply (command_or_exit words) r Q.
Proof.
  intros HQ HN. unfold command_or_exit. apply wp_bind, wp_command. intros [x|] r' E; [by apply HQ|].
  apply wp_bind. unfold wp, reconnect. destruct (redisReconnect r') as [ok r2] eqn:Er.
  destruct ok; cbn; [|by left]. eapply HN; [done|]. by eapply reconnect_law.
Qed.

(** The key is set exactly when it was free. *)
Lemma redis_set_nx_ok key value r : rs_queue r = None ->
  wp no_reply (redis_sync_set_if_no_key key value) r (fun z r' => rs_queue r' = None /\
    (z = 1%Z /\ rs_events r' = (rs_events r ++ [Wrote key None (Some value)])%list \/
     z = 0%Z /\ exists v, rs_events r' = (rs_events r ++ [Read key (Some v)])%list)).
Proof.
  intros Hq. unfold redis_sync_set_if_no_key. apply wp_bind, wp_command_exit; [|intros; by right].
  intros x r' E. destruct (set_nx_law key value r x r' Hq E) as (Hq' & [(Es & El & Hev)|(_ & El & Hev)]);
    apply wp_bind, wp_from_opt, wp_bind; unfold reply_is; rewrite El.
  - apply wp_bind, wp_from_opt. rewrite Es. apply wp_ret, wp_ret. split; [done|]. by left.
  - apply wp_ret, wp_ret. split; [done|]. by right.
Qed.

(** The key is removed only with the own endpoint in it, whatever the other
    clients do in between; success means this, or another endpoint in the key. *)
Lemma redis_del_ok key endpoint r : rs_queue r = None ->
  wp no_reply (redis_sync_safe_ep_del key endpoint) r (fun z r' => exists l,
    rs_events r' = (rs_events r ++ l)%list /\ Forall (own_removal key endpoint) l /\
    (z = 1%Z -> l = [Read key (Some endpoint); Wrote key (Some endpoint) None] \/
       exists v, v <> endpoint /\ l = [Read key (Some v)])).
Proof.
  intros Hq. unfold redis_sync_safe_ep_del. apply wp_bind, wp_command_exit; [|intros; by right].
  intros x r1 E1. destruct (watch_law key r x r1 Hq E1) as (Ev1 & Es & El & Hq1 & v & Hw).
  apply wp_bind, wp_from_opt, wp_bind. rewrite El. unfold reply_is. rewrite El.
  apply wp_bind, wp_from_opt. rewrite Es. apply wp_ret. cbn [negb].
  apply wp_bind. unfold redis_sync_get_value. apply wp_command_exit.
  2: { intros r2 r3 E2 Ev. apply wp_ret. rewrite Ev, <- Ev1.
       destruct (get_law key r1 None r2 Hq1 E2) as [->|[v' ->]].
       - exists []. rewrite app_nil_r. split; [done|]. by split; [constructor|].
       - eexists [_]. split; [done|]. split; [by repeat constructor|done]. }
  intros x2 r2 E2. destruct (get_law key r1 (Some x2) r2 Hq1 E2) as (Hq2 & Hw2 & Ev2 & Hd2).
  rewrite Ev1 in Ev2.
  destruct (rd_str x2) as [str|].
  2: { apply wp_ret. eexists. split; [exact Ev2|]. split; [by repeat constructor|done]. }
  assert (forall (z : Z) r', rs_events r' = rs_events r2 -> (z = 1%Z -> str <> endpoint) ->
    exists l, rs_events r' = (rs_events r ++ l)%list /\ Forall (own_removal key endpoint) l /\
      (z = 1%Z -> l = [Read key (Some endpoint); Wrote key (Some endpoint) None] \/
        exists v, v <> endpoint /\ l = [Read key (Some v)])) as Hsame.
  { intros z r' Er Hz. eexists. split; [by rewrite Er|]. split; [by repeat constructor|].
    intros Ez. right. exists str. auto. }
  destruct (bool_decide_reflect (str = endpoint)) as [->|Hne]; cbn [negb].
  2: { apply wp_bind, wp_command. intros x3 r3 E3. pose proof (unwatch_law r2 x3 r3 Hq2 E3) as Ev3.
       destruct x3; apply wp_ret; by apply Hsame. }
  apply wp_bind, wp_command. intros x3 r3 E3.
  destruct (multi_law r2 x3 r3 Hq2 E3) as (Ev3 & H3). destruct x3 as [x3|]; [|apply wp_ret; by apply Hsame].
  destruct (H3 x3 eq_refl) as (Es3 & Hw3 & Hq3 & Hd3). unfold unless at 1. rewrite Es3. cbn [negb].
  apply wp_bind, wp_command. intros x4 r4 E4.
  destruct (del_law key [] r3 x4 r4 Hq3 E4) as (Ev4 & H4). rewrite Ev3 in Ev4.
  destruct x4 as [x4|]; [|apply wp_ret; by apply Hsame].
  destruct (H4 x4 eq_refl) as (Es4 & Hw4 & Hq4 & Hd4). unfold unless. rewrite Es4. cbn [negb].
  apply wp_bind, wp_command. intros x5 r5 E5.
  destruct (exec_law key v r4 x5 r5 Hq4) as [[Ev5 H5]|(Hd & Ev5 & H5)]; [by rewrite Hw4, Hw3, Hw2|done|..].
  - rewrite Ev4 in Ev5. destruct x5 as [x5|]; [rewrite (H5 x5 eq_refl)|]; apply wp_ret; by apply Hsame.
  - rewrite <- (Hd2 ltac:(by auto) v Hw) in Ev5. rewrite Ev4, Ev2, <- app_assoc in Ev5.
    destruct x5 as [x5|]; [rewrite (H5 x5 eq_refl)|]; apply wp_ret; eexists;
      (split; [exact Ev5|]; split; [by repeat constructor|by auto]).
Qed.

End Server.

(** ** Several clients *)

(** A history of the server with the client of each event, in the order in
    which they took place: every event finds the value that the last write has
    left. *)
Fixpoint consistent (d : gmap string string) (h : list (nat * event)) : Prop :=
  match h with
  | [] => True
  | (_, Read k v) :: h => d !! k = v /\ consistent d h
  | (_, Wrote k old new) :: h =>
      d !! k = old /\ consistent (partial_alter (fun _ => new) k d) h
  end.

Definition events_of (c : nat) (h : list (nat * event)) : list event :=
  omap (fun '(i, e) => if decide (i = c) then Some e else None) h.

(** The key has not been removed. *)
Definition kept (key : string) (h : list (nat * event)) : Prop :=
  Forall (fun '(_, e) => match e with Wrote k _ None => k <> key | _ => True end) h.

Lemma no_first_write key h d c v :
  consistent d h -> kept key h -> is_Some (d !! key) -> ~ Wrote key None (Some v) ∈ events_of c h.
Proof.
  revert d. induction h as [|[i e] h IH]; intros d Hh Hk Hd; [by intros ?%elem_of_nil|].
  apply Forall_cons_iff in Hk as [He Hk]. unfold events_of. cbn. fold (events_of c h).
  destruct e as [k v'|k old new]; cbn in Hh; destruct Hh as [Ho Hh].
  - specialize (IH d Hh Hk Hd). case_decide; [|done]. rewrite elem_of_cons. by intros [|].
  - assert (is_Some (partial_alter (fun _ => new) k d !! key)) as Hd'.
    { destruct (decide (k = key)) as [->|Hne]; [|by rewrite lookup_partial_alter_ne].
      rewrite lookup_partial_alter_eq. by destruct new. }
    specialize (IH _ Hh Hk Hd'). case_decide; [|done]. rewrite elem_of_cons. intros [[= <- <- <-]|]; [|done].
    rewrite Ho in Hd. by destruct Hd.
Qed.

(** While the key stays, at most one client has found it free. *)
Lemma first_write_once key h d c1 c2 v1 v2 :
  consistent d h -> kept key h ->
  Wrote key None (Some v1) ∈ events_of c1 h -> Wrote key None (Some v2) ∈ events_of c2 h -> c1 = c2.
Proof.
  revert d. induction h as [|[i e] h IH]; intros d Hh Hk; [by intros ?%elem_of_nil|].
  apply Forall_cons_iff in Hk as [He Hk]. unfold events_of. cbn. fold (events_of c1 h) (events_of c2 h).
  destruct e as [k v'|k old new]; cbn in Hh; destruct Hh as [Ho Hh].
  - intros H1 H2. apply (IH d Hh Hk); [destruct (decide (i = c1))|destruct (decide (i = c2))]; try done;
      rewrite elem_of_cons in *; naive_solver.
  - intros H1 H2. destruct (decide (k = key /\ old = None)) as [[-> ->]|Hne].
    + destruct new as [w|]; [|done].
      pose proof (fun c v => no_first_write key h _ c v Hh Hk) as Hn.
      rewrite lookup_partial_alter_eq in Hn.
      destruct (decide (i = c1)) as [<-|], (decide (i = c2)) as [<-|]; try done;
        exfalso; first [by apply (Hn c1 v1)|by apply (Hn c2 v2)].
    + apply (IH _ Hh Hk); [destruct (decide (i = c1))|destruct (decide (i = c2))]; try done;
        rewrite elem_of_cons in *; naive_solver.
Qed.
