(* ===== verification/Fifo.v ===== *)
(** * First in, first out

    The promise of a queue to its users as a type class, its consequence for
    every history of insertions and extractions, and the two queues of the
    library as instances: the ring of tasks and the linked queue. *)

From S2P Require Import Prelude Monad Types RingBuf Queue.
Open Scope Z_scope.

(** [fifo_put] refuses an element when [fifo_room] is false (the ring is full,
    no memory for a node); [E] is what it needs from its environment. *)
Class Fifo (E S D : Type) := {
  fifo_put : E -> D -> M S Z;
  fifo_take : M S (option D);
  fifo_rep : S -> list D -> Prop;
  fifo_room : E -> list D -> bool;
  fifo_put_ok : forall e d s l, fifo_rep s l -> exists s',
    fifo_put e d s = Ok (b2z (fifo_room e l)) s' /\ fifo_rep s' (if fifo_room e l then l ++ [d] else l);
  fifo_take_ok : forall s l, fifo_rep s l -> exists s',
    fifo_take s = Ok (head l) s' /\ fifo_rep s' (tail l) }.

Inductive fifo_op (E D : Type) := Put (e : E) (d : D) | Take.
Arguments Put {E D} e d. Arguments Take {E D}.

Section Client.
Context {E S D : Type} {F : Fifo E S D}.

(** Runs a history and records the accepted elements and the extracted ones. *)
Fixpoint fifo_run (ops : list (fifo_op E D)) : M S (list D * list D) :=
  match ops with
  | [] => mret ([], [])
  | Put e d :: ops =>
      r ← fifo_put e d; '(put, got) ← fifo_run ops;
      mret (if truthy r then (d :: put, got) else (put, got))
  | Take :: ops =>
      p ← fifo_take; '(put, got) ← fifo_run ops;
      mret (match p with Some d => (put, d :: got) | None => (put, got) end)
  end.

(** The same on a list; the result has the elements that are left, too. *)
Fixpoint fifo_spec (ops : list (fifo_op E D)) (l : list D) : list D * list D * list D :=
  match ops with
  | [] => ([], [], l)
  | Put e d :: ops =>
      if fifo_room e l
      then let '(put, got, rest) := fifo_spec ops (l ++ [d]) in (d :: put, got, rest)
      else fifo_spec ops l
  | Take :: ops =>
      let '(put, got, rest) := fifo_spec ops (tail l) in
      (put, match head l with Some d => d :: got | None => got end, rest)
  end.

(** Whatever the history, the extracted elements and then the ones still held
    are the accepted ones, in their order. *)
Lemma fifo_spec_order ops l put got rest :
  fifo_spec ops l = (put, got, rest) -> l ++ put = got ++ rest.
Proof.
  revert l put got. induction ops as [|[e d|] ops IH]; intros l put got; cbn.
  - intros [= <- <- <-]. by rewrite app_nil_r.
  - destruct (fifo_room e l); [|by apply IH].
    destruct (fifo_spec ops (l ++ [d])) as [[put' got'] rest'] eqn:Es. intros [= <- <- <-].
    rewrite <- (IH _ _ _ Es), <- app_assoc. done.
  - destruct (fifo_spec ops (tail l)) as [[put' got'] rest'] eqn:Es. intros [= <- <- <-].
    pose proof (IH _ _ _ Es) as E'. destruct l as [|d l]; cbn in *; [done|]. by rewrite E'.
Qed.

Lemma fifo_run_ok ops s l : fifo_rep s l -> exists s',
  fifo_run ops s = Ok (fifo_spec ops l).1 s' /\ fifo_rep s' (fifo_spec ops l).2.
Proof.
  revert s l. induction ops as [|[e d|] ops IH]; intros s l R; [by exists s|..]; cbn [fifo_run fifo_spec].
  - destruct (fifo_put_ok e d s l R) as (s1 & E1 & R1).
    destruct (IH s1 _ R1) as (s' & E' & R'). exists s'.
    rewrite (bind_Ok _ _ _ _ _ E1), (bind_Ok _ _ _ _ _ E'), truthy_b2z.
    destruct (fifo_room e l); destruct (fifo_spec ops _) as [[put got] rest]; by split.
  - destruct (fifo_take_ok s l R) as (s1 & E1 & R1). destruct (IH s1 _ R1) as (s' & E' & R'). exists s'.
    rewrite (bind_Ok _ _ _ _ _ E1), (bind_Ok _ _ _ _ _ E').
    destruct (fifo_spec ops (tail l)) as [[put got] rest]. by destruct (head l).
Qed.

End Client.

(** ** The ring of tasks, one call after the other *)

Section Ring.
Context {D : Type}.

(** The lock of the condition, if there is one, is free. *)
Definition cond_ok (r : ringbuf D) : Prop :=
  b_cond r = Some false \/ (b_cond r = Some true /\ b_cond_lock r = Some false).
Definition ring_free_locks (r : ringbuf D) : Prop :=
  b_wlock r <> Some true /\ b_rlock r <> Some true /\ cond_ok r.

(** The slots of a ring that holds [l]: the elements and then NULLs. *)
Definition held (size : Z) (l : list D) : list (option D) :=
  (Some <$> l) ++ replicate (Z.to_nat size - length l) None.

Definition ringbuf_rep (r : ringbuf D) (l : list D) : Prop :=
  ring_view r (length l) (held (b_size r) l) /\ ring_free_locks r.

Lemma ringbuf_rep_lt r l : ringbuf_rep r l -> Z.of_nat (length l) < b_size r.
Proof.
  intros [V _]. pose proof (bv_count _ _ _ V). pose proof (bv_len _ _ _ V). lia.
Qed.

Lemma held_snoc size l d : Z.of_nat (length l) < size ->
  <[length l := Some d]> (held size l) = held size (l ++ [d]).
Proof.
  intros Hl. unfold held. rewrite <- (length_fmap Some l) at 1.
  rewrite <- (Nat.add_0_r (length (Some <$> l))). rewrite insert_app_r.
  rewrite fmap_app, <- app_assoc, length_app. f_equal. cbn.
  replace (Z.to_nat size - length l)%nat with (S (Z.to_nat size - (length l + 1)))%nat by lia.
  done.
Qed.

Lemma held_tail size d l : Z.of_nat (length (d :: l)) < size ->
  tail (held size (d :: l)) ++ [None] = held size l.
Proof.
  intros Hl. cbn in Hl. unfold held. cbn. rewrite <- app_assoc. f_equal.
  replace (Z.to_nat size - length l)%nat with (S (Z.to_nat size - S (length l)))%nat by lia.
  by rewrite replicate_S_end.
Qed.

(** The locks and the counter of sleepers do not matter to the elements. *)
Definition same_ring (r r' : ringbuf D) : Prop :=
  b_head r' = b_head r /\ b_tail r' = b_tail r /\ b_size r' = b_size r /\
  b_mask r' = b_mask r /\ b_data r' = b_data r.

Lemma view_same r r' n w : same_ring r r' -> ring_view r n w -> ring_view r' n w.
Proof.
  intros (Eh & Et & Es & Em & Ed) [Vs Vm Vd Vl Vt Vh Vc Vsl].
  split; rewrite ?Eh, ?Et, ?Es, ?Em, ?Ed; try done.
  intros i Hi. rewrite <- (Vsl i Hi). unfold b_pos. by rewrite Et, Es.
Qed.

(** What the mutexes guard is used by one thread at a time: taking and giving
    back an optional mutex, and waking a sleeper. *)
Lemma lock_opt_run {S} m (L : lens S (option bool)) s : lget L s <> Some true ->
  lock_opt m L s = Ok tt (match lget L s with Some _ => lput L (Some true) s | None => s end).
Proof. unfold lock_opt. by destruct (lget L s) as [[]|]. Qed.

(** An optional mutex that is not taken can be taken, and given back. *)
Lemma lock_opt_ok {S} m (L : lens S (option bool)) s : lget L s <> Some true ->
  exists s', lock_opt m L s = Ok tt s'.
Proof. intros H. eexists. by apply lock_opt_run. Qed.

Lemma unlock_opt_ok {S} (L : lens S (option bool)) s : exists s', unlock_opt L s = Ok tt s'.
Proof. unfold unlock_opt. destruct (lget L s); by eexists. Qed.

Definition same_locks (r r' : ringbuf D) : Prop :=
  b_size r' = b_size r /\ b_wlock r' = b_wlock r /\ b_rlock r' = b_rlock r /\
  b_cond r' = b_cond r /\ b_cond_lock r' = b_cond_lock r.

Lemma ring_signal_run r : cond_ok r -> exists r',
  ring_signal r = Ok tt r' /\ same_ring r r' /\ same_locks r r'.
Proof.
  intros Hc. unfold ring_signal, has_cond, lock_opt, unlock_opt. mrun.
  destruct Hc as [->|[-> Hk]]; [by exists r|].
  cbn [cond_lock_l lget lput]. rewrite Hk. cbn.
  destruct (0 <? b_cond_th r); cbn; eexists; (split; [reflexivity|]); by repeat split.
Qed.

(** The critical sections of the two sides. *)
Lemma ring_put_run r n w d : ring_view r n w -> Z.of_nat n < b_size r - 1 -> cond_ok r -> exists r',
  (ins_store d;; ins_publish;; ring_signal;; mret 1) r = Ok 1 r' /\
  ring_view r' (S n) (<[n := Some d]> w) /\ same_locks r r'.
Proof.
  intros V Hn Hc. destruct (ins_store_run r n w d V) as (r1 & E1 & V1 & F1).
  destruct (ins_publish_run r1 _ _ V1) as (r2 & E2 & V2 & F2); [by rewrite F1|].
  destruct (ring_signal_run r2) as (r3 & E3 & V3 & F3); [unfold cond_ok; by rewrite F2, F1|].
  exists r3. rewrite (bind_Ok _ _ _ _ _ E1), (bind_Ok _ _ _ _ _ E2), (bind_Ok _ _ _ _ _ E3).
  split; [done|]. split; [by eapply view_same|]. unfold same_locks in *.
  rewrite F2, F1 in F3. exact F3.
Qed.

Lemma ring_pop_run r n x w : ring_view r (S n) (x :: w) -> exists r',
  (ptr ← ext_load; ext_clear;; ext_advance;; mret ptr) r = Ok x r' /\
  ring_view r' n (w ++ [None]) /\ same_locks r r'.
Proof.
  intros V. destruct (ext_clear_run r _ _ V) as (r1 & E1 & V1 & F1).
  destruct (ext_advance_run r1 _ _ _ V1) as (r2 & E2 & V2 & F2). exists r2.
  rewrite (bind_Ok _ _ _ _ _ (ext_load_run r _ _ x V eq_refl)), (bind_Ok _ _ _ _ _ E1), (bind_Ok _ _ _ _ _ E2).
  split; [done|]. split; [done|]. unfold same_locks. by rewrite F2, F1.
Qed.

(** An optional mutex around a critical section: free before and after. *)
Lemma wlock_section {A} (m : M (ringbuf D) A) r a Q :
  b_wlock r <> Some true ->
  (forall r1, same_ring r r1 -> b_size r1 = b_size r -> b_rlock r1 = b_rlock r -> b_cond r1 = b_cond r ->
     b_cond_lock r1 = b_cond_lock r ->
     exists r2, m r1 = Ok a r2 /\ same_locks r1 r2 /\ (forall r3, same_ring r2 r3 -> Q r3)) ->
  exists r', (lock_opt ring_wlock wlock_l;; v ← m; unlock_opt wlock_l;; mret v) r = Ok a r' /\
    b_wlock r' <> Some true /\ b_rlock r' = b_rlock r /\ b_cond r' = b_cond r /\
    b_cond_lock r' = b_cond_lock r /\ Q r'.
Proof.
  intros Hw Hm. rewrite (bind_Ok _ _ _ _ _ (lock_opt_run ring_wlock wlock_l r Hw)).
  cbn [wlock_l lget lput].
  set (r1 := match b_wlock r with Some _ => _ | None => r end).
  destruct (Hm r1) as (r2 & E2 & (Hs & Hw2 & Hr2 & Hc2 & Hk2) & HQ);
    [unfold r1; by destruct (b_wlock r)..|].
  rewrite (bind_Ok _ _ _ _ _ E2). unfold unlock_opt. cbn [wlock_l lget lput].
  exists (match b_wlock r2 with Some _ => set_b_wlock (Some false) r2 | None => r2 end).
  split; [unfold mbind, M_bind; by destruct (b_wlock r2)|].
  assert (b_rlock r1 = b_rlock r /\ b_cond r1 = b_cond r /\ b_cond_lock r1 = b_cond_lock r)
    as (E3 & E4 & E5) by (unfold r1; by destruct (b_wlock r)).
  destruct (b_wlock r2) eqn:Ew; cbn; (split; [congruence|]); (split; [congruence|]);
    (split; [congruence|]); (split; [congruence|]); by apply HQ.
Qed.

Lemma ring_insert_rep r l d : ringbuf_rep r l -> exists r',
  ring_insert (Some d) r = Ok (b2z (bool_decide (Z.of_nat (length l) < b_size r - 1))) r' /\
  b_size r' = b_size r /\ b_cond r' = b_cond r /\
  ringbuf_rep r' (if bool_decide (Z.of_nat (length l) < b_size r - 1) then l ++ [d] else l).
Proof.
  intros [V (Hw & Hr & Hc)].
  set (Q l' r' := b_size r' = b_size r /\ ring_view r' (length l') (held (b_size r) l')).
  edestruct (wlock_section (room ← ins_room;
    if room : bool then ins_store d;; ins_publish;; ring_signal;; mret 1 else mret 0) r
    (b2z (bool_decide (Z.of_nat (length l) < b_size r - 1)))
    (Q (if bool_decide (Z.of_nat (length l) < b_size r - 1) then l ++ [d] else l)) Hw) as (r' & E & Hw' & Hr' & Hc' & Hk' & Hs & V').
  { intros r1 F Es Er Ec Ek. pose proof (view_same _ _ _ _ F V) as V1.
    rewrite (bind_Ok _ _ _ _ _ (ins_room_run r1 _ _ V1)), Es.
    case_bool_decide as Hroom.
    - destruct (ring_put_run r1 _ _ d V1) as (r2 & E2 & V2 & F2); [by rewrite Es|unfold cond_ok; by rewrite Ec, Ek|].
      exists r2. split; [done|]. split; [done|]. intros r3 F3.
      assert (b_size r3 = b_size r) as Es3 by (destruct F2 as [? _], F3 as (_ & _ & ? & _); congruence).
      split; [done|]. rewrite held_snoc, <- Nat.add_1_r in V2 by (by apply (Z.lt_le_trans _ (b_size r - 1)); [|lia]).
      rewrite length_app. cbn. by eapply view_same.
    - exists r1. split; [done|]. split; [done|]. intros r3 F3. split; [destruct F3 as (_ & _ & ? & _); congruence|].
      by eapply view_same. }
  exists r'. split; [|split; [done|split; [done|]]].
  - etransitivity; [|exact E]. unfold ring_insert, from_opt, ins_room. mrun.
    unfold lock_opt. cbn. destruct (b_wlock r) as [[]|]; try done; cbn; by destruct (0 <? _).
  - split; [by rewrite Hs|]. split; [done|]. split; [by rewrite Hr'|]. unfold cond_ok in *. by rewrite Hc', Hk'.
Qed.

Lemma ring_take_rep r l :
  ring_view r (length l) (held (b_size r) l) -> Z.of_nat (length l) < b_size r -> exists r',
  ring_take r = Ok (head l) r' /\ b_size r' = b_size r /\ b_cond r' = b_cond r /\
  ring_view r' (length (tail l)) (held (b_size r) (tail l)) /\
  b_wlock r' = b_wlock r /\ b_cond_lock r' = b_cond_lock r /\ b_rlock r' <> Some true.
Proof.
  intros V Hlt. unfold ring_take, unlock_opt. rewrite (bind_Ok _ _ _ _ _ (ext_some_run r _ _ V)).
  set (fin := fun r : ringbuf D => match b_rlock r with Some _ => set_b_rlock (Some false) r | None => r end).
  assert (forall (x : option D) r2, b_size r2 = b_size r -> same_locks r r2 ->
    ring_view r2 (length (tail l)) (held (b_size r) (tail l)) -> exists r',
    (unlock_opt rlock_l;; mret x : M _ (option D)) r2 = Ok x r' /\ b_size r' = b_size r /\ b_cond r' = b_cond r /\
    ring_view r' (length (tail l)) (held (b_size r) (tail l)) /\
    b_wlock r' = b_wlock r /\ b_cond_lock r' = b_cond_lock r /\ b_rlock r' <> Some true) as Hend.
  { intros x r2 Es (_ & Ew & Er & Ec & Ek) V2. exists (fin r2). unfold unlock_opt, fin. mrun.
    cbn [rlock_l lget lput]. destruct (b_rlock r2) eqn:Er2; (split; [done|]); (split; [exact Es|]); (split; [exact Ec|]); cbn;
      (split; [eapply view_same; [|exact V2]; by repeat split|]); (split; [exact Ew|]); (split; [exact Ek|]); congruence. }
  destruct l as [|d l].
  - rewrite bool_decide_eq_false_2 by (by intros []).
    exact (Hend None r eq_refl ltac:(by repeat split) V).
  - rewrite bool_decide_eq_true_2 by done.
    assert (held (b_size r) (d :: l) = Some d :: tail (held (b_size r) (d :: l))) as Eh by done.
    rewrite Eh in V. destruct (ring_pop_run r _ _ _ V) as (r2 & E2 & V2 & F2).
    rewrite (bind_Ok _ _ _ _ _ E2). apply (Hend (Some d)); [apply F2|done|].
    rewrite (held_tail _ d l) in V2 by done. exact V2.
Qed.

(** An extraction answers the oldest element; on an empty ring it answers NULL
    or, with the condition, goes to sleep. *)
Lemma ring_extract_rep r l : ringbuf_rep r l -> exists r',
  ring_extract_timeout r = Ok (if bool_decide (b_cond r = Some true /\ l = []) then Waiting else Extracted (head l)) r' /\
  b_size r' = b_size r /\ b_cond r' = b_cond r /\
  if bool_decide (b_cond r = Some true /\ l = [])
  then ring_view r' 0 (held (b_size r) []) /\ b_wlock r' = b_wlock r /\ cond_ok r' /\
       b_cond_th r' = b_cond_th r + 1
  else ringbuf_rep r' (tail l).
Proof.
  intros R. pose proof (ringbuf_rep_lt r l R) as Hlt. destruct R as [V (Hw & Hr & Hc)].
  unfold ring_extract_timeout. rewrite (bind_Ok _ _ _ _ _ (lock_opt_run ring_rlock rlock_l r Hr)).
  cbn [rlock_l lget lput].
  set (r1 := match b_rlock r with Some _ => _ | None => r end).
  assert (same_ring r r1) as F1 by (unfold r1; by destruct (b_rlock r)).
  assert (b_size r1 = b_size r /\ b_wlock r1 = b_wlock r /\ b_cond r1 = b_cond r /\
    b_cond_lock r1 = b_cond_lock r /\ b_cond_th r1 = b_cond_th r) as (Es & Ew & Ec & Ek & Et)
    by (unfold r1; by destruct (b_rlock r)).
  pose proof (view_same _ _ _ _ F1 V) as V1. clearbody r1. rewrite <- Es in V1, Hlt.
  assert (cond_ok r1) as Hc1 by (unfold cond_ok; by rewrite Ec, Ek).
  pose proof (view_count _ _ _ V1) as Hn.
  destruct (ring_take_rep r1 l V1 Hlt) as (r2 & E2 & Es2 & Ec2 & V2 & Ew2 & Ek2 & Er2).
  assert (ringbuf_rep r2 (tail l)) as R2.
  { split; [by rewrite Es2|]. split; [by rewrite Ew2, Ew|]. split; [done|].
    unfold cond_ok. by rewrite Ec2, Ek2. }
  destruct (bool_decide_reflect (b_cond r = Some true /\ l = [])) as [[Ht ->]|Hne].
  - destruct Hc1 as [Hc1|[Hc1 Hk1]]; [congruence|]. cbn in Hn.
    unfold has_cond, ext_sleep, lock_opt, unlock_opt. mrun. rewrite Hc1. cbn. rewrite Hn. cbn.
    change (Z.of_nat 0 =? 0) with true. cbv beta iota. rewrite Hk1. cbn. change (ring_count (set_b_cond_lock (Some true) r1)) with (ring_count r1).
    rewrite Hn. change (Z.of_nat 0 =? 0) with true. cbv beta iota. cbn.
    eexists. split; [reflexivity|]. split; [done|]. split; [done|].
    split; [eapply view_same; [|rewrite <- Es; exact V1]; by repeat split|]. split; [done|].
    split; [right; split; done|]. cbn. lia.
  - assert (match b_cond r1 with Some c => c && (ring_count r1 =? 0) | None => true end = false) as Hb.
    { destruct Hc1 as [->|[Hc1 _]]; [done|]. rewrite Hc1, Hn. cbn. destruct l; [|done].
      destruct Hne. by rewrite <- Ec. }
    exists r2. split; [|split; [congruence|split; [congruence|exact R2]]].
    unfold has_cond. mrun. destruct (b_cond r1); [|done]. rewrite Hb. by rewrite E2.
Qed.

(** The oldest element without extracting it. *)
Lemma ring_get_rep r l : ringbuf_rep r l -> exists r',
  ring_get r = Ok (head l) r' /\ ringbuf_rep r' l.
Proof.
  intros R. pose proof (ringbuf_rep_lt r l R) as Hlt. destruct R as [V (Hw & Hr & Hc)].
  unfold ring_get. rewrite (bind_Ok _ _ _ _ _ (lock_opt_run ring_rlock rlock_l r Hr)).
  cbn [rlock_l lget lput].
  set (r1 := match b_rlock r with Some _ => _ | None => r end).
  assert (same_ring r r1) as F1 by (unfold r1; by destruct (b_rlock r)).
  pose proof (view_same _ _ _ _ F1 V) as V1.
  rewrite (bind_Ok _ _ _ (head l) r1).
  - exists (match b_rlock r1 with Some _ => set_b_rlock (Some false) r1 | None => r1 end).
    split; [unfold unlock_opt; mrun; cbn [rlock_l lget lput]; by destruct (b_rlock r1)|].
    split; [unfold r1; destruct (b_rlock r) eqn:E; cbn; rewrite ?E; eapply view_same; try exact V; by repeat split|].
    unfold ring_free_locks, cond_ok, r1. by destruct (b_rlock r) eqn:E; cbn; rewrite ?E.
  - apply (ext_load_run r1 _ _ _ V1). unfold held. destruct l as [|d l]; [|done].
    cbn. apply lookup_replicate_2. cbn in Hlt. lia.
Qed.

(** A timed extraction during which nothing is inserted. *)
Definition ring_poll : M (ringbuf D) (option D) :=
  res ← ring_extract_timeout;
  match res with Extracted p => mret p | Waiting => ring_extract_resume true end.

Lemma ring_poll_rep r l : ringbuf_rep r l -> exists r',
  ring_poll r = Ok (head l) r' /\ b_size r' = b_size r /\ ringbuf_rep r' (tail l).
Proof.
  intros R. destruct (ring_extract_rep r l R) as (r1 & E1 & Es & Ec & Hres). unfold ring_poll.
  rewrite (bind_Ok _ _ _ _ _ E1). case_bool_decide as Hw; [|by exists r1].
  destruct Hw as [Hb ->]. destruct Hres as (V1 & Ew & Hc & _). rewrite <- Es in V1.
  destruct Hc as [Hc|[Hc Hk]]; [congruence|]. destruct R as [_ (Hwl & _ & _)]. rewrite <- Ew in Hwl.
  unfold ring_extract_resume, lock_opt, unlock_opt. mrun. cbn [rlock_l cond_lock_l lget lput].
  rewrite Hk. cbn.
  exists (match b_rlock r1 with
    | Some _ => set_b_rlock (Some false) (set_b_cond_lock (Some false) (set_b_cond_lock (Some true) r1))
    | None => set_b_cond_lock (Some false) (set_b_cond_lock (Some true) r1) end).
  split; [by destruct (b_rlock r1)|]. destruct (b_rlock r1) eqn:Er; cbn; (split; [done|]); split.
  1,3: eapply view_same; [|exact V1]; by repeat split.
  all: split; [done|]; split; [by cbn; rewrite ?Er|right; by split].
Qed.

(** A wake-up on an empty ring answers NULL. *)
Lemma resume_empty (r : ringbuf D) w : ring_view r 0 w -> b_cond_lock r <> Some true ->
  exists r', ring_extract_resume false r = Ok None r'.
Proof.
  intros V Hk. destruct (lock_opt_ok ring_cond_lock cond_lock_l r Hk) as [r1 E1].
  destruct (unlock_opt_ok cond_lock_l r1) as [r2 E2]. destruct (unlock_opt_ok rlock_l r2) as [r3 E3].
  exists r3. unfold ring_extract_resume, ring_take.
  rewrite (bind_Ok _ _ _ _ _ E1), (bind_Ok _ _ _ _ _ E2).
  assert (same_ring r r2) as F.
  { unfold lock_opt in E1. unfold unlock_opt in E2. cbn in *.
    destruct (b_cond_lock r) as [[]|]; [done|..]; injection E1 as <-; cbn in E2;
      [|destruct (b_cond_lock r)]; injection E2 as <-; by repeat split. }
  rewrite (bind_Ok _ _ _ _ _ (ext_some_run _ _ _ (view_same _ _ _ _ F V))).
  change ((unlock_opt rlock_l;; mret None : M _ (option D)) r2 = Ok None r3).
  by rewrite (bind_Ok _ _ _ _ _ E3).
Qed.

(** ** Creation *)

Lemma ring_create_rep mem size flags r :
  is_u32 size -> ring_create (D := D) mem size flags = Ok (inr r) tt ->
  ringbuf_rep r [] /\ b_size r = Z.max 16 size /\
  b_cond r = Some (truthy (Z.land flags RING_EBLOCK)) /\
  b_cond_th r = 0 /\ (b_wlock r = None <-> truthy (Z.land flags RING_MP) = false).
Proof.
  intros Hsz. unfold ring_create. destruct (Z.eqb_spec size 0); [done|].
  set (n0 := if size <? 16 then 16 else size).
  assert (n0 = Z.max 16 size) as En by (unfold n0; zcases; lia). clearbody n0.
  rewrite u32_small by lia.
  destruct (Z.eqb_spec (Z.land n0 (n0 - 1)) 0) as [Hp|]; [|done]. cbn [negb].
  apply land_pred_pow2 in Hp as (k & Hk & Ek); [|lia].
  assert (4 <= k <= 31).
  { split.
    - apply (Z.pow_le_mono_r_iff 2); lia.
    - enough (k < 32) by lia. apply (Z.pow_lt_mono_r_iff 2); lia. }
  assert (forall (wl rl : option bool) cl c th, wl <> Some true -> rl <> Some true ->
    (c = Some false \/ c = Some true /\ cl = Some false) ->
    ringbuf_rep (RingBuf 0 0 n0 (n0 - 1) flags th cl c wl rl (replicate (Z.to_nat n0) None)) (@nil D)) as Hrep.
  { intros wl rl cl c th Hwl Hrl Hc. split; [|by split]. unfold held. cbn.
    rewrite Nat.sub_0_r. split; cbn; rewrite ?length_replicate; try lia; try done; [by exists k|].
    intros i Hi. unfold b_pos. cbn. rewrite Z.add_0_l, Z.mod_small, Nat2Z.id by lia. done. }
  destruct mem as [[] [] [] [] [] []]; cbn; try done;
    destruct (truthy (Z.land flags RING_MP)), (truthy (Z.land flags RING_MC)),
      (truthy (Z.land flags RING_EBLOCK)); cbn; intros [= <-]; cbn;
    (split; [apply Hrep; by auto|]); by repeat split.
Qed.

End Ring.

(** ** Instances *)

(** A ring of [size] slots holds at most [size - 1] elements. *)
Definition ring_room {D} (size : Z) (_ : unit) (l : list D) : bool :=
  bool_decide (Z.of_nat (length l) < size - 1).
Definition sized_rep {D} (size : Z) (r : ringbuf D) (l : list D) : Prop :=
  ringbuf_rep r l /\ b_size r = size.

Lemma ringbuf_put_ok {D} size (e : unit) (d : D) r l : sized_rep size r l -> exists r',
  ring_insert (Some d) r = Ok (b2z (ring_room size e l)) r' /\
  sized_rep size r' (if ring_room size e l then l ++ [d] else l).
Proof.
  intros [R <-]. destruct (ring_insert_rep r l d R) as (r' & E & Es & _ & R').
  exists r'. split; [exact E|]. by split.
Qed.

Lemma ringbuf_take_ok {D} size (r : ringbuf D) l : sized_rep size r l -> exists r',
  ring_poll r = Ok (head l) r' /\ sized_rep size r' (tail l).
Proof. intros [R <-]. destruct (ring_poll_rep r l R) as (r' & E & Es & R'). by exists r'. Qed.

#[export] Instance ringbuf_fifo {D} (size : Z) : Fifo unit (ringbuf D) D := {
  fifo_put _ d := ring_insert (Some d);
  fifo_take := ring_poll;
  fifo_rep := sized_rep size;
  fifo_room := ring_room size;
  fifo_put_ok := ringbuf_put_ok size;
  fifo_take_ok := ringbuf_take_ok size }.

Lemma queue_put_ok {D} (malloc_ok : bool) (d : D) q l : queue_rep q l -> exists q',
  enqueue malloc_ok (Some d) q = Ok (b2z malloc_ok) q' /\
  queue_rep q' (if malloc_ok then l ++ [d] else l).
Proof.
  intros R. destruct malloc_ok.
  - by apply enqueue_rep.
  - exists q. split; [|done]. apply enqueue_refused. by auto.
Qed.

Lemma queue_take_ok {D} (q : option (queue_t D)) l : queue_rep q l -> exists q',
  (pe ← dequeue; mret pe.1) q = Ok (head l) q' /\ queue_rep q' (tail l).
Proof.
  intros R. destruct l as [|d l].
  - exists q. by rewrite (bind_Ok _ _ _ _ _ (dequeue_empty q R)).
  - destruct (dequeue_rep q d l R) as (q' & E & R'). exists q'. by rewrite (bind_Ok _ _ _ _ _ E).
Qed.

#[export] Instance queue_fifo {D} : Fifo bool (option (queue_t D)) D := {
  fifo_put malloc_ok d := enqueue malloc_ok (Some d);
  fifo_take := pe ← dequeue; mret pe.1;
  fifo_rep := queue_rep;
  fifo_room malloc_ok _ := malloc_ok;
  fifo_put_ok := queue_put_ok;
  fifo_take_ok := queue_take_ok }.
