(* ===== verification/RingConc.v ===== *)
(** * The ring of tasks between its threads

    The producers take turns with the write lock while the consumer extracts
    without it: the two sides meet in [head], [tail], the slots and the
    condition. Each step below is one of the accesses of RingBuf.v, in the
    order of [ring_insert] and [ring_extract_timeout]; the memory is
    sequentially consistent. The ghost lists record what was inserted and what
    was extracted. *)

From S2P Require Import Prelude Monad Types RingBuf Fifo.
Open Scope Z_scope.

Module Threads.
Section Steps.
Context {D : Type}.

(** Where the producer that holds the write lock is, ... *)
Inductive ppc := PIdle | PStore (d : D) | PPublish (d : D) | PSignal.

(** ... and where the consumer is. [CChecked] has seen the empty ring and holds
    the lock of the condition; [CWoken] says if a signal ended the wait. *)
Inductive cpc :=
| CIdle | CTest | CChecked | CWait | CWoken (signalled : bool)
| CLoad | CClear (p : option D) | CAdvance (p : option D).

Record sys := Sys {
  s_ring : ringbuf D;
  s_p : ppc;
  s_c : cpc;
  s_put : list D;
  s_got : list (option D) }.

(** The signal of [ring_signal] is sent. *)
Definition signals (r : ringbuf D) : bool :=
  match b_cond r with Some c => c && (0 <? b_cond_th r) | None => false end.

Inductive producer_step : sys -> sys -> Prop :=
| p_room d r r1 r2 c put got :
    lock_opt ring_wlock wlock_l r = Ok tt r1 -> ins_room r1 = Ok true r2 ->
    producer_step (Sys r PIdle c put got) (Sys r2 (PStore d) c put got)
| p_full r r1 r2 r3 c put got :
    lock_opt ring_wlock wlock_l r = Ok tt r1 -> ins_room r1 = Ok false r2 ->
    unlock_opt wlock_l r2 = Ok tt r3 ->
    producer_step (Sys r PIdle c put got) (Sys r3 PIdle c put got)
| p_store d r r1 c put got :
    ins_store d r = Ok tt r1 ->
    producer_step (Sys r (PStore d) c put got) (Sys r1 (PPublish d) c put got)
| p_publish d r r1 c put got :
    ins_publish r = Ok tt r1 ->
    producer_step (Sys r (PPublish d) c put got) (Sys r1 PSignal c (put ++ [d]) got)
| p_signal r r1 r2 c put got :
    ring_signal r = Ok tt r1 -> unlock_opt wlock_l r1 = Ok tt r2 ->
    producer_step (Sys r PSignal c put got)
      (Sys r2 PIdle (match c with CWait => if signals r then CWoken true else CWait | _ => c end) put got).

Inductive consumer_step : sys -> sys -> Prop :=
| c_enter r r1 p put got :
    lock_opt ring_rlock rlock_l r = Ok tt r1 ->
    consumer_step (Sys r p CIdle put got) (Sys r1 p CTest put got)
| c_check r r1 p put got :
    b_cond r = Some true -> lock_opt ring_cond_lock cond_lock_l r = Ok tt r1 ->
    ext_some r1 = Ok false r1 ->
    consumer_step (Sys r p CTest put got) (Sys r1 p CChecked put got)
| c_sleep r r1 p put got :
    ext_sleep r = Ok tt r1 ->
    consumer_step (Sys r p CChecked put got) (Sys r1 p CWait put got)
| c_some r p c put got :
    c = CTest \/ (exists b, c = CWoken b) -> ext_some r = Ok true r ->
    consumer_step (Sys r p c put got) (Sys r p CLoad put got)
| c_none r r1 p c put got :
    (c = CTest /\ b_cond r = Some false) \/ (exists b, c = CWoken b) -> ext_some r = Ok false r ->
    unlock_opt rlock_l r = Ok tt r1 ->
    consumer_step (Sys r p c put got) (Sys r1 p CIdle put got)
| c_load r x p put got :
    ext_load r = Ok x r ->
    consumer_step (Sys r p CLoad put got) (Sys r p (CClear x) put got)
| c_clear r r1 x p put got :
    ext_clear r = Ok tt r1 ->
    consumer_step (Sys r p (CClear x) put got) (Sys r1 p (CAdvance x) put got)
| c_advance r r1 r2 x p put got :
    ext_advance r = Ok tt r1 -> unlock_opt rlock_l r1 = Ok tt r2 ->
    consumer_step (Sys r p (CAdvance x) put got) (Sys r2 p CIdle put (got ++ [x])).

(** A wait that ends without a signal, as POSIX allows, or by its time. *)
Inductive wakeup_step : sys -> sys -> Prop :=
| w_spurious r r1 r2 p put got :
    lock_opt ring_cond_lock cond_lock_l r = Ok tt r1 -> unlock_opt cond_lock_l r1 = Ok tt r2 ->
    wakeup_step (Sys r p CWait put got) (Sys r2 p (CWoken false) put got)
| w_timeout r r1 p put got :
    ring_extract_resume true r = Ok None r1 ->
    wakeup_step (Sys r p CWait put got) (Sys r1 p CIdle put got).

Inductive step : sys -> sys -> Prop :=
| s_producer s s' : producer_step s s' -> step s s'
| s_consumer s s' : consumer_step s s' -> step s s'
| s_wakeup s s' : wakeup_step s s' -> step s s'.

(** From a new ring, by any interleaving. *)
Inductive reachable (r0 : ringbuf D) : sys -> Prop :=
| reach_init : reachable r0 (Sys r0 PIdle CIdle [] [])
| reach_step s s' : reachable r0 s -> step s s' -> reachable r0 s'.

(** ** The invariant *)

(** The inserted elements that are not extracted yet. *)
Definition pending (s : sys) : list D := drop (length (s_got s)) (s_put s).

Definition cleared (c : cpc) : bool := match c with CAdvance _ => true | _ => false end.

(** The slots hold the pending elements, except the one the consumer has
    cleared, and the one the producer has written in advance. *)
Record data_inv (s : sys) (w : list (option D)) : Prop := {
  di_view : ring_view (s_ring s) (length (pending s)) w;
  di_got : s_got s = Some <$> take (length (s_got s)) (s_put s);
  di_slots : forall i d, pending s !! i = Some d ->
    w !! i = Some (if cleared (s_c s) && (i =? 0)%nat then None else Some d);
  di_p : match s_p s with
    | PStore d => Z.of_nat (length (pending s)) < b_size (s_ring s) - 1
    | PPublish d => Z.of_nat (length (pending s)) < b_size (s_ring s) - 1 /\
        w !! length (pending s) = Some (Some d)
    | _ => True end;
  di_c : match s_c s with
    | CLoad => pending s <> []
    | CClear x | CAdvance x => exists d, x = Some d /\ head (pending s) = Some d
    | _ => True end }.

(** Who holds which lock; a sleeping consumer is counted, and when the ring is
    not empty the producer is about to wake it. *)
Record lock_inv (s : sys) : Prop := {
  li_w : s_p s = PIdle -> b_wlock (s_ring s) <> Some true;
  li_r : s_c s = CIdle -> b_rlock (s_ring s) <> Some true;
  li_cond : match s_c s with
    | CChecked => b_cond (s_ring s) = Some true /\ b_cond_lock (s_ring s) = Some true
    | CWait => b_cond (s_ring s) = Some true /\ b_cond_lock (s_ring s) = Some false /\ 0 < b_cond_th (s_ring s)
    | _ => cond_ok (s_ring s) end;
  li_th : 0 <= b_cond_th (s_ring s);
  li_sleep : (s_c s = CChecked \/ s_c s = CWait) -> pending s <> [] -> s_p s = PSignal }.

Definition ring_inv (s : sys) : Prop := (exists w, data_inv s w) /\ lock_inv s.

Lemma got_length s w : data_inv s w -> (length (s_got s) <= length (s_put s))%nat.
Proof.
  intros I. pose proof (f_equal length (di_got _ _ I)) as E. rewrite length_fmap, length_take in E. lia.
Qed.

Lemma pending_put s w d : data_inv s w ->
  drop (length (s_got s)) (s_put s ++ [d]) = pending s ++ [d].
Proof. intros I. apply drop_app_le. by eapply got_length. Qed.

Lemma pending_got r p c put got x :
  drop (length (got ++ [x])) put = tail (pending (Sys r p c put got)).
Proof.
  rewrite length_app. cbn. rewrite <- drop_drop. unfold pending. cbn.
  by destruct (drop (length got) put).
Qed.

(** Only the ring's indices and slots matter to the data. *)
Lemma data_move r p c put got w r' p' c' :
  data_inv (Sys r p c put got) w -> same_ring r r' -> cleared c' = cleared c ->
  match p' with
  | PStore d => Z.of_nat (length (drop (length got) put)) < b_size r - 1
  | PPublish d => p = p' | _ => True end ->
  match c' with
  | CLoad => drop (length got) put <> []
  | CClear x | CAdvance x => exists d, x = Some d /\ head (drop (length got) put) = Some d
  | _ => True end ->
  data_inv (Sys r' p' c' put got) w.
Proof.
  intros [V G Sl Dp Dc] F Hc Hp Hc'. unfold pending in *. cbn in *. split; cbn.
  - by eapply view_same.
  - done.
  - by rewrite Hc.
  - destruct F as (_ & _ & -> & _). destruct p'; try done. by rewrite Hp in Dp.
  - done.
Qed.

Ltac run_lock H :=
  unfold lock_opt, unlock_opt in H; cbn in H;
  repeat match type of H with
  | context [match ?x with _ => _ end] => destruct x as [[]|] eqn:?; cbn in H
  end; try discriminate H; injection H as <-.

Lemma lock_w_same (r r' : ringbuf D) : lock_opt ring_wlock wlock_l r = Ok tt r' -> same_ring r r'.
Proof. intros H. run_lock H; by repeat split. Qed.
Lemma unlock_w_same (r r' : ringbuf D) : unlock_opt wlock_l r = Ok tt r' -> same_ring r r'.
Proof. intros H. run_lock H; by repeat split. Qed.
Lemma lock_r_same (r r' : ringbuf D) : lock_opt ring_rlock rlock_l r = Ok tt r' -> same_ring r r'.
Proof. intros H. run_lock H; by repeat split. Qed.
Lemma unlock_r_same (r r' : ringbuf D) : unlock_opt rlock_l r = Ok tt r' -> same_ring r r'.
Proof. intros H. run_lock H; by repeat split. Qed.
Lemma lock_c_same (r r' : ringbuf D) : lock_opt ring_cond_lock cond_lock_l r = Ok tt r' -> same_ring r r'.
Proof. intros H. run_lock H; by repeat split. Qed.
Lemma unlock_c_same (r r' : ringbuf D) : unlock_opt cond_lock_l r = Ok tt r' -> same_ring r r'.
Proof. intros H. run_lock H; by repeat split. Qed.
Lemma same_trans (r1 r2 r3 : ringbuf D) : same_ring r1 r2 -> same_ring r2 r3 -> same_ring r1 r3.
Proof. unfold same_ring. intuition congruence. Qed.

Lemma signal_same (r r' : ringbuf D) : ring_signal r = Ok tt r' -> same_ring r r'.
Proof.
  unfold ring_signal, has_cond, lock_opt, unlock_opt. mrun.
  destruct (b_cond r) as [[]|]; cbn; [|by intros [= <-]|done].
  destruct (b_cond_lock r) as [[]|]; cbn; [done|..]; destruct (0 <? b_cond_th r); cbn;
    try intros [= <-]; try by repeat split.
  all: destruct (b_cond_lock r); cbn; intros [= <-]; by repeat split.
Qed.

Lemma producer_data s s' w : data_inv s w -> producer_step s s' ->
  exists w', data_inv s' w'.
Proof.
  intros I Hs. pose proof I as [V G Sl Dp Dc].
  destruct Hs as [d r r1 r2 c put got E1 E2|r r1 r2 r3 c put got E1 E2 E3|d r r1 c put got E1
    |d r r1 c put got E1|r r1 r2 c put got E1 E2]; unfold pending in *; cbn in *.
  - exists w. apply lock_w_same in E1. pose proof (view_same _ _ _ _ E1 V) as V1.
    rewrite (ins_room_run _ _ _ V1) in E2. injection E2 as Hroom <-.
    apply bool_decide_eq_true in Hroom. eapply data_move; [exact I|exact E1|done| |exact Dc].
    destruct E1 as (_ & _ & <- & _). exact Hroom.
  - exists w. apply lock_w_same in E1. apply unlock_w_same in E3.
    unfold ins_room in E2. injection E2 as _ <-.
    by eapply data_move; [exact I|eapply same_trans|..].
  - destruct (ins_store_run r _ _ d V) as (r' & E & V' & F). rewrite E in E1. injection E1 as ->.
    pose proof (bv_count _ _ _ V) as Hlt. exists (<[length (drop (length got) put) := Some d]> w).
    split; unfold pending; cbn; try done.
    + intros i x Hi. rewrite list_lookup_insert_ne; [by apply Sl|]. apply lookup_lt_Some in Hi. lia.
    + split; [by rewrite F|]. by apply list_lookup_insert_eq.
  - destruct Dp as [Hroom Hw]. destruct (ins_publish_run r _ _ V Hroom) as (r' & E & V' & F).
    rewrite E in E1. injection E1 as ->. exists w. pose proof (pending_put _ _ d I) as Hpend.
    pose proof (got_length _ _ I) as Hlen. unfold pending in Hpend; cbn in *.
    split; unfold pending; cbn; rewrite ?Hpend; try done.
    + rewrite length_app, Nat.add_comm. exact V'.
    + by rewrite take_app_le.
    + intros i x Hi. apply lookup_snoc_Some in Hi as [[_ Hi]|[-> ->]]; [by apply Sl|].
      rewrite Hw. destruct (cleared c) eqn:Hc; [|done]. destruct c; try done.
      destruct Dc as (y & _ & Hy). destruct (drop (length got) put); [done|]. done.
    + destruct c; try done; [by intros [_ ?]%app_nil|..].
      all: destruct Dc as (y & -> & Hy); exists y; split; [done|]; by destruct (drop (length got) put).
  - exists w. apply signal_same in E1. apply unlock_w_same in E2.
    eapply data_move; [exact I|by eapply same_trans|..]; destruct c; try destruct (signals r); done.
Qed.

Lemma pending_view r p c put got w : data_inv (Sys r p c put got) w ->
  ring_view r (length (drop (length got) put)) w.
Proof. intros I. exact (di_view _ _ I). Qed.

Lemma consumer_data s s' w : data_inv s w -> consumer_step s s' ->
  exists w', data_inv s' w'.
Proof.
  intros I Hs. pose proof I as [V G Sl Dp Dc]. pose proof (got_length _ _ I) as Hlen.
  destruct Hs as [r r1 p put got E|r r1 p put got _ E _|r r1 p put got E|r p c put got Hc E
    |r r1 p c put got Hc E E1|r x p put got E|r r1 x p put got E|r r1 r2 x p put got E1 E2];
    unfold pending in *; cbn in *.
  - exists w. apply lock_r_same in E. eapply data_move; [exact I|exact E|done|by destruct p|done].
  - exists w. apply lock_c_same in E. eapply data_move; [exact I|exact E|done|by destruct p|done].
  - exists w. assert (same_ring r r1) as F.
    { unfold ext_sleep in E. unfold mbind, M_bind in E. cbn in E. by apply unlock_c_same in E. }
    eapply data_move; [exact I|exact F|done|by destruct p|done].
  - exists w. rewrite (ext_some_run _ _ _ V) in E. injection E as E. apply bool_decide_eq_true in E.
    eapply data_move; [exact I|done| | |].
    + by destruct Hc as [->|[b ->]].
    + by destruct p.
    + intros E0. by rewrite E0 in E.
  - exists w. apply unlock_r_same in E1.
    eapply data_move; [exact I|done| |by destruct p|done].
    by destruct Hc as [[-> _]|[b ->]].
  - exists w. destruct (drop (length got) put) as [|d rest] eqn:Ed; [done|].
    pose proof (Sl 0%nat d eq_refl) as E0. cbn in E0. rewrite (ext_load_run _ _ _ _ V E0) in E.
    injection E as <-. eapply data_move; [exact I|done|done|..]; rewrite ?Ed; [by destruct p|by exists d].
  - destruct (ext_clear_run r _ _ V) as (r' & E' & V' & F). rewrite E' in E. injection E as ->.
    pose proof (bv_count _ _ _ V) as Hlt. exists (<[0%nat := None]> w).
    split; unfold pending; cbn; try done.
    + intros i d Hi. destruct (Nat.eqb_spec i 0) as [->|Hne]; [apply list_lookup_insert_eq; lia|].
      rewrite list_lookup_insert_ne by done. by apply Sl.
    + rewrite F. cbn. destruct p; try done. destruct Dp as [? Hd]. split; [done|].
      rewrite list_lookup_insert_ne; [done|]. destruct Dc as (y & _ & Hy).
      by destruct (drop (length got) put).
  - destruct Dc as (d & -> & Hd). destruct (drop (length got) put) as [|d' rest] eqn:Ed; [done|].
    injection Hd as ->. cbn in V. destruct w as [|x w]; [pose proof (bv_count _ _ _ V) as Hlt; cbn in Hlt; lia|].
    destruct (ext_advance_run r _ _ _ V) as (r' & E & V' & F). rewrite E in E1. injection E1 as ->.
    exists (w ++ [x]). apply unlock_r_same in E2.
    assert (drop (length (got ++ [Some d])) put = rest) as Ed'
      by (rewrite (pending_got r PIdle CIdle); unfold pending; cbn; by rewrite Ed).
    assert (put !! length got = Some d) as Hput by (by rewrite <- (Nat.add_0_r (length got)), <- lookup_drop, Ed).
    pose proof (bv_count _ _ _ V) as Hlt. cbn in Hlt.
    split; unfold pending; cbn; rewrite ?Ed'; try done.
    + by eapply view_same.
    + rewrite length_app, Nat.add_comm. cbn. rewrite (take_S_r _ _ _ Hput), fmap_app, <- G. done.
    + intros i y Hi. rewrite lookup_app_l by (apply lookup_lt_Some in Hi; lia).
      pose proof (Sl (S i) y Hi) as Hs. exact Hs.
    + destruct E2 as (_ & _ & -> & _). rewrite F. cbn in Dp |- *. destruct p; try done; [lia|].
      destruct Dp as [? Hw]. split; [lia|]. rewrite lookup_app_l; [done|].
      by apply lookup_lt_Some in Hw.
Qed.

Lemma wakeup_data s s' w : data_inv s w -> wakeup_step s s' -> data_inv s' w.
Proof.
  intros I Hs. pose proof I as [V G Sl Dp Dc].
  destruct Hs as [r r1 r2 p put got E1 E2|r r1 p put got E]; unfold pending in *; cbn in *.
  - apply lock_c_same in E1. apply unlock_c_same in E2.
    eapply data_move; [exact I|by eapply same_trans|done|by destruct p|done].
  - eapply data_move; [exact I| |done|by destruct p|done].
    unfold ring_extract_resume, lock_opt, unlock_opt in E. revert E. mrun.
    cbn [cond_lock_l rlock_l lget lput].
    destruct (b_cond_lock r) as [[]|] eqn:Ek; cbn; [done|..]; rewrite ?Ek;
      destruct (b_rlock r) eqn:Er; cbn; rewrite ?Er; intros [= <-]; by repeat split.
Qed.

(** ** The locks and the sleeper *)

Lemma signal_locks r r' : ring_signal r = Ok tt r' -> 0 <= b_cond_th r ->
  (b_cond_lock r = Some false -> b_cond r = Some true -> b_cond_lock r' = Some false) /\
  (cond_ok r -> cond_ok r') /\
  b_wlock r' = b_wlock r /\ b_rlock r' = b_rlock r /\ b_cond r' = b_cond r /\
  (b_cond r = Some true -> b_cond_lock r <> Some true) /\
  b_cond_th r' = (if signals r then b_cond_th r - 1 else b_cond_th r).
Proof.
  unfold ring_signal, signals, cond_ok, has_cond, lock_opt, unlock_opt. mrun.
  destruct (b_cond r) as [[]|] eqn:Ec; cbn; [|intros [= <-]; rewrite Ec; naive_solver|done].
  destruct (b_cond_lock r) as [[]|] eqn:Ek; cbn; [done|..]; destruct (0 <? b_cond_th r); cbn;
    rewrite ?Ek; intros [= <-]; cbn; rewrite ?Ec, ?Ek; naive_solver.
Qed.

Lemma producer_locks s s' w : data_inv s w -> lock_inv s -> producer_step s s' -> lock_inv s'.
Proof.
  intros I L Hs. destruct L as [Lw Lr Lc Lt Ls].
  destruct Hs as [d r r1 r2 c put got E1 E2|r r1 r2 r3 c put got E1 E2 E3|d r r1 c put got E1
    |d r r1 c put got E1|r r1 r2 c put got E1 E2]; unfold pending in *; cbn in *.
  - injection E2 as _ <-. run_lock E1; by split; cbn; [|..|intros H1 H2; specialize (Ls H1 H2)].
  - injection E2 as _ <-. run_lock E1; run_lock E3; split; cbn; try done; congruence.
  - unfold ins_store, b_wr in E1. revert E1. mrun. case_decide; [|done]. intros [= <-].
    by split; cbn; [|..|intros H1 H2; specialize (Ls H1 H2)].
  - injection E1 as <-. by split.
  - destruct (signal_locks r r1 E1 Lt) as (S1 & S2 & S3 & S4 & S5 & S6 & S7).
    assert (0 <= b_cond_th r1) as Lt1.
    { rewrite S7. unfold signals. destruct (b_cond r) as [c1|]; [|done].
      destruct (Z.ltb_spec 0 (b_cond_th r)); [|by rewrite andb_false_r]. destruct c1; cbn; lia. }
    assert (b_wlock r2 <> Some true /\ b_rlock r2 = b_rlock r /\ b_cond r2 = b_cond r /\
      b_cond_lock r2 = b_cond_lock r1 /\ b_cond_th r2 = b_cond_th r1) as (E3 & E4 & E5 & E6 & E7)
      by (run_lock E2; cbn; repeat split; congruence).
    assert (cond_ok r -> cond_ok r2) as S2' by (unfold cond_ok in *; rewrite E5, E6; rewrite S5 in S2; exact S2).
    destruct c; try (split; unfold pending; cbn; rewrite ?E4, ?E7; try done;
      [by apply S2'|by intros [?|?]]).
    + destruct Lc as [Hc Hk]. by destruct (S6 Hc).
    + destruct Lc as (Hc & Hk & Ht). assert (signals r = true) as ->
        by (unfold signals; rewrite Hc; by apply Z.ltb_lt).
      split; unfold pending; cbn; rewrite ?E7; try done; [|by intros [?|?]].
      apply S2'. right. by split.
Qed.

Lemma consumer_locks s s' w : data_inv s w -> lock_inv s -> consumer_step s s' -> lock_inv s'.
Proof.
  intros I L Hs. destruct L as [Lw Lr Lc Lt Ls]. pose proof (di_view _ _ I) as V.
  destruct Hs as [r r1 p put got E|r r1 p put got Hc E E1|r r1 p put got E|r p c put got Hc E
    |r r1 p c put got Hc E E1|r x p put got E|r r1 x p put got E|r r1 r2 x p put got E1 E2];
    unfold pending in *; cbn in *.
  - run_lock E; by split; cbn; [..|intros [?|?]].
  - pose proof (view_same _ _ _ _ (lock_c_same _ _ E) V) as V1.
    rewrite (ext_some_run _ _ _ V1) in E1. injection E1 as E1. apply bool_decide_eq_false in E1.
    assert (drop (length got) put = []) as E0 by (destruct (drop (length got) put); [done|by destruct E1]).
    unfold cond_ok in Lc. run_lock E; split; unfold pending; cbn; try done; [by destruct Lc as [?|[? ?]]; congruence].
  - destruct Lc as [Hc Hk]. revert E. unfold ext_sleep, unlock_opt. mrun. cbn. rewrite Hk. intros [= <-].
    split; unfold pending; cbn; try done; [repeat split; [done|lia]|lia|].
    intros _ H1. apply Ls; [by left|done].
  - assert (cond_ok r) as Lc' by (by destruct Hc as [->|[b ->]]).
    split; cbn; try done. by intros [?|?].
  - assert (cond_ok r) as Lc' by (by destruct Hc as [[-> _]|[b ->]]).
    run_lock E1; split; cbn; try done; try congruence; by intros [?|?].
  - by split; cbn; [..|intros [?|?]].
  - unfold ext_clear, b_wr in E. revert E. mrun. case_decide; [|done]. intros [= <-].
    by split; cbn; [..|intros [?|?]].
  - injection E1 as <-. run_lock E2; by split; cbn; try congruence; [..|intros [?|?]].
Qed.

Lemma wakeup_locks s s' w : data_inv s w -> lock_inv s -> wakeup_step s s' -> lock_inv s'.
Proof.
  intros I L Hs. destruct L as [Lw Lr Lc Lt Ls].
  destruct Hs as [r r1 r2 p put got E1 E2|r r1 p put got E]; cbn in *; destruct Lc as (Hc & Hk & Ht).
  - unfold lock_opt in E1. cbn in E1. rewrite Hk in E1. injection E1 as <-. injection E2 as <-.
    split; cbn; try done; [right; by split|by intros [?|?]].
  - unfold ring_extract_resume, lock_opt, unlock_opt in E. revert E. mrun.
    cbn [cond_lock_l rlock_l lget lput]. rewrite Hk. cbn.
    destruct (b_rlock r) eqn:Er; cbn; intros [= <-]; cbn;
      (split; cbn; [done|congruence|right; by split|lia|by intros [?|?]]).
Qed.

Lemma step_inv s s' : ring_inv s -> step s s' -> ring_inv s'.
Proof.
  intros [[w I] L] Hs. destruct Hs as [s s' Hs|s s' Hs|s s' Hs]; split.
  - by eapply producer_data.
  - by eapply producer_locks.
  - by eapply consumer_data.
  - by eapply consumer_locks.
  - exists w. by eapply wakeup_data.
  - by eapply wakeup_locks.
Qed.

Lemma reachable_inv r0 s : ringbuf_rep r0 [] -> 0 <= b_cond_th r0 -> reachable r0 s -> ring_inv s.
Proof.
  intros [V0 (Hw & Hr & Hc)] Ht R. induction R as [|s s' R IH Hs]; [|by eapply step_inv].
  split.
  - exists (held (b_size r0) []). split; try done.
  - by split.
Qed.

(** ** What the invariant gives *)

(** The producer, with its next element, is only held up by the lock of the
    condition, which the consumer gives back when it goes to sleep. *)
Lemma producer_progress (d : D) s : ring_inv s -> s_c s <> CChecked \/ s_p s <> PSignal ->
  exists s', producer_step s s'.
Proof.
  intros [[w I] L] Hne. pose proof (di_view _ _ I) as V. pose proof (di_p _ _ I) as Dp.
  destruct L as [Lw Lr Lc Lt Ls]. destruct s as [r p c put got]; cbn in *. destruct p as [|x|x|].
  - destruct (lock_opt_ok ring_wlock wlock_l r (Lw eq_refl)) as [r1 E1].
    pose proof (ins_room_run _ _ _ (view_same _ _ _ _ (lock_w_same _ _ E1) V)) as E2.
    destruct (bool_decide _).
    + eexists. by eapply (p_room d).
    + destruct (unlock_opt_ok wlock_l r1) as [r2 E3]. eexists. by eapply p_full.
  - destruct (ins_store_run r _ _ x V) as (r1 & E & _). eexists. by eapply p_store.
  - destruct (ins_publish_run r _ _ V) as (r1 & E & _); [apply Dp|]. eexists. by eapply p_publish.
  - destruct Hne as [Hne|]; [|done].
    assert (cond_ok r) as Hc.
    { destruct c; try exact Lc; [done|]. right. split; apply Lc. }
    destruct (ring_signal_run r Hc) as (r1 & E1 & _). destruct (unlock_opt_ok wlock_l r1) as [r2 E2].
    eexists. by eapply p_signal.
Qed.

(** The consumer only waits asleep. *)
Lemma consumer_progress s : ring_inv s -> s_c s <> CWait -> exists s', consumer_step s s'.
Proof.
  intros [[w I] L] Hne. pose proof (di_view _ _ I) as V. pose proof (di_slots _ _ I) as Sl.
  pose proof (di_c _ _ I) as Dc. destruct L as [Lw Lr Lc Lt Ls].
  destruct s as [r p c put got]; cbn in *. pose proof (ext_some_run _ _ _ V) as E.
  destruct (unlock_opt_ok rlock_l r) as [ru Eu].
  destruct c as [| | | |b| |x|x]; try done.
  - destruct (lock_opt_ok ring_rlock rlock_l r (Lr eq_refl)) as [r1 E1]. eexists. by eapply c_enter.
  - destruct (bool_decide _) eqn:Eb; [eexists; eapply c_some; by auto|].
    destruct Lc as [Hc|[Hc Hk]]; [eexists; eapply c_none; by auto|].
    destruct (lock_opt_ok ring_cond_lock cond_lock_l r) as [r1 E1]; [cbn; by rewrite Hk|].
    eexists. eapply c_check; [done|exact E1|].
    by rewrite (ext_some_run _ _ _ (view_same _ _ _ _ (lock_c_same _ _ E1) V)), Eb.
  - eexists. apply c_sleep. unfold ext_sleep, unlock_opt. mrun. cbn.
    destruct Lc as [_ Hk]. by rewrite Hk.
  - destruct (bool_decide _) eqn:Eb; eexists; [eapply c_some|eapply c_none]; by eauto.
  - unfold pending in *. cbn in *. destruct (drop (length got) put) as [|d rest]; [done|].
    eexists. apply c_load, (ext_load_run _ _ _ _ V). exact (Sl 0%nat d eq_refl).
  - destruct (ext_clear_run r _ _ V) as (r1 & E1 & _). eexists. by eapply c_clear.
  - destruct (unlock_opt_ok rlock_l (set_b_tail (u32 (b_tail r + 1)) r)) as [r2 E2].
    eexists. by eapply c_advance.
Qed.

(** Nobody sleeps beside an element, unless the signal is on its way: the
    producer's next step wakes the consumer. *)
Lemma sleeper_woken s : ring_inv s -> s_c s = CWait -> pending s <> [] ->
  s_p s = PSignal /\ forall s', producer_step s s' -> s_c s' = CWoken true.
Proof.
  intros [_ L] Hc Hp. pose proof (li_sleep _ L (or_intror Hc) Hp) as HP. split; [done|].
  pose proof (li_cond _ L) as Lc. rewrite Hc in Lc. destruct Lc as (Hb & _ & Ht).
  intros s' Hs. destruct Hs; cbn in *; try done. subst c. unfold signals.
  rewrite Hb. destruct (Z.ltb_spec 0 (b_cond_th r)); [done|lia].
Qed.

(** Runs without early wake-ups. *)
Definition run (s s' : sys) : Prop := producer_step s s' \/ consumer_step s s'.

Lemma run_inv s s' : ring_inv s -> run s s' -> ring_inv s'.
Proof. intros I [H|H]; eapply step_inv; by eauto using step. Qed.

(** How far the consumer is from its next element. *)
Definition distance (c : cpc) : nat :=
  match c with
  | CAdvance _ => 1 | CClear _ => 2 | CLoad => 3 | CTest | CWoken _ => 4 | CIdle => 5
  | CWait => 5 | CChecked => 6 end.

Lemma towards s : ring_inv s -> pending s <> [] -> exists s', run s s' /\
  (s_put s' = s_put s) /\
  ((s_got s' = s_got s /\ (distance (s_c s') < distance (s_c s))%nat) \/
   s_got s' = s_got s ++ [head (pending s)]).
Proof.
  intros I Hp. assert (s_c s = CWait \/ s_c s <> CWait) as [Hc|Hc] by (destruct (s_c s); by auto).
  - destruct (sleeper_woken s I Hc Hp) as [HP Hw]. destruct s as [r p c put got]. cbn in HP, Hc. subst p c.
    destruct I as [_ L]. destruct (li_cond _ L) as (Hb & Hk & _).
    destruct (ring_signal_run r) as (r1 & E1 & _); [right; by split|].
    destruct (unlock_opt_ok wlock_l r1) as [r2 E2].
    pose proof (p_signal r r1 r2 CWait put got E1 E2) as Hs. pose proof (Hw _ Hs) as Ec.
    eexists. split; [left; exact Hs|]. split; [done|]. left. split; [done|]. rewrite Ec. cbn. lia.
  - destruct (consumer_progress s I Hc) as [s' Hs]. exists s'. split; [by right|].
    destruct I as [[w I] _]. pose proof (di_view _ _ I) as V. pose proof (di_c _ _ I) as Dc.
    unfold pending in *.
    destruct Hs as [r r1 p put got E|r r1 p put got Hb E E1|r r1 p put got E|r p c put got Hb E
      |r r1 p c put got Hb E E1|r x p put got E|r r1 x p put got E|r r1 r2 x p put got E1 E2];
      cbn in *; (split; [done|]); try (left; split; [done|lia]).
    + rewrite (ext_some_run _ _ _ (view_same _ _ _ _ (lock_c_same _ _ E) V)) in E1.
      injection E1 as E1. apply bool_decide_eq_false in E1.
      destruct Hp. destruct (drop (length got) put); [done|by destruct E1].
    + left. split; [done|]. destruct Hb as [->|[b ->]]; cbn; lia.
    + rewrite (ext_some_run _ _ _ V) in E. injection E as E. apply bool_decide_eq_false in E.
      destruct Hp. destruct (drop (length got) put); [done|by destruct E].
    + right. destruct Dc as (d & -> & Hd). by rewrite Hd.
Qed.

(** The oldest pending element reaches the consumer. *)
Lemma delivered s : ring_inv s -> pending s <> [] -> exists s', rtc run s s' /\
  s_put s' = s_put s /\ s_got s' = s_got s ++ [head (pending s)].
Proof.
  remember (distance (s_c s)) as n eqn:En. revert s En.
  induction (lt_wf n) as [n _ IH]. intros s -> I Hp.
  destruct (towards s I Hp) as (s1 & Hr & Eput & [[Egot Hd]|Egot]).
  - assert (pending s1 = pending s) as Ep by (unfold pending; by rewrite Egot, Eput).
    destruct (IH _ Hd s1 eq_refl) as (s' & Hr' & Eput' & Egot').
    + by eapply run_inv.
    + by rewrite Ep.
    + exists s'. rewrite Ep, Eput, Egot in *. split; [|by split]. by eapply rtc_l.
  - exists s1. split; [by apply rtc_once|]. by split.
Qed.

(** ** The race between an insertion and the next wait

    The element is in the ring before its signal is sent. A consumer that is
    awake can take it, find the ring empty and fall asleep in between: the
    signal then wakes it on an empty ring. *)

Lemma wlock_cond (r r' : ringbuf D) m : lock_opt m wlock_l r = Ok tt r' -> b_cond r' = b_cond r.
Proof. intros H. by run_lock H. Qed.
Lemma rlock_cond (r r' : ringbuf D) m : lock_opt m rlock_l r = Ok tt r' -> b_cond r' = b_cond r.
Proof. intros H. by run_lock H. Qed.
Lemma unrlock_cond (r r' : ringbuf D) : unlock_opt rlock_l r = Ok tt r' -> b_cond r' = b_cond r.
Proof. intros H. by run_lock H. Qed.

(** The steps of the two sides that have only one continuation. *)
Lemma store_next d r c put got : ring_inv (Sys r (PStore d) c put got) ->
  exists r', producer_step (Sys r (PStore d) c put got) (Sys r' (PPublish d) c put got) /\ b_cond r' = b_cond r.
Proof.
  intros [[w I] _]. destruct (ins_store_run r _ _ d (di_view _ _ I)) as (r' & E & _ & F).
  exists r'. split; [by constructor|]. by rewrite F.
Qed.

Lemma publish_next d r c put got : ring_inv (Sys r (PPublish d) c put got) ->
  exists r', producer_step (Sys r (PPublish d) c put got) (Sys r' PSignal c (put ++ [d]) got) /\ b_cond r' = b_cond r.
Proof. intros _. eexists. split; [by constructor|done]. Qed.

Lemma enter_next r p put got : ring_inv (Sys r p CIdle put got) ->
  exists r', consumer_step (Sys r p CIdle put got) (Sys r' p CTest put got) /\ b_cond r' = b_cond r.
Proof.
  intros [_ L]. destruct (lock_opt_ok ring_rlock rlock_l r (li_r _ L eq_refl)) as [r' E].
  exists r'. split; [by constructor|]. by eapply rlock_cond.
Qed.

Lemma take_next r p put got : ring_inv (Sys r p CTest put got) -> drop (length got) put <> [] ->
  exists r' x, rtc run (Sys r p CTest put got) (Sys r' p CIdle put (got ++ [x])) /\ b_cond r' = b_cond r.
Proof.
  intros I Hp. pose proof I as [[w Id] _]. pose proof (di_view _ _ Id) as V.
  assert (ext_some r = Ok true r) as E.
  { etransitivity; [exact (ext_some_run _ _ _ V)|]. unfold pending. cbn. by destruct (drop (length got) put). }
  pose proof (c_some r p CTest put got (or_introl eq_refl) E) as S1.
  pose proof (run_inv _ _ I (or_intror S1)) as I1.
  destruct (consumer_progress _ I1) as [s2 S2]; [done|].
  inversion S2 as [| | |? ? ? ? ? [?|[? ?]] ?|? ? ? ? ? ? [[? ?]|[? ?]]|? x ? ? ? EL| |]; subst; try done.
  pose proof (run_inv _ _ I1 (or_intror S2)) as I2. pose proof I2 as [[w2 Id2] _].
  destruct (ext_clear_run r _ _ (di_view _ _ Id2)) as (r3 & E3 & _ & F3).
  pose proof (c_clear r r3 x p put got E3) as S3.
  destruct (unlock_opt_ok rlock_l (set_b_tail (u32 (b_tail r3 + 1)) r3)) as [r4 E4].
  pose proof (c_advance r3 _ r4 x p put got eq_refl E4) as S4.
  exists r4, x. split; [|by rewrite (unrlock_cond _ _ E4), F3].
  do 4 (eapply rtc_l; [by right; eassumption|]). apply rtc_refl.
Qed.

Lemma sleep_next r p put got : ring_inv (Sys r p CTest put got) -> drop (length got) put = [] ->
  b_cond r = Some true ->
  exists r', rtc run (Sys r p CTest put got) (Sys r' p CWait put got).
Proof.
  intros I Hp Hc. pose proof I as [[w Id] L]. pose proof (di_view _ _ Id) as V.
  pose proof (li_cond _ L) as Lc. destruct Lc as [Lc|[_ Hk]]; [cbn in Lc; congruence|]. cbn in Hk.
  destruct (lock_opt_ok ring_cond_lock cond_lock_l r) as [r1 E1]; [cbn; by rewrite Hk|].
  assert (ext_some r1 = Ok false r1) as E2.
  { etransitivity; [exact (ext_some_run _ _ _ (view_same _ _ _ _ (lock_c_same _ _ E1) V))|].
    unfold pending. cbn. by rewrite Hp. }
  pose proof (c_check r r1 p put got Hc E1 E2) as S1.
  pose proof (run_inv _ _ I (or_intror S1)) as I1.
  destruct (consumer_progress _ I1) as [s2 S2]; [done|].
  inversion S2 as [| |? r2| |? ? ? ? ? ? [[? ?]|[? ?]]| | |]; subst; try done.
  - exists r2. do 2 (eapply rtc_l; [by right; eassumption|]). apply rtc_refl.
  - by destruct H as [?|[? ?]].
Qed.

Lemma rtc_run_inv s s' : ring_inv s -> rtc run s s' -> ring_inv s'.
Proof. intros I H. induction H; [done|]. by eapply IHrtc, run_inv. Qed.

Lemma wakes_empty r0 d : ring_inv (Sys r0 PIdle CIdle [] []) -> b_cond r0 = Some true ->
  exists r r' x, rtc run (Sys r0 PIdle CIdle [] []) (Sys r PIdle (CWoken true) [d] [x]) /\
    consumer_step (Sys r PIdle (CWoken true) [d] [x]) (Sys r' PIdle CIdle [d] [x]).
Proof.
  intros I0 Hc. pose proof I0 as [[w0 Id0] L0].
  (* the producer inserts and is about to signal *)
  destruct (lock_opt_ok ring_wlock wlock_l r0 (li_w _ L0 eq_refl)) as [r1 E1].
  pose proof (view_same _ _ _ _ (lock_w_same _ _ E1) (di_view _ _ Id0)) as V1.
  assert (ins_room r1 = Ok true r1) as E1'.
  { rewrite (ins_room_run _ _ _ V1). cbn. pose proof (view_bounds _ _ _ V1).
    by rewrite bool_decide_eq_true_2 by lia. }
  pose proof (p_room d r0 r1 r1 CIdle [] [] E1 E1') as S1.
  pose proof (run_inv _ _ I0 (or_introl S1)) as I1. pose proof (wlock_cond _ _ _ E1) as C1.
  destruct (store_next _ _ _ _ _ I1) as (r2 & S2 & C2). pose proof (run_inv _ _ I1 (or_introl S2)) as I2.
  destruct (publish_next _ _ _ _ _ I2) as (r3 & S3 & C3). pose proof (run_inv _ _ I2 (or_introl S3)) as I3.
  (* the consumer takes the element, comes back and falls asleep *)
  destruct (enter_next _ _ _ _ I3) as (r4 & S4 & C4). pose proof (run_inv _ _ I3 (or_intror S4)) as I4.
  destruct (take_next _ _ _ _ I4) as (r5 & x & S5 & C5); [done|]. pose proof (rtc_run_inv _ _ I4 S5) as I5.
  destruct (enter_next _ _ _ _ I5) as (r6 & S6 & C6). pose proof (run_inv _ _ I5 (or_intror S6)) as I6.
  destruct (sleep_next _ _ _ _ I6) as (r7 & S7); [done|congruence|]. pose proof (rtc_run_inv _ _ I6 S7) as I7.
  (* the signal *)
  destruct (producer_progress d _ I7) as [s8 S8]; [by left|].
  inversion S8 as [| | | |r r8 r9 c put got E8 E9]; subst.
  pose proof (run_inv _ _ I7 (or_introl S8)) as I8.
  destruct I7 as [_ L7]. destruct (li_cond _ L7) as (Hb & _ & Ht). cbn in Hb, Ht.
  assert (signals r7 = true) as Hs by (unfold signals; rewrite Hb; by apply Z.ltb_lt).
  rewrite Hs in S8, I8. pose proof I8 as [[w8 Id8] _].
  destruct (unlock_opt_ok rlock_l r9) as [r' Er]. exists r9, r', x. split.
  - eapply rtc_l; [left; exact S1|]. eapply rtc_l; [left; exact S2|]. eapply rtc_l; [left; exact S3|].
    eapply rtc_l; [right; exact S4|]. etransitivity; [exact S5|]. eapply rtc_l; [right; exact S6|].
    etransitivity; [exact S7|]. apply rtc_once. by left.
  - eapply c_none; [right; by eexists| |exact Er].
    etransitivity; [exact (ext_some_run _ _ _ (di_view _ _ Id8))|done].
Qed.

(** A new ring. *)
Lemma init_inv r0 : ringbuf_rep r0 [] -> 0 <= b_cond_th r0 -> ring_inv (Sys r0 PIdle CIdle [] []).
Proof. intros R Ht. eapply reachable_inv; [done|done|constructor]. Qed.

End Steps.
End Threads.
