(* ===== verification/Mtl.v ===== *)
(** * The message transport layer (include/mtl.h, src/mtl.c)

    Byte-order conversion, the fixed-size headers in front of every message,
    and the copies from headers to messages. The byte order of the host is a
    parameter: the macros test it at run time. *)

From S2P Require Import Prelude Monad Types.
Open Scope Z_scope.

Class Host := { big_endian : bool }.
Definition little_host : Host := {| big_endian := false |}.

Section ByteOrder.
Context `{Host}.

(** The image of an [n]-byte integer in the memory of the host, and the integer
    a piece of memory holds. *)
Definition mem_bytes (n : nat) (z : Z) : bytes :=
  if big_endian then rev (le_bytes n z) else le_bytes n z.
Definition mem_val (bs : bytes) : Z :=
  if big_endian then le_val (rev bs) else le_val bs.

(** The C library's 32-bit conversions: the identity on a big-endian host, a
    reversal of the four bytes on a little-endian one. *)
Definition htonl (x : Z) : Z :=
  if big_endian then u32 x else le_val (rev (le_bytes 4 x)).
Definition ntohl (x : Z) : Z := htonl x.

(** The macros [HTONLL] and [NTOHLL]. *)
Definition HTONLL (x : Z) : Z :=
  if 1 =? htonl 1 then x
  else Z.lor (u64 (Z.shiftl (htonl (Z.land x 0xFFFFFFFF)) 32)) (htonl (u32 (Z.shiftr x 32))).
Definition NTOHLL (x : Z) : Z :=
  if 1 =? ntohl 1 then x
  else Z.lor (u64 (Z.shiftl (ntohl (Z.land x 0xFFFFFFFF)) 32)) (ntohl (u32 (Z.shiftr x 32))).

Lemma length_mem_bytes n z : length (mem_bytes n z) = n.
Proof. unfold mem_bytes. case_match; rewrite ?length_rev; apply length_le_bytes. Qed.

Lemma mem_val_bytes n z : mem_val (mem_bytes n z) = z mod 2 ^ (8 * Z.of_nat n).
Proof.
  unfold mem_val, mem_bytes. destruct big_endian; rewrite ?rev_involutive; apply le_val_bytes.
Qed.

Lemma htonl_range x : is_u32 (htonl x).
Proof.
  unfold htonl. destruct big_endian; [apply u32_range|].
  pose proof (le_val_range (rev (le_bytes 4 x))) as Hr.
  rewrite length_rev, length_le_bytes in Hr. exact Hr.
Qed.

Lemma ntohl_htonl x : ntohl (htonl x) = u32 x.
Proof.
  unfold ntohl, htonl. destruct big_endian; [unfold u32; by rewrite Zmod_mod|].
  assert (le_bytes 4 (le_val (rev (le_bytes 4 x))) = rev (le_bytes 4 x)) as ->.
  { pose proof (le_bytes_val (rev (le_bytes 4 x))) as E.
    by rewrite length_rev, length_le_bytes in E. }
  rewrite rev_involutive. apply le_val_bytes.
Qed.

Lemma host_test : (1 =? htonl 1) = big_endian.
Proof. unfold htonl. by destruct big_endian. Qed.

(** On a little-endian host the macros reverse the eight bytes: the two words
    are swapped and each is reversed. *)
Lemma le_val_app a b : le_val (a ++ b) = le_val a + 2 ^ (8 * Z.of_nat (length a)) * le_val b.
Proof.
  induction a as [|c a IH]; [simpl; lia|]. cbn [app le_val length]. rewrite IH.
  replace (8 * Z.of_nat (S (length a))) with (8 + 8 * Z.of_nat (length a)) by lia.
  rewrite Z.pow_add_r by lia. change (2 ^ 8) with 256. lia.
Qed.

Lemma le_bytes_add n m z :
  le_bytes (n + m) z = le_bytes n z ++ le_bytes m (z / 2 ^ (8 * Z.of_nat n)).
Proof.
  revert z. induction n as [|n IH]; intros z; cbn [Nat.add le_bytes app].
  - by rewrite Z.div_1_r.
  - f_equal. rewrite IH. do 2 f_equal.
    replace (8 * Z.of_nat (S n)) with (8 + 8 * Z.of_nat n) by lia.
    rewrite Z.pow_add_r by lia. rewrite Z.div_div; [done|lia|].
    apply Z.pow_pos_nonneg; lia.
Qed.

Lemma le_bytes_mod n z : le_bytes n (z mod 2 ^ (8 * Z.of_nat n)) = le_bytes n z.
Proof.
  rewrite <- le_val_bytes. rewrite <- (length_le_bytes n z) at 1. apply le_bytes_val.
Qed.

Lemma lor_disjoint a b : 0 <= a -> is_u32 b -> Z.lor (Z.shiftl a 32) b = b + 2 ^ 32 * a.
Proof.
  intros Ha Hb. assert (Z.land (Z.shiftl a 32) b = 0) as Hl.
  { apply Z.bits_inj'. intros i Hi. rewrite Z.land_spec, Z.bits_0.
    destruct (Z.lt_ge_cases i 32).
    - by rewrite Z.shiftl_spec_low.
    - rewrite <- (Z.mod_small b (2 ^ 32) Hb), Z.mod_pow2_bits_high by lia.
      apply andb_false_r. }
  rewrite <- Z.lxor_lor, <- Z.add_nocarry_lxor by done.
  rewrite Z.shiftl_mul_pow2; lia.
Qed.

Lemma HTONLL_le x : is_u64 x -> big_endian = false ->
  HTONLL x = le_val (rev (le_bytes 8 x)).
Proof.
  intros Hx He. unfold HTONLL. rewrite host_test, He.
  change 0xFFFFFFFF with (2 ^ 32 - 1). rewrite land_mask by lia.
  rewrite Z.shiftr_div_pow2 by lia.
  pose proof (htonl_range (x mod 2 ^ 32)) as H1. pose proof (htonl_range (u32 (x / 2 ^ 32))) as H2.
  rewrite u64_small.
  2: { rewrite Z.shiftl_mul_pow2; lia. }
  rewrite lor_disjoint by lia. unfold htonl. rewrite He.
  rewrite (le_bytes_add 4 4 x : le_bytes 8 x = _), rev_app_distr, le_val_app.
  rewrite length_rev, length_le_bytes. unfold u32.
  change (2 ^ 32) with (2 ^ (8 * Z.of_nat 4)). by rewrite !le_bytes_mod.
Qed.

(** The round trip through the network byte order loses nothing. *)
Lemma NTOHLL_HTONLL_id x : is_u64 x -> NTOHLL (HTONLL x) = x.
Proof.
  intros Hx. change NTOHLL with HTONLL. destruct big_endian eqn:He.
  - unfold HTONLL. by rewrite host_test, He.
  - rewrite (HTONLL_le x) by done.
    assert (is_u64 (le_val (rev (le_bytes 8 x)))) as Hr.
    { pose proof (le_val_range (rev (le_bytes 8 x))) as Hr.
      rewrite length_rev, length_le_bytes in Hr. exact Hr. }
    rewrite HTONLL_le by done.
    assert (le_bytes 8 (le_val (rev (le_bytes 8 x))) = rev (le_bytes 8 x)) as ->.
    { pose proof (le_bytes_val (rev (le_bytes 8 x))) as E.
      by rewrite length_rev, length_le_bytes in E. }
    rewrite rev_involutive, le_val_bytes. by rewrite Z.mod_small.
Qed.

(** In memory, a converted integer is big-endian whatever the host is. *)
Lemma HTONLL_image x : is_u64 x -> mem_bytes 8 (HTONLL x) = rev (le_bytes 8 x).
Proof.
  intros Hx. unfold mem_bytes. destruct big_endian eqn:He.
  - unfold HTONLL. by rewrite host_test, He.
  - rewrite HTONLL_le by done. pose proof (le_bytes_val (rev (le_bytes 8 x))) as E.
    by rewrite length_rev, length_le_bytes in E.
Qed.

End ByteOrder.

(** ** Message headers

    The structures that travel in front of the payload. [sizeof] values are
    those of the natural alignment: every structure is padded to its widest
    member. *)

Definition align (n a : nat) : nat := (a * ((n + (a - 1)) / a))%nat.

(** [appnd_entr_hdr_t] *)
Record appnd_entr_hdr_t := AppndEntrHdr {
  ah_term : term_t;
  ah_leader_id : server_id_t;
  ah_prev_log_index : index_t;
  ah_prev_log_term : term_t;
  ah_leader_commit : index_t;
  ah_n_entries : Z;
  ah_slen : Z }.

(** [repl_req_hdr_t] *)
Record repl_req_hdr_t := ReplReqHdr {
  rh_master_index : index_t;
  rh_server_id : server_id_t;
  rh_n_entries : Z;
  rh_slen : Z }.

(** [xapp_snapshot_hdr_t]; integers in network byte order *)
Record xapp_snapshot_hdr_t := XappSnapHdr {
  xh_last_index : index_t;
  xh_dlen : Z;
  xh_server_id : server_id_t;
  xh_items : Z }.

(** [raft_snapshot_hdr_t]; integers in network byte order *)
Record raft_snapshot_hdr_t := RaftSnapHdr {
  sh_term : term_t;
  sh_last_index : index_t;
  sh_last_term : term_t;
  sh_dlen : Z;
  sh_leader_id : server_id_t;
  sh_items : Z }.

Section Headers.
Context `{Rmr} `{Host}.

Definition APND_ENTR_HDR_LEN : Z :=
  Z.of_nat (align (8 + RMR_MAX_SRC) 8 + 8 + 8 + 8 + 4 + 4).
Definition REPL_REQ_HDR_LEN : Z :=
  Z.of_nat (align (align (8 + RMR_MAX_SRC) 4 + 4 + 4) 8).
Definition XAPP_SNAPSHOT_HDR_SIZE : Z :=
  Z.of_nat (align (align (8 + 8 + RMR_MAX_SRC) 4 + 4) 8).
Definition RAFT_SNAPSHOT_HDR_SIZE : Z :=
  Z.of_nat (align (align (8 + 8 + 8 + 8 + RMR_MAX_SRC) 4 + 4) 8).

(** The copies write the fields of the message and leave the entries (or the
    snapshot data) the message already points to. *)
Definition appnd_entr_header_to_msg_cpy (h : appnd_entr_hdr_t) (m : request_append_entries_t)
  : request_append_entries_t :=
  ReqAppend (ah_term h) (ah_leader_id h) (ah_prev_log_index h) (ah_prev_log_term h)
    (ah_leader_commit h) (ah_n_entries h) (ra_entries m).

Definition repl_req_header_to_msg_cpy (h : repl_req_hdr_t) (m : replication_request_t)
  : replication_request_t :=
  ReqRepl (rh_master_index h) (rh_server_id h) (rh_n_entries h) (rr_entries m).

Definition xapp_snapshot_header_to_msg_cpy (h : xapp_snapshot_hdr_t) (m : xapp_snapshot_request_t)
  : xapp_snapshot_request_t :=
  ReqXsnap (xh_server_id h)
    (XappSnapshot (NTOHLL (xh_last_index h)) (NTOHLL (xh_dlen h)) (ntohl (xh_items h))
       (xs_data (xq_snapshot m))).

Definition raft_snapshot_header_to_msg_cpy (h : raft_snapshot_hdr_t) (m : raft_snapshot_request_t)
  : raft_snapshot_request_t :=
  ReqRsnap (NTOHLL (sh_term h)) (sh_leader_id h)
    (RaftSnapshot (NTOHLL (sh_last_term h)) (NTOHLL (sh_last_index h)) (NTOHLL (sh_dlen h))
       (ntohl (sh_items h)) (rs_data (rq_snapshot m))).

End Headers.
