(* ===== verification/Config.v ===== *)
(** * The cluster configuration (src/config.c)

    [config_st] is the state of the module: the static [config], the [server_t]
    objects its array points to, its mutex, and the results the next calls of
    [pthread_create] will return (success when none is listed). [self] is the
    identifier [get_myself_id( )] returns, fixed by the initialisation.

    [cfg_rep s l] relates the state to the list [l] of servers it represents,
    in the order they were added; the theorems show what every operation does
    to that list and that the counters stay exact. *)

From S2P Require Import Prelude Monad Types Mtl.
Open Scope Z_scope.

Record config_st := ConfigSt {
  cf : raft_config_t;
  cf_heap : gmap loc server_t;
  cf_lock : bool;
  cf_threads : list Z }.

Definition set_cf (c : raft_config_t) (s : config_st) : config_st :=
  ConfigSt c (cf_heap s) (cf_lock s) (cf_threads s).
Definition set_heap (h : gmap loc server_t) (s : config_st) : config_st :=
  ConfigSt (cf s) h (cf_lock s) (cf_threads s).
Definition set_cf_lock (b : bool) (s : config_st) : config_st :=
  ConfigSt (cf s) (cf_heap s) b (cf_threads s).
Definition set_threads (t : list Z) (s : config_st) : config_st :=
  ConfigSt (cf s) (cf_heap s) (cf_lock s) t.

Definition cf_lock_l : lens config_st bool := Lens cf_lock set_cf_lock.

Definition init_config : config_st := ConfigSt (RaftConfig 0 0 0 []) ∅ false [].

(** Updates of one field of a server object. *)
Definition upd_status (v : Z) (x : server_t) : server_t :=
  Server (s_server_id x) (s_target x) v (s_voted_for_me x) (s_next_index x) (s_match_index x)
    (s_active x) (s_replied_ts x) (s_hb_timeouts x) (s_replica_index x) (s_master_index x).
Definition upd_voted_for_me (v : Z) (x : server_t) : server_t :=
  Server (s_server_id x) (s_target x) (s_status x) v (s_next_index x) (s_match_index x)
    (s_active x) (s_replied_ts x) (s_hb_timeouts x) (s_replica_index x) (s_master_index x).
Definition upd_next_index (v : index_t) (x : server_t) : server_t :=
  Server (s_server_id x) (s_target x) (s_status x) (s_voted_for_me x) v (s_match_index x)
    (s_active x) (s_replied_ts x) (s_hb_timeouts x) (s_replica_index x) (s_master_index x).
Definition upd_match_index (v : index_t) (x : server_t) : server_t :=
  Server (s_server_id x) (s_target x) (s_status x) (s_voted_for_me x) (s_next_index x) v
    (s_active x) (s_replied_ts x) (s_hb_timeouts x) (s_replica_index x) (s_master_index x).
Definition upd_active (v : server_active_status_e) (x : server_t) : server_t :=
  Server (s_server_id x) (s_target x) (s_status x) (s_voted_for_me x) (s_next_index x)
    (s_match_index x) v (s_replied_ts x) (s_hb_timeouts x) (s_replica_index x)
    (s_master_index x).
Definition upd_replied_ts (v : timespec) (x : server_t) : server_t :=
  Server (s_server_id x) (s_target x) (s_status x) (s_voted_for_me x) (s_next_index x)
    (s_match_index x) (s_active x) v (s_hb_timeouts x) (s_replica_index x) (s_master_index x).
Definition upd_hb_timeouts (v : Z) (x : server_t) : server_t :=
  Server (s_server_id x) (s_target x) (s_status x) (s_voted_for_me x) (s_next_index x)
    (s_match_index x) (s_active x) (s_replied_ts x) v (s_replica_index x) (s_master_index x).
Definition upd_replica_index (v : index_t) (x : server_t) : server_t :=
  Server (s_server_id x) (s_target x) (s_status x) (s_voted_for_me x) (s_next_index x)
    (s_match_index x) (s_active x) (s_replied_ts x) (s_hb_timeouts x) v (s_master_index x).
Definition upd_master_index (v : index_t) (x : server_t) : server_t :=
  Server (s_server_id x) (s_target x) (s_status x) (s_voted_for_me x) (s_next_index x)
    (s_match_index x) (s_active x) (s_replied_ts x) (s_hb_timeouts x) (s_replica_index x) v.

(** ** Memory *)

Definition deref (p : loc) : M config_st server_t :=
  h ← gets cf_heap; from_opt UseAfterFree (h !! p).

Definition upd (p : loc) (f : server_t -> server_t) : M config_st unit :=
  x ← deref p; modify (fun s => set_heap (<[p := f x]> (cf_heap s)) s).

Definition alloc (x : server_t) : M config_st loc := fun s =>
  let p := fresh (dom (cf_heap s)) in
  Ok p (set_heap (<[p := x]> (cf_heap s)) s).

(** [config.servers[i]] *)
Definition server_at (i : nat) : M config_st loc :=
  c ← gets cf; from_opt OutOfBounds (c_servers c !! i).

Definition config_size : M config_st nat := c ← gets cf; mret (Z.to_nat (c_size c)).

Definition mod_cf (f : raft_config_t -> raft_config_t) : M config_st unit :=
  modify (fun s => set_cf (f (cf s)) s).

Definition set_voting (v : Z) : M config_st unit :=
  mod_cf (fun c => RaftConfig (c_size c) v (c_is_changing c) (c_servers c)).

(** The result of the next [pthread_create]. *)
Definition pthread_create : M config_st Z := fun s =>
  match cf_threads s with
  | [] => Ok 0 s
  | r :: rs => Ok r (set_threads rs s)
  end.

Definition locked {A} (m : M config_st A) : M config_st A :=
  lock config_lock cf_lock_l;;
  r ← m;
  unlock cf_lock_l;;
  mret r.

Section Operations.
Context `{Rmr} (self : server_id_t).

Definition raft_get_num_servers : M config_st Z :=
  locked (c ← gets cf; mret (c_size c)).

Definition get_server (id : server_id_t) : M config_st (option loc) :=
  n ← config_size;
  for_find n 0 (fun i =>
    p ← server_at i;
    x ← deref p;
    if decide (s_server_id x = id) then mret (Some p) else mret None).

Definition raft_config_get_server (id : server_id_t) : M config_st (option loc) :=
  locked (get_server id).

(** The index of the object [p] in the array, or [config.size]. *)
Definition index_of (p : loc) : M config_st nat :=
  n ← config_size;
  r ← for_find n 0 (fun i =>
    q ← server_at i; if decide (q = p) then mret (Some i) else mret None);
  mret (default n r).

(** The thread of a removed server is told to stop; if it has not started yet,
    the caller first waits until it has (the wait reads and writes nothing
    else), so that [active] is [SHUTDOWN] afterwards in both cases. *)
Definition remove_server (id : server_id_t) : M config_st unit :=
  o ← get_server id;
  match o with
  | Some p =>
      x ← deref p;
      when (s_status x =? VOTING_MEMBER)
        (c ← gets cf; set_voting (u32 (c_voting_members c - 1)));;
      when (bool_decide (id <> self)) (upd p (upd_active SHUTDOWN));;
      i ← index_of p;
      mod_cf (fun c =>
        let moved := take i (c_servers c) ++ drop (S i) (take (Z.to_nat (c_size c)) (c_servers c)) in
        RaftConfig (u32 (c_size c - 1)) (c_voting_members c) (c_is_changing c) moved)
  | None => mret tt
  end.

Definition raft_config_remove_server (id : server_id_t) : M config_st unit :=
  locked (remove_server id).

(** A server as [add_server] initialises it. *)
Definition new_server (id : server_id_t) (target : target_t) (last : index_t) : server_t :=
  Server (str_cut (sizeof_server_id - 1) id) (str_cut (sizeof_target - 1) target)
    NON_VOTING_MEMBER 0 (u64 (last + 1)) last SHUTDOWN (Timespec 0 0) 0 0 0.

(** The indexes a server that was added before restarts from. *)
Definition restart_indexes (last : index_t) (x : server_t) : server_t :=
  upd_master_index last (upd_next_index (u64 (last + 1)) (upd_match_index last x)).

Definition add_server (id : server_id_t) (target : target_t) (last : index_t) : M config_st Z :=
  o ← get_server id;
  match o with
  | Some p => upd p (restart_indexes last);; mret 0
  | None =>
      p ← alloc (new_server id target last);
      mod_cf (fun c =>
        RaftConfig (u32 (c_size c + 1)) (c_voting_members c) (c_is_changing c)
          (take (Z.to_nat (c_size c)) (c_servers c) ++ [p]));;
      if decide (id = self) then mret 1
      else
        ret ← pthread_create;
        if negb (ret =? 0) then raft_config_remove_server id;; mret 0 else mret 1
  end.

(** [target] is NULL in the source's first test. *)
Definition raft_config_add_server (id : server_id_t) (target : option target_t) (last : index_t)
  : M config_st Z :=
  match target with
  | None => mret 0
  | Some t => locked (add_server id t last)
  end.

(** The result and the errno it leaves. *)
Definition set_server_voting_status (id : server_id_t) (status : Z) : M config_st (Z * errno_t) :=
  if negb (status =? VOTING_MEMBER) && negb (status =? NON_VOTING_MEMBER) then mret (0, EINVAL)
  else
    o ← get_server id;
    match o with
    | Some p =>
        x ← deref p;
        when (negb (s_status x =? status))
          (c ← gets cf;
           (if status =? VOTING_MEMBER then
              assert (c_voting_members c <? c_size c);;
              set_voting (u32 (c_voting_members c + 1))
            else
              assert (0 <? c_voting_members c);;
              set_voting (u32 (c_voting_members c - 1)));;
           upd p (upd_status status));;
        mret (1, ENONE)
    | None => mret (0, ENODATA)
    end.

Definition raft_config_set_server_status (id : server_id_t) (status : Z)
  : M config_st (Z * errno_t) :=
  locked (set_server_voting_status id status).

Definition raft_config_set_new_vote (id : server_id_t) : M config_st Z :=
  locked (
    o ← get_server id;
    match o with
    | Some p =>
        x ← deref p;
        if (s_status x =? VOTING_MEMBER) && negb (truthy (s_voted_for_me x)) then
          upd p (upd_voted_for_me 1);; mret 1
        else mret 0
    | None => mret 0
    end).

Definition has_majority_of_votes (rcv_votes : Z) : M config_st Z :=
  locked (
    c ← gets cf;
    when (c_voting_members c <? rcv_votes) exit1;;
    mret (b2z (c_voting_members c / 2 <? rcv_votes))).

(** The counting loop: [count] is carried through the iterations. *)
Fixpoint count_match (n i : nat) (count : Z) (idx : index_t) : M config_st Z :=
  match n with
  | O => mret count
  | S n =>
      p ← server_at i;
      x ← deref p;
      let hit := (s_status x =? VOTING_MEMBER) && (idx <=? s_match_index x) in
      count_match n (S i) (if hit then u32 (count + 1) else count) idx
  end.

Definition has_majority_of_match_index (idx : index_t) : M config_st Z :=
  locked (
    n ← config_size;
    count ← count_match n 0 0 idx;
    c ← gets cf;
    mret (b2z (c_voting_members c / 2 <? u32 (count + 1)))).

Definition raft_config_reset_votes : M config_st unit :=
  locked (
    n ← config_size;
    for_ n 0 (fun i => p ← server_at i; upd p (upd_voted_for_me 0))).

Definition raft_config_set_all_server_indexes (last : index_t) : M config_st unit :=
  locked (
    n ← config_size;
    for_ n 0 (fun i =>
      p ← server_at i;
      upd p (fun x => upd_match_index 0 (upd_next_index (u64 (last + 1)) x)))).

(** [timespec_cmp( a, b, > )] *)
Definition timespec_gt (a b : timespec) : bool :=
  if tv_sec a =? tv_sec b then tv_nsec b <? tv_nsec a else tv_sec b <? tv_sec a.

(** The result, and the values left in [*rounds] and [*progress]. *)
Definition is_server_caught_up (p : loc) (rounds : Z) (heartbeat_timeout : timespec)
  (progress : Z) : M config_st (Z * Z * Z) :=
  let rounds := rounds - 1 in
  x ← deref p;
  let remove := when (rounds <? 1) (raft_config_remove_server (s_server_id x)) in
  if timespec_gt (s_replied_ts x) heartbeat_timeout then
    remove;; mret (0, rounds, 0)
  else if progress =? 1 then mret (1, rounds, progress)
  else remove;; mret (0, rounds, 1).

Definition set_configuration_changing (is_changing : Z) : M config_st Z :=
  locked (
    c ← gets cf;
    if truthy (c_is_changing c) && (is_changing =? 1) then mret 0
    else
      mod_cf (fun c => RaftConfig (c_size c) (c_voting_members c) is_changing (c_servers c));;
      mret 1).

Definition is_configuration_changing : M config_st Z :=
  locked (c ← gets cf; mret (if truthy (c_is_changing c) then 1 else 0)).

(** The circular search of [get_replica_servers]: [i] runs over the array
    until it is back at [myidx] or enough servers have been chosen. *)
Fixpoint pick_replicas (fuel : nat) (i myidx n : Z) (chosen : list loc)
  : M config_st (list loc) :=
  if negb (i =? myidx) && (Z.of_nat (length chosen) <? n) then
    match fuel with
    | O => fail OutOfFuel
    | S fuel =>
        p ← server_at (Z.to_nat i);
        x ← deref p;
        c ← gets cf;
        pick_replicas fuel (u32 (i + 1) mod c_size c) myidx n
          (if s_status x =? VOTING_MEMBER then chosen ++ [p] else chosen)
    end
  else mret chosen.

(** The servers written to [replicas->servers], as many as [replicas->len]. *)
Definition get_replica_servers (me : server_id_t) (n_replicas : Z) : M config_st (list loc) :=
  locked (
    c ← gets cf;
    let size := c_size c in
    let n := if size <? n_replicas then u32 (size - 1) else n_replicas in
    if (1 <? size) && truthy n then
      r ← for_find (Z.to_nat size) 0 (fun i =>
        p ← server_at i;
        x ← deref p;
        if decide (me = s_server_id x) then mret (Some i) else mret None);
      let i := match r with Some i => Z.of_nat i | None => size end in
      let myidx := match r with Some i => Z.of_nat i | None => 0 end in
      pick_replicas (Z.to_nat size) (u32 (i + 1) mod size) myidx n []
    else mret []).

End Operations.

(** ** Representation *)

Record objs (s : config_st) (l : list server_t) : Prop := {
  objs_size : c_size (cf s) = Z.of_nat (length l);
  objs_u32 : Z.of_nat (length l) < 2 ^ 32;
  objs_nodup : NoDup (c_servers (cf s));
  objs_heap : Forall2 (fun p x => cf_heap s !! p = Some x) (c_servers (cf s)) l }.

(** The voting members of a list of servers. *)
Definition voting (x : server_t) : Prop := s_status x = VOTING_MEMBER.
#[export] Instance voting_dec x : Decision (voting x).
Proof. unfold voting. apply _. Defined.

Definition voters (l : list server_t) : Z := Z.of_nat (length (filter voting l)).

Definition valid_status (x : server_t) : Prop :=
  s_status x = VOTING_MEMBER \/ s_status x = NON_VOTING_MEMBER.

Definition ids (l : list server_t) : list string := s_server_id <$> l.

Record cfg_rep (s : config_st) (l : list server_t) : Prop := {
  rep_objs : objs s l;
  rep_ids : NoDup (ids l);
  rep_status : Forall valid_status l;
  rep_voting : c_voting_members (cf s) = voters l }.

(** The static configuration has no members. *)
Lemma cfg_rep_init : cfg_rep init_config [].
Proof. split; [split|..]; try done; constructor. Qed.

Abbreviation has_id id := (fun x : server_t => s_server_id x = id).

Section Objects.
Context (s : config_st) (l : list server_t) (O : objs s l).

Lemma objs_length : length (c_servers (cf s)) = length l.
Proof using O. eapply Forall2_length, (objs_heap s l O). Qed.

Lemma objs_lookup i x : l !! i = Some x ->
  exists p, c_servers (cf s) !! i = Some p /\ cf_heap s !! p = Some x.
Proof using O.
  intros Hi. destruct (Forall2_lookup_r _ _ _ _ _ (objs_heap s l O) Hi) as (p & Hp & Hx).
  by exists p.
Qed.

Lemma config_size_objs : config_size s = Ok (length l) s.
Proof using O.
  unfold config_size. mrun. rewrite (objs_size s l O). by rewrite Nat2Z.id.
Qed.

Lemma server_at_objs i p : c_servers (cf s) !! i = Some p -> server_at i s = Ok p s.
Proof. intros Hp. unfold server_at. mrun. by rewrite Hp. Qed.

Lemma deref_objs p x : cf_heap s !! p = Some x -> deref p s = Ok x s.
Proof. intros Hp. unfold deref. mrun. by rewrite Hp. Qed.

(** Writing one object changes one element of the list. *)
Lemma objs_store i p x y :
  l !! i = Some x -> c_servers (cf s) !! i = Some p ->
  objs (set_heap (<[p := y]> (cf_heap s)) s) (<[i := y]> l).
Proof using O.
  intros Hi Hp. destruct O as [Hs Hu Hn Hh]. split; cbn; rewrite ?length_insert; try done.
  apply Forall2_same_length_lookup_2.
  { rewrite length_insert. by eapply Forall2_length. }
  intros j q z Hq Hz.
  destruct (decide (i = j)) as [<-|Hne].
  - simplify_eq. rewrite list_lookup_insert_eq in Hz by (by eapply lookup_lt_Some).
    simplify_eq. by rewrite lookup_insert_eq.
  - rewrite list_lookup_insert_ne in Hz by done.
    rewrite lookup_insert_ne.
    + exact (Forall2_lookup_lr _ _ _ j q z Hh Hq Hz).
    + intros ->. by apply Hne, (NoDup_lookup _ _ _ _ Hn Hp Hq).
Qed.

Lemma upd_objs i p x f :
  l !! i = Some x -> c_servers (cf s) !! i = Some p -> cf_heap s !! p = Some x ->
  upd p f s = Ok tt (set_heap (<[p := f x]> (cf_heap s)) s).
Proof. intros Hi Hp Hx. unfold upd. mrun. by rewrite (deref_objs p x Hx). Qed.

(** The search of [get_server] finds the first server with the identifier. *)
Lemma get_server_objs id :
  get_server id s =
    Ok ((fun ix => default 1%positive (c_servers (cf s) !! fst ix))
          <$> list_find (has_id id) l) s.
Proof using O.
  unfold get_server. rewrite (bind_Ok _ _ _ _ _ config_size_objs).
  erewrite (for_find_list_find (has_id id) (fun i => default 1%positive (c_servers (cf s) !! i)));
    [done|].
  intros i x Hx. destruct (objs_lookup i x Hx) as (p & Hp & Hpx). cbn [Nat.add].
  rewrite (bind_Ok _ _ _ _ _ (server_at_objs i p Hp)).
  rewrite (bind_Ok _ _ _ _ _ (deref_objs p x Hpx)). rewrite Hp. by destruct (decide _).
Qed.

Lemma get_server_found id i x :
  list_find (has_id id) l = Some (i, x) ->
  exists p, get_server id s = Ok (Some p) s /\ l !! i = Some x /\
    c_servers (cf s) !! i = Some p /\ cf_heap s !! p = Some x /\ s_server_id x = id.
Proof using O.
  intros Hf. rewrite get_server_objs, Hf. simpl.
  apply list_find_Some in Hf as (Hi & Hid & _).
  destruct (objs_lookup i x Hi) as (p & Hp & Hx). exists p. by rewrite Hp.
Qed.

Lemma get_server_absent id :
  list_find (has_id id) l = None -> get_server id s = Ok None s.
Proof using O. intros Hf. by rewrite get_server_objs, Hf. Qed.

End Objects.

(** ** Facts about the represented list *)

Lemma ids_find_None id l : list_find (has_id id) l = None <-> id ∉ ids l.
Proof.
  unfold ids. rewrite list_find_None, list.Forall_forall. split.
  - intros H (x & -> & Hx)%list_elem_of_fmap. by apply (H x Hx).
  - intros H x Hx <-. apply H, list_elem_of_fmap. by exists x.
Qed.

Lemma ids_unique l i j x y :
  NoDup (ids l) -> l !! i = Some x -> l !! j = Some y -> s_server_id x = s_server_id y -> i = j.
Proof.
  intros Hn Hi Hj He. eapply (NoDup_lookup _ i j (s_server_id x) Hn); unfold ids.
  - by rewrite list_lookup_fmap, Hi.
  - by rewrite list_lookup_fmap, Hj, He.
Qed.

(** Dropping the server with an identifier. *)
Definition without (id : string) (l : list server_t) : list server_t :=
  filter (fun x => s_server_id x <> id) l.

Lemma without_delete id l i x :
  NoDup (ids l) -> l !! i = Some x -> s_server_id x = id -> without id l = delete i l.
Proof.
  intros Hn Hi Hid. unfold without. rewrite delete_take_drop.
  rewrite <- (take_drop_middle l i x Hi) at 1. rewrite filter_app, filter_cons_False by (intros C; by apply C).
  assert (forall k, Forall (fun y => s_server_id y <> id) k -> filter (fun y => s_server_id y <> id) k = k) as Hf.
  { intros k. induction 1; [done|]. rewrite filter_cons_True by done. by f_equal. }
  rewrite !Hf; [done|..]; apply list.Forall_forall; intros y Hy He;
    apply list_elem_of_lookup in Hy as (j & Hj).
  - rewrite lookup_drop in Hj. assert (i = (S i + j)%nat); [|lia].
    eapply ids_unique; eauto. congruence.
  - apply lookup_take_Some in Hj as [Hj Hlt]. assert (i = j); [|lia].
    eapply ids_unique; eauto. congruence.
Qed.

Lemma without_absent id l : id ∉ ids l -> without id l = l.
Proof.
  intros H. unfold without. induction l as [|x l IH]; [done|].
  unfold ids in *. rewrite fmap_cons, not_elem_of_cons in H. destruct H as [Hx Hl].
  rewrite filter_cons_True by auto. f_equal. by apply IH.
Qed.

Lemma without_not_in id l : id ∉ ids (without id l).
Proof.
  unfold ids, without. intros (x & -> & Hx)%list_elem_of_fmap.
  apply list_elem_of_filter in Hx as [Hx _]. done.
Qed.

Lemma ids_sublist l l' : l `sublist_of` l' -> ids l `sublist_of` ids l'.
Proof. unfold ids. induction 1; csimpl; by constructor. Qed.

Lemma without_sublist id l : without id l `sublist_of` l.
Proof. apply sublist_filter. Qed.

Lemma voters_nil : voters [] = 0.
Proof. done. Qed.

Lemma voters_app l l' : voters (l ++ l') = voters l + voters l'.
Proof. unfold voters. rewrite filter_app, length_app. lia. Qed.

Lemma voters_cons x l : voters (x :: l) = b2z (bool_decide (voting x)) + voters l.
Proof.
  unfold voters. destruct (decide (voting x)) as [H|H].
  - rewrite filter_cons_True, bool_decide_true by done. simpl. lia.
  - rewrite filter_cons_False, bool_decide_false by done. simpl. lia.
Qed.

Lemma voters_split l i x : l !! i = Some x ->
  voters l = b2z (bool_decide (voting x)) + voters (delete i l).
Proof.
  intros Hi. rewrite delete_take_drop, voters_app.
  rewrite <- (take_drop_middle l i x Hi) at 1. rewrite voters_app, voters_cons. lia.
Qed.

Lemma voters_insert l i x y : l !! i = Some x ->
  voters (<[i := y]> l) =
    voters l - b2z (bool_decide (voting x)) + b2z (bool_decide (voting y)).
Proof.
  intros Hi. pose proof (lookup_lt_Some _ _ _ Hi).
  rewrite (voters_split l i x Hi), (voters_split (<[i := y]> l) i y)
    by (by apply list_lookup_insert_eq).
  rewrite !delete_take_drop, take_insert_ge, drop_insert_lt by lia. lia.
Qed.

Lemma voters_le_length l : 0 <= voters l <= Z.of_nat (length l).
Proof. unfold voters. pose proof (length_filter voting l). lia. Qed.

Lemma ids_insert l i x y : l !! i = Some x -> s_server_id y = s_server_id x ->
  ids (<[i := y]> l) = ids l.
Proof.
  intros Hi He. unfold ids. rewrite list_fmap_insert, He.
  apply list_insert_id. by rewrite list_lookup_fmap, Hi.
Qed.

(** The representation depends on the mutex and on the threads not at all. *)
Lemma objs_lock b s l : objs (set_cf_lock b s) l <-> objs s l.
Proof. split; intros [H1 H2 H3 H4]; by split. Qed.

Lemma cfg_rep_lock b s l : cfg_rep (set_cf_lock b s) l <-> cfg_rep s l.
Proof. split; intros [H1 H2 H3 H4]; split; try done; by apply (objs_lock b). Qed.

(** Writing a server's fields other than its identifier and status. *)
Lemma cfg_rep_store s l i p x y :
  cfg_rep s l -> l !! i = Some x -> c_servers (cf s) !! i = Some p ->
  s_server_id y = s_server_id x -> s_status y = s_status x ->
  cfg_rep (set_heap (<[p := y]> (cf_heap s)) s) (<[i := y]> l).
Proof.
  intros [O Hn Hv Hc] Hi Hp Hid Hst. split.
  - by eapply objs_store.
  - by erewrite ids_insert.
  - apply Forall_insert; [done|]. pose proof (Forall_lookup_1 _ _ _ _ Hv Hi).
    unfold valid_status in *. by rewrite Hst.
  - cbn. rewrite Hc, (voters_insert l i x) by done.
    rewrite (bool_decide_ext (voting y) (voting x)) by (unfold voting; by rewrite Hst). lia.
Qed.

(** ** What the operations do to the represented list *)

Section Specs.
Context `{Rmr} (self : server_id_t).

(** [config_frame s s']: an operation left everything but the array, the
    counters and the objects as it was. *)
Definition config_frame (s s' : config_st) : Prop :=
  cf_lock s' = cf_lock s /\ cf_threads s' = cf_threads s /\
  c_is_changing (cf s') = c_is_changing (cf s).

Lemma locked_run {A} (m : M config_st A) s a s' :
  cf_lock s = false -> m (set_cf_lock true s) = Ok a s' ->
  locked m s = Ok a (set_cf_lock false s').
Proof. intros Hl Hm. unfold locked. mrun. simpl. rewrite Hl. cbn. by rewrite Hm. Qed.

(** A locked section that only reads. *)
Lemma locked_read {A} (m : M config_st A) s a :
  cf_lock s = false -> m (set_cf_lock true s) = Ok a (set_cf_lock true s) ->
  locked m s = Ok a s.
Proof.
  intros Hl Hm. rewrite (locked_run m s a _ Hl Hm). f_equal.
  destruct s. unfold cf_lock in Hl. by subst.
Qed.

(** Taking the module's mutex twice never returns. *)
Lemma locked_deadlock {A} (m : M config_st A) s :
  cf_lock s = true -> locked m s = Fault (SelfDeadlock config_lock).
Proof. intros Hl. unfold locked. mrun. simpl. by rewrite Hl. Qed.

Lemma index_of_objs s l i p :
  objs s l -> c_servers (cf s) !! i = Some p -> index_of p s = Ok i s.
Proof.
  intros O Hp. unfold index_of. rewrite (bind_Ok _ _ _ _ _ (config_size_objs s l O)).
  rewrite <- (objs_length s l O).
  erewrite bind_Ok; [|apply (for_find_list_find (fun q => q = p) (fun i => i))].
  - destruct (list_find _ _) as [[j q]|] eqn:Hf; mrun; simpl.
    + apply list_find_Some in Hf as (Hj & -> & _).
      by rewrite (NoDup_lookup _ _ _ _ (objs_nodup s l O) Hj Hp).
    + apply list_find_None in Hf. rewrite list.Forall_forall in Hf.
      destruct (Hf p); [by eapply list_elem_of_lookup_2|done].
  - intros j q Hq. rewrite (bind_Ok _ _ _ _ _ (server_at_objs s j q Hq)). simpl.
    by destruct (decide _).
Qed.

(** Removing the server at position [i]. *)
Lemma objs_delete s l i v :
  objs s l -> (i < length l)%nat ->
  objs (set_cf (RaftConfig (u32 (c_size (cf s) - 1)) v (c_is_changing (cf s))
          (take i (c_servers (cf s)) ++
           drop (S i) (take (Z.to_nat (c_size (cf s))) (c_servers (cf s))))) s) (delete i l).
Proof.
  intros O Hi. pose proof (objs_length s l O) as Hl. destruct O as [Hs Hu Hn Hh].
  rewrite Hs, Nat2Z.id, (take_ge (c_servers (cf s)) (length l)) by lia.
  rewrite <- delete_take_drop. split; cbn.
  - rewrite length_delete by (by apply lookup_lt_is_Some_2). rewrite u32_small; lia.
  - rewrite length_delete by (by apply lookup_lt_is_Some_2). lia.
  - by apply (sublist_NoDup _ _ Hn), sublist_delete.
  - rewrite !delete_take_drop. apply Forall2_app; [by apply Forall2_take|by apply Forall2_drop].
Qed.

Lemma remove_server_rep s l id :
  cfg_rep s l ->
  exists s', remove_server self id s = Ok tt s' /\ cfg_rep s' (without id l) /\
    config_frame s s'.
Proof.
  intros R. pose proof (rep_objs s l R) as O. unfold remove_server.
  destruct (list_find (has_id id) l) as [[i x]|] eqn:Hf.
  2: { rewrite (bind_Ok _ _ _ _ _ (get_server_absent s l O id Hf)).
       exists s. split; [done|]. split; [|done].
       rewrite without_absent; [done|]. by apply ids_find_None. }
  destruct (get_server_found s l O id i x Hf) as (p & Hg & Hi & Hp & Hx & Hid).
  rewrite (bind_Ok _ _ _ _ _ Hg). rewrite (bind_Ok _ _ _ _ _ (deref_objs s p x Hx)).
  set (v := if s_status x =? VOTING_MEMBER then u32 (c_voting_members (cf s) - 1)
            else c_voting_members (cf s)).
  set (s1 := set_cf (RaftConfig (c_size (cf s)) v (c_is_changing (cf s)) (c_servers (cf s))) s).
  assert (when (s_status x =? VOTING_MEMBER)
            (c ← gets cf; set_voting (u32 (c_voting_members c - 1))) s = Ok tt s1) as Hw.
  { unfold when, s1, v. destruct (s_status x =? VOTING_MEMBER); [done|].
    by destruct s as [[]]. }
  rewrite (bind_Ok _ _ _ _ _ Hw).
  assert (objs s1 l) as O1 by (destruct O; by split).
  set (y := if bool_decide (id <> self) then upd_active SHUTDOWN x else x).
  assert (exists s2, when (bool_decide (id <> self)) (upd p (upd_active SHUTDOWN)) s1 = Ok tt s2 /\
    objs s2 (<[i := y]> l) /\ cf s2 = cf s1 /\ config_frame s s2) as (s2 & Hw2 & O2 & Hcf & Hfr).
  { unfold when, y. destruct (bool_decide _).
    - rewrite (upd_objs s1 l i p x) by done. eexists. split; [done|].
      split; [by eapply objs_store|]. done.
    - exists s1. rewrite list_insert_id by done. done. }
  rewrite (bind_Ok _ _ _ _ _ Hw2).
  erewrite bind_Ok; [|apply (index_of_objs s2 _ i p O2); by rewrite Hcf].
  eexists. split; [reflexivity|].
  assert (without id l = delete i (<[i := y]> l)) as ->.
  { rewrite (without_delete id l i x) by (done || apply R).
    rewrite !delete_take_drop, take_insert_ge, drop_insert_lt by lia. done. }
  split; [|destruct Hfr as (? & ? & ?); by repeat split].
  pose proof (lookup_lt_Some _ _ _ Hi) as Hlt.
  assert (delete i (<[i := y]> l) = delete i l) as Hd.
  { rewrite !delete_take_drop, take_insert_ge, drop_insert_lt by lia. done. }
  split.
  - apply objs_delete; [done|by rewrite length_insert].
  - rewrite Hd. eapply sublist_NoDup; [apply R|]. apply ids_sublist, sublist_delete.
  - rewrite Hd. apply Forall_delete, R.
  - cbn. rewrite Hd, Hcf. cbn. unfold v.
    pose proof (voters_split l i x Hi) as Hvs. pose proof (voters_le_length l).
    pose proof (voters_le_length (delete i l)). pose proof (objs_u32 s l O).
    rewrite (rep_voting s l R). unfold voting in Hvs.
    destruct (Z.eqb_spec (s_status x) VOTING_MEMBER) as [Hvt|Hvt].
    + rewrite bool_decide_true in Hvs by done. cbn in Hvs. rewrite u32_small; lia.
    + rewrite bool_decide_false in Hvs by done. cbn in Hvs. lia.
Qed.

(** An identifier already present: its indexes restart, nothing is added. *)
Lemma add_server_present s l id target last i x :
  cfg_rep s l -> list_find (has_id id) l = Some (i, x) ->
  exists s', add_server self id target last s = Ok 0 s' /\
    cfg_rep s' (<[i := restart_indexes last x]> l) /\ config_frame s s'.
Proof.
  intros R Hf. pose proof (rep_objs s l R) as O.
  destruct (get_server_found s l O id i x Hf) as (p & Hg & Hi & Hp & Hx & Hid).
  unfold add_server. rewrite (bind_Ok _ _ _ _ _ Hg).
  rewrite (bind_Ok _ _ _ _ _ (upd_objs s l i p x (restart_indexes last) Hi Hp Hx)).
  eexists. split; [reflexivity|]. split; [|done].
  by eapply cfg_rep_store.
Qed.

Lemma fresh_object s l p :
  objs s l -> p ∈ c_servers (cf s) -> p <> fresh (dom (cf_heap s)).
Proof.
  intros O (i & Hi)%list_elem_of_lookup ->.
  destruct (Forall2_lookup_l _ _ _ _ _ (objs_heap s l O) Hi) as (x & _ & Hx).
  apply (is_fresh (dom (cf_heap s))), elem_of_dom. by exists x.
Qed.

Lemma objs_add s l x v :
  objs s l -> Z.of_nat (length l) + 1 < 2 ^ 32 ->
  objs (ConfigSt (RaftConfig (u32 (c_size (cf s) + 1)) v (c_is_changing (cf s))
          (take (Z.to_nat (c_size (cf s))) (c_servers (cf s)) ++ [fresh (dom (cf_heap s))]))
          (<[fresh (dom (cf_heap s)) := x]> (cf_heap s)) (cf_lock s) (cf_threads s)) (l ++ [x]).
Proof.
  intros O Hmax. pose proof (objs_length s l O) as Hl. pose proof (fresh_object s l) as Hfr.
  destruct O as [Hs Hu Hn Hh].
  rewrite Hs, Nat2Z.id, take_ge by lia. split; cbn.
  - rewrite length_app, u32_small; simpl; lia.
  - rewrite length_app; simpl; lia.
  - apply NoDup_app. split; [done|]. split; [|apply NoDup_singleton].
    intros p Hp ->%list_elem_of_singleton. by apply (Hfr (fresh (dom (cf_heap s)))).
  - apply Forall2_app.
    + apply Forall2_same_length_lookup_2; [done|]. intros j q y Hq Hy.
      rewrite lookup_insert_ne; [by apply (Forall2_lookup_lr _ _ _ j q y Hh)|].
      intros <-. apply (Hfr (fresh (dom (cf_heap s)))); [done| |done].
      by eapply list_elem_of_lookup_2.
    + apply Forall2_cons. split; [|done]. apply lookup_insert_eq.
Qed.

Lemma cfg_rep_add s l x :
  cfg_rep s l -> Z.of_nat (length l) + 1 < 2 ^ 32 ->
  s_server_id x ∉ ids l -> s_status x = NON_VOTING_MEMBER ->
  cfg_rep (ConfigSt (RaftConfig (u32 (c_size (cf s) + 1)) (c_voting_members (cf s))
          (c_is_changing (cf s))
          (take (Z.to_nat (c_size (cf s))) (c_servers (cf s)) ++ [fresh (dom (cf_heap s))]))
          (<[fresh (dom (cf_heap s)) := x]> (cf_heap s)) (cf_lock s) (cf_threads s)) (l ++ [x]).
Proof.
  intros [O Hn Hv Hc] Hmax Hid Hst. split.
  - by apply objs_add.
  - unfold ids in *. rewrite fmap_app. apply NoDup_app. split; [done|].
    split; [|apply NoDup_singleton]. by intros i Hi ->%list_elem_of_singleton.
  - apply Forall_app. split; [done|]. apply list.Forall_singleton. by right.
  - cbn. rewrite Hc, voters_app, voters_cons, voters_nil, bool_decide_false; [simpl; lia|].
    unfold voting. by rewrite Hst.
Qed.

(** A new identifier is appended as a non-voting member, once its thread runs. *)
Lemma add_server_absent s l id target last :
  cfg_rep s l -> id ∉ ids l -> (String.length id < sizeof_server_id)%nat ->
  Z.of_nat (length l) + 1 < 2 ^ 32 -> Forall (fun r => r = 0) (cf_threads s) ->
  exists s', add_server self id target last s = Ok 1 s' /\
    cfg_rep s' (l ++ [new_server id target last]) /\
    cf_lock s' = cf_lock s /\ Forall (fun r => r = 0) (cf_threads s') /\
    c_is_changing (cf s') = c_is_changing (cf s).
Proof.
  intros R Hid Hlen Hmax Hthr. pose proof (rep_objs s l R) as O.
  unfold add_server.
  rewrite (bind_Ok _ _ _ _ _ (get_server_absent s l O id (proj2 (ids_find_None id l) Hid))).
  pose proof (cfg_rep_add s l (new_server id target last) R Hmax) as R'.
  cbn [s_server_id s_status new_server] in R'.
  rewrite str_cut_id in R' by lia. specialize (R' Hid eq_refl).
  unfold alloc, mod_cf. mrun. cbn [cf cf_heap cf_lock cf_threads set_heap set_cf].
  destruct (decide (id = self)).
  - eexists. split; [reflexivity|]. by split.
  - unfold pthread_create. cbn [cf_threads set_cf set_heap].
    destruct (cf_threads s) as [|r rs] eqn:Ethr.
    + rewrite <- Ethr in R', Hthr. eexists. split; [reflexivity|]. by split.
    + apply Forall_cons_iff in Hthr as [-> Hthr]. eexists. split; [reflexivity|].
      split; [|done]. destruct R' as [[] ? ? ?]. by split.
Qed.

(** When the thread of a new server cannot be created, the cleanup takes the
    mutex its caller holds. *)
Lemma add_server_thread_error s l id target last r rs :
  cfg_rep s l -> id ∉ ids l -> id <> self -> cf_threads s = r :: rs -> r <> 0 ->
  cf_lock s = true ->
  add_server self id target last s = Fault (SelfDeadlock config_lock).
Proof.
  intros R Hid Hself Hthr Hr Hlk. pose proof (rep_objs s l R) as O.
  unfold add_server.
  rewrite (bind_Ok _ _ _ _ _ (get_server_absent s l O id (proj2 (ids_find_None id l) Hid))).
  unfold alloc, mod_cf. mrun. cbn [cf cf_heap cf_lock cf_threads set_heap set_cf].
  rewrite decide_False by done. unfold pthread_create. cbn [cf_threads set_cf set_heap]. rewrite Hthr.
  destruct (Z.eqb_spec r 0); [done|]. cbn [negb].
  unfold raft_config_remove_server. by rewrite locked_deadlock.
Qed.

(** The counter of voting members after one server changed its status. *)
Lemma voting_counter s l i x status :
  cfg_rep s l -> l !! i = Some x -> s_status x <> status ->
  status = VOTING_MEMBER \/ status = NON_VOTING_MEMBER ->
  (if status =? VOTING_MEMBER then
     assert (c_voting_members (cf s) <? c_size (cf s));;
     set_voting (u32 (c_voting_members (cf s) + 1))
   else
     assert (0 <? c_voting_members (cf s));;
     set_voting (u32 (c_voting_members (cf s) - 1))) s =
  Ok tt (set_cf (RaftConfig (c_size (cf s)) (voters (<[i := upd_status status x]> l))
           (c_is_changing (cf s)) (c_servers (cf s))) s).
Proof.
  intros R Hi Hne Hst. pose proof (rep_objs s l R) as O.
  pose proof (Forall_lookup_1 _ _ _ _ (rep_status s l R) Hi) as Hvx.
  pose proof (voters_split l i x Hi) as Hvs. pose proof (voters_le_length (delete i l)).
  pose proof (lookup_lt_Some _ _ _ Hi). pose proof (objs_u32 s l O).
  assert (length (delete i l) = length l - 1)%nat by (by apply length_delete, lookup_lt_is_Some_2).
  rewrite (voters_insert l i x) by done. rewrite (rep_voting s l R), (objs_size s l O).
  unfold voting in *. cbn [s_status upd_status]. unfold valid_status in Hvx.
  destruct Hst as [-> | ->].
  - rewrite Z.eqb_refl.
    rewrite bool_decide_false in Hvs |- * by done. rewrite bool_decide_true by done.
    simpl in Hvs. assert ((voters l <? Z.of_nat (length l)) = true) as -> by (apply Z.ltb_lt; lia).
    unfold set_voting, mod_cf. mrun. rewrite (objs_size s l O), u32_small by lia.
    do 3 f_equal; simpl; lia.
  - destruct Hvx as [Hvx|Hvx]; [|congruence].
    change (NON_VOTING_MEMBER =? VOTING_MEMBER) with false.
    rewrite bool_decide_true in Hvs |- * by done. rewrite bool_decide_false by done.
    simpl in Hvs. assert ((0 <? voters l) = true) as -> by (apply Z.ltb_lt; lia).
    unfold set_voting, mod_cf. mrun. rewrite (objs_size s l O), u32_small by lia.
    do 3 f_equal; simpl; lia.
Qed.

(** The new status of a server; the counter follows. *)
Lemma set_status_rep s l id status i x :
  cfg_rep s l -> list_find (has_id id) l = Some (i, x) ->
  status = VOTING_MEMBER \/ status = NON_VOTING_MEMBER ->
  exists s', set_server_voting_status id status s = Ok (1, ENONE) s' /\
    cfg_rep s' (<[i := upd_status status x]> l) /\ config_frame s s'.
Proof.
  intros R Hf Hst. pose proof (rep_objs s l R) as O.
  destruct (get_server_found s l O id i x Hf) as (p & Hg & Hi & Hp & Hx & Hid).
  unfold set_server_voting_status.
  assert (negb (status =? VOTING_MEMBER) && negb (status =? NON_VOTING_MEMBER) = false) as ->
    by (destruct Hst as [-> | ->]; done).
  rewrite (bind_Ok _ _ _ _ _ Hg). rewrite (bind_Ok _ _ _ _ _ (deref_objs s p x Hx)).
  destruct (Z.eqb_spec (s_status x) status) as [He|He].
  { eexists. split; [reflexivity|]. split; [|done].
    rewrite <- He. assert (upd_status (s_status x) x = x) as -> by (by destruct x).
    by rewrite list_insert_id. }
  pose proof (voting_counter s l i x status R Hi He Hst) as Hcount.
  set (s1 := set_cf _ s) in Hcount.
  assert (objs s1 l) as O1 by (destruct O; by split).
  exists (set_heap (<[p := upd_status status x]> (cf_heap s1)) s1). split.
  - erewrite bind_Ok; [reflexivity|]. cbn [negb when].
    erewrite bind_Ok; [|reflexivity]. rewrite (bind_Ok _ _ _ _ _ Hcount).
    by apply (upd_objs s1 l i p x).
  - split; [|done]. split.
    + by eapply objs_store.
    + rewrite (ids_insert l i x) by done. apply R.
    + apply Forall_insert; [apply R|done].
    + done.
Qed.

End Specs.
