(* ===== verification/Quorum.v ===== *)
(** * Votes, quorums and replicas of the configuration (src/config.c)

    What the functions of [Config] that walk over the whole array compute: the
    reset loops write every server, the quorum tests count exactly the voting
    members and compare with a strict majority, and the replica search chooses
    voting members in circular order after the running server. *)

From S2P Require Import Prelude Monad Types Mtl Config.
Open Scope Z_scope.

(** ** Loops that write every server *)

Section WriteLoops.

(** After [k] iterations the first [k] servers are written. *)
Definition written (f : server_t -> server_t) (k : nat) (l : list server_t) : list server_t :=
  (f <$> take k l) ++ drop k l.

Lemma written_0 f l : written f 0 l = l.
Proof. by unfold written. Qed.

Lemma written_all f l : written f (length l) l = f <$> l.
Proof. unfold written. by rewrite firstn_all, drop_all, app_nil_r. Qed.

Lemma written_S f k l x : l !! k = Some x ->
  written f (S k) l = <[k := f x]> (written f k l) /\ written f k l !! k = Some x.
Proof.
  intros Hk. pose proof (lookup_lt_Some _ _ _ Hk) as Hlt. unfold written.
  assert (length (f <$> take k l) = k) as Hl by (rewrite length_fmap, length_take; lia).
  split.
  - rewrite (take_S_r l k x Hk), fmap_app, <- app_assoc. cbn.
    rewrite (drop_S l x k Hk), insert_app_r_alt by lia.
    by rewrite Hl, Nat.sub_diag.
  - rewrite lookup_app_r by lia. by rewrite Hl, Nat.sub_diag, lookup_drop, Nat.add_0_r.
Qed.

Lemma write_loop s l f :
  objs s l ->
  exists s', for_ (length l) 0 (fun i => p ← server_at i; upd p f) s = Ok tt s' /\
    objs s' (f <$> l) /\ cf s' = cf s /\ cf_lock s' = cf_lock s /\ cf_threads s' = cf_threads s.
Proof.
  intros O.
  destruct (wp_never (for_ (length l) 0 (fun i => p ← server_at i; upd p f)) s
    (fun _ s' => objs s' (f <$> l) /\ cf s' = cf s /\ cf_lock s' = cf_lock s /\
                 cf_threads s' = cf_threads s)) as ([] & s' & H1 & H2); [|by exists s'].
  apply (wp_for _ (fun k s' => objs s' (written f k l) /\ cf s' = cf s /\
    cf_lock s' = cf_lock s /\ cf_threads s' = cf_threads s)).
  - by rewrite written_0.
  - intros i x s1 Hi (O1 & Hc & Hlk & Hth). cbn [Nat.add].
    destruct (written_S f i l x Hi) as [HS Hx].
    destruct (objs_lookup s1 _ O1 i x Hx) as (p & Hp & Hpx).
    eapply wp_eq.
    + rewrite (bind_Ok _ _ _ _ _ (server_at_objs s1 i p Hp)).
      by apply (upd_objs s1 (written f i l) i p x).
    + rewrite HS. split; [by eapply objs_store|]. done.
  - intros s1 H1. cbn [Nat.add] in H1. by rewrite written_all in H1.
Qed.

End WriteLoops.

(** Fields that are neither the identifier nor the status leave the counters. *)
Lemma cfg_rep_fmap s s' l f :
  cfg_rep s l -> objs s' (f <$> l) -> cf s' = cf s ->
  (forall x, s_server_id (f x) = s_server_id x /\ s_status (f x) = s_status x) ->
  cfg_rep s' (f <$> l).
Proof.
  intros [O Hn Hv Hc] O' Hcf Hf. split; [done|..].
  - unfold ids in *. rewrite <- list_fmap_compose.
    by rewrite (list_fmap_ext _ s_server_id l) by (intros ? x ?; apply Hf).
  - apply Forall_fmap. eapply Forall_impl; [exact Hv|].
    intros x. unfold valid_status. simpl. by destruct (Hf x) as [_ ->].
  - rewrite Hcf, Hc. unfold voters. f_equal.
    clear -Hf. induction l as [|x l IH]; [done|].
    rewrite fmap_cons, !filter_cons. destruct (Hf x) as [_ Hs].
    destruct (decide (voting x)) as [H1|H1], (decide (voting (f x))) as [H2|H2];
      unfold voting in *; rewrite ?Hs in *; try done; simpl; by rewrite IH.
Qed.

Lemma reset_votes_rep s l :
  cfg_rep s l -> cf_lock s = false ->
  exists s', raft_config_reset_votes s = Ok tt s' /\
    cfg_rep s' (upd_voted_for_me 0 <$> l) /\ config_frame s s'.
Proof.
  intros R Hlk. pose proof (rep_objs _ _ (proj2 (cfg_rep_lock true s l) R)) as O.
  destruct (write_loop _ l (upd_voted_for_me 0) O) as (s1 & H1 & O1 & Hc & Hl & Ht).
  eexists. split.
  - apply locked_run; [done|].
    rewrite (bind_Ok _ _ _ _ _ (config_size_objs _ l O)). exact H1.
  - split; [|destruct s1; by repeat split; cbn in *; congruence].
    apply cfg_rep_lock. by eapply cfg_rep_fmap.
Qed.

(** A new leader restarts every [next_index] after its last entry. *)
Lemma set_all_server_indexes_rep s l last :
  cfg_rep s l -> cf_lock s = false ->
  exists s', raft_config_set_all_server_indexes last s = Ok tt s' /\
    cfg_rep s' ((fun x => upd_match_index 0 (upd_next_index (u64 (last + 1)) x)) <$> l) /\
    config_frame s s'.
Proof.
  intros R Hlk. pose proof (rep_objs _ _ (proj2 (cfg_rep_lock true s l) R)) as O.
  destruct (write_loop _ l (fun x => upd_match_index 0 (upd_next_index (u64 (last + 1)) x)) O)
    as (s1 & H1 & O1 & Hc & Hl & Ht).
  eexists. split.
  - apply locked_run; [done|].
    rewrite (bind_Ok _ _ _ _ _ (config_size_objs _ l O)). exact H1.
  - split; [|destruct s1; by repeat split; cbn in *; congruence].
    apply cfg_rep_lock. by eapply cfg_rep_fmap.
Qed.

(** ** Quorum tests *)

(** The voting members that hold the entry [idx], according to [match_index]. *)
Definition matching (idx : index_t) (x : server_t) : Prop :=
  s_status x = VOTING_MEMBER /\ idx <= s_match_index x.
#[export] Instance matching_dec idx x : Decision (matching idx x).
Proof. unfold matching. apply _. Defined.

Definition matches (idx : index_t) (l : list server_t) : Z :=
  Z.of_nat (length (filter (matching idx) l)).

Lemma matches_le idx l : 0 <= matches idx l <= voters l.
Proof.
  unfold matches, voters. induction l as [|x l IH]; [done|].
  rewrite !filter_cons. unfold matching, voting in *.
  repeat case_decide; simpl; try lia; tauto.
Qed.

Lemma matches_cons idx x l :
  matches idx (x :: l) = b2z ((s_status x =? VOTING_MEMBER) && (idx <=? s_match_index x)) + matches idx l.
Proof.
  unfold matches. rewrite filter_cons. unfold matching. case_decide as Hd.
  - destruct Hd as [-> Hm]. rewrite Z.eqb_refl. apply Z.leb_le in Hm. rewrite Hm. simpl. lia.
  - destruct (Z.eqb_spec (s_status x) VOTING_MEMBER), (Z.leb_spec idx (s_match_index x));
      simpl; try lia; tauto.
Qed.

Lemma count_match_objs s l idx k n count :
  objs s l -> (n + k = length l)%nat -> 0 <= count ->
  count + matches idx (drop k l) < 2 ^ 32 ->
  count_match n k count idx s = Ok (count + matches idx (drop k l)) s.
Proof.
  intros O. revert k count. induction n as [|n IH]; intros k count Hn Hc Hb.
  - rewrite drop_ge by lia. cbn. f_equal. unfold matches. simpl. lia.
  - destruct (lookup_lt_is_Some_2 l k) as [x Hx]; [lia|].
    destruct (objs_lookup s l O k x Hx) as (p & Hp & Hpx).
    cbn [count_match]. rewrite (bind_Ok _ _ _ _ _ (server_at_objs s k p Hp)).
    rewrite (bind_Ok _ _ _ _ _ (deref_objs s p x Hpx)).
    rewrite (drop_S l x k Hx), matches_cons in Hb |- *.
    pose proof (matches_le idx (drop (S k) l)).
    destruct ((s_status x =? VOTING_MEMBER) && (idx <=? s_match_index x)); simpl b2z in *.
    + rewrite u32_small by lia. rewrite IH by lia. f_equal; lia.
    + rewrite IH by lia. f_equal; lia.
Qed.

(** A quorum test answers 1 exactly when the accounted members, the caller
    included, are more than half of the voting members. *)
Lemma majority_half n c : 0 <= n -> (n / 2 <? c) = (n <? 2 * c).
Proof.
  intros Hn. pose proof (Z.div_mod n 2 ltac:(lia)).
  pose proof (Z.mod_pos_bound n 2 ltac:(lia)). zcases; lia.
Qed.

Lemma has_majority_of_match_index_rep s l idx :
  cfg_rep s l -> cf_lock s = false -> voters l + 1 < 2 ^ 32 ->
  has_majority_of_match_index idx s = Ok (b2z (voters l <? 2 * (matches idx l + 1))) s.
Proof.
  intros R Hlk Hb. pose proof (rep_objs _ _ (proj2 (cfg_rep_lock true s l) R)) as O.
  pose proof (matches_le idx l) as Hm.
  apply locked_read; [done|].
  rewrite (bind_Ok _ _ _ _ _ (config_size_objs _ l O)).
  erewrite bind_Ok; [|apply (count_match_objs _ l idx 0); [done|lia|lia|rewrite drop_0; lia]].
  rewrite drop_0. mrun. cbn [cf set_cf_lock]. rewrite (rep_voting s l R), u32_small by lia.
  by rewrite majority_half by lia.
Qed.

Lemma has_majority_of_votes_rep s l votes :
  cfg_rep s l -> cf_lock s = false -> votes <= voters l ->
  has_majority_of_votes votes s = Ok (b2z (voters l <? 2 * votes)) s.
Proof.
  intros R Hlk Hv. pose proof (voters_le_length l).
  apply locked_read; [done|].
  mrun. cbn [cf set_cf_lock]. rewrite (rep_voting s l R).
  destruct (Z.ltb_spec (voters l) votes); [lia|]. mrun.
  by rewrite majority_half by lia.
Qed.

(** More votes than voting members end the process. *)
Lemma has_majority_of_votes_exit s l votes :
  cfg_rep s l -> cf_lock s = false -> voters l < votes ->
  has_majority_of_votes votes s = Fault Exit.
Proof.
  intros R Hlk Hv. unfold has_majority_of_votes, locked. mrun. simpl. rewrite Hlk. cbn.
  rewrite (rep_voting s l R). destruct (Z.ltb_spec (voters l) votes); [done|lia].
Qed.

(** Recording a vote: a voting member that has not voted yet is marked. *)
Lemma set_new_vote_rep s l id i x :
  cfg_rep s l -> cf_lock s = false -> list_find (has_id id) l = Some (i, x) ->
  let new := (s_status x =? VOTING_MEMBER) && negb (truthy (s_voted_for_me x)) in
  exists s', raft_config_set_new_vote id s = Ok (b2z new) s' /\
    cfg_rep s' (if new then <[i := upd_voted_for_me 1 x]> l else l) /\ config_frame s s'.
Proof.
  intros R Hlk Hf new. pose proof (proj2 (cfg_rep_lock true s l) R) as R1.
  pose proof (rep_objs _ _ R1) as O.
  destruct (get_server_found _ l O id i x Hf) as (p & Hg & Hi & Hp & Hx & Hid).
  eexists. split.
  - apply locked_run; [done|]. rewrite (bind_Ok _ _ _ _ _ Hg).
    rewrite (bind_Ok _ _ _ _ _ (deref_objs _ p x Hx)). fold new.
    instantiate (1 := if new then _ else _). destruct new.
    + rewrite (bind_Ok _ _ _ _ _ (upd_objs _ l i p x (upd_voted_for_me 1) Hi Hp Hx)). done.
    + done.
  - destruct new.
    + split; [|by split]. apply cfg_rep_lock. by eapply cfg_rep_store.
    + split; [|by split]. by apply cfg_rep_lock.
Qed.

Lemma set_new_vote_absent s l id :
  cfg_rep s l -> cf_lock s = false -> id ∉ ids l ->
  raft_config_set_new_vote id s = Ok 0 s.
Proof.
  intros R Hlk Hid. pose proof (rep_objs _ _ (proj2 (cfg_rep_lock true s l) R)) as O.
  apply locked_read; [done|].
  by rewrite (bind_Ok _ _ _ _ _ (get_server_absent _ l O id (proj2 (ids_find_None id l) Hid))).
Qed.

(** ** The backup replicas *)

(** The other servers in circular order after position [k]. *)
Definition candidates (k : nat) (l : list server_t) : list server_t :=
  drop (S k) l ++ take k l.

Lemma length_candidates k l : (k < length l)%nat -> length (candidates k l) = (length l - 1)%nat.
Proof. intros Hk. unfold candidates. rewrite length_app, length_drop, length_take. lia. Qed.

Lemma candidates_lookup k l j :
  (k < length l)%nat -> (j < length l - 1)%nat ->
  candidates k l !! j = l !! Z.to_nat ((Z.of_nat k + 1 + Z.of_nat j) mod Z.of_nat (length l)).
Proof.
  intros Hk Hj. unfold candidates.
  replace (Z.of_nat k + 1 + Z.of_nat j) with (Z.of_nat (k + 1) + Z.of_nat j) by lia.
  destruct (decide (k + 1 + j < length l)%nat) as [Hlt|Hge].
  - rewrite lookup_app_l by (rewrite length_drop; lia). rewrite lookup_drop.
    rewrite Z.mod_small by lia. f_equal. lia.
  - rewrite lookup_app_r by (rewrite length_drop; lia). rewrite length_drop.
    rewrite lookup_take_lt by lia. f_equal.
    rewrite <- (Z.mod_unique (Z.of_nat (k + 1) + Z.of_nat j) (Z.of_nat (length l)) 1
      (Z.of_nat (k + 1) + Z.of_nat j - Z.of_nat (length l))); lia.
Qed.

(** The position of [me], or 0 when it is not in the configuration. *)
Definition my_position (me : string) (l : list server_t) : nat :=
  default 0%nat (fst <$> list_find (has_id me) l).

(** The index of the circular search at its step [j]. *)
Definition circ (k j : nat) (l : list server_t) : Z :=
  (Z.of_nat k + 1 + Z.of_nat j) mod Z.of_nat (length l).

Lemma circ_last k l : (k < length l)%nat -> circ k (length l - 1) l = Z.of_nat k.
Proof.
  intros Hk. unfold circ.
  replace (Z.of_nat k + 1 + Z.of_nat (length l - 1)) with (Z.of_nat k + 1 * Z.of_nat (length l)) by lia.
  rewrite Z_mod_plus_full, Z.mod_small; lia.
Qed.

Lemma circ_ne k j l : (k < length l)%nat -> (j < length l - 1)%nat -> circ k j l <> Z.of_nat k.
Proof.
  intros Hk Hj. unfold circ. destruct (decide (k + 1 + j < length l)%nat).
  - rewrite Z.mod_small by lia. lia.
  - rewrite <- (Z.mod_unique _ (Z.of_nat (length l)) 1
      (Z.of_nat k + 1 + Z.of_nat j - Z.of_nat (length l))); lia.
Qed.

Lemma circ_next k j l : (k < length l)%nat -> Z.of_nat (length l) < 2 ^ 32 ->
  u32 (circ k j l + 1) mod Z.of_nat (length l) = circ k (S j) l.
Proof.
  intros Hk Hu. unfold circ.
  pose proof (Z.mod_pos_bound (Z.of_nat k + 1 + Z.of_nat j) (Z.of_nat (length l))).
  rewrite u32_small, Zplus_mod_idemp_l by lia. f_equal. lia.
Qed.

Section Replicas.
Context (s : config_st) (l : list server_t) (O : objs s l) (k : nat) (Hk : (k < length l)%nat).

Let held (p : loc) (x : server_t) : Prop := cf_heap s !! p = Some x.

Lemma pick_replicas_objs n fuel j chosen cs :
  0 <= n -> (length cs <= Z.to_nat n)%nat -> Forall2 held chosen cs ->
  (j <= length l - 1)%nat -> (length l - 1 - j <= fuel)%nat ->
  exists ps,
    pick_replicas fuel (circ k j l) (Z.of_nat k) n chosen s = Ok ps s /\
    Forall2 held ps (take (Z.to_nat n) (cs ++ filter voting (drop j (candidates k l)))).
Proof using O Hk.
  intros Hn. pose proof (length_candidates k l Hk) as Hlc. pose proof (objs_u32 s l O) as Hu.
  revert j chosen cs. induction fuel as [|fuel IH]; intros j chosen cs Hcs Hch Hj Hf.
  all: cbn [pick_replicas]; pose proof (Forall2_length _ _ _ Hch) as Hlen.
  all: destruct (decide (j = length l - 1)%nat) as [->|Hne]; [|try lia].
  1-2: exists chosen; rewrite drop_ge, filter_nil, app_nil_r, take_ge by lia;
       by rewrite circ_last, Z.eqb_refl.
  assert ((circ k j l =? Z.of_nat k) = false) as -> by (apply Z.eqb_neq, circ_ne; lia).
  cbn [negb andb].
  destruct (Z.ltb_spec (Z.of_nat (length chosen)) n) as [Hroom|Hfull].
  2: { exists chosen. split; [done|]. rewrite take_app_le by lia. by rewrite take_ge by lia. }
  destruct (lookup_lt_is_Some_2 (candidates k l) j) as [x Hx]; [lia|].
  pose proof Hx as Hlx. rewrite candidates_lookup in Hlx by lia. fold (circ k j l) in Hlx.
  destruct (objs_lookup s l O _ x Hlx) as (p & Hp & Hpx).
  rewrite (bind_Ok _ _ _ _ _ (server_at_objs s _ p Hp)).
  rewrite (bind_Ok _ _ _ _ _ (deref_objs s p x Hpx)).
  erewrite bind_Ok by reflexivity. rewrite (objs_size s l O), circ_next by done.
  rewrite (drop_S _ x j Hx), filter_cons.
  destruct (Z.eqb_spec (s_status x) VOTING_MEMBER) as [Hv|Hv].
  - rewrite decide_True by done.
    replace (cs ++ x :: filter voting (drop (S j) (candidates k l)))
      with ((cs ++ [x]) ++ filter voting (drop (S j) (candidates k l))) by (by rewrite <- app_assoc).
    apply IH; [|by apply Forall2_app; [|by constructor]|lia|lia].
    rewrite length_app. simpl. lia.
  - rewrite decide_False by done. apply IH; [done|done|lia|lia].
Qed.

End Replicas.

(** The index the source searches for first: [i] after the loop, and [myidx]. *)
Lemma find_me s l me :
  objs s l ->
  for_find (length l) 0 (fun i =>
    p ← server_at i; x ← deref p;
    if decide (me = s_server_id x) then mret (Some i) else mret None) s =
  Ok (fst <$> list_find (has_id me) l) s.
Proof.
  intros O. erewrite (for_find_list_find (has_id me) (fun i => i)).
  - f_equal.
  - intros i x Hx. destruct (objs_lookup s l O i x Hx) as (p & Hp & Hpx). cbn [Nat.add].
    rewrite (bind_Ok _ _ _ _ _ (server_at_objs s i p Hp)).
    rewrite (bind_Ok _ _ _ _ _ (deref_objs s p x Hpx)).
    by destruct (decide (me = s_server_id x)), (decide (s_server_id x = me)).
Qed.

Lemma my_position_lt me l : (0 < length l)%nat -> (my_position me l < length l)%nat.
Proof.
  intros Hl. unfold my_position. destruct (list_find _ _) as [[i x]|] eqn:Hf; simpl; [|done].
  apply list_find_Some in Hf as (Hi & _). by eapply lookup_lt_Some.
Qed.

Lemma candidates_short me l : (length l <= 1)%nat -> candidates (my_position me l) l = [].
Proof.
  destruct l as [|x []]; simpl; intros Hl; [done| |lia].
  assert (my_position me [x] = 0%nat) as ->; [|done].
  pose proof (my_position_lt me [x]). simpl in *. lia.
Qed.

(** The first index of the circular search, found or not. *)
Lemma first_index me l :
  (1 < length l)%nat -> Z.of_nat (length l) + 1 < 2 ^ 32 ->
  u32 (match fst <$> list_find (has_id me) l with
       | Some i => Z.of_nat i | None => Z.of_nat (length l) end + 1) mod Z.of_nat (length l)
  = circ (my_position me l) 0 l.
Proof.
  intros Hl Hb. pose proof (my_position_lt me l ltac:(lia)) as Hp. revert Hp.
  unfold circ, my_position. destruct (list_find _ _) as [[i x]|]; simpl; intros Hp.
  - rewrite u32_small by lia. f_equal. lia.
  - rewrite u32_small by lia.
    replace (Z.of_nat (length l) + 1) with (1 + 1 * Z.of_nat (length l)) by lia.
    by rewrite Z_mod_plus_full.
Qed.

(** The chosen backups are voting members other than the running server, in
    circular order after it, at most [n]; the loop always ends. *)
Lemma get_replica_servers_rep s l me n :
  cfg_rep s l -> cf_lock s = false -> is_u32 n -> Z.of_nat (length l) + 1 < 2 ^ 32 ->
  exists ps, get_replica_servers me n s = Ok ps s /\
    Forall2 (fun p x => cf_heap s !! p = Some x) ps
      (take (Z.to_nat n) (filter voting (candidates (my_position me l) l))).
Proof.
  intros R Hlk Hn Hb. pose proof (rep_objs _ _ (proj2 (cfg_rep_lock true s l) R)) as O.
  pose proof (objs_size _ l O) as Hs. set (s1 := set_cf_lock true s) in *.
  set (N := Z.of_nat (length l)) in *. set (n' := if N <? n then u32 (N - 1) else n).
  pose proof (length_filter voting (candidates (my_position me l) l)) as HL.
  destruct ((1 <? N) && truthy n') eqn:Hgo.
  - apply andb_true_iff in Hgo as [H1 H2]. apply Z.ltb_lt in H1.
    pose proof (my_position_lt me l ltac:(lia)) as Hk.
    rewrite length_candidates in HL by done.
    assert (0 <= n') as Hn' by (unfold n'; case_match; [apply u32_range|lia]).
    destruct (pick_replicas_objs s1 l O _ Hk n' (length l) 0 [] [] Hn') as (ps & Hp & HF);
      [simpl; lia|constructor|lia|lia|].
    exists ps. split.
    + apply locked_read; [done|].
      rewrite (bind_Ok _ _ _ _ _ (eq_refl : gets cf s1 = Ok (cf s1) s1)). rewrite Hs. cbv zeta. fold N n'.
      apply Z.ltb_lt in H1. rewrite H1, H2. cbn [andb].
      unfold N. rewrite Nat2Z.id. rewrite (bind_Ok _ _ _ _ _ (find_me s1 l me O)).
      etransitivity; [|exact Hp]. cbv zeta. rewrite first_index by lia. unfold my_position.
      by destruct (list_find _ _) as [[]|].
    + rewrite drop_0, app_nil_l in HF. revert HF. unfold n'.
      destruct (Z.ltb_spec N n); [|done]. rewrite u32_small by lia.
      by rewrite !(take_ge (filter _ _)) by lia.
  - exists []. split.
    + apply locked_read; [done|].
      rewrite (bind_Ok _ _ _ _ _ (eq_refl : gets cf s1 = Ok (cf s1) s1)). rewrite Hs. cbv zeta. fold N n'.
      by rewrite Hgo.
    + assert (n = 0 \/ (length l <= 1)%nat) as [-> |Hl].
      { apply andb_false_iff in Hgo as [H1|H1]; [apply Z.ltb_ge in H1; lia|].
        unfold truthy, n' in H1. apply negb_false_iff, Z.eqb_eq in H1.
        destruct (Z.ltb_spec N n); [|lia]. destruct (Z.eq_dec N 0); [lia|].
        rewrite u32_small in H1 by lia. lia. }
      * constructor.
      * rewrite candidates_short, filter_nil by done. by destruct (Z.to_nat n).
Qed.
