(* ===== verification/Membership.v ===== *)
(** * The configuration against its specification

    The operations of src/config.c that the rest of the library calls, as
    operations on the list of members and the flag that a change of the
    configuration is under way. *)

From S2P Require Import Prelude Monad Refine Types LogRing Mtl Config Quorum.
Open Scope Z_scope.

Module Members.

Inductive op :=
| Add (id : server_id_t) (target : target_t) (last : index_t)
| Remove (id : server_id_t)
| SetStatus (id : server_id_t) (status : Z)
| NewVote (id : server_id_t)
| ResetVotes
| SetIndexes (last : index_t)
| Number
| MajorityOfVotes (votes : Z)
| MajorityOfMatch (idx : index_t)
| SetChanging (b : Z)
| IsChanging.

Section Members.
Context `{Rmr} (self : server_id_t).

Definition run (o : op) : M config_st (Z * errno_t) :=
  match o with
  | Add id target last =>
      r ← raft_config_add_server self id (Some target) last; mret (r, ENONE)
  | Remove id => raft_config_remove_server self id;; mret (0, ENONE)
  | SetStatus id status => raft_config_set_server_status id status
  | NewVote id => r ← raft_config_set_new_vote id; mret (r, ENONE)
  | ResetVotes => raft_config_reset_votes;; mret (0, ENONE)
  | SetIndexes last => raft_config_set_all_server_indexes last;; mret (0, ENONE)
  | Number => r ← raft_get_num_servers; mret (r, ENONE)
  | MajorityOfVotes votes => r ← has_majority_of_votes votes; mret (r, ENONE)
  | MajorityOfMatch idx => r ← has_majority_of_match_index idx; mret (r, ENONE)
  | SetChanging b => r ← set_configuration_changing b; mret (r, ENONE)
  | IsChanging => r ← is_configuration_changing; mret (r, ENONE)
  end.

(** The members, in the order they were added, and the flag. *)
Definition abs : Type := list server_t * Z.

(** Changing the member with an identifier. *)
Definition update (id : server_id_t) (f : server_t -> server_t) (l : list server_t)
  : list server_t :=
  match list_find (has_id id) l with Some (i, x) => <[i := f x]> l | None => l end.

Definition member (id : server_id_t) (l : list server_t) : option server_t :=
  snd <$> list_find (has_id id) l.

Definition spec (o : op) (a : abs) : (Z * errno_t) * abs :=
  let '(l, changing) := a in
  match o with
  | Add id target last =>
      match member id l with
      | Some _ => ((0, ENONE), (update id (restart_indexes last) l, changing))
      | None => ((1, ENONE), (l ++ [new_server id target last], changing))
      end
  | Remove id => ((0, ENONE), (without id l, changing))
  | SetStatus id status =>
      if decide (status = VOTING_MEMBER \/ status = NON_VOTING_MEMBER) then
        match member id l with
        | Some _ => ((1, ENONE), (update id (upd_status status) l, changing))
        | None => ((0, ENODATA), a)
        end
      else ((0, EINVAL), a)
  | NewVote id =>
      match member id l with
      | Some x =>
          if decide (voting x /\ s_voted_for_me x = 0)
          then ((1, ENONE), (update id (upd_voted_for_me 1) l, changing)) else ((0, ENONE), a)
      | None => ((0, ENONE), a)
      end
  | ResetVotes => ((0, ENONE), (upd_voted_for_me 0 <$> l, changing))
  | SetIndexes last =>
      ((0, ENONE), ((fun x => upd_match_index 0 (upd_next_index (u64 (last + 1)) x)) <$> l, changing))
  | Number => ((Z.of_nat (length l), ENONE), a)
  | MajorityOfVotes votes => ((b2z (voters l <? 2 * votes), ENONE), a)
  | MajorityOfMatch idx => ((b2z (voters l <? 2 * (matches idx l + 1)), ENONE), a)
  | SetChanging b =>
      if decide (changing <> 0 /\ b = 1) then ((0, ENONE), a) else ((1, ENONE), (l, b))
  | IsChanging => ((b2z (truthy changing), ENONE), a)
  end.

(** The identifiers fit their arrays, the counters do not overflow, and a
    candidate has no more votes than there are voting members (the code exits
    otherwise). *)
Definition ok (o : op) (a : abs) : Prop :=
  match o with
  | Add id _ _ => (String.length id < sizeof_server_id)%nat /\ Z.of_nat (length a.1) + 1 < 2 ^ 32
  | MajorityOfVotes votes => votes <= voters a.1
  | MajorityOfMatch _ => voters a.1 + 1 < 2 ^ 32
  | _ => True
  end.

Record rep (s : config_st) (a : abs) : Prop := {
  m_rep : cfg_rep s a.1;
  m_free : cf_lock s = false;
  m_threads : Forall (fun r => r = 0) (cf_threads s);
  m_changing : c_is_changing (cf s) = a.2 }.

(** What an operation on the members leaves alone. *)
Definition mframe (s s' : config_st) : Prop :=
  cf_lock s' = cf_lock s /\
  (Forall (fun r => r = 0) (cf_threads s) -> Forall (fun r => r = 0) (cf_threads s')) /\
  c_is_changing (cf s') = c_is_changing (cf s).

Lemma config_mframe s s' : config_frame s s' -> mframe s s'.
Proof. intros (E1 & E2 & E3). split; [done|]. by rewrite E2. Qed.

Lemma members_frame s s' a l : rep s a -> cfg_rep s' l -> mframe s s' -> rep s' (l, a.2).
Proof. intros [_ Hf Ht Hc] R (E1 & E2 & E3). split; cbn; [done|congruence|auto|congruence]. Qed.

(** An operation that the code runs under the lock of the configuration. *)
Lemma locked_rep {A} (m : M config_st A) s a r l :
  rep s a ->
  (exists s1, m (set_cf_lock true s) = Ok r s1 /\ cfg_rep s1 l /\ mframe (set_cf_lock true s) s1) ->
  exists s', locked m s = Ok r s' /\ rep s' (l, a.2).
Proof.
  intros R (s1 & E & R1 & F). exists (set_cf_lock false s1).
  split; [by apply locked_run; [apply R|]|]. destruct R as [_ Hf Ht Hc], F as (E1 & E2 & E3).
  split; cbn in *; [by apply cfg_rep_lock|done|by apply E2|congruence].
Qed.

Lemma member_update id l i x f :
  list_find (has_id id) l = Some (i, x) -> member id l = Some x /\ update id f l = <[i := f x]> l.
Proof. unfold member, update. by intros ->. Qed.

Lemma member_absent id l : list_find (has_id id) l = None -> member id l = None.
Proof. unfold member. by intros ->. Qed.

Lemma add_refines id target last s l changing :
  rep s (l, changing) -> ok (Add id target last) (l, changing) ->
  exists s', run (Add id target last) s = Ok (spec (Add id target last) (l, changing)).1 s' /\
    rep s' (spec (Add id target last) (l, changing)).2.
Proof.
  intros R [Hlen Hmax]. pose proof R as [Rr Hf Ht Hc]. cbn [fst snd run spec] in *.
  pose proof (proj2 (cfg_rep_lock true s l) Rr) as R1.
  destruct (list_find (has_id id) l) as [[i x]|] eqn:Hfind.
  - destruct (member_update id l i x (restart_indexes last) Hfind) as [-> ->].
    destruct (locked_rep (add_server self id target last) s (l, changing) 0
      (<[i := restart_indexes last x]> l) R) as (s' & E & R').
    { destruct (add_server_present self _ l id target last i x R1 Hfind) as (s1 & ? & ? & F).
      exists s1. split; [done|]. split; [done|by apply config_mframe]. }
    exists s'. cbn [raft_config_add_server]. by rewrite (bind_Ok _ _ _ _ _ E).
  - rewrite (member_absent _ _ Hfind).
    destruct (locked_rep (add_server self id target last) s (l, changing) 1
      (l ++ [new_server id target last]) R) as (s' & E & R').
    { destruct (add_server_absent self (set_cf_lock true s) l id target last)
        as (s1 & ? & ? & ? & ? & ?); try done; [by apply ids_find_None|].
      exists s1. split; [done|]. split; [done|]. by split. }
    exists s'. cbn [raft_config_add_server]. by rewrite (bind_Ok _ _ _ _ _ E).
Qed.

Lemma set_status_refines id status s l changing :
  rep s (l, changing) ->
  exists s', run (SetStatus id status) s = Ok (spec (SetStatus id status) (l, changing)).1 s' /\
    rep s' (spec (SetStatus id status) (l, changing)).2.
Proof.
  intros R. pose proof R as [Rr Hf Ht Hc]. cbn [fst snd run spec] in *.
  pose proof (proj2 (cfg_rep_lock true s l) Rr) as R1.
  unfold raft_config_set_server_status. destruct (decide _) as [Hst|Hst].
  2: { destruct (locked_rep (set_server_voting_status id status) s (l, changing) (0, EINVAL) l R)
         as (s' & E & R'); [|by exists s'].
       exists (set_cf_lock true s). split; [|by split; [|split]]. unfold set_server_voting_status.
       rewrite !(proj2 (Z.eqb_neq _ _)) by tauto. done. }
  destruct (list_find (has_id id) l) as [[i x]|] eqn:Hfind.
  - destruct (member_update id l i x (upd_status status) Hfind) as [-> ->].
    apply (locked_rep _ _ (l, changing)); [done|].
    destruct (set_status_rep _ l id status i x R1 Hfind Hst) as (s1 & ? & ? & F).
    exists s1. split; [done|]. split; [done|by apply config_mframe].
  - rewrite (member_absent _ _ Hfind). apply (locked_rep _ _ (l, changing)); [done|].
    exists (set_cf_lock true s). split; [|by split; [|split]]. unfold set_server_voting_status.
    assert (negb (status =? VOTING_MEMBER) && negb (status =? NON_VOTING_MEMBER) = false) as ->
      by (destruct Hst as [-> | ->]; done).
    by rewrite (bind_Ok _ _ _ _ _ (get_server_absent _ l (rep_objs _ _ R1) id Hfind)).
Qed.

Lemma new_vote_refines id s l changing :
  rep s (l, changing) ->
  exists s', run (NewVote id) s = Ok (spec (NewVote id) (l, changing)).1 s' /\
    rep s' (spec (NewVote id) (l, changing)).2.
Proof.
  intros R. pose proof R as [Rr Hf Ht Hc]. cbn [fst snd run spec] in *.
  destruct (list_find (has_id id) l) as [[i x]|] eqn:Hfind.
  - destruct (member_update id l i x (upd_voted_for_me 1) Hfind) as [-> ->].
    destruct (set_new_vote_rep s l id i x Rr Hf Hfind) as (s' & E & R' & F%config_mframe).
    exists s'. rewrite (bind_Ok _ _ _ _ _ E).
    assert ((s_status x =? VOTING_MEMBER) && negb (truthy (s_voted_for_me x)) =
      bool_decide (voting x /\ s_voted_for_me x = 0)) as En.
    { unfold truthy, voting. rewrite negb_involutive. apply eq_true_iff_eq.
      by rewrite andb_true_iff, !Z.eqb_eq, bool_decide_eq_true. }
    rewrite En in *. destruct (decide _) as [Hn|Hn].
    + rewrite bool_decide_true in * by done. split; [done|]. by apply (members_frame s _ (l, changing)).
    + rewrite bool_decide_false in * by done. split; [done|]. by apply (members_frame s _ (l, changing)).
  - rewrite (member_absent _ _ Hfind). exists s.
    rewrite (bind_Ok _ _ _ _ _ (set_new_vote_absent s l id Rr Hf (proj1 (ids_find_None id l) Hfind))).
    by split.
Qed.

#[global] Instance refines : Refines run spec ok rep.
Proof.
  intros o s [l changing] R Hok. pose proof R as [Rr Hf Ht Hc].
  pose proof (proj2 (cfg_rep_lock true s l) Rr) as R1. cbn [fst snd] in *.
  destruct o as [id target last|id|id status|id| |last| |votes|idx|b|].
  - by apply add_refines.
  - destruct (locked_rep (remove_server self id) s (l, changing) tt (without id l) R)
      as (s' & E & R').
    { destruct (remove_server_rep self _ l id R1) as (s1 & ? & ? & F). exists s1.
      split; [done|]. split; [done|by apply config_mframe]. }
    exists s'. cbn [run]. by rewrite (bind_Ok _ _ _ _ _ E).
  - by apply set_status_refines.
  - by apply new_vote_refines.
  - destruct (reset_votes_rep s l Rr Hf) as (s' & E & R' & F%config_mframe).
    exists s'. cbn [run]. rewrite (bind_Ok _ _ _ _ _ E). split; [done|].
    by apply (members_frame s _ (l, changing)).
  - destruct (set_all_server_indexes_rep s l last Rr Hf) as (s' & E & R' & F%config_mframe).
    exists s'. cbn [run]. rewrite (bind_Ok _ _ _ _ _ E). split; [done|].
    by apply (members_frame s _ (l, changing)).
  - exists s. cbn [run spec]. assert (raft_get_num_servers s = Ok (Z.of_nat (length l)) s) as E.
    { apply locked_read; [done|]. mrun. by rewrite (objs_size _ _ (rep_objs _ _ R1)). }
    rewrite (bind_Ok _ _ _ _ _ E). by split.
  - exists s. cbn [run spec ok fst] in *.
    rewrite (bind_Ok _ _ _ _ _ (has_majority_of_votes_rep s l votes Rr Hf Hok)). by split.
  - exists s. cbn [run spec ok fst] in *.
    rewrite (bind_Ok _ _ _ _ _ (has_majority_of_match_index_rep s l idx Rr Hf Hok)). by split.
  - cbn [run spec]. unfold set_configuration_changing.
    destruct s as [[sz vm ch srv] hp lk th]. cbn in Hf, Hc. subst lk ch. unfold locked. mrun. cbn.
    assert (truthy changing && (b =? 1) = bool_decide (changing <> 0 /\ b = 1)) as ->.
    { unfold truthy. apply eq_true_iff_eq.
      by rewrite andb_true_iff, negb_true_iff, Z.eqb_neq, Z.eqb_eq, bool_decide_eq_true. }
    destruct (decide _) as [Hb|Hb].
    + rewrite bool_decide_true by done. eexists. split; [done|]. by split.
    + rewrite bool_decide_false by done. eexists. split; [done|]. split; try done.
      destruct Rr as [[] ? ? ?]. by split.
  - exists s. cbn [run spec]. assert (is_configuration_changing s = Ok (b2z (truthy changing)) s) as E.
    { apply locked_read; [done|]. mrun. cbn in *. rewrite Hc. by destruct (truthy changing). }
    rewrite (bind_Ok _ _ _ _ _ E). by split.
Qed.

End Members.
End Members.
