(* ===== verification/HashTable.v ===== *)
(** * The chained hash table (src/static/hashtable.c)

    The table is kept as the code keeps it: an array of pointers to doubly
    linked lists of heap elements. [hashtable] holds the array, the heap of
    elements and the kind of keys. Keys are the two things the source's
    [const char *key] may point to. *)

From S2P Require Import Prelude Monad Types.
Open Scope Z_scope.

(** [hkey_t] *)
Inductive hkey_t := NUMERIC_KEY | STRING_KEY.
#[export] Instance hkey_eq_dec : EqDecision hkey_t.
Proof. solve_decision. Defined.

(** What a key argument points to: an [unsigned long] or a string. *)
Inductive key_arg := KNum (n : Z) | KStr (s : string).
#[export] Instance key_arg_eq_dec : EqDecision key_arg.
Proof. solve_decision. Defined.

(** [htelem_t] *)
Record htelem_t := HtElem {
  h_prev : option loc;
  h_next : option loc;
  h_skey : option string;
  h_nkey : Z;
  h_value : Z }.

(** [hashtable_t], with the heap its elements live in *)
Record hashtable_t := HashTable {
  t_size : Z;
  t_elem_list : list (option loc);
  t_key_type : hkey_t;
  t_heap : gmap loc htelem_t }.

Definition set_elem_list (l : list (option loc)) (t : hashtable_t) : hashtable_t :=
  HashTable (t_size t) l (t_key_type t) (t_heap t).
Definition set_t_heap (h : gmap loc htelem_t) (t : hashtable_t) : hashtable_t :=
  HashTable (t_size t) (t_elem_list t) (t_key_type t) h.

(** The value of a [char]: signed, as on the usual targets. *)
Definition schar (c : ascii) : Z :=
  if byte_val c <? 128 then byte_val c else byte_val c - 256.

Fixpoint hash_str (hash : Z) (s : string) : Z :=
  match s with
  | EmptyString => hash
  | String c s => hash_str (u64 (hash * 31 + schar c)) s
  end.

(** [hash_code]; a key of the other kind would be read as bytes of the wrong
    type, a size of 0 would divide by zero. *)
Definition hash_code (kt : hkey_t) (key : key_arg) (size : Z) : option Z :=
  if size =? 0 then None else
  match kt, key with
  | NUMERIC_KEY, KNum n => Some (n mod size)
  | STRING_KEY, KStr s => Some (hash_str 7 s mod size)
  | _, _ => None
  end.

Definition equals (kt : hkey_t) (e : htelem_t) (key : key_arg) : bool :=
  match kt, key with
  | NUMERIC_KEY, KNum n => h_nkey e =? n
  | STRING_KEY, KStr s => bool_decide (h_skey e = Some s)
  | _, _ => false
  end.

(** The table [hashtable_new] returns, or NULL. *)
Definition hashtable_new (malloc_table malloc_list : bool) (kt : hkey_t) (size : Z)
  : option hashtable_t :=
  if negb malloc_table then None else
  if negb malloc_list then None else
  Some (HashTable size (replicate (Z.to_nat size) None) kt ∅).

(** ** Memory *)

Definition elem_rd (p : loc) : M hashtable_t htelem_t :=
  h ← gets t_heap; from_opt UseAfterFree (h !! p).
Definition elem_wr (p : loc) (f : htelem_t -> htelem_t) : M hashtable_t unit :=
  e ← elem_rd p; modify (fun t => set_t_heap (<[p := f e]> (t_heap t)) t).
Definition elem_new (e : htelem_t) : M hashtable_t loc := fun t =>
  let p := fresh (dom (t_heap t)) in Ok p (set_t_heap (<[p := e]> (t_heap t)) t).
Definition elem_free (p : loc) : M hashtable_t unit :=
  elem_rd p;; modify (fun t => set_t_heap (delete p (t_heap t)) t).

Definition bucket_rd (i : Z) : M hashtable_t (option loc) :=
  l ← gets t_elem_list; from_opt OutOfBounds (l !! Z.to_nat i).
Definition bucket_wr (i : Z) (p : option loc) : M hashtable_t unit :=
  modify (fun t => set_elem_list (<[Z.to_nat i := p]> (t_elem_list t)) t).

Definition with_next (n : option loc) (e : htelem_t) : htelem_t :=
  HtElem (h_prev e) n (h_skey e) (h_nkey e) (h_value e).
Definition with_prev (p : option loc) (e : htelem_t) : htelem_t :=
  HtElem p (h_next e) (h_skey e) (h_nkey e) (h_value e).
Definition with_value (v : Z) (e : htelem_t) : htelem_t :=
  HtElem (h_prev e) (h_next e) (h_skey e) (h_nkey e) v.

(** ** Operations *)

(** The search loop: [head] is the element before [elem]. A list has at most
    as many elements as the heap, which bounds the iterations. *)
Fixpoint walk (fuel : nat) (head elem : option loc) (key : key_arg)
  : M hashtable_t (option loc * option loc) :=
  match elem with
  | None => mret (head, None)
  | Some p =>
      match fuel with
      | O => fail OutOfFuel
      | S fuel =>
          e ← elem_rd p;
          t ← get;
          if equals (t_key_type t) e key then mret (head, Some p)
          else walk fuel (Some p) (h_next e) key
      end
  end.

Definition search (hash : Z) (key : key_arg) : M hashtable_t (option loc * option loc) :=
  elem ← bucket_rd hash;
  t ← get;
  walk (size (t_heap t)) None elem key.

Definition hash_of (key : key_arg) : M hashtable_t Z :=
  t ← get; from_opt OutOfBounds (hash_code (t_key_type t) key (t_size t)).

(** The result and the errno it leaves. A NULL [key] is [None]. *)
Definition hashtable_insert (malloc_elem strdup_key : bool) (key : option key_arg) (value : Z)
  : M hashtable_t (Z * errno_t) :=
  match key with
  | None => mret (0, EINVAL)
  | Some key =>
      hash ← hash_of key;
      '(head, elem) ← search hash key;
      match elem with
      | Some p => elem_wr p (with_value value);; mret (1, ENONE)
      | None =>
          if negb malloc_elem then mret (0, ENOMEM) else
          let '(skey, nkey) := match key with KNum n => (None, n) | KStr s => (Some s, 0) end in
          if negb strdup_key && bool_decide (is_Some skey) then mret (0, ENOMEM) else
          p ← elem_new (HtElem head None skey nkey 0);
          match head with
          | None => bucket_wr hash (Some p)
          | Some h => elem_wr h (with_next (Some p))
          end;;
          elem_wr p (with_value value);;
          mret (1, ENONE)
      end
  end.

(** The value of the removed element; NULL is 0. *)
Definition hashtable_delete (key : option key_arg) : M hashtable_t Z :=
  match key with
  | None => mret 0
  | Some key =>
      hash ← hash_of key;
      '(_, elem) ← search hash key;
      match elem with
      | None => mret 0
      | Some p =>
          e ← elem_rd p;
          match h_prev e with
          | Some q => elem_wr q (with_next (h_next e))
          | None => bucket_wr hash (h_next e)
          end;;
          match h_next e with
          | Some q => elem_wr q (with_prev (h_prev e))
          | None => mret tt
          end;;
          elem_free p;;
          mret (h_value e)
      end
  end.

Definition hashtable_get (key : option key_arg) : M hashtable_t Z :=
  match key with
  | None => mret 0
  | Some key =>
      hash ← hash_of key;
      '(_, elem) ← search hash key;
      match elem with
      | None => mret 0
      | Some p => e ← elem_rd p; mret (h_value e)
      end
  end.

(** The handler receives the key of each element; it may change the table, so
    the next element is read before it runs. *)
Fixpoint foreach_list {S} (L : lens S hashtable_t) (handler : key_arg -> M S unit)
    (fuel : nat) (elem : option loc) : M S unit :=
  match elem with
  | None => mret tt
  | Some p =>
      match fuel with
      | O => fail OutOfFuel
      | Datatypes.S fuel =>
          e ← zoom L (elem_rd p);
          handler (match h_skey e with Some s => KStr s | None => KNum (h_nkey e) end);;
          foreach_list L handler fuel (h_next e)
      end
  end.

Definition hashtable_foreach_key {S} (L : lens S hashtable_t) (handler : key_arg -> M S unit)
  : M S unit :=
  t ← gets (lget L);
  for_ (Z.to_nat (t_size t)) 0 (fun i =>
    elem ← zoom L (bucket_rd (Z.of_nat i));
    t ← gets (lget L);
    foreach_list L handler (size (t_heap t)) elem).
