(* ===== verification/HashMap.v ===== *)
(** * The hash table is a map (proofs about src/static/hashtable.c)

    The buckets are doubly linked lists of heap elements ([dlist]); a
    well-formed table represents a finite map, and its operations are the
    insertion, the removal and the lookup of that map. *)

From S2P Require Import Prelude Monad Types HashTable.
Open Scope Z_scope.

#[export] Instance key_arg_countable : Countable key_arg.
Proof.
  refine (inj_countable' (fun k => match k with KNum n => inl n | KStr s => inr s end)
    (fun x => match x with inl n => KNum n | inr s => KStr s end) _).
  by intros [].
Defined.

(** An element of a bucket: its address, its key and its value. *)
Definition cell : Type := loc * key_arg * Z.
Abbreviation c_loc c := (fst (fst c)).
Abbreviation c_key c := (snd (fst c)).
Abbreviation c_val c := (snd c).

Definition skey (k : key_arg) : option string := match k with KStr s => Some s | KNum _ => None end.
Definition nkey (k : key_arg) : Z := match k with KNum n => n | KStr _ => 0 end.

Definition first_loc (l : list cell) : option loc := (fun c => c_loc c) <$> head l.
Definition last_loc (prev : option loc) (l : list cell) : option loc :=
  match last l with Some c => Some (c_loc c) | None => prev end.

(** The list segment of [l] in the heap [h]: the element before it is [prev],
    the one after it [next]. *)
Fixpoint dseg (h : gmap loc htelem_t) (prev : option loc) (l : list cell) (next : option loc)
  : Prop :=
  match l with
  | [] => True
  | c :: l =>
      h !! c_loc c = Some (HtElem prev (match l with [] => next | d :: _ => Some (c_loc d) end)
                             (skey (c_key c)) (nkey (c_key c)) (c_val c)) /\
      dseg h (Some (c_loc c)) l next
  end.

Lemma last_loc_cons prev c l : last_loc prev (c :: l) = last_loc (Some (c_loc c)) l.
Proof. unfold last_loc. rewrite last_cons. by destruct (last l). Qed.

Lemma dseg_app h prev l1 l2 next :
  dseg h prev (l1 ++ l2) next <->
  dseg h prev l1 (match l2 with [] => next | d :: _ => Some (c_loc d) end) /\
  dseg h (last_loc prev l1) l2 next.
Proof.
  revert prev. induction l1 as [|c l1 IH]; intros prev; [simpl; tauto|].
  rewrite last_loc_cons. cbn [app dseg]. rewrite IH.
  assert (match l1 ++ l2 with [] => next | d :: _ => Some (c_loc d) end =
    match l1 with [] => match l2 with [] => next | d :: _ => Some (c_loc d) end
                | d :: _ => Some (c_loc d) end) as -> by (by destruct l1).
  tauto.
Qed.

(** Only the elements of the segment matter. *)
Lemma dseg_frame h h' prev l next :
  (forall c, c ∈ l -> h' !! c_loc c = h !! c_loc c) -> dseg h prev l next -> dseg h' prev l next.
Proof.
  revert prev. induction l as [|c l IH]; intros prev Hf; [done|]. intros [Hc Hl]. split.
  - by rewrite Hf by (by left).
  - apply IH; [|done]. intros d Hd. apply Hf. by right.
Qed.

(** Changing the neighbours of a segment. *)
Lemma dseg_set_next h prev l next next' :
  NoDup ((fun c => c_loc c) <$> l) -> dseg h prev l next ->
  dseg (match last l with
        | Some c => alter (with_next next') (c_loc c) h
        | None => h
        end) prev l next'.
Proof.
  intros Hn Hd. destruct l as [|c l _] using rev_ind; [done|].
  rewrite last_snoc. apply dseg_app in Hd as [Hd1 [Hd2 _]]. cbn in Hd2.
  rewrite fmap_app, NoDup_app in Hn. destruct Hn as (_ & Hn & _).
  apply dseg_app. split.
  - eapply dseg_frame; [|exact Hd1]. intros d Hin. apply lookup_alter_ne. intros E.
    apply (Hn (c_loc d)); [by apply list_elem_of_fmap; exists d|]. rewrite <- E. by left.
  - split; [|done]. cbn. by rewrite lookup_alter_eq, Hd2.
Qed.

Lemma dseg_set_prev h prev prev' l next :
  NoDup ((fun c => c_loc c) <$> l) -> dseg h prev l next ->
  dseg (match l with c :: _ => alter (with_prev prev') (c_loc c) h | [] => h end) prev' l next.
Proof.
  intros Hn Hd. destruct l as [|c l]; [done|]. destruct Hd as [Hc Hl].
  rewrite fmap_cons in Hn. apply NoDup_cons in Hn as [Hnin _]. split.
  - cbn. rewrite lookup_alter_eq, Hc. done.
  - eapply dseg_frame; [|exact Hl]. intros d Hd. apply lookup_alter_ne. intros E. apply Hnin.
    apply list_elem_of_fmap. by exists d.
Qed.

(** ** Well-formed tables *)

(** A key of the kind of the table. *)
Definition key_ok (kt : hkey_t) (k : key_arg) : Prop :=
  match kt, k with NUMERIC_KEY, KNum _ | STRING_KEY, KStr _ => True | _, _ => False end.

Abbreviation locs l := ((fun c : cell => c_loc c) <$> l).
Abbreviation keys l := ((fun c : cell => c_key c) <$> l).

(** The buckets [B] of the table [t]. Every element of the heap is in a
    bucket: the table leaks nothing. *)
Record buckets (t : hashtable_t) (B : list (list cell)) : Prop := {
  hb_size : t_size t = Z.of_nat (length B);
  hb_pos : 0 < t_size t;
  hb_list : t_elem_list t = first_loc <$> B;
  hb_seg : forall i l, B !! i = Some l -> dseg (t_heap t) None l None;
  hb_key : forall i l c, B !! i = Some l -> c ∈ l ->
    key_ok (t_key_type t) (c_key c) /\
    hash_code (t_key_type t) (c_key c) (t_size t) = Some (Z.of_nat i);
  hb_locs : NoDup (locs (mjoin B));
  hb_keys : NoDup (keys (mjoin B));
  hb_dom : dom (t_heap t) = list_to_set (locs (mjoin B)) }.

(** The map a table stands for. *)
Definition table (B : list (list cell)) : gmap key_arg Z :=
  list_to_map ((fun c : cell => (c_key c, c_val c)) <$> mjoin B).

Definition ht_rep (t : hashtable_t) (m : gmap key_arg Z) : Prop :=
  exists B, buckets t B /\ table B = m.

(** Everything but bucket [i]. *)
Definition others (i : nat) (B : list (list cell)) : list cell :=
  mjoin (take i B) ++ mjoin (drop (S i) B).

Lemma mjoin_insert i (B : list (list cell)) l : (i < length B)%nat ->
  mjoin (<[i := l]> B) ≡ₚ l ++ others i B.
Proof.
  intros Hi. rewrite insert_take_drop by done. unfold others. rewrite join_app. cbn.
  rewrite !app_assoc. by rewrite (Permutation_app_comm (mjoin (take i B)) l).
Qed.

Lemma mjoin_split i (B : list (list cell)) l : B !! i = Some l -> mjoin B ≡ₚ l ++ others i B.
Proof.
  intros Hl. rewrite <- (list_insert_id B i l Hl) at 1. apply mjoin_insert.
  by eapply lookup_lt_Some.
Qed.

Lemma others_in i j (B : list (list cell)) l c :
  B !! j = Some l -> j <> i -> c ∈ l -> c ∈ others i B.
Proof.
  intros Hl Hne Hc. unfold others. apply elem_of_app. rewrite !list_elem_of_join.
  destruct (decide (j < i)%nat).
  - left. exists l. split; [done|]. apply (list_elem_of_lookup_2 _ j). by rewrite lookup_take_lt.
  - right. exists l. split; [done|]. apply (list_elem_of_lookup_2 _ (j - S i)).
    rewrite lookup_drop. by replace (S i + (j - S i))%nat with j by lia.
Qed.

(** Replacing a bucket. *)
Lemma buckets_replace t B i l l' h ls :
  buckets t B -> B !! i = Some l ->
  ls = <[i := first_loc l']> (t_elem_list t) ->
  dseg h None l' None ->
  (forall c, c ∈ others i B -> h !! c_loc c = t_heap t !! c_loc c) ->
  (forall c, c ∈ l' -> key_ok (t_key_type t) (c_key c) /\
    hash_code (t_key_type t) (c_key c) (t_size t) = Some (Z.of_nat i)) ->
  NoDup (locs (l' ++ others i B)) -> NoDup (keys (l' ++ others i B)) ->
  dom h = list_to_set (locs (l' ++ others i B)) ->
  buckets (HashTable (t_size t) ls (t_key_type t) h) (<[i := l']> B).
Proof.
  intros [Hz Hp Hl Hs Hk Hn1 Hn2 Hd] Hi -> Hseg Hframe Hkey Hn1' Hn2' Hd'.
  pose proof (lookup_lt_Some _ _ _ Hi) as Hlt. pose proof (mjoin_insert i B l' Hlt) as Hperm.
  split; cbn [t_size t_elem_list t_key_type t_heap].
  - by rewrite length_insert.
  - done.
  - by rewrite Hl, list_fmap_insert.
  - intros j lj Hj. apply list_lookup_insert_Some in Hj as [(-> & <- & _)|[Hne Hj]]; [done|].
    eapply dseg_frame; [|by apply (Hs j)]. intros c Hc. apply Hframe. by eapply others_in.
  - intros j lj c Hj Hc. apply list_lookup_insert_Some in Hj as [(-> & <- & _)|[Hne Hj]].
    + by apply Hkey.
    + by eapply Hk.
  - by rewrite Hperm.
  - by rewrite Hperm.
  - rewrite Hd'. apply set_eq. intros p. rewrite !elem_of_list_to_set. by rewrite Hperm.
Qed.

(** The map after the replacement. *)
Lemma table_replace B i l : (i < length B)%nat -> NoDup (keys (l ++ others i B)) ->
  table (<[i := l]> B) =
    list_to_map ((fun c : cell => (c_key c, c_val c)) <$> (l ++ others i B)).
Proof.
  intros Hi Hn. unfold table. apply list_to_map_proper.
  - rewrite <- list_fmap_compose. rewrite (mjoin_insert i B l Hi). done.
  - by rewrite (mjoin_insert i B l Hi).
Qed.

Lemma table_split t B i l : buckets t B -> B !! i = Some l ->
  NoDup (locs (l ++ others i B)) /\ NoDup (keys (l ++ others i B)) /\
  dom (t_heap t) = list_to_set (locs (l ++ others i B)) /\
  table B = list_to_map ((fun c : cell => (c_key c, c_val c)) <$> (l ++ others i B)).
Proof.
  intros [Hz Hp Hl Hs Hk Hn1 Hn2 Hd] Hi. pose proof (mjoin_split i B l Hi) as Hperm.
  rewrite Hperm in Hn1, Hn2. split; [done|]. split; [done|]. split.
  - rewrite Hd. apply set_eq. intros p. rewrite !elem_of_list_to_set. by rewrite Hperm.
  - rewrite <- (list_insert_id B i l Hi) at 1.
    apply table_replace; [by eapply lookup_lt_Some|done].
Qed.

(** ** The search *)

Lemma equals_cell kt prev next (c : cell) key :
  key_ok kt (c_key c) -> key_ok kt key ->
  equals kt (HtElem prev next (skey (c_key c)) (nkey (c_key c)) (c_val c)) key =
    bool_decide (c_key c = key).
Proof.
  destruct c as [[p k] v]. cbn. destruct kt, k as [n|s], key as [n'|s']; try done; intros _ _; cbn.
  - destruct (Z.eqb_spec n n') as [->|Hn]; [by rewrite bool_decide_true|].
    rewrite bool_decide_false; [done|]. by intros [= ].
  - apply bool_decide_ext. split; congruence.
Qed.

Lemma head_loc (l : list cell) : first_loc l = match l with [] => None | d :: _ => Some (c_loc d) end.
Proof. by destruct l. Qed.

Lemma walk_found t key l1 (c : cell) l2 : forall fuel prev,
  dseg (t_heap t) prev (l1 ++ c :: l2) None ->
  Forall (fun d : cell => key_ok (t_key_type t) (c_key d)) (l1 ++ [c]) -> key_ok (t_key_type t) key ->
  c_key c = key -> key ∉ keys l1 -> (length l1 < fuel)%nat ->
  walk fuel prev (first_loc (l1 ++ c :: l2)) key t = Ok (last_loc prev l1, Some (c_loc c)) t.
Proof.
  induction l1 as [|d l1 IH]; intros fuel prev [Hc Hl] Hk Hkey Heq Hn Hf;
    (destruct fuel as [|fuel]; [simpl in Hf; lia|]); cbn [walk first_loc head fmap option_fmap option_map app].
  - unfold elem_rd. mrun. cbn [app] in Hc. rewrite Hc. cbv beta iota.
    apply Forall_cons_iff in Hk as [Hk _].
    rewrite equals_cell by done. by rewrite bool_decide_true.
  - unfold elem_rd. mrun. rewrite Hc. cbv beta iota.
    apply Forall_cons_iff in Hk as [Hk1 Hk]. cbn [fmap list_fmap] in Hn.
    apply not_elem_of_cons in Hn as [Hn1 Hn].
    rewrite equals_cell by done. rewrite bool_decide_false by congruence.
    cbn [h_next]. rewrite <- head_loc, last_loc_cons. apply IH; try done. simpl in Hf. lia.
Qed.

Lemma walk_absent t key l : forall fuel prev,
  dseg (t_heap t) prev l None ->
  Forall (fun d : cell => key_ok (t_key_type t) (c_key d)) l -> key_ok (t_key_type t) key ->
  key ∉ keys l -> (length l <= fuel)%nat ->
  walk fuel prev (first_loc l) key t = Ok (last_loc prev l, None) t.
Proof.
  induction l as [|d l IH]; intros fuel prev Hd Hk Hkey Hn Hf; [by destruct fuel|].
  destruct Hd as [Hc Hl]. destruct fuel as [|fuel]; [simpl in Hf; lia|].
  cbn [walk first_loc head fmap option_fmap option_map]. unfold elem_rd. mrun. rewrite Hc. cbv beta iota.
  apply Forall_cons_iff in Hk as [Hk1 Hk]. cbn [fmap list_fmap] in Hn.
  apply not_elem_of_cons in Hn as [Hn1 Hn].
  rewrite equals_cell by done. rewrite bool_decide_false by congruence.
  cbn [h_next]. rewrite <- head_loc, last_loc_cons. apply IH; try done. simpl in Hf. lia.
Qed.

(** A bucket has no more elements than the heap. *)
Lemma bucket_size t B i l : buckets t B -> B !! i = Some l -> (length l <= size (t_heap t))%nat.
Proof.
  intros R Hi. destruct (table_split t B i l R Hi) as (Hn & _ & Hd & _).
  rewrite <- size_dom, Hd, size_list_to_set by done. rewrite length_fmap, length_app. lia.
Qed.

Lemma keys_dec (key : key_arg) (l : list cell) :
  key ∉ keys l \/ exists l1 c l2, l = l1 ++ c :: l2 /\ c_key c = key /\ key ∉ keys l1.
Proof.
  induction l as [|d l IH].
  - left. by apply not_elem_of_nil.
  - destruct (decide (c_key d = key)) as [Heq|Hne].
    { right. exists [], d, l. split; [done|]. split; [done|]. by apply not_elem_of_nil. }
    destruct IH as [Hn|(l1 & c & l2 & -> & Hc & Hn)].
    + left. cbn. apply not_elem_of_cons. by split.
    + right. exists (d :: l1), c, l2. split; [done|]. split; [done|]. cbn.
      apply not_elem_of_cons. by split.
Qed.

(** The bucket of a key, and what the search finds there. *)
Lemma hash_bucket t B key : buckets t B -> key_ok (t_key_type t) key ->
  exists i l, B !! i = Some l /\ hash_code (t_key_type t) key (t_size t) = Some (Z.of_nat i).
Proof.
  intros R Hk. pose proof (hb_pos _ _ R) as Hp. pose proof (hb_size _ _ R) as Hs.
  assert (exists z, hash_code (t_key_type t) key (t_size t) = Some z /\ 0 <= z < t_size t) as (z & Ez & Hz).
  { unfold hash_code. rewrite (proj2 (Z.eqb_neq _ _)) by lia.
    destruct (t_key_type t), key as [n|s]; try done; (eexists; split; [done|]; by apply Z.mod_pos_bound). }
  destruct (lookup_lt_is_Some_2 B (Z.to_nat z)) as [l Hl]; [lia|].
  exists (Z.to_nat z), l. split; [done|]. rewrite Ez. f_equal. lia.
Qed.

Lemma search_run t B i l key r : buckets t B -> B !! i = Some l ->
  walk (size (t_heap t)) None (first_loc l) key t = Ok r t ->
  search (Z.of_nat i) key t = Ok r t.
Proof.
  intros R Hi Hw. unfold search, bucket_rd. mrun. rewrite (hb_list _ _ R), Nat2Z.id.
  by rewrite list_lookup_fmap, Hi.
Qed.

(** The values of the keys of bucket [i], and of no other bucket. *)
Lemma table_absent t B i l key : buckets t B -> B !! i = Some l ->
  hash_code (t_key_type t) key (t_size t) = Some (Z.of_nat i) -> key ∉ keys l ->
  key ∉ keys (l ++ others i B) /\ table B !! key = None.
Proof.
  intros R Hi Hh Hn.
  assert (key ∉ keys (l ++ others i B)) as Hnot.
  { rewrite fmap_app. intros [Hin|Hin]%elem_of_app; [done|].
    apply list_elem_of_fmap in Hin as (c & -> & Hc).
    unfold others in Hc. rewrite <- join_app in Hc. apply list_elem_of_join in Hc as (lj & Hc & Hj).
    apply elem_of_app in Hj as [Hj|Hj]; apply list_elem_of_lookup in Hj as [j Hj].
    - rewrite lookup_take_Some in Hj. destruct Hj as [Hj Hlt].
      destruct (hb_key _ _ R j lj c Hj Hc) as [_ Hh']. rewrite Hh in Hh'. injection Hh'. lia.
    - rewrite lookup_drop in Hj.
      destruct (hb_key _ _ R _ lj c Hj Hc) as [_ Hh']. rewrite Hh in Hh'. injection Hh'. lia. }
  split; [done|]. destruct (table_split t B i l R Hi) as (_ & _ & _ & ->).
  apply not_elem_of_list_to_map_1. by rewrite <- list_fmap_compose.
Qed.

(** ** The operations *)

Abbreviation kv l := ((fun c : cell => (c_key c, c_val c)) <$> l).

Lemma list_to_map_cell (l : list cell) c R :
  l ≡ₚ c :: R -> NoDup (keys l) ->
  list_to_map (M := gmap key_arg Z) (kv l) = <[c_key c := c_val c]> (list_to_map (kv R)) /\
  list_to_map (M := gmap key_arg Z) (kv R) !! c_key c = None.
Proof.
  intros Hp Hn. assert (NoDup (keys (c :: R))) as Hn' by (by rewrite <- Hp). split.
  - transitivity (list_to_map (M := gmap key_arg Z) (kv (c :: R))); [|done].
    apply list_to_map_proper; [by rewrite <- list_fmap_compose|by rewrite Hp].
  - rewrite fmap_cons in Hn'. apply NoDup_cons in Hn' as [Hn' _].
    apply not_elem_of_list_to_map_1. by rewrite <- list_fmap_compose.
Qed.

Lemma elem_wr_run t p f e : t_heap t !! p = Some e ->
  elem_wr p f t = Ok tt (set_t_heap (alter f p (t_heap t)) t).
Proof.
  intros He. unfold elem_wr, elem_rd. mrun. rewrite He. cbv beta iota.
  do 2 f_equal. apply map_eq. intros q. destruct (decide (q = p)) as [->|Hne].
  - by rewrite lookup_insert_eq, lookup_alter_eq, He.
  - by rewrite lookup_insert_ne, lookup_alter_ne by done.
Qed.

Section Ops.
Context (t : hashtable_t) (m : gmap key_arg Z) (key : key_arg).
Context (R : ht_rep t m) (Hkey : key_ok (t_key_type t) key).

(** Where a key is, or that it is nowhere. *)
Inductive located : list (list cell) -> nat -> list cell -> Prop :=
| Found B i (l1 : list cell) (c : cell) (l2 : list cell) : buckets t B -> table B = m -> B !! i = Some (l1 ++ c :: l2) ->
    hash_of key t = Ok (Z.of_nat i) t ->
    c_key c = key -> search (Z.of_nat i) key t = Ok (last_loc None l1, Some (c_loc c)) t ->
    m !! key = Some (c_val c) -> located B i (l1 ++ c :: l2)
| Absent B i (l : list cell) : buckets t B -> table B = m -> B !! i = Some l ->
    hash_of key t = Ok (Z.of_nat i) t ->
    key ∉ keys (l ++ others i B) -> search (Z.of_nat i) key t = Ok (last_loc None l, None) t ->
    m !! key = None -> located B i l.

Lemma locate : exists B i l, located B i l.
Proof using R Hkey.
  destruct R as (B & HB & HT). destruct (hash_bucket t B key HB Hkey) as (i & l & Hi & Hh).
  assert (hash_of key t = Ok (Z.of_nat i) t) as Hho.
  { unfold hash_of. mrun. by rewrite Hh. }
  pose proof (hb_seg _ _ HB i l Hi) as Hseg. pose proof (bucket_size t B i l HB Hi) as Hsz.
  assert (Forall (fun d : cell => key_ok (t_key_type t) (c_key d)) l) as Hks.
  { rewrite list.Forall_forall. intros d Hd. by apply (hb_key _ _ HB i l d Hi Hd). }
  exists B, i, l. destruct (keys_dec key l) as [Hn|(l1 & c & l2 & -> & Hc & Hn)].
  - destruct (table_absent t B i l key HB Hi Hh Hn) as [Hn' Hm].
    apply Absent; try done; [|by rewrite <- HT]. eapply search_run; [done|done|].
    by apply walk_absent.
  - apply Found; try done.
    + eapply search_run; [done|done|]. apply walk_found; try done.
      * change (c :: l2) with ([c] ++ l2) in Hks. rewrite app_assoc in Hks.
        by apply Forall_app in Hks as [Hks _].
      * rewrite length_app in Hsz. simpl in Hsz. lia.
    + destruct (table_split t B i _ HB Hi) as (_ & Hnk & _ & HT'). rewrite <- HT, HT'.
      destruct (list_to_map_cell ((l1 ++ c :: l2) ++ others i B) c (l1 ++ l2 ++ others i B))
        as [-> _]; [|done|rewrite <- Hc; apply lookup_insert_eq].
      rewrite <- app_assoc. cbn. symmetry; apply Permutation_middle.
Qed.

Lemma hashtable_get_ok : hashtable_get (Some key) t = Ok (default 0 (m !! key)) t.
Proof using R Hkey.
  destruct locate as (B & i & l & [B' i' l1 c l2 HB HT Hi Hh Hc Hs Hm|B' i' l' HB HT Hi Hh Hn Hs Hm]);
    unfold hashtable_get; rewrite (bind_Ok _ _ _ _ _ Hh), (bind_Ok _ _ _ _ _ Hs), Hm; [|done].
  pose proof (hb_seg _ _ HB _ _ Hi) as Hseg. apply dseg_app in Hseg as [_ [Hcell _]].
  unfold elem_rd. mrun. by rewrite Hcell.
Qed.

(** What an operation keeps. *)
Definition same_kind (t' : hashtable_t) : Prop :=
  t_key_type t' = t_key_type t /\ t_size t' = t_size t.

Lemma disjoint_others B i (l : list cell) (c d : cell) : buckets t B -> B !! i = Some l -> c ∈ l -> d ∈ others i B ->
  c_loc c <> c_loc d.
Proof using.
  intros HB Hi Hc Hd E. destruct (table_split t B i l HB Hi) as (Hn & _).
  rewrite fmap_app, NoDup_app in Hn. destruct Hn as (_ & Hn & _).
  apply (Hn (c_loc c)); apply list_elem_of_fmap; [by exists c|by exists d].
Qed.

(** The cells of a bucket have different addresses. *)
Lemma cell_locs B i (l1 l2 : list cell) (c : cell) : buckets t B -> B !! i = Some (l1 ++ c :: l2) ->
  (forall d, d ∈ l1 -> c_loc d <> c_loc c) /\ (forall d, d ∈ l2 -> c_loc d <> c_loc c) /\
  (forall d e, d ∈ l1 -> e ∈ l2 -> c_loc d <> c_loc e) /\
  NoDup (locs l1) /\ NoDup (locs l2).
Proof using.
  intros HB Hi. destruct (table_split t B i _ HB Hi) as (Hn & _).
  rewrite !fmap_app, fmap_cons in Hn. apply NoDup_app in Hn as (Hn & _ & _).
  apply NoDup_app in Hn as (H1 & H12 & H2). apply NoDup_cons in H2 as [Hc H2].
  split; [|split; [|split; [|by split]]].
  - intros d Hd E. apply (H12 (c_loc d)); [by apply list_elem_of_fmap; exists d|]. rewrite E. by left.
  - intros d Hd E. apply Hc. rewrite <- E. apply list_elem_of_fmap. by exists d.
  - intros d e Hd He E. apply (H12 (c_loc d)); [by apply list_elem_of_fmap; exists d|].
    right. rewrite E. apply list_elem_of_fmap. by exists e.
Qed.

Lemma replace_value B i (l1 l2 : list cell) (c : cell) v : buckets t B -> table B = m -> B !! i = Some (l1 ++ c :: l2) ->
  ht_rep (set_t_heap (alter (with_value v) (c_loc c) (t_heap t)) t) (<[c_key c := v]> m).
Proof using.
  intros HB HT Hi. set (c' := (c_loc c, c_key c, v)).
  destruct (table_split t B i _ HB Hi) as (Hn1 & Hn2 & Hd & HT').
  destruct (cell_locs B i l1 l2 c HB Hi) as (Hl1 & Hl2 & _).
  pose proof (hb_seg _ _ HB _ _ Hi) as Hseg. apply dseg_app in Hseg as [Hs1 [Hs2 Hs3]].
  assert (locs ((l1 ++ c' :: l2) ++ others i B) = locs ((l1 ++ c :: l2) ++ others i B)) as El
    by (by rewrite !fmap_app).
  assert (keys ((l1 ++ c' :: l2) ++ others i B) = keys ((l1 ++ c :: l2) ++ others i B)) as Ek
    by (by rewrite !fmap_app).
  exists (<[i := l1 ++ c' :: l2]> B). split.
  - apply (buckets_replace t B i (l1 ++ c :: l2)); try done.
    + rewrite list_insert_id; [done|]. rewrite (hb_list _ _ HB), list_lookup_fmap, Hi. cbn. f_equal.
      by destruct l1.
    + apply dseg_app. split; [|split].
      * eapply dseg_frame; [|exact Hs1]. intros d Hd'. apply lookup_alter_ne. symmetry. by apply Hl1.
      * cbn. by rewrite lookup_alter_eq, Hs2.
      * eapply dseg_frame; [|exact Hs3]. intros d Hd'. apply lookup_alter_ne. symmetry. by apply Hl2.
    + intros d Hd'. apply lookup_alter_ne. eapply disjoint_others; [done|done| |done].
      apply elem_of_app. right. by left.
    + intros d Hd'. apply elem_of_app in Hd' as [Hd'|Hd'].
      * apply (hb_key _ _ HB i _ d Hi). apply elem_of_app. by left.
      * apply elem_of_cons in Hd' as [->|Hd'].
        -- apply (hb_key _ _ HB i _ c Hi). apply elem_of_app. right. by left.
        -- apply (hb_key _ _ HB i _ d Hi). apply elem_of_app. right. by right.
    + by rewrite El.
    + by rewrite Ek.
    + by rewrite dom_alter_L, El.
  - rewrite table_replace by (by eapply lookup_lt_Some || by rewrite Ek).
    destruct (list_to_map_cell ((l1 ++ c' :: l2) ++ others i B) c' (l1 ++ l2 ++ others i B))
      as [-> _]; [rewrite <- app_assoc; symmetry; apply Permutation_middle|by rewrite Ek|].
    rewrite <- HT, HT'.
    destruct (list_to_map_cell ((l1 ++ c :: l2) ++ others i B) c (l1 ++ l2 ++ others i B))
      as [-> _]; [rewrite <- app_assoc; symmetry; apply Permutation_middle|done|].
    by rewrite insert_insert_eq.
Qed.

(** A new cell at the end of its bucket. *)
Lemma add_cell B i (l : list cell) p v h ls : buckets t B -> table B = m -> B !! i = Some l ->
  hash_of key t = Ok (Z.of_nat i) t -> key ∉ keys (l ++ others i B) -> p ∉ dom (t_heap t) ->
  ls = <[i := first_loc (l ++ [(p, key, v)])]> (t_elem_list t) ->
  h = <[p := HtElem (last_loc None l) None (skey key) (nkey key) v]>
        (match last l with Some c => alter (with_next (Some p)) (c_loc c) (t_heap t)
                         | None => t_heap t end) ->
  ht_rep (HashTable (t_size t) ls (t_key_type t) h) (<[key := v]> m).
Proof using Hkey.
  intros HB HT Hi Hh Hn Hp Hls Eh. set (c := (p, key, v)) in *.
  destruct (table_split t B i _ HB Hi) as (Hn1 & Hn2 & Hd & HT').
  assert (forall d, d ∈ l ++ others i B -> c_loc d <> p) as Hfresh.
  { intros d Hin E. apply Hp. rewrite Hd. apply elem_of_list_to_set, list_elem_of_fmap.
    exists d. by split. }
  assert ((l ++ [c]) ++ others i B ≡ₚ c :: (l ++ others i B)) as Hperm
    by (rewrite <- app_assoc; symmetry; apply Permutation_middle).
  assert (NoDup (keys (c :: l ++ others i B))) as Hnk
    by (rewrite fmap_cons; by apply NoDup_cons).
  set (h1 := match last l with Some c => _ | None => _ end) in *.
  assert (dom h1 = dom (t_heap t)) as Hd1 by (unfold h1; destruct (last l); [by rewrite dom_alter_L|done]).
  assert (forall d, d ∈ others i B -> h1 !! c_loc d = t_heap t !! c_loc d) as Hfr1.
  { intros d Hin. unfold h1. destruct (last l) as [x|] eqn:El; [|done]. apply lookup_alter_ne.
    eapply disjoint_others; [done|done| |done]. by apply last_Some_elem_of. }
  exists (<[i := l ++ [c]]> B). split.
  - apply (buckets_replace t B i l); try done; subst h.
    + apply dseg_app. split; [|split; [|done]].
      * apply (dseg_frame h1).
        -- intros d Hin. apply lookup_insert_ne. symmetry. apply Hfresh, elem_of_app. by left.
        -- apply (dseg_set_next (t_heap t) None l None (Some p)); [|by apply (hb_seg _ _ HB _ _ Hi)].
           rewrite fmap_app in Hn1. by apply NoDup_app in Hn1 as (? & _).
      * cbn. apply lookup_insert_eq.
    + intros d Hin. rewrite lookup_insert_ne; [by apply Hfr1|].
      symmetry. apply Hfresh, elem_of_app. by right.
    + intros d Hin. apply elem_of_app in Hin as [Hin|Hin]; [by apply (hb_key _ _ HB i l)|].
      apply list_elem_of_singleton in Hin as ->. split; [done|].
      revert Hh. unfold hash_of. mrun. cbn. destruct (hash_code _ key _); [|done]. by intros [= ->].
    + rewrite Hperm, fmap_cons. apply NoDup_cons. split; [|done].
      intros Hin. apply list_elem_of_fmap in Hin as (d & Ed & Hin). by apply (Hfresh d Hin).
    + by rewrite Hperm.
    + rewrite dom_insert_L, Hd1, Hd. apply set_eq. intros q.
      rewrite elem_of_union, elem_of_singleton, !elem_of_list_to_set. rewrite Hperm, fmap_cons.
      by rewrite elem_of_cons.
  - rewrite table_replace by (by eapply lookup_lt_Some || by rewrite Hperm).
    destruct (list_to_map_cell ((l ++ [c]) ++ others i B) c (l ++ others i B) Hperm) as [-> _];
      [by rewrite Hperm|]. by rewrite <- HT, HT'.
Qed.

Lemma hashtable_insert_ok elem_ok dup_ok v :
  elem_ok = true /\ dup_ok = true \/ is_Some (m !! key) ->
  exists t', hashtable_insert elem_ok dup_ok (Some key) v t = Ok (1, ENONE) t' /\
    ht_rep t' (<[key := v]> m) /\ same_kind t'.
Proof using R Hkey.
  intros Halloc.
  destruct locate as (B & i & l & [B' i' l1 c l2 HB HT Hi Hh Hc Hs Hm|B' i' l' HB HT Hi Hh Hn Hs Hm]);
    unfold hashtable_insert; rewrite (bind_Ok _ _ _ _ _ Hh), (bind_Ok _ _ _ _ _ Hs); cbv beta iota.
  - pose proof (hb_seg _ _ HB _ _ Hi) as Hseg. apply dseg_app in Hseg as [_ [Hcell _]].
    rewrite (bind_Ok _ _ _ _ _ (elem_wr_run t _ (with_value v) _ Hcell)).
    eexists. split; [reflexivity|]. split; [|done]. rewrite <- Hc. by eapply replace_value.
  - destruct Halloc as [[-> ->]|[? ?]]; [|congruence].
    cbn [negb]. destruct (match key with KNum n => _ | KStr s => _ end) as [sk nk] eqn:Esk.
    assert (sk = skey key /\ nk = nkey key) as [-> ->] by (by destruct key; injection Esk as <- <-).
    cbn [negb andb]. set (p := fresh (dom (t_heap t))).
    assert (p ∉ dom (t_heap t)) as Hp by apply is_fresh.
    set (e0 := HtElem (last_loc None l') None (skey key) (nkey key) 0).
    rewrite (bind_Ok _ _ t p (set_t_heap (<[p := e0]> (t_heap t)) t)) by done.
    pose proof (hb_seg _ _ HB _ _ Hi) as Hseg. pose proof (hb_list _ _ HB) as Hll.
    destruct l' as [|c0 l0 _] using rev_ind.
    + set (t2 := set_elem_list (<[Z.to_nat (Z.of_nat i') := Some p]> (t_elem_list t))
        (set_t_heap (<[p := e0]> (t_heap t)) t)).
      cbn [last_loc last]. rewrite (bind_Ok _ _ _ tt t2) by done.
      assert (t_heap t2 !! p = Some e0) as H2 by (by apply lookup_insert_eq).
      rewrite (bind_Ok _ _ _ _ _ (elem_wr_run t2 p (with_value v) e0 H2)).
      eexists. split; [reflexivity|]. split; [|done].
      eapply (add_cell B' i' [] p v); try done.
      * cbn. by rewrite Nat2Z.id.
      * cbn. apply map_eq. intros q. destruct (decide (q = p)) as [->|Hne].
        -- by rewrite lookup_alter_eq, !lookup_insert_eq.
        -- by rewrite lookup_alter_ne, !lookup_insert_ne by done.
    + unfold last_loc in *. rewrite last_snoc in *.
      apply dseg_app in Hseg as [_ [Hcell _]].
      assert (c_loc c0 <> p) as Hne.
      { intros E. apply Hp. rewrite <- E. by eapply elem_of_dom_2. }
      set (t1 := set_t_heap _ t). set (e1 := HtElem _ _ _ _ _) in Hcell.
      assert (t_heap t1 !! c_loc c0 = Some e1) as H1 by (cbn; by rewrite lookup_insert_ne).
      rewrite (bind_Ok _ _ _ _ _ (elem_wr_run t1 _ (with_next (Some p)) e1 H1)).
      set (t2 := set_t_heap _ t1).
      assert (t_heap t2 !! p = Some e0) as H2
        by (cbn; rewrite lookup_alter_ne by done; apply lookup_insert_eq).
      rewrite (bind_Ok _ _ _ _ _ (elem_wr_run t2 p (with_value v) e0 H2)).
      eexists. split; [reflexivity|]. split; [|done].
      eapply (add_cell B' i' (l0 ++ [c0]) p v); try done.
      * cbn. symmetry. apply list_insert_id. rewrite Hll, list_lookup_fmap, Hi. cbn. f_equal.
        by destruct l0.
      * rewrite last_snoc. unfold last_loc. rewrite last_snoc. cbn.
        apply map_eq. intros q. destruct (decide (q = p)) as [->|Hq].
        -- rewrite lookup_alter_eq, lookup_alter_ne by done. rewrite !lookup_insert_eq.
           unfold e0, last_loc. by rewrite ?last_snoc.
        -- rewrite lookup_alter_ne, lookup_insert_ne by done.
           destruct (decide (q = c_loc c0)) as [->|Hq'].
           ++ by rewrite !lookup_alter_eq, lookup_insert_ne by done.
           ++ by rewrite !lookup_alter_ne, lookup_insert_ne by done.
Qed.

(** Without memory for the element or its key, the table is unchanged. *)
Lemma hashtable_insert_enomem elem_ok dup_ok v :
  m !! key = None -> elem_ok = false \/ dup_ok = false /\ t_key_type t = STRING_KEY ->
  hashtable_insert elem_ok dup_ok (Some key) v t = Ok (0, ENOMEM) t.
Proof using R Hkey.
  intros Hnone Hfail.
  destruct locate as (B & i & l & [B' i' l1 c l2 HB HT Hi Hh Hc Hs Hm|B' i' l' HB HT Hi Hh Hn Hs Hm]);
    [congruence|].
  unfold hashtable_insert. rewrite (bind_Ok _ _ _ _ _ Hh), (bind_Ok _ _ _ _ _ Hs). cbv beta iota.
  destruct elem_ok; [|done]. destruct Hfail as [|[-> Hk]]; [done|].
  destruct key as [n|s]; [by rewrite Hk in Hkey|]. done.
Qed.

(** The heap in which the neighbours of a cell are linked to each other. *)
Definition linked (l1 l2 : list cell) : gmap loc htelem_t :=
  let next := match l2 with [] => None | d :: _ => Some (c_loc d) end in
  let h := match last l1 with Some d => alter (with_next next) (c_loc d) (t_heap t)
                            | None => t_heap t end in
  match l2 with d :: _ => alter (with_prev (last_loc None l1)) (c_loc d) h | [] => h end.

Lemma linked_ne l1 l2 q : q ∉ locs l1 -> q ∉ locs l2 -> linked l1 l2 !! q = t_heap t !! q.
Proof using.
  intros H1 H2. unfold linked.
  assert (forall h, match l2 with d :: _ => alter (with_prev (last_loc None l1)) (c_loc d) h
                                | [] => h end !! q = h !! q) as ->.
  { intros h. destruct l2 as [|d l2]; [done|]. apply lookup_alter_ne. intros <-. apply H2. by left. }
  destruct (last l1) as [d|] eqn:El; [|done]. apply lookup_alter_ne. intros <-. apply H1.
  apply list_elem_of_fmap. exists d. split; [done|]. by apply last_Some_elem_of.
Qed.

(** The chain without the cell [c]. *)
Lemma linked_seg B i l1 l2 c : buckets t B -> B !! i = Some (l1 ++ c :: l2) ->
  dseg (delete (c_loc c) (linked l1 l2)) None (l1 ++ l2) None.
Proof using.
  intros HB Hi. destruct (cell_locs B i l1 l2 c HB Hi) as (Hl1 & Hl2 & Hl12 & Hd1 & Hd2).
  pose proof (hb_seg _ _ HB _ _ Hi) as Hseg. apply dseg_app in Hseg as [Hs1 [Hs2 Hs3]].
  apply dseg_app. split.
  - apply (dseg_frame (match last l1 with
        | Some d => alter (with_next (match l2 with [] => None | d :: _ => Some (c_loc d) end))
                      (c_loc d) (t_heap t)
        | None => t_heap t end)); [|by eapply dseg_set_next].
    intros d Hin. rewrite lookup_delete_ne by (symmetry; by apply Hl1). unfold linked.
    destruct l2 as [|x l2]; [done|]. apply lookup_alter_ne. symmetry. apply (Hl12 d x Hin). by left.
  - apply (dseg_frame (match l2 with
        | d :: _ => alter (with_prev (last_loc None l1)) (c_loc d) (t_heap t)
        | [] => t_heap t end)); [|by eapply dseg_set_prev].
    intros d Hin. rewrite lookup_delete_ne by (symmetry; by apply Hl2). unfold linked.
    assert (forall q, q ∈ locs l2 -> match last l1 with
      | Some d => alter (with_next (match l2 with [] => None | d :: _ => Some (c_loc d) end))
                   (c_loc d) (t_heap t)
      | None => t_heap t end !! q = t_heap t !! q) as Hq.
    { intros q Hq. destruct (last l1) as [y|] eqn:Ey; [|done]. apply lookup_alter_ne.
      apply list_elem_of_fmap in Hq as (z & -> & Hz). apply (Hl12 y z); [|done].
      by apply last_Some_elem_of. }
    assert (c_loc d ∈ locs l2) as Hdl by (apply list_elem_of_fmap; by exists d).
    destruct l2 as [|x l2]; [by apply not_elem_of_nil in Hin|].
    destruct (decide (c_loc d = c_loc x)) as [->|Hne].
    + rewrite !lookup_alter_eq. f_equal. apply Hq. by left.
    + rewrite !lookup_alter_ne by done. by apply Hq.
Qed.

Lemma remove_cell B i (l1 l2 : list cell) (c : cell) ls :
  buckets t B -> table B = m -> B !! i = Some (l1 ++ c :: l2) ->
  ls = <[i := first_loc (l1 ++ l2)]> (t_elem_list t) ->
  ht_rep (HashTable (t_size t) ls (t_key_type t) (delete (c_loc c) (linked l1 l2)))
    (delete (c_key c) m).
Proof using.
  intros HB HT Hi Hls. destruct (table_split t B i _ HB Hi) as (Hn1 & Hn2 & Hd & HT').
  assert ((l1 ++ c :: l2) ++ others i B ≡ₚ c :: (l1 ++ l2) ++ others i B) as Hperm
    by (rewrite <- !app_assoc; symmetry; apply Permutation_middle).
  assert (NoDup (locs (c :: (l1 ++ l2) ++ others i B))) as Hn3 by (by rewrite <- Hperm).
  assert (NoDup (keys (c :: (l1 ++ l2) ++ others i B))) as Hn4 by (by rewrite <- Hperm).
  rewrite fmap_cons in Hn3. apply NoDup_cons in Hn3 as [Hc1 Hn3].
  rewrite fmap_cons in Hn4. apply NoDup_cons in Hn4 as [Hc2 Hn4].
  assert (c_loc c ∉ locs l1 /\ c_loc c ∉ locs l2) as [Hc3 Hc4].
  { rewrite !fmap_app in Hc1. rewrite !elem_of_app in Hc1. tauto. }
  exists (<[i := l1 ++ l2]> B). split.
  - apply (buckets_replace t B i (l1 ++ c :: l2)); try done.
    + by eapply linked_seg.
    + intros d Hin. assert (forall x, x ∈ l1 ++ c :: l2 -> c_loc x <> c_loc d) as Hx
        by (intros x Hx; by eapply disjoint_others).
      rewrite lookup_delete_ne by (apply Hx; apply elem_of_app; right; by left).
      apply linked_ne; intros (x & Ex & Hin')%list_elem_of_fmap; symmetry in Ex; revert Ex; apply Hx;
        apply elem_of_app; [by left|by right; right].
    + intros d Hin. apply (hb_key _ _ HB i _ d Hi). apply elem_of_app in Hin as [Hin|Hin];
        apply elem_of_app; [by left|by right; right].
    + rewrite dom_delete_L. assert (dom (linked l1 l2) = dom (t_heap t)) as ->.
      { unfold linked. destruct l2, (last l1); by rewrite ?dom_alter_L. }
      rewrite Hd. apply set_eq. intros q.
      rewrite elem_of_difference, elem_of_singleton, !elem_of_list_to_set, Hperm, fmap_cons.
      rewrite elem_of_cons. split; [tauto|]. intros Hq. split; [by right|]. intros ->. done.
  - rewrite table_replace by (by eapply lookup_lt_Some || done).
    rewrite <- HT, HT'. destruct (list_to_map_cell _ c ((l1 ++ l2) ++ others i B) Hperm) as [-> Hno]; [done|].
    by rewrite delete_insert_id.
Qed.

Lemma hashtable_delete_ok :
  exists t', hashtable_delete (Some key) t = Ok (default 0 (m !! key)) t' /\
    ht_rep t' (delete key m) /\ same_kind t'.
Proof using R Hkey.
  destruct locate as (B & i & l & [B' i' l1 c l2 HB HT Hi Hh Hc Hs Hm|B' i' l' HB HT Hi Hh Hn Hs Hm]);
    unfold hashtable_delete; rewrite (bind_Ok _ _ _ _ _ Hh), (bind_Ok _ _ _ _ _ Hs), Hm; cbv beta iota.
  2: { exists t. split; [done|]. split; [|done]. by rewrite delete_id. }
  destruct (cell_locs B' i' l1 l2 c HB Hi) as (Hl1 & Hl2 & Hl12 & Hd1 & Hd2).
  pose proof (hb_seg _ _ HB _ _ Hi) as Hseg. apply dseg_app in Hseg as [Hs1 [Hs2 Hs3]].
  set (next := match l2 with [] => None | d :: _ => Some (c_loc d) end) in *.
  rewrite (bind_Ok _ _ t _ t) by (unfold elem_rd; mrun; by rewrite Hs2).
  cbn [h_prev h_next h_value].
  set (ls := match last l1 with None => <[i' := next]> (t_elem_list t) | Some _ => t_elem_list t end).
  set (h1 := match last l1 with Some d => alter (with_next next) (c_loc d) (t_heap t)
                              | None => t_heap t end).
  set (t1 := HashTable (t_size t) ls (t_key_type t) h1).
  assert ((match last_loc None l1 with Some q => elem_wr q (with_next next)
           | None => bucket_wr (Z.of_nat i') next end) t = Ok tt t1) as E1.
  { unfold t1, ls, h1, last_loc. destruct l1 as [|d l1' _] using rev_ind.
    - cbn. unfold bucket_wr. mrun. by rewrite Nat2Z.id.
    - rewrite !last_snoc. apply dseg_app in Hs1 as [_ [Hd _]].
      by rewrite (elem_wr_run t _ _ _ Hd). }
  rewrite (bind_Ok _ _ _ _ _ E1).
  set (t2 := HashTable (t_size t) ls (t_key_type t) (linked l1 l2)).
  assert ((match next with Some q => elem_wr q (with_prev (last_loc None l1)) | None => mret tt end)
    t1 = Ok tt t2) as E2.
  { unfold next, t2, linked. fold h1. destruct l2 as [|d l2]; [done|]. destruct Hs3 as [Hd _].
    assert (exists e, h1 !! c_loc d = Some e) as [e He].
    { unfold h1. destruct (last l1) as [x|] eqn:Ex; [|by eexists].
      rewrite lookup_alter_ne; [by eexists|]. apply (Hl12 x d); [by apply last_Some_elem_of|by left]. }
    by rewrite (elem_wr_run t1 _ _ _ He). }
  rewrite (bind_Ok _ _ _ _ _ E2).
  set (t3 := HashTable (t_size t) ls (t_key_type t) (delete (c_loc c) (linked l1 l2))).
  assert (linked l1 l2 !! c_loc c = t_heap t !! c_loc c) as Hlc.
  { apply linked_ne; intros (x & Ex & Hin)%list_elem_of_fmap.
    - by apply (Hl1 x Hin).
    - by apply (Hl2 x Hin). }
  assert (elem_free (c_loc c) t2 = Ok tt t3) as E3.
  { unfold elem_free, elem_rd. mrun. cbn. rewrite Hlc, Hs2. done. }
  rewrite (bind_Ok _ _ _ _ _ E3). exists t3. split; [done|]. split; [|done].
  rewrite <- Hc. eapply remove_cell; [done|done|exact Hi|].
  unfold ls. destruct l1 as [|d l1' _] using rev_ind.
  - cbn. f_equal. unfold next. by destruct l2.
  - rewrite last_snoc. symmetry. apply list_insert_id.
    rewrite (hb_list _ _ HB), list_lookup_fmap, Hi. cbn. f_equal. by destruct l1'.
Qed.

End Ops.

(** A fresh table is empty. *)
Lemma mjoin_replicate_nil (n : nat) : mjoin (replicate n ([] : list cell)) = [].
Proof. induction n as [|n IH]; [done|]. exact IH. Qed.

Lemma hashtable_new_ok kt n :
  0 < n -> exists t, hashtable_new true true kt n = Some t /\ ht_rep t ∅ /\
    t_key_type t = kt /\ t_size t = n.
Proof.
  intros Hn. eexists. split; [done|]. split; [|done].
  exists (replicate (Z.to_nat n) []). split; [split|]; cbn.
  - rewrite length_replicate. lia.
  - done.
  - by rewrite fmap_replicate.
  - by intros i l [-> _]%lookup_replicate.
  - intros i l c [-> _]%lookup_replicate Hc. by apply not_elem_of_nil in Hc.
  - rewrite mjoin_replicate_nil. apply NoDup_nil_2.
  - rewrite mjoin_replicate_nil. apply NoDup_nil_2.
  - rewrite mjoin_replicate_nil. by rewrite dom_empty_L.
  - unfold table. by rewrite mjoin_replicate_nil.
Qed.

(** ** Visiting all keys

    The traversal calls its handler once for every key of the table, in the
    order of the buckets, when the handler leaves the table alone. [I] is what
    holds after the keys visited so far. *)

Section Foreach.
Context {S : Type} (E : fault -> Prop) (L : lens S hashtable_t).
Context (lput_lget : forall s, lput L (lget L s) s = s).
Context (handler : key_arg -> M S unit) (t : hashtable_t) (B : list (list cell)).
Context (HB : buckets t B) (I : list key_arg -> S -> Prop).
Context (step : forall l1 key l2 s, keys (mjoin B) = l1 ++ key :: l2 -> lget L s = t -> I l1 s ->
  wp E (handler key) s (fun _ s' => lget L s' = t /\ I (l1 ++ [key]) s')).

Lemma foreach_list_ok l prev done fuel s :
  dseg (t_heap t) prev l None -> (length l <= fuel)%nat ->
  (exists rest, keys (mjoin B) = done ++ keys l ++ rest) -> lget L s = t -> I done s ->
  wp E (foreach_list L handler fuel (first_loc l)) s (fun _ s' => lget L s' = t /\ I (done ++ keys l) s').
Proof using lput_lget step.
  revert prev done fuel s. induction l as [|c l IH]; intros prev done fuel s Hseg Hf [rest Hr] Ht Hi.
  - destruct fuel; (apply wp_ret; split; [done|]; by rewrite app_nil_r).
  - destruct fuel as [|fuel]; [simpl in Hf; lia|]. destruct Hseg as [Hc Hseg].
    cbn [foreach_list first_loc head fmap option_fmap option_map].
    apply wp_bind, wp_zoom.
    assert (elem_rd (c_loc c) (lget L s) = Ok (HtElem prev
      (match l with [] => None | d :: _ => Some (c_loc d) end) (skey (c_key c)) (nkey (c_key c)) (c_val c))
      (lget L s)) as Ee by (unfold elem_rd; mrun; by rewrite Ht, Hc).
    eapply wp_eq; [exact Ee|]. rewrite lput_lget. apply wp_bind. cbn [h_skey h_nkey h_next].
    assert (match skey (c_key c) with Some s => KStr s | None => KNum (nkey (c_key c)) end = c_key c)
      as -> by (by destruct (c_key c)).
    eapply wp_mono; [eapply step; [exact Hr|done|done]|]. intros [] s1 [H1 I1]. cbv beta.
    rewrite <- head_loc. eapply wp_mono; [eapply (IH (Some (c_loc c)) (done ++ [c_key c])); try done|].
    + simpl in Hf. lia.
    + exists rest. rewrite Hr. cbn. by rewrite <- app_assoc.
    + intros [] s2 [H2 I2]. split; [done|]. by rewrite <- app_assoc in I2.
Qed.

Lemma hashtable_foreach_ok s :
  lget L s = t -> I [] s ->
  wp E (hashtable_foreach_key L handler) s (fun _ s' => lget L s' = t /\ I (keys (mjoin B)) s').
Proof using lput_lget HB step.
  intros Ht Hi. unfold hashtable_foreach_key. apply wp_bind, wp_gets. rewrite Ht.
  rewrite (hb_size _ _ HB), Nat2Z.id.
  apply (wp_for E (fun i s => lget L s = t /\ I (keys (mjoin (take i B))) s) B).
  - by split.
  - intros i l s1 Hl [H1 I1]. rewrite Nat.add_0_l. apply wp_bind, wp_zoom.
    assert (bucket_rd (Z.of_nat i) (lget L s1) = Ok (first_loc l) (lget L s1)) as Eb.
    { unfold bucket_rd. mrun. rewrite H1, (hb_list _ _ HB), Nat2Z.id. by rewrite list_lookup_fmap, Hl. }
    eapply wp_eq; [exact Eb|]. rewrite lput_lget. apply wp_bind, wp_gets. rewrite H1.
    eapply wp_mono; [eapply (foreach_list_ok l None)|].
    + by apply (hb_seg _ _ HB i).
    + by eapply bucket_size.
    + exists (keys (mjoin (drop (Datatypes.S i) B))). rewrite <- !fmap_app. f_equal.
      pose proof (join_app (take i B) (l :: drop (Datatypes.S i) B)) as Ej.
      by rewrite take_drop_middle in Ej.
    + done.
    + exact I1.
    + intros [] s2 [H2 I2]. split; [done|].
      rewrite (take_S_r B i l) by done. rewrite join_app, fmap_app. cbn. by rewrite app_nil_r.
  - intros s1 [H1 I1]. split; [done|]. rewrite Nat.add_0_l in I1. by rewrite firstn_all in I1.
Qed.

End Foreach.
