(* ===== verification/State.v ===== *)
(** * The globals of the library

    One record per module of the source (log.c, snapshot.c, rft.c; config.c and
    hashtable.c have their own files), and [St], the whole memory of a server,
    in which a handler runs. A mutex is the flag "held by the running thread"
    next to the data it protects. *)

From S2P Require Import Prelude Monad Types LogRing Mtl Config HashTable.
Open Scope Z_scope.

(** ** log.c *)

(** [log_entries_t]; [entries] is NULL until the log is initialised. *)
Record log_entries_t := LogEntries {
  l_memsize : Z;
  l_mthresh : Z;
  l_cthresh : index_t;
  l_index_offset : index_t;
  l_last_log_index : index_t;
  l_entries : option logring }.

(** A log and its mutex. *)
Record log_st := LogSt { lg : log_entries_t; lg_lock : bool }.

Definition init_log_st : log_st := LogSt (LogEntries 0 0 0 0 0 None) false.
Definition set_lg (l : log_entries_t) (s : log_st) : log_st := LogSt l (lg_lock s).
Definition lg_lock_l : lens log_st bool := Lens lg_lock (fun b s => LogSt (lg s) b).
Definition lg_l : lens log_st log_entries_t := Lens lg set_lg.

(** ** snapshot.c *)

(** [pipe_metabuf_t] *)
Record pipe_metabuf_t := PipeMetabuf {
  pm_last_term : term_t;
  pm_last_index : index_t;
  pm_dlen : Z;
  pm_items : Z }.

(** What the child process writes to a pipe: the metadata, then the data. It is
    recorded when the process is forked, since the child works on the memory
    of that moment, and consumed by the thread that reads the pipe. *)
Definition pipe_t : Type := option (pipe_metabuf_t * bytes).

Record snap_st := SnapSt {
  sn_raft_in_progress : bool;
  sn_raft_snapshot : raft_snapshot_t;
  sn_raft_pipe : pipe_t;
  sn_raft_snapshot_lock : bool;
  sn_raft_in_progress_lock : bool;
  sn_xapp_in_progress : bool;
  sn_xapp_snapshot : xapp_snapshot_t;
  sn_xapp_pipe : pipe_t;
  sn_xapp_snapshot_lock : bool;
  sn_xapp_in_progress_lock : bool }.

Definition init_snap_st : snap_st :=
  SnapSt false (RaftSnapshot 0 0 0 0 None) None false false
         false (XappSnapshot 0 0 0 None) None false false.

Definition set_raft_in_progress (b : bool) (s : snap_st) : snap_st :=
  SnapSt b (sn_raft_snapshot s) (sn_raft_pipe s) (sn_raft_snapshot_lock s)
    (sn_raft_in_progress_lock s) (sn_xapp_in_progress s) (sn_xapp_snapshot s)
    (sn_xapp_pipe s) (sn_xapp_snapshot_lock s) (sn_xapp_in_progress_lock s).
Definition set_raft_snapshot (v : raft_snapshot_t) (s : snap_st) : snap_st :=
  SnapSt (sn_raft_in_progress s) v (sn_raft_pipe s) (sn_raft_snapshot_lock s)
    (sn_raft_in_progress_lock s) (sn_xapp_in_progress s) (sn_xapp_snapshot s)
    (sn_xapp_pipe s) (sn_xapp_snapshot_lock s) (sn_xapp_in_progress_lock s).
Definition set_raft_pipe (v : pipe_t) (s : snap_st) : snap_st :=
  SnapSt (sn_raft_in_progress s) (sn_raft_snapshot s) v (sn_raft_snapshot_lock s)
    (sn_raft_in_progress_lock s) (sn_xapp_in_progress s) (sn_xapp_snapshot s)
    (sn_xapp_pipe s) (sn_xapp_snapshot_lock s) (sn_xapp_in_progress_lock s).
Definition set_raft_snapshot_lock (b : bool) (s : snap_st) : snap_st :=
  SnapSt (sn_raft_in_progress s) (sn_raft_snapshot s) (sn_raft_pipe s) b
    (sn_raft_in_progress_lock s) (sn_xapp_in_progress s) (sn_xapp_snapshot s)
    (sn_xapp_pipe s) (sn_xapp_snapshot_lock s) (sn_xapp_in_progress_lock s).
Definition set_raft_in_progress_lock (b : bool) (s : snap_st) : snap_st :=
  SnapSt (sn_raft_in_progress s) (sn_raft_snapshot s) (sn_raft_pipe s)
    (sn_raft_snapshot_lock s) b (sn_xapp_in_progress s) (sn_xapp_snapshot s)
    (sn_xapp_pipe s) (sn_xapp_snapshot_lock s) (sn_xapp_in_progress_lock s).
Definition set_xapp_in_progress (b : bool) (s : snap_st) : snap_st :=
  SnapSt (sn_raft_in_progress s) (sn_raft_snapshot s) (sn_raft_pipe s)
    (sn_raft_snapshot_lock s) (sn_raft_in_progress_lock s) b (sn_xapp_snapshot s)
    (sn_xapp_pipe s) (sn_xapp_snapshot_lock s) (sn_xapp_in_progress_lock s).
Definition set_xapp_snapshot (v : xapp_snapshot_t) (s : snap_st) : snap_st :=
  SnapSt (sn_raft_in_progress s) (sn_raft_snapshot s) (sn_raft_pipe s)
    (sn_raft_snapshot_lock s) (sn_raft_in_progress_lock s) (sn_xapp_in_progress s) v
    (sn_xapp_pipe s) (sn_xapp_snapshot_lock s) (sn_xapp_in_progress_lock s).
Definition set_xapp_pipe (v : pipe_t) (s : snap_st) : snap_st :=
  SnapSt (sn_raft_in_progress s) (sn_raft_snapshot s) (sn_raft_pipe s)
    (sn_raft_snapshot_lock s) (sn_raft_in_progress_lock s) (sn_xapp_in_progress s)
    (sn_xapp_snapshot s) v (sn_xapp_snapshot_lock s) (sn_xapp_in_progress_lock s).
Definition set_xapp_snapshot_lock (b : bool) (s : snap_st) : snap_st :=
  SnapSt (sn_raft_in_progress s) (sn_raft_snapshot s) (sn_raft_pipe s)
    (sn_raft_snapshot_lock s) (sn_raft_in_progress_lock s) (sn_xapp_in_progress s)
    (sn_xapp_snapshot s) (sn_xapp_pipe s) b (sn_xapp_in_progress_lock s).
Definition set_xapp_in_progress_lock (b : bool) (s : snap_st) : snap_st :=
  SnapSt (sn_raft_in_progress s) (sn_raft_snapshot s) (sn_raft_pipe s)
    (sn_raft_snapshot_lock s) (sn_raft_in_progress_lock s) (sn_xapp_in_progress s)
    (sn_xapp_snapshot s) (sn_xapp_pipe s) (sn_xapp_snapshot_lock s) b.

Definition raft_snapshot_lock_l : lens snap_st bool :=
  Lens sn_raft_snapshot_lock set_raft_snapshot_lock.
Definition raft_in_progress_lock_l : lens snap_st bool :=
  Lens sn_raft_in_progress_lock set_raft_in_progress_lock.
Definition xapp_snapshot_lock_l : lens snap_st bool :=
  Lens sn_xapp_snapshot_lock set_xapp_snapshot_lock.
Definition xapp_in_progress_lock_l : lens snap_st bool :=
  Lens sn_xapp_in_progress_lock set_xapp_in_progress_lock.

(** ** rft.c *)

(** The replica list of the xApp replication, and its settings. An element is
    NULL once the thread of that server has ended. *)
Record repl_st := ReplSt {
  rp_servers : list (option loc);
  rp_lock : bool;
  rp_type : replication_type_e;
  rp_num_replicas : Z }.

Definition repl_lock_l : lens repl_st bool :=
  Lens rp_lock (fun b s => ReplSt (rp_servers s) b (rp_type s) (rp_num_replicas s)).
Definition set_rp_servers (l : list (option loc)) (s : repl_st) : repl_st :=
  ReplSt l (rp_lock s) (rp_type s) (rp_num_replicas s).

(** The election timer: the deadline, the random interval of the current term,
    the clock and the next results of [rand( )]. *)
Record elec_st := ElecSt {
  el_timeout : timespec;
  el_lock : bool;
  el_rand_timeout_ms : Z;
  el_now : timespec;
  el_rands : list Z }.

Definition el_lock_l : lens elec_st bool :=
  Lens el_lock (fun b s => ElecSt (el_timeout s) b (el_rand_timeout_ms s) (el_now s) (el_rands s)).
Definition set_el_timeout (t : timespec) (s : elec_st) : elec_st :=
  ElecSt t (el_lock s) (el_rand_timeout_ms s) (el_now s) (el_rands s).
Definition set_el_rand (z : Z) (s : elec_st) : elec_st :=
  ElecSt (el_timeout s) (el_lock s) z (el_now s) (el_rands s).

(** One call of the xApp's apply callback. *)
Record applied_t := Applied {
  ap_command : Z; ap_context : option string; ap_key : option string;
  ap_value : bytes; ap_len : Z }.

(** The xApp side: the two role tables, which callbacks are registered, the
    calls the library made to them, and the "installing" flag. *)
Record app_st := AppSt {
  ax_ctxtab : hashtable_t;
  ax_roletab : hashtable_t;
  ax_apply_cb : bool;
  ax_install_cb : bool;
  ax_applied : list applied_t;
  ax_installed : list (Z * option bytes);
  ax_installing : bool;
  ax_installing_lock : bool }.

Definition set_ctxtab (t : hashtable_t) (s : app_st) : app_st :=
  AppSt t (ax_roletab s) (ax_apply_cb s) (ax_install_cb s) (ax_applied s) (ax_installed s)
    (ax_installing s) (ax_installing_lock s).
Definition set_roletab (t : hashtable_t) (s : app_st) : app_st :=
  AppSt (ax_ctxtab s) t (ax_apply_cb s) (ax_install_cb s) (ax_applied s) (ax_installed s)
    (ax_installing s) (ax_installing_lock s).
Definition add_applied (a : applied_t) (s : app_st) : app_st :=
  AppSt (ax_ctxtab s) (ax_roletab s) (ax_apply_cb s) (ax_install_cb s) (ax_applied s ++ [a])
    (ax_installed s) (ax_installing s) (ax_installing_lock s).
Definition add_installed (i : Z * option bytes) (s : app_st) : app_st :=
  AppSt (ax_ctxtab s) (ax_roletab s) (ax_apply_cb s) (ax_install_cb s) (ax_applied s)
    (ax_installed s ++ [i]) (ax_installing s) (ax_installing_lock s).
Definition set_installing (b : bool) (s : app_st) : app_st :=
  AppSt (ax_ctxtab s) (ax_roletab s) (ax_apply_cb s) (ax_install_cb s) (ax_applied s)
    (ax_installed s) b (ax_installing_lock s).
Definition set_installing_lock (b : bool) (s : app_st) : app_st :=
  AppSt (ax_ctxtab s) (ax_roletab s) (ax_apply_cb s) (ax_install_cb s) (ax_applied s)
    (ax_installed s) (ax_installing s) b.

Definition ctxtab_l : lens app_st hashtable_t := Lens ax_ctxtab set_ctxtab.
Definition roletab_l : lens app_st hashtable_t := Lens ax_roletab set_roletab.
Definition installing_lock_l : lens app_st bool := Lens ax_installing_lock set_installing_lock.

(** ** The whole server *)

Record St := MkSt {
  g_me : raft_state_t;
  g_state_lock : bool;
  g_raft_log : log_st;
  g_xapp_log : log_st;
  g_config : config_st;
  g_snap : snap_st;
  g_repl : repl_st;
  g_elec : elec_st;
  g_app : app_st }.

Definition set_me (v : raft_state_t) (s : St) : St :=
  MkSt v (g_state_lock s) (g_raft_log s) (g_xapp_log s) (g_config s) (g_snap s) (g_repl s)
    (g_elec s) (g_app s).
Definition set_state_lock (v : bool) (s : St) : St :=
  MkSt (g_me s) v (g_raft_log s) (g_xapp_log s) (g_config s) (g_snap s) (g_repl s)
    (g_elec s) (g_app s).
Definition set_raft_log (v : log_st) (s : St) : St :=
  MkSt (g_me s) (g_state_lock s) v (g_xapp_log s) (g_config s) (g_snap s) (g_repl s)
    (g_elec s) (g_app s).
Definition set_xapp_log (v : log_st) (s : St) : St :=
  MkSt (g_me s) (g_state_lock s) (g_raft_log s) v (g_config s) (g_snap s) (g_repl s)
    (g_elec s) (g_app s).
Definition set_config (v : config_st) (s : St) : St :=
  MkSt (g_me s) (g_state_lock s) (g_raft_log s) (g_xapp_log s) v (g_snap s) (g_repl s)
    (g_elec s) (g_app s).
Definition set_snap (v : snap_st) (s : St) : St :=
  MkSt (g_me s) (g_state_lock s) (g_raft_log s) (g_xapp_log s) (g_config s) v (g_repl s)
    (g_elec s) (g_app s).
Definition set_repl (v : repl_st) (s : St) : St :=
  MkSt (g_me s) (g_state_lock s) (g_raft_log s) (g_xapp_log s) (g_config s) (g_snap s) v
    (g_elec s) (g_app s).
Definition set_elec (v : elec_st) (s : St) : St :=
  MkSt (g_me s) (g_state_lock s) (g_raft_log s) (g_xapp_log s) (g_config s) (g_snap s)
    (g_repl s) v (g_app s).
Definition set_app (v : app_st) (s : St) : St :=
  MkSt (g_me s) (g_state_lock s) (g_raft_log s) (g_xapp_log s) (g_config s) (g_snap s)
    (g_repl s) (g_elec s) v.

Definition state_lock_l : lens St bool := Lens g_state_lock set_state_lock.
Definition raft_log_l : lens St log_st := Lens g_raft_log set_raft_log.
Definition xapp_log_l : lens St log_st := Lens g_xapp_log set_xapp_log.
Definition config_l : lens St config_st := Lens g_config set_config.
Definition snap_l : lens St snap_st := Lens g_snap set_snap.
Definition repl_l : lens St repl_st := Lens g_repl set_repl.
Definition elec_l : lens St elec_st := Lens g_elec set_elec.
Definition app_l : lens St app_st := Lens g_app set_app.

(** Updates of one field of [me]. *)
Definition upd_me (f : raft_state_t -> raft_state_t) : M St unit :=
  modify (fun s => set_me (f (g_me s)) s).

Definition me_state (v : role) (m : raft_state_t) : raft_state_t :=
  RaftState v (m_current_term m) (m_rcv_votes m) (m_self_id m) (m_voted_for m)
    (m_current_leader m) (m_commit_index m) (m_last_applied m).
Definition me_term (v : term_t) (m : raft_state_t) : raft_state_t :=
  RaftState (m_state m) v (m_rcv_votes m) (m_self_id m) (m_voted_for m)
    (m_current_leader m) (m_commit_index m) (m_last_applied m).
Definition me_rcv_votes (v : Z) (m : raft_state_t) : raft_state_t :=
  RaftState (m_state m) (m_current_term m) v (m_self_id m) (m_voted_for m)
    (m_current_leader m) (m_commit_index m) (m_last_applied m).
Definition me_voted_for (v : server_id_t) (m : raft_state_t) : raft_state_t :=
  RaftState (m_state m) (m_current_term m) (m_rcv_votes m) (m_self_id m) v
    (m_current_leader m) (m_commit_index m) (m_last_applied m).
Definition me_leader (v : server_id_t) (m : raft_state_t) : raft_state_t :=
  RaftState (m_state m) (m_current_term m) (m_rcv_votes m) (m_self_id m) (m_voted_for m)
    v (m_commit_index m) (m_last_applied m).
Definition me_commit (v : index_t) (m : raft_state_t) : raft_state_t :=
  RaftState (m_state m) (m_current_term m) (m_rcv_votes m) (m_self_id m) (m_voted_for m)
    (m_current_leader m) v (m_last_applied m).
Definition me_applied (v : index_t) (m : raft_state_t) : raft_state_t :=
  RaftState (m_state m) (m_current_term m) (m_rcv_votes m) (m_self_id m) (m_voted_for m)
    (m_current_leader m) (m_commit_index m) v.
