(* ===== verification/Utils.v ===== *)
(** * Utilities (src/utils.c, include/utils.h)

    Timer arithmetic, the random election timeout, and the four functions that
    parse the numbers of the environment. [strtol] and [strtoul] are those of
    the C library in base 10; whether they report EINVAL when there is no
    digit is left open by POSIX and is the parameter [einval_empty]. *)

From S2P Require Import Prelude Monad Types State.
Open Scope Z_scope.

(** ** Time *)

Definition ELECTION_TIMEOUT : Z := 2500.
Definition HEARTBEAT_TIMETOUT : Z := 1000.

(** [timespec_cmp( a, b, < )] *)
Definition timespec_lt (a b : timespec) : bool :=
  if tv_sec a =? tv_sec b then tv_nsec a <? tv_nsec b else tv_sec a <? tv_sec b.

(** [timespec_add_ms( a, ms )]; C's division and remainder truncate. *)
Definition timespec_add_ms (a : timespec) (ms : Z) : timespec :=
  let sec := tv_sec a + Z.quot ms 1000 in
  let nsec := tv_nsec a + Z.rem ms 1000 * 1000000 in
  if 1000000000 <=? nsec then Timespec (sec + 1) (nsec - 1000000000) else Timespec sec nsec.

(** The time as one number of nanoseconds. *)
Definition nanos (t : timespec) : Z := tv_sec t * 1000000000 + tv_nsec t.
Definition timespec_wf (t : timespec) : Prop := 0 <= tv_nsec t < 1000000000.

Lemma timespec_lt_nanos a b :
  timespec_wf a -> timespec_wf b -> timespec_lt a b = (nanos a <? nanos b).
Proof.
  unfold timespec_wf, timespec_lt, nanos. intros Ha Hb. apply eq_true_iff_eq. zcases; lia.
Qed.

Lemma timespec_add_ms_nanos t ms :
  timespec_wf t -> 0 <= ms ->
  timespec_wf (timespec_add_ms t ms) /\ nanos (timespec_add_ms t ms) = nanos t + ms * 1000000.
Proof.
  unfold timespec_wf, timespec_add_ms, nanos. intros Ht Hms.
  pose proof (Z.quot_rem' ms 1000). pose proof (Z.rem_bound_pos ms 1000 Hms).
  zcases; cbn; lia.
Qed.

(** [randomize_election_timeout]: [rand( )] takes the next value of the
    generator. *)
Definition c_rand : M elec_st Z := fun s =>
  match el_rands s with
  | [] => Ok 0 s
  | r :: rs => Ok r (ElecSt (el_timeout s) (el_lock s) (el_rand_timeout_ms s) (el_now s) rs)
  end.

Definition randomize_election_timeout : M elec_st Z :=
  r ← c_rand; mret (ELECTION_TIMEOUT + Z.rem r (ELECTION_TIMEOUT + 1)).

(** [rand( )] is never negative. *)
Definition rands_ok (s : elec_st) : Prop := Forall (fun r => 0 <= r) (el_rands s).

Lemma randomize_range s :
  rands_ok s ->
  exists t s', randomize_election_timeout s = Ok t s' /\
    ELECTION_TIMEOUT <= t <= 2 * ELECTION_TIMEOUT /\ rands_ok s' /\
    s' = ElecSt (el_timeout s) (el_lock s) (el_rand_timeout_ms s) (el_now s) (el_rands s').
Proof.
  unfold rands_ok, randomize_election_timeout, c_rand, ELECTION_TIMEOUT. mrun.
  destruct s as [to lk rt now [|r rs]]; simpl; intros Hr.
  - eexists _, _. split; [reflexivity|]. split; [change (0 `rem` (2500 + 1)) with 0; lia|]. by split.
  - apply Forall_cons_iff in Hr as [Hr Hrs].
    eexists _, _. split; [reflexivity|]. split; [|by split].
    pose proof (Z.rem_bound_pos r 2501 Hr). change (2500 + 1) with 2501. lia.
Qed.

(** ** Numbers *)

Inductive num_errno := NUM_OK | NUM_EINVAL | NUM_ERANGE.
#[export] Instance num_errno_eq_dec : EqDecision num_errno.
Proof. solve_decision. Defined.

(** [isspace] in the C locale *)
Definition is_space (c : ascii) : bool :=
  (byte_val c =? 32) || ((9 <=? byte_val c) && (byte_val c <=? 13)).

Definition digit_val (c : ascii) : option Z :=
  if (48 <=? byte_val c) && (byte_val c <=? 57) then Some (byte_val c - 48) else None.

Fixpoint skip_spaces (s : string) : string :=
  match s with
  | String c s' => if is_space c then skip_spaces s' else s
  | EmptyString => EmptyString
  end.

(** The longest run of digits: was there one, its value, and what follows. *)
Fixpoint scan_digits (any : bool) (acc : Z) (s : string) : bool * Z * string :=
  match s with
  | String c s' =>
      match digit_val c with
      | Some d => scan_digits true (acc * 10 + d) s'
      | None => (any, acc, s)
      end
  | EmptyString => (any, acc, s)
  end.

(** The sign, and the number read without it. *)
Definition scan_number (s : string) : bool * (bool * Z * string) :=
  match skip_spaces s with
  | String c s' =>
      if decide (c = "-"%char) then (true, scan_digits false 0 s')
      else if decide (c = "+"%char) then (false, scan_digits false 0 s')
      else (false, scan_digits false 0 (String c s'))
  | EmptyString => (false, (false, 0, EmptyString))
  end.

Section Parse.
Context (einval_empty : bool).

Definition empty_errno : num_errno := if einval_empty then NUM_EINVAL else NUM_OK.

(** [strtol( s, &endptr, 10 )]: the value, errno, and the string at [endptr]. *)
Definition strtol (s : string) : Z * num_errno * string :=
  let '(neg, (any, v, rest)) := scan_number s in
  if negb any then (0, empty_errno, s) else
  let v := if neg : bool then - v else v in
  if LONG_MAX <? v then (LONG_MAX, NUM_ERANGE, rest)
  else if v <? LONG_MIN then (LONG_MIN, NUM_ERANGE, rest)
  else (v, NUM_OK, rest).

(** [strtoul]: a minus sign negates the value in the unsigned type. *)
Definition strtoul (s : string) : Z * num_errno * string :=
  let '(neg, (any, v, rest)) := scan_number s in
  if negb any then (0, empty_errno, s) else
  if ULONG_MAX <? v then (ULONG_MAX, NUM_ERANGE, rest)
  else (if neg : bool then u64 (- v) else v, NUM_OK, rest).

Definition parse_int {S} (str : string) : M S Z :=
  let '(value, errno, endptr) := strtol str in
  when (bool_decide (errno = NUM_EINVAL)) exit1;;
  when (bool_decide (errno = NUM_ERANGE) || ((value <? INT_MIN) || (INT_MAX <? value))) exit1;;
  when (negb (bool_decide (endptr = EmptyString))) exit1;;
  mret value.

Definition parse_uint {S} (str : string) : M S Z :=
  let '(value, errno, endptr) := strtoul str in
  when (bool_decide (errno = NUM_EINVAL)) exit1;;
  when (bool_decide (errno = NUM_ERANGE) || (UINT_MAX <? value)) exit1;;
  when (negb (bool_decide (endptr = EmptyString))) exit1;;
  mret (u32 value).

Definition parse_long {S} (str : string) : M S Z :=
  let '(value, errno, endptr) := strtol str in
  when (bool_decide (errno = NUM_EINVAL)) exit1;;
  when (bool_decide (errno = NUM_ERANGE)) exit1;;
  when (negb (bool_decide (endptr = EmptyString))) exit1;;
  mret value.

Definition parse_ulong {S} (str : string) : M S Z :=
  let '(value, errno, endptr) := strtoul str in
  when (bool_decide (errno = NUM_EINVAL)) exit1;;
  when (bool_decide (errno = NUM_ERANGE)) exit1;;
  when (negb (bool_decide (endptr = EmptyString))) exit1;;
  mret value.

End Parse.

(** [printf]'s [%d] *)
Fixpoint dec_digits (fuel : nat) (n : Z) (acc : string) : string :=
  let acc := String (byte_of (48 + n mod 10)) acc in
  match fuel with
  | O => acc
  | S fuel => if n <? 10 then acc else dec_digits fuel (n / 10) acc
  end.

Definition dec_string (n : Z) : string :=
  if n <? 0 then String "-" (dec_digits 20 (- n) EmptyString) else dec_digits 20 n EmptyString.

Lemma digit_val_of d : 0 <= d < 10 -> digit_val (byte_of (48 + d)) = Some d.
Proof.
  intros Hd. unfold digit_val. rewrite byte_val_of. unfold u8. rewrite Z.mod_small by lia.
  rewrite (proj2 (Z.leb_le _ _)), (proj2 (Z.leb_le _ _)) by lia. simpl. f_equal. lia.
Qed.

(** Reading the digits of [n] after having read [a]. *)
Lemma scan_dec_digits fuel n any a rest :
  0 <= n < 10 ^ (Z.of_nat fuel + 1) ->
  exists k, 0 <= k /\
    scan_digits any a (dec_digits fuel n rest) = scan_digits true (a * 10 ^ k + n) rest.
Proof.
  revert n rest. induction fuel as [|fuel IH]; intros n rest Hn.
  - exists 1. split; [lia|]. cbn [dec_digits scan_digits]. change (10 ^ (Z.of_nat 0 + 1)) with 10 in Hn.
    rewrite Z.mod_small, digit_val_of by lia. f_equal. 
  - cbn [dec_digits]. destruct (Z.ltb_spec n 10).
    + exists 1. split; [lia|]. cbn [scan_digits]. by rewrite Z.mod_small, digit_val_of by lia.
    + pose proof (Z.div_mod n 10 ltac:(lia)). pose proof (Z.mod_pos_bound n 10 ltac:(lia)).
      destruct (IH (n / 10) (String (byte_of (48 + n mod 10)) rest)) as (k & Hk & E).
      { replace (Z.of_nat (S fuel) + 1) with (1 + (Z.of_nat fuel + 1)) in Hn by lia.
        rewrite Z.pow_add_r in Hn by lia. change (10 ^ 1) with 10 in Hn.
        split; [lia|]. apply Z.div_lt_upper_bound; lia. }
      exists (k + 1). split; [lia|]. rewrite E. cbn [scan_digits]. rewrite digit_val_of by lia.
      f_equal. rewrite Z.pow_add_r by lia. lia.
Qed.

(** The first character of a number is a digit, not a space or a sign. *)
Lemma dec_digits_head fuel n acc :
  exists d s, 0 <= d < 10 /\ dec_digits fuel n acc = String (byte_of (48 + d)) s.
Proof.
  revert n acc. induction fuel as [|fuel IH]; intros n acc; cbn [dec_digits].
  - exists (n mod 10), acc. split; [apply Z.mod_pos_bound; lia|done].
  - destruct (n <? 10); [|apply IH].
    exists (n mod 10), acc. split; [apply Z.mod_pos_bound; lia|done].
Qed.

Lemma scan_number_dec n :
  0 <= Z.abs n < 10 ^ 21 -> scan_number (dec_string n) = (n <? 0, (true, Z.abs n, EmptyString)).
Proof.
  intros Hn. unfold dec_string, scan_number.
  destruct (Z.ltb_spec n 0) as [Hneg|Hpos].
  - change (skip_spaces (String "-" (dec_digits 20 (- n) ""))) with
      (String "-" (dec_digits 20 (- n) "")). cbv iota. rewrite decide_True by done.
    destruct (scan_dec_digits 20 (- n) false 0 EmptyString) as (k & Hk & E); [simpl in *; lia|].
    rewrite E, Z.mul_0_l. simpl. do 3 f_equal. lia.
  - destruct (scan_dec_digits 20 n false 0 EmptyString) as (k & Hk & E); [simpl in *; lia|].
    destruct (dec_digits_head 20 n EmptyString) as (d & s & Hd & Es).
    rewrite Es in *. cbn [skip_spaces].
    assert (forallb (fun d => negb (is_space (byte_of (48 + d))) &&
        negb (bool_decide (byte_of (48 + d) = "-"%char)) &&
        negb (bool_decide (byte_of (48 + d) = "+"%char))) [0;1;2;3;4;5;6;7;8;9] = true) as Hall
      by (vm_compute; reflexivity).
    rewrite forallb_forall in Hall. specialize (Hall d).
    rewrite !andb_true_iff, !negb_true_iff, !bool_decide_eq_false in Hall.
    destruct Hall as [[H1 H2] H3].
    { simpl. lia. }
    rewrite H1. rewrite !decide_False by done. rewrite E, Z.mul_0_l. simpl.
    do 3 f_equal. lia.
Qed.

(** ** What the parsers accept *)

Section ParseSpecs.
Context (einval_empty : bool) {S : Type}.

Lemma strtol_dec n : LONG_MIN <= n <= LONG_MAX ->
  strtol einval_empty (dec_string n) = (n, NUM_OK, EmptyString).
Proof.
  unfold LONG_MIN, LONG_MAX. intros Hn. unfold strtol. rewrite scan_number_dec by lia.
  cbn [negb]. assert ((if n <? 0 then - Z.abs n else Z.abs n) = n) as -> by (zcases; lia).
  unfold LONG_MIN, LONG_MAX.
  by rewrite (proj2 (Z.ltb_ge _ n)), (proj2 (Z.ltb_ge n _)) by lia.
Qed.

Lemma strtoul_dec n : is_u64 n -> strtoul einval_empty (dec_string n) = (n, NUM_OK, EmptyString).
Proof.
  intros Hn. unfold strtoul. rewrite scan_number_dec by lia. cbn [negb].
  unfold ULONG_MAX. rewrite (proj2 (Z.ltb_ge _ (Z.abs n))) by lia.
  rewrite (proj2 (Z.ltb_ge n 0)) by lia. by rewrite Z.abs_eq by lia.
Qed.

(** Every number of the type is read back from its decimal notation. *)
Lemma parse_int_dec n (s : S) :
  INT_MIN <= n <= INT_MAX -> parse_int einval_empty (dec_string n) s = Ok n s.
Proof.
  unfold INT_MIN, INT_MAX. intros Hn. unfold parse_int.
  rewrite strtol_dec by (unfold LONG_MIN, LONG_MAX; lia).
  unfold INT_MIN, INT_MAX. by rewrite (proj2 (Z.ltb_ge n _)), (proj2 (Z.ltb_ge _ n)) by lia.
Qed.

Lemma parse_uint_dec n (s : S) :
  is_u32 n -> parse_uint einval_empty (dec_string n) s = Ok n s.
Proof.
  intros Hn. unfold parse_uint. rewrite strtoul_dec by lia. unfold UINT_MAX.
  rewrite (proj2 (Z.ltb_ge _ n)) by lia. mrun. simpl. by rewrite u32_small.
Qed.

Lemma parse_long_dec n (s : S) :
  LONG_MIN <= n <= LONG_MAX -> parse_long einval_empty (dec_string n) s = Ok n s.
Proof. intros Hn. unfold parse_long. by rewrite strtol_dec. Qed.

Lemma parse_ulong_dec n (s : S) :
  is_u64 n -> parse_ulong einval_empty (dec_string n) s = Ok n s.
Proof. intros Hn. unfold parse_ulong. by rewrite strtoul_dec. Qed.

(** Whatever the string, a value that is returned fits the type; everything
    else ends the process. *)
Lemma parse_int_sound str (s : S) :
  wp only_exit (parse_int einval_empty str) s
    (fun v s' => INT_MIN <= v <= INT_MAX /\ s' = s /\ (strtol einval_empty str).2 = EmptyString).
Proof.
  unfold parse_int. destruct (strtol einval_empty str) as [[v e] rest].
  unfold wp, when. destruct (bool_decide_reflect (e = NUM_EINVAL)); [done|].
  destruct (bool_decide_reflect (e = NUM_ERANGE)); [done|].
  destruct (Z.ltb_spec v INT_MIN); [done|]. destruct (Z.ltb_spec INT_MAX v); [done|].
  destruct (bool_decide_reflect (rest = EmptyString)); [|done].
  mrun. simpl. repeat split; try done; lia.
Qed.

Lemma parse_uint_sound str (s : S) :
  wp only_exit (parse_uint einval_empty str) s (fun v s' => is_u32 v /\ s' = s).
Proof.
  unfold parse_uint. destruct (strtoul einval_empty str) as [[v e] rest].
  unfold wp, when. destruct (bool_decide_reflect (e = NUM_EINVAL)); [done|].
  destruct (bool_decide_reflect (e = NUM_ERANGE)); [done|].
  destruct (Z.ltb_spec UINT_MAX v); [done|].
  destruct (bool_decide_reflect (rest = EmptyString)); [|done].
  mrun. simpl. split; [|done]. apply u32_range.
Qed.

(** Out of range: fatal. *)
Lemma parse_int_range n (s : S) :
  n < INT_MIN \/ INT_MAX < n -> Z.abs n < 10 ^ 21 ->
  parse_int einval_empty (dec_string n) s = Fault Exit.
Proof.
  unfold INT_MIN, INT_MAX. intros Hn Hmax. unfold parse_int, strtol.
  rewrite scan_number_dec by lia. cbn [negb].
  assert ((if n <? 0 then - Z.abs n else Z.abs n) = n) as -> by (zcases; lia).
  unfold LONG_MAX, LONG_MIN, INT_MIN, INT_MAX.
  destruct (Z.ltb_spec (2 ^ 63 - 1) n); [done|]. destruct (Z.ltb_spec n (- 2 ^ 63)); [done|].
  mrun. rewrite bool_decide_false by done. cbn [orb].
  destruct (Z.ltb_spec n (- 2 ^ 31)); [done|]. destruct (Z.ltb_spec (2 ^ 31 - 1) n); [done|]. lia.
Qed.

End ParseSpecs.

(** [strtoul] takes a minus sign, so that negative strings are unsigned
    numbers: -1 is the largest one. *)
Example parse_ulong_negative : parse_ulong false "-1" tt = Ok ULONG_MAX tt.
Proof. reflexivity. Qed.

Example parse_uint_negative : parse_uint false "-18446744073709551615" tt = Ok 1 tt.
Proof. reflexivity. Qed.

(** Where the C library does not report EINVAL, the empty string is 0. *)
Example parse_int_empty : parse_int false "" tt = Ok 0 tt /\ parse_int true "" tt = Fault Exit.
Proof. by split. Qed.

Example parse_int_garbage : parse_int false "12x" tt = Fault Exit.
Proof. reflexivity. Qed.
