(* ===== verification/Log.v ===== *)
(** * The logs (src/log.c)

    Operations of one log, which run in [log_st]: the log's data and its mutex.
    They serve both logs of the library, the raft log and the log of the xApp
    replication; what concerns one of them only (snapshots, configuration
    effects) is in RaftLog.v.

    [log_rep s l] says that the log holds exactly the entries [l], with
    consecutive indices from [index_offset + 1] on, and that the counters are
    exact. *)

From Stdlib Require Import Floats.SpecFloat.
From S2P Require Import Prelude Monad Types LogRing State.
Open Scope Z_scope.

(** ** Access to the parts of a log *)

(** An operation of the ring on [log->entries]; the ring functions assert that
    their argument is not NULL. *)
Definition on_ring {A} (m : M logring A) : M log_st A := fun s =>
  match l_entries (lg s) with
  | None => Fault AssertFail
  | Some r =>
      match m r with
      | Ok a r' =>
          let g := lg s in
          Ok a (set_lg (LogEntries (l_memsize g) (l_mthresh g) (l_cthresh g)
                  (l_index_offset g) (l_last_log_index g) (Some r')) s)
      | Fault f => Fault f
      end
  end.

Definition mod_lg (f : log_entries_t -> log_entries_t) : M log_st unit :=
  modify (fun s => set_lg (f (lg s)) s).

Definition set_memsize (z : Z) (g : log_entries_t) : log_entries_t :=
  LogEntries z (l_mthresh g) (l_cthresh g) (l_index_offset g) (l_last_log_index g) (l_entries g).
Definition set_offset (z : index_t) (g : log_entries_t) : log_entries_t :=
  LogEntries (l_memsize g) (l_mthresh g) (l_cthresh g) z (l_last_log_index g) (l_entries g).
Definition set_last (z : index_t) (g : log_entries_t) : log_entries_t :=
  LogEntries (l_memsize g) (l_mthresh g) (l_cthresh g) (l_index_offset g) z (l_entries g).

(** The loops over the entries of a log take at most one step per slot of its
    ring, and one more to see that it is empty. *)
Definition ring_fuel (g : log_entries_t) : nat :=
  S (match l_entries g with Some r => length (r_data r) | None => 0 end).

(** ** Initialisation *)

(** The double 0.8 ([LOG_COUNT_RATIO]), and the conversions of the expression
    [(index_t)( log_ring_size( ) * LOG_COUNT_RATIO )]. *)
Definition LOG_COUNT_RATIO : spec_float := S754_finite false 7205759403792794 (-53).

Definition sf_of_Z (z : Z) : spec_float := binary_normalize 53 1024 z 0 false.

Definition sf_trunc (f : spec_float) : Z :=
  match f with
  | S754_finite s m e =>
      let v := if 0 <=? e then Zpos m * 2 ^ e else Zpos m / 2 ^ (- e) in
      if s then - v else v
  | _ => 0
  end.

Definition count_thresh (usable : Z) : index_t :=
  sf_trunc (SFmul 53 1024 (sf_of_Z usable) LOG_COUNT_RATIO).

(** [type] selects the log the caller passes as state; the two results of
    [malloc] are those of the ring constructor. *)
Definition init_log (malloc_ring malloc_data : bool) (type size threshold : Z)
  : M log_st (Z * errno_t) :=
  if threshold =? 0 then mret (0, EINVAL) else
  if negb (type =? RAFT_LOG) && negb (type =? SERVER_LOG) then mret (0, EINVAL) else
  match log_ring_create malloc_ring malloc_data size with
  | inl err =>
      mod_lg (fun g => LogEntries (l_memsize g) (l_mthresh g) (l_cthresh g)
                (l_index_offset g) (l_last_log_index g) None);;
      mret (0, err)
  | inr r =>
      mod_lg (fun _ => LogEntries 0 (u32 (threshold * 1048576)) (count_thresh (log_ring_size r))
                0 0 (Some r));;
      mret (1, ENONE)
  end.

(** ** Appending, lookup *)

Definition append_log_entry (entry : log_entry_t) : M log_st Z :=
  s ← get;
  let entry := set_index (u64 (l_last_log_index (lg s) + 1)) entry in
  inserted ← on_ring (log_ring_insert entry);
  if truthy inserted then
    mod_lg (fun g => set_last (u64 (l_last_log_index g + 1)) g);;
    mod_lg (fun g => set_memsize (u64 (l_memsize g + entry_size entry)) g);;
    mret 1
  else mret 0.

(** The test that triggers a snapshot before an append. *)
Definition over_threshold : M log_st bool :=
  g ← gets lg;
  if l_mthresh g <? l_memsize g then mret true
  else n ← on_ring (gets log_ring_count); mret (l_cthresh g <? n).

(** [get_raft_log_entry] and [get_server_log_entry] *)
Definition get_log_entry (m : mutex) (log_index : index_t) : M log_st (option log_entry_t) :=
  lock m lg_lock_l;;
  entry ← on_ring (log_ring_get log_index);
  unlock lg_lock_l;;
  mret entry.

(** [get_raft_last_log_index] and [get_server_last_log_index] *)
Definition get_last_log_index (m : mutex) : M log_st index_t :=
  lock m lg_lock_l;;
  g ← gets lg;
  unlock lg_lock_l;;
  mret (l_last_log_index g).

(** ** Removal *)

Fixpoint free_entries (fuel : nat) : M log_st unit :=
  match fuel with
  | O => fail OutOfFuel
  | S fuel =>
      entry ← on_ring log_ring_extract;
      match entry with
      | Some _ => free_entries fuel
      | None => mret tt
      end
  end.

Definition free_all_log_entries (last_applied_log_index : index_t) : M log_st unit :=
  g ← gets lg;
  free_entries (ring_fuel g);;
  mod_lg (fun g => set_last last_applied_log_index
            (set_offset last_applied_log_index (set_memsize 0 g))).

(** What the two compaction loops subtract from [memsize]. *)
Definition raft_compact_size (e : log_entry_t) : Z := sizeof_log_entry + e_dlen e.

(** The loop [while( count-- )]; a missing entry ends the process. *)
Fixpoint compact_loop (m : mutex) (size : log_entry_t -> Z) (fuel : nat) (count : Z)
  : M log_st unit :=
  if count =? 0 then mret tt else
  match fuel with
  | O => fail OutOfFuel
  | S fuel =>
      lock m lg_lock_l;;
      entry ← on_ring log_ring_extract;
      match entry with
      | Some e =>
          mod_lg (fun g => set_memsize (u64 (l_memsize g - size e)) g);;
          unlock lg_lock_l;;
          compact_loop m size fuel (count - 1)
      | None => exit1
      end
  end.

Definition compact_log (m : mutex) (size : log_entry_t -> Z) (last_index : index_t)
  : M log_st unit :=
  lock m lg_lock_l;;
  g ← gets lg;
  let count := u64 (last_index - l_index_offset g) in
  unlock lg_lock_l;;
  compact_loop m size (ring_fuel g) count;;
  lock m lg_lock_l;;
  mod_lg (set_offset last_index);;
  unlock lg_lock_l.

Definition compact_server_log : index_t -> M log_st unit := compact_log server_log_lock entry_size.
Definition compact_raft_log : index_t -> M log_st unit :=
  compact_log raft_log_lock raft_compact_size.

(** ** New entries *)

(** Which of the allocations of [new_log_entry] succeed. *)
Record allocs := Allocs { a_entry : bool; a_data : bool; a_context : bool; a_key : bool }.
Definition mem_ok : allocs := Allocs true true true true.

(** [data] holds the [len] bytes the caller passes. The result is NULL when
    memory is short or a server command lacks a context or a key. A failed
    copy of the context or the key goes unnoticed. *)
Definition new_log_entry (mem : allocs) (term : term_t) (type : Z) (context key : option string)
    (command : Z) (data : bytes) : option log_entry_t :=
  if negb (a_entry mem) then None else
  if negb (a_data mem) then None else
  let dlen := Z.of_nat (length data) in
  if type =? SERVER_COMMAND then
    match context, key with
    | Some context, Some key =>
        let clen := u32 (Z.of_nat (String.length context)) in
        let klen := u32 (Z.of_nat (String.length key)) in
        if clen =? 0 then None else
        if klen =? 0 then None else
        Some (LogEntry term 0 dlen clen klen type command
                (if a_context mem then Some (str_cut (Z.to_nat clen) context) else None)
                (if a_key mem then Some (str_cut (Z.to_nat klen) key) else None) data)
    | _, _ => None
    end
  else Some (LogEntry term 0 dlen 0 0 type command None None data).

Definition new_raft_log_entry (mem : allocs) (term : term_t) (type command : Z) (data : bytes)
  : option log_entry_t :=
  new_log_entry mem term type None None command data.

Definition new_server_log_entry (mem : allocs) (context key : option string) (command : Z)
    (data : bytes) : option log_entry_t :=
  new_log_entry mem 0 SERVER_COMMAND context key command data.

(** ** Representation *)

Definition sum_sizes (l : list log_entry_t) : Z := foldr Z.add 0 (entry_size <$> l).

Record log_rep (s : log_st) (l : list log_entry_t) : Prop := {
  lr_ring : exists r, l_entries (lg s) = Some r /\ ring_rep r l;
  lr_index : contiguous (l_index_offset (lg s) + 1) l;
  lr_last : l_last_log_index (lg s) = l_index_offset (lg s) + Z.of_nat (length l);
  lr_offset : 0 <= l_index_offset (lg s);
  lr_max : l_last_log_index (lg s) < 2 ^ 64 - 1;
  lr_size : l_memsize (lg s) = u64 (sum_sizes l) }.

(** The usable slots of the ring of a log. *)
Definition capacity (s : log_st) : Z :=
  match l_entries (lg s) with Some r => log_ring_size r | None => 0 end.

(** What no operation on the entries changes. *)
Definition log_frame (s s' : log_st) : Prop :=
  lg_lock s' = lg_lock s /\ l_mthresh (lg s') = l_mthresh (lg s) /\
  l_cthresh (lg s') = l_cthresh (lg s) /\ capacity s' = capacity s.

Lemma log_frame_refl s : log_frame s s.
Proof. done. Qed.

Lemma log_frame_trans s1 s2 s3 : log_frame s1 s2 -> log_frame s2 s3 -> log_frame s1 s3.
Proof. unfold log_frame. intuition congruence. Qed.

#[export] Instance log_frame_preorder : PreOrder log_frame.
Proof. split; [exact log_frame_refl|exact log_frame_trans]. Qed.

Lemma sum_sizes_app l l' : sum_sizes (l ++ l') = sum_sizes l + sum_sizes l'.
Proof. unfold sum_sizes. induction l as [|e l IH]; cbn in *; lia. Qed.

Lemma on_ring_run {A} (m : M logring A) s r a r' :
  l_entries (lg s) = Some r -> m r = Ok a r' ->
  on_ring m s = Ok a (set_lg (LogEntries (l_memsize (lg s)) (l_mthresh (lg s)) (l_cthresh (lg s))
                        (l_index_offset (lg s)) (l_last_log_index (lg s)) (Some r')) s).
Proof. intros He Hm. unfold on_ring. by rewrite He, Hm. Qed.

Lemma on_ring_read {A} (m : M logring A) s r a :
  l_entries (lg s) = Some r -> m r = Ok a r -> on_ring m s = Ok a s.
Proof.
  intros He Hm. rewrite (on_ring_run m s r a r He Hm). destruct s as [[] ?]. simpl in *.
  by rewrite He.
Qed.

Section LogSpecs.
Context (s : log_st) (l : list log_entry_t) (R : log_rep s l).

Lemma capacity_rep r : l_entries (lg s) = Some r -> capacity s = log_ring_size r.
Proof using Type. unfold capacity. by intros ->. Qed.

(** Lookup by index: the entry with that index, and nothing outside the log. *)
Lemma log_get_rep idx :
  is_u64 idx ->
  on_ring (log_ring_get idx) s = Ok (log_lookup (l_index_offset (lg s) + 1) l idx) s.
Proof using R.
  intros Hi. destruct R as [(r & Hr & Rr) C Hl Ho Hm _].
  apply (on_ring_read _ s r); [done|]. apply log_ring_get_rep; try done; lia.
Qed.

Lemma get_log_entry_rep m idx :
  lg_lock s = false -> is_u64 idx ->
  get_log_entry m idx s = Ok (log_lookup (l_index_offset (lg s) + 1) l idx) s.
Proof using R.
  intros Hk Hi. unfold get_log_entry.
  pose proof (log_get_rep idx Hi) as Hg. destruct s as [g k]. simpl in *. subst k.
  unfold on_ring in *. mrun. simpl in *.
  destruct (l_entries g); [|done]. simpl in *. destruct (log_ring_get idx l0); [|done].
  simpl in *. injection Hg as -> Hs. by rewrite Hs.
Qed.

Lemma get_last_log_index_rep m :
  lg_lock s = false ->
  get_last_log_index m s = Ok (l_index_offset (lg s) + Z.of_nat (length l)) s.
Proof using R.
  intros Hk. unfold get_last_log_index. rewrite <- (lr_last s l R).
  destruct s as [g k]. simpl in *. subst k. done.
Qed.

(** Appending gives the entry the next index and grows the log by its size. *)
Lemma append_room e :
  Z.of_nat (length l) < capacity s -> l_last_log_index (lg s) + 1 < 2 ^ 64 - 1 ->
  exists s', append_log_entry e s = Ok 1 s' /\
    log_rep s' (l ++ [set_index (l_last_log_index (lg s) + 1) e]) /\ log_frame s s' /\
    l_index_offset (lg s') = l_index_offset (lg s).
Proof using R.
  intros Hroom Hmax. destruct R as [(r & Hr & Rr) C Hl Ho Hm Hz].
  rewrite (capacity_rep r Hr) in Hroom.
  rewrite <- (u64_small (l_last_log_index (lg s) + 1)) by lia.
  set (e' := set_index _ e).
  assert (e_index e' = l_last_log_index (lg s) + 1) as Ei by (unfold e'; cbn; apply u64_small; lia).
  destruct (insert_room r l e' Rr Hroom) as (r' & Hi & Rr' & Hsz).
  unfold append_log_entry. mrun. fold e'.
  rewrite (on_ring_run _ s r _ _ Hr Hi). cbn [truthy Z.eqb negb].
  unfold mod_lg. mrun. cbn. eexists. split; [reflexivity|]. split; [|split; [|done]].
  - rewrite (u64_small (l_last_log_index (lg s) + 1)) by lia.
    split; cbn.
    + by exists r'.
    + apply contiguous_app; [done|]. lia.
    + rewrite length_app. simpl. lia.
    + done.
    + lia.
    + rewrite sum_sizes_app, Hz, u64_add_l. do 2 f_equal. unfold sum_sizes. simpl. lia.
  - unfold log_frame, capacity. cbn. rewrite Hr.
    rewrite (log_ring_size_rep r l Rr), (log_ring_size_rep r' _ Rr'), Hsz. done.
Qed.

(** A full log refuses the entry and is unchanged. *)
Lemma append_full e :
  Z.of_nat (length l) = capacity s -> append_log_entry e s = Ok 0 s.
Proof using R.
  intros Hfull. destruct R as [(r & Hr & Rr) C Hl Ho Hm Hz].
  rewrite (capacity_rep r Hr) in Hfull.
  unfold append_log_entry. mrun.
  rewrite (on_ring_read _ s r 0 Hr (insert_full r l _ Rr Hfull)). done.
Qed.

Lemma length_le_capacity : Z.of_nat (length l) <= capacity s.
Proof using R.
  destruct R as [(r & Hr & Rr) _ _ _ _ _]. rewrite (capacity_rep r Hr).
  rewrite (log_ring_size_rep r l Rr). pose proof (ring_rep_length r l Rr). lia.
Qed.

Lemma over_threshold_rep :
  over_threshold s =
    Ok ((l_mthresh (lg s) <? u64 (sum_sizes l)) || (l_cthresh (lg s) <? Z.of_nat (length l))) s.
Proof using R.
  destruct R as [(r & Hr & Rr) _ _ _ _ Hz]. unfold over_threshold.
  rewrite (bind_Ok _ _ _ _ _ (eq_refl : gets lg s = Ok (lg s) s)), Hz.
  destruct (_ <? _); [done|].
  rewrite (bind_Ok _ _ s (Z.of_nat (length l)) s); [done|].
  apply (on_ring_read _ s r); [done|]. unfold gets. by rewrite (log_ring_count_rep r l Rr).
Qed.

Lemma ring_fuel_rep : (length l < ring_fuel (lg s))%nat.
Proof using R.
  destruct R as [(r & Hr & Rr) _ _ _ _ _]. unfold ring_fuel. rewrite Hr.
  rewrite (wf_data r (rep_wf r l Rr)). pose proof (ring_rep_length r l Rr). lia.
Qed.

End LogSpecs.

(** The state of a log determines its entries. *)
Lemma log_rep_inj s l l' : log_rep s l -> log_rep s l' -> l = l'.
Proof.
  intros R R'. pose proof (lr_last s l R). pose proof (lr_last s l' R'). pose proof (lr_max s l R).
  pose proof (lr_offset s l R). apply list_eq_same_length with (length l); [lia|done|].
  intros j x y _ Hx Hy. pose proof (lookup_lt_Some _ _ _ Hx).
  pose proof (log_get_rep s l R (l_index_offset (lg s) + 1 + Z.of_nat j) ltac:(lia)) as E.
  rewrite (log_get_rep s l' R' (l_index_offset (lg s) + 1 + Z.of_nat j) ltac:(lia)) in E. injection E as E. unfold log_lookup in E.
  rewrite (proj2 (Z.leb_le _ _)) in E by lia.
  replace (Z.to_nat _) with j in E by lia. congruence.
Qed.

(** A ring that is emptied entry by entry. *)
Lemma free_entries_run s r l fuel :
  l_entries (lg s) = Some r -> ring_rep r l -> (length l < fuel)%nat ->
  exists r', ring_rep r' [] /\ r_size r' = r_size r /\
    free_entries fuel s =
      Ok tt (set_lg (LogEntries (l_memsize (lg s)) (l_mthresh (lg s)) (l_cthresh (lg s))
               (l_index_offset (lg s)) (l_last_log_index (lg s)) (Some r')) s).
Proof.
  revert s r fuel. induction l as [|e l IH]; intros s r [|fuel] Hr Rr Hf; simpl in Hf; try lia.
  - exists r. split; [done|]. split; [done|]. cbn [free_entries].
    rewrite (bind_Ok _ _ _ _ _ (on_ring_run _ s r _ _ Hr (proj1 (extract_empty r Rr)))). done.
  - destruct (extract_oldest r e l Rr) as (r1 & Hx & R1 & Hs1).
    cbn [free_entries]. rewrite (bind_Ok _ _ _ _ _ (on_ring_run _ s r _ _ Hr Hx)).
    destruct (IH (set_lg (LogEntries (l_memsize (lg s)) (l_mthresh (lg s)) (l_cthresh (lg s))
      (l_index_offset (lg s)) (l_last_log_index (lg s)) (Some r1)) s) r1 fuel) as (r' & R' & Hs' & E);
      [done|done|lia|].
    exists r'. split; [done|]. split; [congruence|]. exact E.
Qed.

(** Dropping everything: the log is empty and restarts after the given index. *)
Lemma free_all_rep s l idx :
  log_rep s l -> 0 <= idx < 2 ^ 64 - 1 ->
  exists s', free_all_log_entries idx s = Ok tt s' /\ log_rep s' [] /\ log_frame s s' /\
    l_index_offset (lg s') = idx.
Proof.
  intros R Hidx. pose proof (ring_fuel_rep s l R) as Hf.
  destruct R as [(r & Hr & Rr) _ _ _ _ _].
  destruct (free_entries_run s r l (ring_fuel (lg s)) Hr Rr Hf) as (r' & R' & Hs & E).
  unfold free_all_log_entries. mrun. rewrite E. unfold mod_lg. mrun. cbn.
  eexists. split; [reflexivity|]. split; [|split; [|done]].
  - split; cbn; try done; try lia.
    + by exists r'.
  - unfold log_frame, capacity. cbn. rewrite Hr.
    by rewrite (log_ring_size_rep r l Rr), (log_ring_size_rep r' _ R'), Hs.
Qed.

(** While the compaction loop runs, [index_offset] lags behind: [at_offset o s]
    is the log with the offset it will have. *)
Definition at_offset (o : index_t) (s : log_st) : log_st := set_lg (set_offset o (lg s)) s.

(** One turn of the compaction loop removes the oldest entry. *)
Lemma compact_turn m size fuel count o s e l :
  log_rep (at_offset o s) (e :: l) -> size e = entry_size e -> lg_lock s = false ->
  count <> 0 ->
  exists s', compact_loop m size (S fuel) count s = compact_loop m size fuel (count - 1) s' /\
    log_rep (at_offset (o + 1) s') l /\ log_frame s s'.
Proof.
  intros R Hsz Hk Hc. destruct R as [(r & Hr & Rr) C Hl Ho Hm Hz].
  destruct (extract_oldest r e l Rr) as (r' & Hx & R' & Hs').
  cbn [compact_loop]. rewrite (proj2 (Z.eqb_neq count 0) Hc).
  cbn [lget lput lg_lock_l at_offset] in *. destruct s as [g k]; cbn in Hk; subst k.
  unfold at_offset in *. cbn in *.
  rewrite (bind_Ok _ _ _ _ _ (eq_refl : lock m lg_lock_l (LogSt g false) = Ok tt (LogSt g true))).
  rewrite (bind_Ok _ _ _ _ _ (on_ring_run _ (LogSt g true) r _ _ Hr Hx)).
  unfold mod_lg. mrun. cbn.
  eexists. split; [reflexivity|]. split.
  - split; cbn; try lia.
    + by exists r'.
    + by apply contiguous_tail in C.
    + change (sum_sizes (e :: l)) with (entry_size e + sum_sizes l) in Hz.
      rewrite Hz, u64_sub_l, Hsz. f_equal. unfold sum_sizes. cbn. lia.
  - unfold log_frame, capacity. cbn. rewrite Hr.
    by rewrite (log_ring_size_rep r _ Rr), (log_ring_size_rep r' _ R'), Hs'.
Qed.

Lemma compact_loop_rep m size l1 l2 fuel o s :
  log_rep (at_offset o s) (l1 ++ l2) -> Forall (fun e => size e = entry_size e) l1 ->
  lg_lock s = false -> (length l1 <= fuel)%nat ->
  exists s', compact_loop m size fuel (Z.of_nat (length l1)) s = Ok tt s' /\
    log_rep (at_offset (o + Z.of_nat (length l1)) s') l2 /\ log_frame s s'.
Proof.
  revert o s fuel. induction l1 as [|e l1 IH]; intros o s fuel R Hsz Hk Hf.
  - exists s. rewrite Z.add_0_r. split; [by destruct fuel|]. by split.
  - destruct fuel as [|fuel]; simpl in Hf; [lia|]. apply Forall_cons_iff in Hsz as [He Hsz].
    destruct (compact_turn m size fuel (Z.of_nat (length (e :: l1))) o s e (l1 ++ l2) R He Hk)
      as (s1 & E1 & R1 & F1); [simpl; lia|].
    destruct (IH (o + 1) s1 fuel R1 Hsz) as (s' & E & R' & F'); [|lia|].
    { destruct F1 as (-> & _). done. }
    exists s'. split; [|split].
    + rewrite E1, <- E. f_equal. simpl. lia.
    + by replace (o + Z.of_nat (length (e :: l1))) with (o + 1 + Z.of_nat (length l1))
        by (simpl; lia).
    + by transitivity s1.
Qed.

(** Compaction up to an index of the log removes the entries up to it and keeps
    the others at their indices. *)
Lemma compact_log_rep m size s l idx :
  log_rep s l -> lg_lock s = false ->
  l_index_offset (lg s) <= idx <= l_last_log_index (lg s) ->
  Forall (fun e => size e = entry_size e) l ->
  exists s', compact_log m size idx s = Ok tt s' /\
    log_rep s' (drop (Z.to_nat (idx - l_index_offset (lg s))) l) /\ log_frame s s' /\
    l_index_offset (lg s') = idx.
Proof.
  intros R Hk Hidx Hsz. pose proof (ring_fuel_rep s l R) as Hf.
  pose proof (lr_last s l R) as Hl. pose proof (lr_offset s l R) as Ho.
  pose proof (lr_max s l R) as Hm.
  set (n := Z.to_nat (idx - l_index_offset (lg s))).
  assert (length (take n l) = n) as Hn by (rewrite length_take; lia).
  assert (s = at_offset (l_index_offset (lg s)) s) as Es by (by destruct s as [[] ?]).
  destruct (compact_loop_rep m size (take n l) (drop n l) (ring_fuel (lg s))
    (l_index_offset (lg s)) s) as (s' & E & R' & F).
  - rewrite take_drop. by rewrite <- Es.
  - by apply Forall_take.
  - done.
  - lia.
  - rewrite Hn in E, R'.
    replace (l_index_offset (lg s) + Z.of_nat n) with idx in R' by lia.
    exists (at_offset idx s'). destruct F as (Fk & Ft & Fc & Fcap). rewrite Hk in Fk.
    split; [|split; [done|split; [|done]]].
    2: { unfold log_frame. by rewrite Hk, <- Fk. }
    destruct s as [g k], s' as [g' k']. cbn in Hk, Fk. subst k k'.
    cbn in E, n. unfold compact_log, lock, unlock. mrun. cbn.
    rewrite u64_small by (cbn in *; lia).
    replace (idx - l_index_offset g) with (Z.of_nat n) by (cbn in *; lia). by rewrite E.
Qed.

(** The newest entry leaves the log: its size and its index are given back. *)
Lemma pop_newest_rep s l e :
  log_rep s (l ++ [e]) ->
  exists s1, on_ring log_ring_extract_r s = Ok (Some e) s1 /\ lg_lock s1 = lg_lock s /\
    let s' := set_lg (set_last (u64 (l_last_log_index (lg s1) - 1))
                (set_memsize (u64 (l_memsize (lg s1) - entry_size e)) (lg s1))) s1 in
    log_rep s' l /\ log_frame s s' /\ l_index_offset (lg s') = l_index_offset (lg s).
Proof.
  intros [(r & Hr & Rr) C Hl Ho Hm Hz].
  destruct (extract_newest r l e Rr) as (r' & Hx & R' & Hs').
  rewrite (on_ring_run _ s r _ _ Hr Hx). eexists. split; [reflexivity|]. split; [done|].
  rewrite length_app in Hl. simpl in Hl. cbn. split; [|split; [|done]].
  - split; cbn; rewrite ?(u64_small (l_last_log_index (lg s) - 1)); try lia.
    + by exists r'.
    + by apply contiguous_app_inv in C.
    + rewrite Hz, u64_sub_l, sum_sizes_app. f_equal. unfold sum_sizes. simpl. lia.
  - unfold log_frame, capacity. cbn. rewrite Hr.
    by rewrite (log_ring_size_rep r _ Rr), (log_ring_size_rep r' _ R'), Hs'.
Qed.

(** An entry taken off the end can be put back. *)
Lemma push_back_rep s l e :
  log_rep s (l ++ [e]) ->
  exists s1, on_ring log_ring_extract_r s = Ok (Some e) s1 /\
    exists s2, on_ring (log_ring_insert e) s1 = Ok 1 s2 /\ log_rep s2 (l ++ [e]) /\
      log_frame s s2 /\ l_index_offset (lg s2) = l_index_offset (lg s).
Proof.
  intros [(r & Hr & Rr) C Hl Ho Hm Hz].
  destruct (extract_newest r l e Rr) as (r1 & Hx & R1 & Hs1).
  pose proof (ring_rep_length r _ Rr) as Hlen. rewrite length_app in Hlen. simpl in Hlen.
  destruct (insert_room r1 l e R1) as (r2 & Hi & R2 & Hs2).
  { rewrite (log_ring_size_rep r1 l R1). lia. }
  rewrite (on_ring_run _ s r _ _ Hr Hx). eexists. split; [reflexivity|].
  eexists. split; [by eapply on_ring_run|].
  split; [|split; [|done]].
  - split; cbn; try done. by exists r2.
  - unfold log_frame, capacity. cbn. rewrite Hr.
    by rewrite (log_ring_size_rep r _ Rr), (log_ring_size_rep r2 _ R2), Hs2, Hs1.
Qed.

(** An empty log answers NULL to every extraction. *)
Lemma pop_empty_rep s :
  log_rep s [] -> on_ring log_ring_extract_r s = Ok None s.
Proof.
  intros [(r & Hr & Rr) _ _ _ _ _]. apply (on_ring_read _ s r); [done|].
  by apply extract_empty.
Qed.

(** The threshold on the number of entries is four fifths of the usable slots,
    rounded down, whatever rounding the double product has had. *)
Lemma count_thresh_spec k : 4 <= k <= 31 -> count_thresh (2 ^ k - 1) = (4 * (2 ^ k - 1)) / 5.
Proof.
  intros Hk.
  assert (forallb (fun n => count_thresh (2 ^ Z.of_nat n - 1) =? (4 * (2 ^ Z.of_nat n - 1)) / 5)
            (seq 4 28) = true) as Hall by (vm_compute; reflexivity).
  rewrite forallb_forall in Hall. specialize (Hall (Z.to_nat k)).
  rewrite Z2Nat.id in Hall by lia. apply Z.eqb_eq, Hall, in_seq. lia.
Qed.

(** A new log is empty, starts at index 1 and holds one entry less than the
    slots of its ring. *)
Lemma init_log_rep type size threshold s :
  type = RAFT_LOG \/ type = SERVER_LOG -> is_u32 size -> threshold <> 0 ->
  (exists k, 0 <= k /\ Z.max 16 size = 2 ^ k) -> size <> 0 ->
  exists s', init_log true true type size threshold s = Ok (1, ENONE) s' /\
    log_rep s' [] /\ l_index_offset (lg s') = 0 /\ capacity s' = Z.max 16 size - 1 /\
    l_cthresh (lg s') = (4 * (Z.max 16 size - 1)) / 5 /\
    l_mthresh (lg s') = u32 (threshold * 1048576) /\ lg_lock s' = lg_lock s.
Proof.
  intros Ht Hsz Hth Hp H0. unfold init_log.
  rewrite (proj2 (Z.eqb_neq threshold 0) Hth).
  assert (negb (type =? RAFT_LOG) && negb (type =? SERVER_LOG) = false) as ->
    by (destruct Ht as [-> | ->]; done).
  destruct (log_ring_create true true size) as [err|r] eqn:Hc.
  { assert (err = EINVAL) as ->.
    { revert Hc. unfold log_ring_create. destruct (size =? 0); [by intros [= <-]|].
      destruct (negb _); [by intros [= <-]|done]. }
    apply create_einval in Hc; [|done]. tauto. }
  destruct (create_ok size r Hsz Hc) as [Rr Hs].
  unfold mod_lg. mrun. eexists. split; [reflexivity|]. cbn.
  pose proof (log_ring_size_rep r [] Rr) as Hcap. rewrite Hs in Hcap.
  split; [|split; [done|split; [by unfold capacity|split; [|done]]]].
  - split; cbn; try done. by exists r.
  - rewrite Hcap. destruct (rep_wf r [] Rr) as [(k & Hk & Ek) _ _ _ _].
    rewrite Hs in Ek. rewrite Ek. by apply count_thresh_spec.
Qed.

(** The thresholds of more than 4095 MB are reduced modulo 2^32 bytes: 4096 MB
    behave like 0, so that every non-empty log is over its threshold. *)
Lemma init_log_threshold_wraps s :
  exists s', init_log true true RAFT_LOG 128 4096 s = Ok (1, ENONE) s' /\ l_mthresh (lg s') = 0.
Proof. eexists. split; reflexivity. Qed.

(** *** New entries *)

Lemma new_server_log_entry_spec context key command data :
  0 < Z.of_nat (String.length context) < 2 ^ 32 -> 0 < Z.of_nat (String.length key) < 2 ^ 32 ->
  new_server_log_entry mem_ok (Some context) (Some key) command data =
    Some (LogEntry 0 0 (Z.of_nat (length data)) (Z.of_nat (String.length context))
            (Z.of_nat (String.length key)) SERVER_COMMAND command (Some context) (Some key) data).
Proof.
  intros Hc Hk. unfold new_server_log_entry, new_log_entry. cbn [negb a_entry a_data mem_ok].
  rewrite Z.eqb_refl, !u32_small by lia.
  rewrite (proj2 (Z.eqb_neq (Z.of_nat (String.length context)) 0)) by lia.
  rewrite (proj2 (Z.eqb_neq (Z.of_nat (String.length key)) 0)) by lia.
  cbn [a_context a_key mem_ok]. by rewrite !Nat2Z.id, !str_cut_id.
Qed.

Lemma new_raft_log_entry_spec mem term type command data :
  type <> SERVER_COMMAND ->
  new_raft_log_entry mem term type command data =
    if a_entry mem && a_data mem
    then Some (LogEntry term 0 (Z.of_nat (length data)) 0 0 type command None None data) else None.
Proof.
  intros Ht. unfold new_raft_log_entry, new_log_entry.
  destruct (a_entry mem); [|done]. destruct (a_data mem); [|done]. cbn [negb andb].
  by rewrite (proj2 (Z.eqb_neq type SERVER_COMMAND) Ht).
Qed.

(** The entries of the raft log carry neither a context nor a key: what the
    compaction of the raft log gives back is what the append has taken. *)
Definition raft_entry (e : log_entry_t) : Prop := e_clen e = 0 /\ e_klen e = 0.

Lemma raft_compact_size_ok e : raft_entry e -> raft_compact_size e = entry_size e.
Proof. intros [Hc Hk]. unfold raft_compact_size, entry_size. lia. Qed.
