(* ===== verification/Serialize.v ===== *)
(** * Log entries on the wire (src/log.c, include/mtl.h)

    The serialization of a range of a log into a buffer that grows, and the
    deserialization of a message's payload. Buffers are byte lists of exactly
    the allocated length, and every [memcpy] is checked against it: a copy
    that leaves its buffer is the fault [OutOfBounds]. *)

From S2P Require Import Prelude Monad Types LogRing Mtl State Log.
Open Scope Z_scope.

(** ** Memory *)

(** [memcpy( buf + off, bs, length bs )] *)
Definition put (off : Z) (bs buf : bytes) : option bytes :=
  let n := Z.to_nat off in
  if decide (n + length bs <= length buf)%nat
  then Some (take n buf ++ bs ++ drop (n + length bs) buf) else None.

(** The first [n] bytes of the memory of a string. *)
Definition str_mem (s : string) (n : Z) : option bytes :=
  sub_bytes 0 (Z.to_nat n) (list_ascii_of_string s ++ [NUL]).

(** [strndup( bs, n )]: at most [n] characters, up to the first NUL; [None]
    when the read leaves [bs]. *)
Fixpoint strndup (n : nat) (bs : bytes) : option string :=
  match n with
  | O => Some EmptyString
  | S n =>
      match bs with
      | [] => None
      | c :: bs => if decide (c = NUL) then Some EmptyString
                   else s ← strndup n bs; Some (String c s)
      end
  end.

Definition XAPP_LOG_ENTRY_HDR_SIZE : Z := 32.
Definition RAFT_LOG_ENTRY_HDR_SIZE : Z := 32.

Section Wire.
Context `{Rmr} `{Host}.

(** The four bytes of padding at the end of [xapp_log_entry_hdr_t], which are
    sent as they are on the stack. *)
Variable pad : bytes.

(** The headers in memory, after the conversions of the serializer. *)
Definition raft_hdr (e : log_entry_t) : bytes :=
  mem_bytes 8 (HTONLL (e_term e)) ++ mem_bytes 8 (HTONLL (e_index e)) ++
  mem_bytes 8 (HTONLL (e_dlen e)) ++ mem_bytes 4 (htonl (e_type e)) ++
  mem_bytes 4 (htonl (e_command e)).

Definition server_hdr (e : log_entry_t) : bytes :=
  mem_bytes 8 (HTONLL (e_index e)) ++ mem_bytes 8 (HTONLL (e_dlen e)) ++
  mem_bytes 4 (htonl (e_clen e)) ++ mem_bytes 4 (htonl (e_klen e)) ++
  mem_bytes 4 (htonl (e_command e)) ++ pad.

(** The variables of the serializer. *)
Record srlz := Srlz { z_bytes : Z; z_buf : bytes; z_buf_len : Z }.

(** [esize], a 32-bit variable *)
Definition esize (type : Z) (e : log_entry_t) : Z :=
  if type =? SERVER_LOG
  then u32 (XAPP_LOG_ENTRY_HDR_SIZE + e_clen e + e_klen e + e_dlen e)
  else u32 (RAFT_LOG_ENTRY_HDR_SIZE + e_dlen e).

(** [realloc]: the bytes of the old block are kept. *)
Definition grow (new_len : Z) (buf : bytes) : bytes :=
  take (Z.to_nat new_len) buf ++ replicate (Z.to_nat new_len - length buf) NUL.

Definition reserve (realloc_ok : bool) (size : Z) (z : srlz) : M log_st srlz :=
  if z_buf_len z <? u32 (size + z_bytes z) then
    let buf_len := u32 (z_buf_len z * 2) in
    let buf_len := if buf_len <? size then size else buf_len in
    if realloc_ok then mret (Srlz (z_bytes z) (grow buf_len (z_buf z)) buf_len) else exit1
  else mret z.

(** The copies of one entry at the next free spot of the buffer. *)
Definition put_entry (type : Z) (e : log_entry_t) (z : srlz) : M log_st srlz :=
  let data := sub_bytes 0 (Z.to_nat (e_dlen e)) (e_data e) in
  if type =? SERVER_LOG then
    buf ← from_opt OutOfBounds (put (z_bytes z) (server_hdr e) (z_buf z));
    context ← from_opt NullDeref (e_context e);
    ctx ← from_opt OutOfBounds (str_mem context (e_clen e));
    let ctx_addr := z_bytes z + XAPP_LOG_ENTRY_HDR_SIZE in
    buf ← from_opt OutOfBounds (put ctx_addr ctx buf);
    key ← from_opt NullDeref (e_key e);
    k ← from_opt OutOfBounds (str_mem key (e_klen e));
    buf ← from_opt OutOfBounds (put (ctx_addr + e_clen e) k buf);
    data ← from_opt OutOfBounds data;
    buf ← from_opt OutOfBounds (put (ctx_addr + e_clen e + e_klen e) data buf);
    mret (Srlz (u32 (z_bytes z + XAPP_LOG_ENTRY_HDR_SIZE + e_clen e + e_klen e + e_dlen e))
            buf (z_buf_len z))
  else
    buf ← from_opt OutOfBounds (put (z_bytes z) (raft_hdr e) (z_buf z));
    data ← from_opt OutOfBounds data;
    buf ← from_opt OutOfBounds (put (z_bytes z + RAFT_LOG_ENTRY_HDR_SIZE) data buf);
    mret (Srlz (u32 (z_bytes z + RAFT_LOG_ENTRY_HDR_SIZE + e_dlen e)) buf (z_buf_len z)).

(** The loop: the entries serialized, the buffer, and the errno it has set. *)
Fixpoint serialize_loop (fuel : nat) (realloc_ok : bool) (type max_buf_len n_entries : Z)
    (from_index count : Z) (z : srlz) : M log_st (Z * srlz * option errno_t) :=
  if (count <? n_entries) && (z_bytes z <? max_buf_len) && (0 <? max_buf_len) then
    match fuel with
    | O => fail OutOfFuel
    | S fuel =>
        entry ← on_ring (log_ring_get from_index);
        match entry with
        | None => mret (count, z, Some ENODATA)
        | Some e =>
            if max_buf_len <? u32 (z_bytes z + esize type e) then mret (count, z, None)
            else
              z ← reserve realloc_ok (esize type e) z;
              z ← put_entry type e z;
              serialize_loop fuel realloc_ok type max_buf_len n_entries
                (u64 (from_index + 1)) (count + 1) z
        end
    end
  else mret (count, z, None).

(** The returned bytes are [z_bytes]; the first component is the new value of
    [*n_entries]. *)
Definition serialize_log_entries (realloc_ok : bool) (from_index n_entries : Z) (lbuf : bytes)
    (buf_len max_buf_len type : Z) : M log_st (Z * srlz * option errno_t) :=
  g ← gets lg;
  if u64 (from_index - 1 + n_entries) <=? l_last_log_index g then
    serialize_loop (ring_fuel g) realloc_ok type max_buf_len n_entries from_index 0
      (Srlz 0 lbuf buf_len)
  else exit1.

Definition serialize_raft_log_entries (realloc_ok : bool) (from_index n_entries : Z)
    (lbuf : bytes) (buf_len max_msg_size : Z) : M log_st (Z * srlz * option errno_t) :=
  lock raft_log_lock lg_lock_l;;
  r ← serialize_log_entries realloc_ok from_index n_entries lbuf buf_len
        (max_msg_size - APND_ENTR_HDR_LEN) RAFT_LOG;
  unlock lg_lock_l;;
  mret r.

Definition serialize_server_log_entries (realloc_ok : bool) (from_index n_entries : Z)
    (lbuf : bytes) (buf_len max_msg_size : Z) : M log_st (Z * srlz * option errno_t) :=
  lock server_log_lock lg_lock_l;;
  r ← serialize_log_entries realloc_ok from_index n_entries lbuf buf_len
        (max_msg_size - REPL_REQ_HDR_LEN) SERVER_LOG;
  unlock lg_lock_l;;
  mret r.

(** ** Deserialization *)

(** [n] bytes of the payload at an offset, and the integers of a header. *)
Definition rd (s_entries : bytes) (off n : Z) : option bytes :=
  sub_bytes (Z.to_nat off) (Z.to_nat n) s_entries.
Definition rd64 (s_entries : bytes) (off : Z) : option Z :=
  bs ← rd s_entries off 8; Some (NTOHLL (mem_val bs)).
Definition rd32 (s_entries : bytes) (off : Z) : option Z :=
  bs ← rd s_entries off 4; Some (ntohl (mem_val bs)).

(** One raft entry at offset [p], and the offset of the next one. *)
Definition deserialize_raft_entry (s_entries : bytes) (p : Z) : option (log_entry_t * Z) :=
  hdr ← rd s_entries p RAFT_LOG_ENTRY_HDR_SIZE;
  term ← rd64 hdr 0;
  index ← rd64 hdr 8;
  dlen ← rd64 hdr 16;
  type ← rd32 hdr 24;
  command ← rd32 hdr 28;
  data ← rd s_entries (p + RAFT_LOG_ENTRY_HDR_SIZE) dlen;
  Some (LogEntry term index dlen 0 0 type (i32 command) None None data,
        p + (RAFT_LOG_ENTRY_HDR_SIZE + dlen)).

(** One server entry: the context and the key are duplicated from the payload;
    [plen], the length of the whole payload, is the number of bytes copied
    from the data address on. *)
Definition deserialize_server_entry (s_entries : bytes) (p : Z) : option (log_entry_t * Z) :=
  hdr ← rd s_entries p XAPP_LOG_ENTRY_HDR_SIZE;
  index ← rd64 hdr 0;
  dlen ← rd64 hdr 8;
  clen ← rd32 hdr 16;
  klen ← rd32 hdr 20;
  command ← rd32 hdr 24;
  let ctx_addr := p + XAPP_LOG_ENTRY_HDR_SIZE in
  context ← strndup (Z.to_nat clen) (drop (Z.to_nat ctx_addr) s_entries);
  key ← strndup (Z.to_nat klen) (drop (Z.to_nat (ctx_addr + clen)) s_entries);
  let plen := u64 (u32 (clen + klen) + dlen) in
  data ← rd s_entries (ctx_addr + clen + klen) plen;
  Some (LogEntry 0 index dlen clen klen SERVER_COMMAND (i32 command) (Some context) (Some key)
          data, p + (XAPP_LOG_ENTRY_HDR_SIZE + plen)).

(** [None] is a read outside the payload. *)
Fixpoint deserialize_log_entries (s_entries : bytes) (n_entries : nat) (p : Z) (type : Z)
  : option (list log_entry_t) :=
  match n_entries with
  | O => Some []
  | S n =>
      '(e, p) ← (if type =? SERVER_LOG then deserialize_server_entry s_entries p
                 else deserialize_raft_entry s_entries p);
      es ← deserialize_log_entries s_entries n p type;
      Some (e :: es)
  end.

Definition deserialize_raft_log_entries (s_entries : bytes) (n_entries : Z)
  : option (list log_entry_t) :=
  deserialize_log_entries s_entries (Z.to_nat n_entries) 0 RAFT_LOG.

Definition deserialize_server_log_entries (s_entries : bytes) (n_entries : Z)
  : option (list log_entry_t) :=
  deserialize_log_entries s_entries (Z.to_nat n_entries) 0 SERVER_LOG.

End Wire.

(** ** The images of entries *)

Section Images.
Context `{Rmr} `{Host} (pad : bytes) (pad_len : length pad = 4%nat).

(** An entry that has a wire format: its lengths are those of its data and its
    integers fit their types. *)
Record raft_wire (e : log_entry_t) : Prop := {
  rw_term : is_u64 (e_term e);
  rw_index : is_u64 (e_index e);
  rw_dlen : e_dlen e = Z.of_nat (length (e_data e));
  rw_small : RAFT_LOG_ENTRY_HDR_SIZE + e_dlen e < 2 ^ 31;
  rw_type : is_u32 (e_type e);
  rw_command : INT_MIN <= e_command e <= INT_MAX }.

Record server_wire (e : log_entry_t) (context key : string) : Prop := {
  sw_index : is_u64 (e_index e);
  sw_context : e_context e = Some context;
  sw_key : e_key e = Some key;
  sw_clen : e_clen e = Z.of_nat (String.length context);
  sw_klen : e_klen e = Z.of_nat (String.length key);
  sw_nul : no_nul context /\ no_nul key;
  sw_dlen : 0 <= e_dlen e <= Z.of_nat (length (e_data e));
  sw_small : XAPP_LOG_ENTRY_HDR_SIZE + e_clen e + e_klen e + e_dlen e < 2 ^ 31;
  sw_command : INT_MIN <= e_command e <= INT_MAX }.

Definition wire (type : Z) (e : log_entry_t) : Prop :=
  if type =? SERVER_LOG then exists context key, server_wire e context key else raft_wire e.

Definition string_bytes (o : option string) : bytes :=
  match o with Some s => list_ascii_of_string s | None => [] end.

Definition image (type : Z) (e : log_entry_t) : bytes :=
  if type =? SERVER_LOG
  then server_hdr pad e ++ string_bytes (e_context e) ++ string_bytes (e_key e) ++
       take (Z.to_nat (e_dlen e)) (e_data e)
  else raft_hdr e ++ e_data e.

Definition images (type : Z) (l : list log_entry_t) : bytes := concat (image type <$> l).

Lemma length_raft_hdr e : length (raft_hdr e) = 32%nat.
Proof using Type. unfold raft_hdr. rewrite !length_app, !length_mem_bytes. done. Qed.

Lemma length_server_hdr e : length (server_hdr pad e) = 32%nat.
Proof using pad_len.
  unfold server_hdr. rewrite !length_app, !length_mem_bytes, pad_len. done.
Qed.

Lemma length_chars s : length (list_ascii_of_string s) = String.length s.
Proof using Type. induction s; simpl; congruence. Qed.

Lemma length_image type e : wire type e -> Z.of_nat (length (image type e)) = esize type e.
Proof using pad_len.
  unfold wire, image, esize. destruct (type =? SERVER_LOG).
  - intros (c & k & W). unfold string_bytes. rewrite !length_app, length_server_hdr, length_take.
    rewrite (sw_context _ _ _ W), (sw_key _ _ _ W).
    rewrite !length_chars. destruct W. unfold XAPP_LOG_ENTRY_HDR_SIZE in *.
    rewrite u32_small; lia.
  - intros W. rewrite length_app, length_raft_hdr. destruct W.
    unfold RAFT_LOG_ENTRY_HDR_SIZE in *. rewrite u32_small; lia.
Qed.

Lemma esize_bounds type e : wire type e -> 32 <= esize type e < 2 ^ 31.
Proof using Type.
  clear pad_len. unfold wire, esize. destruct (type =? SERVER_LOG).
  - intros (c & k & []). unfold XAPP_LOG_ENTRY_HDR_SIZE in *. rewrite u32_small; lia.
  - intros []. unfold RAFT_LOG_ENTRY_HDR_SIZE in *. rewrite u32_small; lia.
Qed.

(** A buffer whose first bytes are [acc]. *)
Definition holds (buf acc : bytes) : Prop := take (length acc) buf = acc.

Lemma put_holds acc bs buf off :
  holds buf acc -> off = Z.of_nat (length acc) -> (length acc + length bs <= length buf)%nat ->
  exists buf', put off bs buf = Some buf' /\ holds buf' (acc ++ bs) /\ length buf' = length buf.
Proof using Type.
  clear pad_len. intros Hh -> Hl. unfold put. rewrite Nat2Z.id, decide_True by done.
  eexists. split; [reflexivity|]. rewrite Hh. split.
  - unfold holds. rewrite app_assoc. by rewrite take_app_length.
  - rewrite !length_app, length_drop. lia.
Qed.

Lemma put_overflow bs buf off :
  0 <= off -> (length buf < Z.to_nat off + length bs)%nat -> put off bs buf = None.
Proof using Type. clear pad_len. intros Ho Hl. unfold put. by rewrite decide_False by lia. Qed.

Lemma str_mem_all s : str_mem s (Z.of_nat (String.length s)) = Some (list_ascii_of_string s).
Proof using Type.
  unfold str_mem. rewrite Nat2Z.id. apply sub_bytes_app_l. by rewrite length_chars.
Qed.

Lemma put_entry_holds type e acc z s :
  wire type e -> holds (z_buf z) acc -> z_bytes z = Z.of_nat (length acc) ->
  z_bytes z + esize type e <= Z.of_nat (length (z_buf z)) ->
  z_bytes z + esize type e < 2 ^ 32 ->
  exists buf, put_entry pad type e z s = Ok (Srlz (z_bytes z + esize type e) buf (z_buf_len z)) s /\
    holds buf (acc ++ image type e) /\ length buf = length (z_buf z).
Proof using pad_len.
  intros W Hh Hz Hl Hmax. pose proof (length_image type e W) as Hi.
  unfold put_entry, image, wire, esize in *. destruct (type =? SERVER_LOG).
  - destruct W as (c & k & [? Ec Ek Hc Hk ? Hd ? ?]).
    unfold XAPP_LOG_ENTRY_HDR_SIZE in *.
    assert (u32 (z_bytes z + 32 + e_clen e + e_klen e + e_dlen e) =
      z_bytes z + u32 (32 + e_clen e + e_klen e + e_dlen e)) as ->
      by (rewrite (u32_small (32 + _ + _ + _)) in * by lia; rewrite u32_small; lia).
    rewrite (u32_small (32 + _ + _ + _)) in * by lia.
    rewrite Ec, Ek in *. unfold string_bytes in *.
    set (data := take (Z.to_nat (e_dlen e)) (e_data e)) in *.
    rewrite !length_app, length_server_hdr, !length_chars in Hi.
    assert (length data = Z.to_nat (e_dlen e)) as Hdl by (unfold data; rewrite length_take; lia).
    destruct (put_holds acc (server_hdr pad e) (z_buf z) (z_bytes z)) as (b1 & E1 & H1 & L1);
      [done|done|rewrite length_server_hdr; lia|].
    destruct (put_holds _ (list_ascii_of_string c) b1 (z_bytes z + 32) H1) as (b2 & E2 & H2 & L2);
      [rewrite length_app, length_server_hdr; lia
      |rewrite length_app, length_server_hdr, length_chars; lia|].
    destruct (put_holds _ (list_ascii_of_string k) b2 (z_bytes z + 32 + e_clen e) H2)
      as (b3 & E3 & H3 & L3);
      [rewrite !length_app, length_server_hdr, length_chars; lia
      |rewrite !length_app, length_server_hdr, !length_chars; lia|].
    destruct (put_holds _ data b3 (z_bytes z + 32 + e_clen e + e_klen e) H3)
      as (b4 & E4 & H4 & L4);
      [rewrite !length_app, length_server_hdr, !length_chars; lia
      |rewrite !length_app, length_server_hdr, !length_chars; lia|].
    exists b4. split; [|split; [by rewrite <- !app_assoc in H4|congruence]].
    rewrite Hc in E3, E4. rewrite Hk in E4.
    mrun. rewrite E1, Hc, str_mem_all, E2, Hk, str_mem_all, E3.
    unfold sub_bytes. rewrite decide_True by lia. rewrite drop_0. fold data. by rewrite E4.
  - destruct W. unfold RAFT_LOG_ENTRY_HDR_SIZE in *.
    assert (u32 (z_bytes z + 32 + e_dlen e) = z_bytes z + u32 (32 + e_dlen e)) as ->
      by (rewrite (u32_small (32 + _)) in * by lia; rewrite u32_small; lia).
    rewrite (u32_small (32 + _)) in * by lia.
    destruct (put_holds acc (raft_hdr e) (z_buf z) (z_bytes z)) as (b1 & E1 & H1 & L1);
      [done|done|rewrite length_raft_hdr; lia|].
    destruct (put_holds _ (e_data e) b1 (z_bytes z + 32) H1) as (b2 & E2 & H2 & L2);
      [rewrite length_app, length_raft_hdr; lia|rewrite length_app, length_raft_hdr; lia|].
    exists b2. split; [|split; [by rewrite <- app_assoc in H2|congruence]].
    mrun. rewrite E1. unfold sub_bytes. rewrite decide_True by lia.
    rewrite drop_0, take_ge by lia. by rewrite E2.
Qed.

(** The buffer grows to twice its size; that is enough for an entry that is not
    larger than the buffer was. *)
Lemma reserve_holds size acc z s :
  holds (z_buf z) acc -> z_bytes z = Z.of_nat (length acc) ->
  Z.of_nat (length (z_buf z)) = z_buf_len z -> (length acc <= length (z_buf z))%nat ->
  0 <= size <= z_buf_len z -> z_bytes z + size < 2 ^ 31 ->
  exists z', reserve true size z s = Ok z' s /\ holds (z_buf z') acc /\
    z_bytes z' = z_bytes z /\ Z.of_nat (length (z_buf z')) = z_buf_len z' /\
    z_bytes z + size <= z_buf_len z' /\ z_buf_len z <= z_buf_len z'.
Proof using Type.
  clear pad_len. intros Hh Hz Hl Hacc Hsz Hb. unfold reserve.
  rewrite (u32_small (size + z_bytes z)) by lia.
  destruct (Z.ltb_spec (z_buf_len z) (size + z_bytes z)); [|exists z; repeat split; try done; lia].
  rewrite (u32_small (z_buf_len z * 2)) by lia.
  destruct (Z.ltb_spec (z_buf_len z * 2) size); [lia|].
  eexists. split; [reflexivity|]. unfold grow. cbn [z_buf z_bytes z_buf_len].
  repeat split; try lia.
  - unfold holds. rewrite take_app_le by (rewrite length_take; lia).
    rewrite take_take. by replace (length acc `min` _)%nat with (length acc) by lia.
  - rewrite length_app, length_take, length_replicate. lia.
Qed.

(** ** What is serialized

    The entries of [l] that fit in [max] bytes, one after the other, when
    [bytes] are already used. *)
Fixpoint chosen (type max bytes : Z) (l : list log_entry_t) : list log_entry_t :=
  match l with
  | [] => []
  | e :: l => if bytes + esize type e <=? max
              then e :: chosen type max (bytes + esize type e) l else []
  end.

Definition wire_size (type : Z) (l : list log_entry_t) : Z := foldr Z.add 0 (esize type <$> l).

Lemma wire_size_cons type e l : wire_size type (e :: l) = esize type e + wire_size type l.
Proof using Type. done. Qed.

Lemma wire_size_app type l l' : wire_size type (l ++ l') = wire_size type l + wire_size type l'.
Proof using Type.
  clear pad_len. induction l as [|e l IH]; [done|]. simpl app. rewrite !wire_size_cons. lia.
Qed.

Lemma wire_size_nonneg type l : Forall (wire type) l -> 0 <= wire_size type l.
Proof using Type.
  clear pad_len. induction 1 as [|e l He _ IH]; [done|]. rewrite wire_size_cons.
  pose proof (esize_bounds type e He). lia.
Qed.

(** A run of a list that stops only at an entry that does not fit any more: it
    is not empty when every entry fits, and complete when all of them do. *)
Lemma fit_some type max l c : c `prefix_of` l -> l <> [] ->
  Forall (fun e => esize type e <= max) l ->
  (forall e, l !! length c = Some e -> max < wire_size type c + esize type e) -> c <> [].
Proof using Type.
  clear pad_len. intros Hp Hl Hf Hn ->. destruct l as [|e l]; [done|].
  apply Forall_cons_iff in Hf as [Hf _]. specialize (Hn e eq_refl). unfold wire_size in Hn.
  cbn [fmap list_fmap foldr] in Hn. lia.
Qed.

Lemma fit_all type max l c : c `prefix_of` l -> Forall (wire type) l -> wire_size type l <= max ->
  (forall e, l !! length c = Some e -> max < wire_size type c + esize type e) -> c = l.
Proof using Type.
  clear pad_len. intros [[|e r] ->] Hw Hs Hn; [by rewrite app_nil_r|].
  specialize (Hn e). rewrite list_lookup_middle in Hn by done. specialize (Hn eq_refl).
  apply Forall_app in Hw as [_ Hw]. apply Forall_cons_iff in Hw as [_ Hw].
  pose proof (wire_size_nonneg type r Hw). rewrite wire_size_app, wire_size_cons in Hs. lia.
Qed.

Lemma chosen_prefix type max bytes l : chosen type max bytes l `prefix_of` l.
Proof using Type.
  revert bytes. induction l as [|e l IH]; intros bytes; simpl; [done|].
  destruct (_ <=? _); [by apply prefix_cons|apply prefix_nil].
Qed.

Lemma chosen_size type max bytes l :
  bytes <= max -> bytes + wire_size type (chosen type max bytes l) <= max.
Proof using Type.
  clear pad_len. revert bytes. unfold wire_size.
  induction l as [|e l IH]; intros bytes Hb; cbn; [lia|].
  destruct (Z.leb_spec (bytes + esize type e) max); cbn; [|lia].
  specialize (IH (bytes + esize type e)). lia.
Qed.

(** Everything is chosen when everything fits. *)
Lemma chosen_all type max bytes l :
  Forall (wire type) l -> bytes + wire_size type l <= max -> chosen type max bytes l = l.
Proof using Type.
  clear pad_len. revert bytes. unfold wire_size.
  induction l as [|e l IH]; intros bytes Hw Hb; cbn in *; [done|].
  apply Forall_cons_iff in Hw as [He Hw].
  assert (0 <= foldr Z.add 0 (esize type <$> l)).
  { clear -Hw. induction l as [|x l IH]; cbn; [lia|]. apply Forall_cons_iff in Hw as [Hx Hw].
    pose proof (esize_bounds type x Hx). specialize (IH Hw). lia. }
  destruct (Z.leb_spec (bytes + esize type e) max); [|lia]. f_equal. apply IH; [done|lia].
Qed.

(** The first entry that is left out does not fit. *)
Lemma chosen_next type max bytes l e :
  l !! length (chosen type max bytes l) = Some e ->
  max < bytes + wire_size type (chosen type max bytes l) + esize type e.
Proof using Type.
  clear pad_len. revert bytes. unfold wire_size.
  induction l as [|x l IH]; intros bytes; cbn; [done|].
  destruct (Z.leb_spec (bytes + esize type x) max); cbn.
  - intros He. specialize (IH _ He). lia.
  - intros [= ->]. lia.
Qed.

Lemma length_images type l :
  Forall (wire type) l -> Z.of_nat (length (images type l)) = wire_size type l.
Proof using pad_len.
  unfold images, wire_size. induction 1 as [|e l He Hl IH]; [done|]. cbn.
  rewrite length_app. pose proof (length_image type e He). lia.
Qed.

Lemma serialize_loop_rep type max n s m :
  0 < max < 2 ^ 31 ->
  forall fuel from count z acc,
  (forall j e, m !! j = Some e ->
     on_ring (log_ring_get (from + Z.of_nat j)) s = Ok (Some e) s) ->
  0 <= from -> from + Z.of_nat (length m) < 2 ^ 64 ->
  n = count + Z.of_nat (length m) -> (length m <= fuel)%nat ->
  Forall (wire type) m -> Forall (fun e => esize type e <= z_buf_len z) m ->
  holds (z_buf z) acc -> z_bytes z = Z.of_nat (length acc) -> z_bytes z <= max ->
  Z.of_nat (length (z_buf z)) = z_buf_len z -> (length acc <= length (z_buf z))%nat ->
  let c := chosen type max (z_bytes z) m in
  exists z', serialize_loop pad fuel true type max n from count z s =
      Ok (count + Z.of_nat (length c), z', None) s /\
    z_bytes z' = z_bytes z + wire_size type c /\ holds (z_buf z') (acc ++ images type c) /\
    Z.of_nat (length (z_buf z')) = z_buf_len z'.
Proof using pad_len.
  intros Hmax. unfold wire_size, images.
  induction m as [|e m IH]; intros fuel from count z acc Hget Hf0 Hf Hn Hfuel Hw Hsz Hh Hz Hb Hl Ha.
  - cbn in *. exists z. rewrite !Z.add_0_r, app_nil_r. split; [|done].
    assert (serialize_loop pad fuel true type max n from count z =
      (fun s => Ok (count, z, None) s)) as ->; [|done].
    destruct fuel; cbn; by rewrite (proj2 (Z.ltb_ge count n)) by lia.
  - apply Forall_cons_iff in Hw as [He Hw]. apply Forall_cons_iff in Hsz as [Hse Hsz].
    pose proof (esize_bounds type e He) as Hes.
    destruct fuel as [|fuel]; [simpl in Hfuel; lia|]. cbn [serialize_loop].
    rewrite (proj2 (Z.ltb_lt count n)) by (simpl in *; lia).
    rewrite (proj2 (Z.ltb_lt 0 max)) by lia. cbn [andb chosen].
    destruct (Z.ltb_spec (z_bytes z) max) as [Hlt|Hge]; cbn [andb].
    2: { rewrite (proj2 (Z.leb_gt _ _)) by lia. cbn. exists z.
         rewrite !Z.add_0_r, app_nil_r. by split. }
    pose proof (Hget 0%nat e eq_refl) as Hg. rewrite Z.add_0_r in Hg.
    rewrite (bind_Ok _ _ _ _ _ Hg). rewrite (u32_small (z_bytes z + _)) by lia.
    destruct (Z.leb_spec (z_bytes z + esize type e) max) as [Hfit|Hno].
    2: { rewrite (proj2 (Z.ltb_lt _ _)) by lia. cbn. exists z.
         rewrite !Z.add_0_r, app_nil_r. by split. }
    rewrite (proj2 (Z.ltb_ge _ _)) by lia.
    destruct (reserve_holds (esize type e) acc z s) as (z1 & E1 & H1 & Hb1 & Hl1 & Hr1 & Hg1);
      [done|done|done|done|lia|lia|].
    rewrite (bind_Ok _ _ _ _ _ E1).
    destruct (put_entry_holds type e acc z1 s He H1) as (buf & E2 & H2 & Hl2); [lia|lia|lia|].
    rewrite (bind_Ok _ _ _ _ _ E2). rewrite u64_small by (simpl in Hf; lia).
    pose proof (length_image type e He) as Hli.
    destruct (IH fuel (from + 1) (count + 1) (Srlz (z_bytes z1 + esize type e) buf (z_buf_len z1))
      (acc ++ image type e)) as (z' & E & Hb' & Hh' & Hl'); clear IH.
    + intros j x Hj. replace (from + 1 + Z.of_nat j) with (from + Z.of_nat (S j)) by lia.
      by apply Hget.
    + lia.
    + simpl in Hf. lia.
    + simpl in Hn. lia.
    + simpl in Hfuel. lia.
    + done.
    + cbn. eapply Forall_impl; [exact Hsz|]. cbn. intros. lia.
    + done.
    + cbn. rewrite length_app. lia.
    + cbn. lia.
    + cbn. lia.
    + cbn. rewrite length_app. lia.
    + cbn [z_bytes] in *. rewrite Hb1 in *. exists z'. cbn. split; [|split; [|split]].
      * rewrite E. f_equal. f_equal. f_equal. lia.
      * rewrite Hb'. lia.
      * by rewrite <- app_assoc in Hh'.
      * done.
Qed.

(** The entries of a log from index [from] on, [n] of them. *)
Definition log_range (s : log_st) (l : list log_entry_t) (from n : Z) : list log_entry_t :=
  take (Z.to_nat n) (drop (Z.to_nat (from - (l_index_offset (lg s) + 1))) l).

(** A range of the log that is still there is serialized up to the first entry
    that does not fit; the returned bytes and the count are those of the
    entries chosen, and the buffer starts with their images. *)
Lemma serialize_range type max from n lbuf s l :
  log_rep s l -> 0 < max < 2 ^ 31 -> 0 <= n ->
  l_index_offset (lg s) < from -> from - 1 + n <= l_last_log_index (lg s) ->
  let m := log_range s l from n in
  Forall (wire type) m -> Forall (fun e => esize type e <= Z.of_nat (length lbuf)) m ->
  let c := chosen type max 0 m in
  exists z, serialize_log_entries pad true from n lbuf (Z.of_nat (length lbuf)) max type s =
      Ok (Z.of_nat (length c), z, None) s /\
    z_bytes z = wire_size type c /\ z_bytes z <= max /\
    take (length (images type c)) (z_buf z) = images type c /\
    Z.of_nat (length (z_buf z)) = z_buf_len z.
Proof using pad_len.
  intros R Hmax Hn Hfrom Hlast m Hw Hsz c.
  pose proof (lr_last s l R) as Hl. pose proof (lr_offset s l R) as Ho.
  pose proof (lr_max s l R) as Hm. pose proof (ring_fuel_rep s l R) as Hfuel.
  assert (length m = Z.to_nat n) as Hlen.
  { unfold m, log_range. rewrite length_take, length_drop. lia. }
  unfold serialize_log_entries.
  rewrite (bind_Ok _ _ _ _ _ (eq_refl : gets lg s = Ok (lg s) s)).
  rewrite u64_small, (proj2 (Z.leb_le _ _)) by lia.
  destruct (serialize_loop_rep type max n s m Hmax (ring_fuel (lg s)) from 0
    (Srlz 0 lbuf (Z.of_nat (length lbuf))) []) as (z & E & Hb & Hh & Hzl); try done; try lia.
  - intros j e Hj. pose proof (lookup_lt_Some _ _ _ Hj) as Hjl.
    rewrite (log_get_rep s l R) by lia. f_equal. unfold log_lookup.
    rewrite (proj2 (Z.leb_le _ _)) by lia.
    unfold m, log_range in Hj. rewrite lookup_take_lt, lookup_drop in Hj by lia.
    rewrite <- Hj. f_equal. lia.
  - cbn. lia.
  - cbn. lia.
  - exists z. cbn [z_bytes] in *. fold c in E, Hb, Hh. rewrite !Z.add_0_l in *.
    split; [exact E|]. split; [exact Hb|]. split; [|by split].
    rewrite Hb. pose proof (chosen_size type max 0 m). fold c in H1. lia.
Qed.

(** A range that starts before the oldest entry kept is answered with ENODATA:
    the receiver needs a snapshot. *)
Lemma serialize_compacted type max from n lbuf buf_len s l :
  log_rep s l -> 0 < max -> 0 < n -> 0 < from <= l_index_offset (lg s) ->
  from - 1 + n <= l_last_log_index (lg s) ->
  serialize_log_entries pad true from n lbuf buf_len max type s =
    Ok (0, Srlz 0 lbuf buf_len, Some ENODATA) s.
Proof using Type.
  clear pad_len. intros R Hmax Hn Hfrom Hlast.
  pose proof (lr_max s l R) as Hm. pose proof (lr_last s l R).
  unfold serialize_log_entries.
  rewrite (bind_Ok _ _ _ _ _ (eq_refl : gets lg s = Ok (lg s) s)).
  rewrite u64_small, (proj2 (Z.leb_le _ _)) by lia.
  unfold ring_fuel. cbn [serialize_loop z_bytes].
  rewrite (proj2 (Z.ltb_lt 0 n)), (proj2 (Z.ltb_lt 0 max)) by lia. cbn [andb].
  rewrite (bind_Ok _ _ _ _ _ (log_get_rep s l R from ltac:(lia))).
  unfold log_lookup. by rewrite (proj2 (Z.leb_gt _ _)) by lia.
Qed.

(** Asking beyond the last entry is fatal. *)
Lemma serialize_out_of_range type max from n lbuf buf_len s l :
  log_rep s l -> 0 < from -> 0 <= n -> from - 1 + n < 2 ^ 64 ->
  l_last_log_index (lg s) < from - 1 + n ->
  serialize_log_entries pad true from n lbuf buf_len max type s = Fault Exit.
Proof using Type.
  clear pad_len. intros R Hf Hn Hmax Hlast. unfold serialize_log_entries.
  rewrite (bind_Ok _ _ _ _ _ (eq_refl : gets lg s = Ok (lg s) s)).
  by rewrite u64_small, (proj2 (Z.leb_gt _ _)) by lia.
Qed.

(** ** Round trips *)

(** A raft entry after the trip: as sent. *)
Lemma rd64_at v pre post off :
  is_u64 v -> off = Z.of_nat (length pre) ->
  rd64 (pre ++ mem_bytes 8 (HTONLL v) ++ post) off = Some v.
Proof using Type.
  clear pad_len. intros Hv ->. unfold rd64, rd. rewrite Nat2Z.id.
  rewrite sub_bytes_app_mid by (rewrite ?length_mem_bytes; done). simpl.
  rewrite mem_val_bytes, Z.mod_small; [by rewrite NTOHLL_HTONLL_id|].
  change (2 ^ (8 * Z.of_nat 8)) with (2 ^ 64).
  unfold HTONLL. destruct (1 =? htonl 1); [done|].
  pose proof (htonl_range (u32 (Z.shiftr v 32))). pose proof (htonl_range (Z.land v 0xFFFFFFFF)).
  rewrite u64_small by (rewrite Z.shiftl_mul_pow2; lia). rewrite lor_disjoint by lia. lia.
Qed.

Lemma rd64_at0 v post : is_u64 v -> rd64 (mem_bytes 8 (HTONLL v) ++ post) 0 = Some v.
Proof using Type. intros Hv. by apply (rd64_at v [] post 0 Hv). Qed.

Lemma rd32_at v pre post off :
  off = Z.of_nat (length pre) ->
  rd32 (pre ++ mem_bytes 4 (htonl v) ++ post) off = Some (u32 v).
Proof using Type.
  clear pad_len. intros ->. unfold rd32, rd. rewrite Nat2Z.id.
  rewrite sub_bytes_app_mid by (rewrite ?length_mem_bytes; done). simpl.
  pose proof (htonl_range v).
  rewrite mem_val_bytes, Z.mod_small by (change (2 ^ (8 * Z.of_nat 4)) with (2 ^ 32); lia).
  by rewrite ntohl_htonl.
Qed.

Lemma i32_u32 z : INT_MIN <= z <= INT_MAX -> i32 (u32 z) = z.
Proof using Type.
  clear pad_len. unfold INT_MIN, INT_MAX, i32, u32. intros Hz.
  rewrite Zplus_mod_idemp_l, Z.mod_small; lia.
Qed.

Lemma rd_at pre mid post off n :
  off = Z.of_nat (length pre) -> n = Z.of_nat (length mid) ->
  rd (pre ++ mid ++ post) off n = Some mid.
Proof using Type.
  clear pad_len. intros -> ->. unfold rd. rewrite !Nat2Z.id. by apply sub_bytes_app_mid.
Qed.

(** A raft entry comes back as it was sent. *)
Definition raft_received (e : log_entry_t) : log_entry_t :=
  LogEntry (e_term e) (e_index e) (e_dlen e) 0 0 (e_type e) (e_command e) None None (e_data e).

Lemma raft_received_id e :
  raft_entry e -> e_context e = None -> e_key e = None -> raft_received e = e.
Proof using Type. clear pad_len. destruct e. unfold raft_received, raft_entry. cbn. by intros [-> ->] -> ->. Qed.

(** The fields of a header are read back. *)
Lemma raft_hdr_fields e : raft_wire e ->
  rd64 (raft_hdr e) 0 = Some (e_term e) /\ rd64 (raft_hdr e) 8 = Some (e_index e) /\
  rd64 (raft_hdr e) 16 = Some (e_dlen e) /\ rd32 (raft_hdr e) 24 = Some (e_type e) /\
  rd32 (raft_hdr e) 28 = Some (u32 (e_command e)).
Proof using Type.
  clear pad_len. intros []. unfold RAFT_LOG_ENTRY_HDR_SIZE in *.
  set (b1 := mem_bytes 8 (HTONLL (e_term e))). set (b2 := mem_bytes 8 (HTONLL (e_index e))).
  set (b3 := mem_bytes 8 (HTONLL (e_dlen e))). set (b4 := mem_bytes 4 (htonl (e_type e))).
  assert (is_u64 (e_dlen e)) by lia.
  split; [by apply rd64_at0|]. split; [apply (rd64_at _ b1 _ 8); [done|by unfold b1; rewrite length_mem_bytes]|].
  split; [|split].
  - pose proof (rd64_at (e_dlen e) (b1 ++ b2)) as P. setoid_rewrite <- app_assoc in P.
    apply P; [done|]. unfold b1, b2. by rewrite length_app, !length_mem_bytes.
  - pose proof (rd32_at (e_type e) (b1 ++ b2 ++ b3)) as P. do 2 setoid_rewrite <- app_assoc in P.
    rewrite <- (u32_small (e_type e)) by done. apply P. unfold b1, b2, b3.
    by rewrite !length_app, !length_mem_bytes.
  - pose proof (rd32_at (e_command e) (b1 ++ b2 ++ b3 ++ b4) []) as P.
    rewrite app_nil_r, <- !app_assoc in P. apply P. unfold b1, b2, b3, b4.
    by rewrite !length_app, !length_mem_bytes.
Qed.

Lemma server_hdr_fields e context key : server_wire e context key ->
  rd64 (server_hdr pad e) 0 = Some (e_index e) /\ rd64 (server_hdr pad e) 8 = Some (e_dlen e) /\
  rd32 (server_hdr pad e) 16 = Some (e_clen e) /\ rd32 (server_hdr pad e) 20 = Some (e_klen e) /\
  rd32 (server_hdr pad e) 24 = Some (u32 (e_command e)).
Proof using Type.
  clear pad_len. intros []. unfold XAPP_LOG_ENTRY_HDR_SIZE in *.
  set (b1 := mem_bytes 8 (HTONLL (e_index e))). set (b2 := mem_bytes 8 (HTONLL (e_dlen e))).
  set (b3 := mem_bytes 4 (htonl (e_clen e))). set (b4 := mem_bytes 4 (htonl (e_klen e))).
  assert (is_u64 (e_dlen e)) by lia.
  split; [by apply rd64_at0|]. split; [apply (rd64_at _ b1 _ 8); [done|by unfold b1; rewrite length_mem_bytes]|].
  split; [|split].
  - pose proof (rd32_at (e_clen e) (b1 ++ b2)) as P. setoid_rewrite <- app_assoc in P.
    rewrite <- (u32_small (e_clen e)) by lia. apply P. unfold b1, b2.
    by rewrite !length_app, !length_mem_bytes.
  - pose proof (rd32_at (e_klen e) (b1 ++ b2 ++ b3)) as P. do 2 setoid_rewrite <- app_assoc in P.
    rewrite <- (u32_small (e_klen e)) by lia. apply P. unfold b1, b2, b3.
    by rewrite !length_app, !length_mem_bytes.
  - pose proof (rd32_at (e_command e) (b1 ++ b2 ++ b3 ++ b4)) as P.
    do 3 setoid_rewrite <- app_assoc in P. apply P. unfold b1, b2, b3, b4.
    by rewrite !length_app, !length_mem_bytes.
Qed.

Lemma deserialize_raft_at e pre post p :
  raft_wire e -> p = Z.of_nat (length pre) ->
  deserialize_raft_entry (pre ++ (raft_hdr e ++ e_data e) ++ post) p =
    Some (raft_received e, p + (RAFT_LOG_ENTRY_HDR_SIZE + e_dlen e)).
Proof using Type.
  clear pad_len. intros W Hp. destruct (raft_hdr_fields e W) as (F1 & F2 & F3 & F4 & F5).
  destruct W. unfold deserialize_raft_entry, RAFT_LOG_ENTRY_HDR_SIZE in *.
  rewrite <- app_assoc, (rd_at pre (raft_hdr e)) by (rewrite ?length_raft_hdr; lia). simpl.
  rewrite F1. simpl. rewrite F2. simpl. rewrite F3. simpl. rewrite F4. simpl. rewrite F5. simpl.
  rewrite (app_assoc pre), (rd_at (pre ++ raft_hdr e) (e_data e))
    by (rewrite ?length_app, ?length_raft_hdr; lia). simpl.
  by rewrite i32_u32.
Qed.

(** A list of raft entries comes back as it was sent, whatever follows it. *)
Lemma deserialize_raft_list l pre post p :
  Forall raft_wire l -> p = Z.of_nat (length pre) ->
  deserialize_log_entries (pre ++ images RAFT_LOG l ++ post) (length l) p RAFT_LOG =
    Some (raft_received <$> l).
Proof using Type.
  clear pad_len. unfold images. revert pre p.
  induction l as [|e l IH]; intros pre p Hw Hp; [done|].
  apply Forall_cons_iff in Hw as [He Hw]. cbn [length deserialize_log_entries].
  change (RAFT_LOG =? SERVER_LOG) with false. cbv iota.
  change (image RAFT_LOG <$> e :: l) with (image RAFT_LOG e :: (image RAFT_LOG <$> l)).
  cbn [concat]. change (image RAFT_LOG e) with (raft_hdr e ++ e_data e).
  rewrite <- app_assoc, (deserialize_raft_at e pre _ p He Hp). simpl.
  replace (pre ++ (raft_hdr e ++ e_data e) ++ concat (image RAFT_LOG <$> l) ++ post)
    with ((pre ++ raft_hdr e ++ e_data e) ++ concat (image RAFT_LOG <$> l) ++ post)
    by (by rewrite <- !app_assoc).
  rewrite IH; [done|done|]. rewrite !length_app, length_raft_hdr. destruct He.
  unfold RAFT_LOG_ENTRY_HDR_SIZE. lia.
Qed.

Lemma strndup_app s (bs : bytes) n :
  no_nul s -> n = String.length s -> strndup n (list_ascii_of_string s ++ bs) = Some s.
Proof using Type.
  clear pad_len. unfold no_nul. intros Hs ->. induction s as [|c s IH]; simpl in *; [done|].
  apply Forall_cons_iff in Hs as [Hc Hs]. rewrite decide_False by done. by rewrite IH.
Qed.

(** A server entry comes back with the same fields and the same [dlen] bytes
    of data; its data block also holds the [clen + klen] bytes that follow
    them in the message, and the read of those must stay in the payload. *)
Definition server_received (e : log_entry_t) (context key : string) (post : bytes) : log_entry_t :=
  LogEntry 0 (e_index e) (e_dlen e) (e_clen e) (e_klen e) SERVER_COMMAND (e_command e)
    (Some context) (Some key)
    (take (Z.to_nat (e_clen e + e_klen e + e_dlen e))
       (take (Z.to_nat (e_dlen e)) (e_data e) ++ post)).

Lemma deserialize_server_hdr e context key pre post p :
  server_wire e context key -> p = Z.of_nat (length pre) ->
  deserialize_server_entry (pre ++ image SERVER_LOG e ++ post) p =
    data ← rd (pre ++ image SERVER_LOG e ++ post)
             (p + XAPP_LOG_ENTRY_HDR_SIZE + e_clen e + e_klen e)
             (e_clen e + e_klen e + e_dlen e);
    Some (LogEntry 0 (e_index e) (e_dlen e) (e_clen e) (e_klen e) SERVER_COMMAND (e_command e)
            (Some context) (Some key) data,
          p + (XAPP_LOG_ENTRY_HDR_SIZE + (e_clen e + e_klen e + e_dlen e))).
Proof using pad_len.
  intros W Hp. destruct (server_hdr_fields e context key W) as (F1 & F2 & F3 & F4 & F5).
  destruct W as [? Ec Ek Hc Hk [Hn1 Hn2] Hd ? ?].
  unfold image. rewrite Ec, Ek. change (SERVER_LOG =? SERVER_LOG) with true. cbv iota.
  cbn [string_bytes]. set (data := take (Z.to_nat (e_dlen e)) (e_data e)).
  unfold deserialize_server_entry, XAPP_LOG_ENTRY_HDR_SIZE in *. rewrite <- !app_assoc.
  rewrite (rd_at pre (server_hdr pad e)) by (rewrite ?length_server_hdr; lia). simpl.
  rewrite F1. simpl. rewrite F2. simpl. rewrite F3. simpl. rewrite F4. simpl. rewrite F5. simpl.
  rewrite i32_u32 by lia.
  rewrite (u32_small (e_clen e + e_klen e)), u64_small by lia.
  replace (drop (Z.to_nat (p + 32))
      (pre ++ server_hdr pad e ++ list_ascii_of_string context ++ list_ascii_of_string key ++ data ++ post))
    with (list_ascii_of_string context ++ list_ascii_of_string key ++ data ++ post).
  2: { rewrite (app_assoc pre). replace (Z.to_nat (p + 32)) with (length (pre ++ server_hdr pad e))
         by (rewrite length_app, length_server_hdr; lia). by rewrite drop_app_length. }
  rewrite (strndup_app context) by (done || lia). simpl.
  replace (drop (Z.to_nat (p + 32 + e_clen e))
      (pre ++ server_hdr pad e ++ list_ascii_of_string context ++ list_ascii_of_string key ++ data ++ post))
    with (list_ascii_of_string key ++ data ++ post).
  2: { rewrite !(app_assoc pre), !(app_assoc (pre ++ server_hdr pad e)).
       replace (Z.to_nat (p + 32 + e_clen e))
         with (length ((pre ++ server_hdr pad e) ++ list_ascii_of_string context))
         by (rewrite !length_app, length_server_hdr, length_chars; lia).
       by rewrite drop_app_length. }
  rewrite (strndup_app key) by (done || lia). simpl. done.
Qed.

Lemma server_data_addr e context key pre post p :
  server_wire e context key -> p = Z.of_nat (length pre) ->
  drop (Z.to_nat (p + XAPP_LOG_ENTRY_HDR_SIZE + e_clen e + e_klen e))
    (pre ++ image SERVER_LOG e ++ post) = take (Z.to_nat (e_dlen e)) (e_data e) ++ post.
Proof using pad_len.
  intros [? Ec Ek Hc Hk [Hn1 Hn2] Hd ? ?] Hp.
  unfold image. rewrite Ec, Ek. change (SERVER_LOG =? SERVER_LOG) with true. cbv iota.
  cbn [string_bytes]. rewrite !app_assoc, <- (app_assoc _ (take _ _) post).
  unfold XAPP_LOG_ENTRY_HDR_SIZE.
  replace (Z.to_nat (p + 32 + e_clen e + e_klen e)) with (length
      (((pre ++ server_hdr pad e) ++ list_ascii_of_string context) ++ list_ascii_of_string key))
    by (rewrite !length_app, length_server_hdr, !length_chars; lia).
  by rewrite drop_app_length.
Qed.

Lemma deserialize_server_at e context key pre post p :
  server_wire e context key -> p = Z.of_nat (length pre) ->
  e_clen e + e_klen e <= Z.of_nat (length post) ->
  deserialize_server_entry (pre ++ image SERVER_LOG e ++ post) p =
    Some (server_received e context key post, p + esize SERVER_LOG e).
Proof using pad_len.
  intros W Hp Hpost. rewrite (deserialize_server_hdr e context key) by done.
  pose proof (server_data_addr e context key pre post p W Hp) as Hd.
  pose proof (length_image SERVER_LOG e (ex_intro _ context (ex_intro _ key W))) as Hi.
  destruct W as [? Ec Ek Hc Hk ? Hdl ? ?]. unfold rd, sub_bytes.
  unfold esize in *. change (SERVER_LOG =? SERVER_LOG) with true in *. cbv iota in *.
  unfold XAPP_LOG_ENTRY_HDR_SIZE in *.
  rewrite u32_small in Hi |- * by lia.
  rewrite decide_True by (rewrite !length_app; lia).
  rewrite Hd. simpl. unfold server_received. do 2 f_equal. lia.
Qed.

(** A message that ends with its last entry is read past its end. *)
Lemma deserialize_server_overread e context key pre p :
  server_wire e context key -> p = Z.of_nat (length pre) -> 0 < e_clen e ->
  deserialize_server_entry (pre ++ image SERVER_LOG e) p = None.
Proof using pad_len.
  intros W Hp Hpos. rewrite <- (app_nil_r (image _ _)).
  rewrite (deserialize_server_hdr e context key) by done.
  pose proof (length_image SERVER_LOG e (ex_intro _ context (ex_intro _ key W))) as Hi.
  destruct W as [? Ec Ek Hc Hk ? Hdl ? ?]. unfold rd, sub_bytes.
  unfold esize in Hi. change (SERVER_LOG =? SERVER_LOG) with true in *. cbv iota in *.
  unfold XAPP_LOG_ENTRY_HDR_SIZE in *. rewrite u32_small in Hi by lia.
  by rewrite decide_False by (rewrite app_nil_r, !length_app; lia).
Qed.

(** What the receiver of server entries relies on. *)
Definition server_echo (e e' : log_entry_t) : Prop :=
  e_index e' = e_index e /\ e_command e' = e_command e /\ e_context e' = e_context e /\
  e_key e' = e_key e /\ e_clen e' = e_clen e /\ e_klen e' = e_klen e /\ e_dlen e' = e_dlen e /\
  e_type e' = SERVER_COMMAND /\
  take (Z.to_nat (e_dlen e')) (e_data e') = take (Z.to_nat (e_dlen e)) (e_data e).

Lemma server_received_echo e context key post :
  server_wire e context key -> server_echo e (server_received e context key post).
Proof using Type.
  clear pad_len. intros [? Ec Ek Hc Hk ? Hd ? ?]. unfold server_echo, server_received. cbn.
  repeat split; try done.
  rewrite take_take. replace (Z.to_nat (e_dlen e) `min` _)%nat with (Z.to_nat (e_dlen e)) by lia.
  rewrite take_app_le by (rewrite length_take; lia).
  rewrite take_take. f_equal. lia.
Qed.

(** With enough bytes after them in the payload, server entries come back. *)
Lemma deserialize_server_list l pre post p :
  Forall (wire SERVER_LOG) l -> p = Z.of_nat (length pre) ->
  Forall (fun e => e_clen e + e_klen e <= Z.of_nat (length post)) l ->
  exists es, deserialize_log_entries (pre ++ images SERVER_LOG l ++ post) (length l) p SERVER_LOG
    = Some es /\ Forall2 server_echo l es.
Proof using pad_len.
  unfold images. revert pre p.
  induction l as [|e l IH]; intros pre p Hw Hp Hpost; [by exists []|].
  apply Forall_cons_iff in Hw as [He Hw]. apply Forall_cons_iff in Hpost as [Hpe Hpost].
  pose proof (length_image SERVER_LOG e He) as Hli. destruct He as (c & k & He).
  cbn [length deserialize_log_entries].
  change (SERVER_LOG =? SERVER_LOG) with true. cbv iota.
  change (image SERVER_LOG <$> e :: l) with (image SERVER_LOG e :: (image SERVER_LOG <$> l)).
  cbn [concat]. rewrite <- app_assoc.
  rewrite (deserialize_server_at e c k) by (done || rewrite length_app; lia). simpl.
  replace (pre ++ image SERVER_LOG e ++ concat (image SERVER_LOG <$> l) ++ post)
    with ((pre ++ image SERVER_LOG e) ++ concat (image SERVER_LOG <$> l) ++ post)
    by (by rewrite <- !app_assoc).
  destruct (IH (pre ++ image SERVER_LOG e) (p + esize SERVER_LOG e) Hw) as (es & -> & Hes);
    [rewrite length_app; lia|done|].
  eexists. split; [reflexivity|]. constructor; [by apply server_received_echo|done].
Qed.

(** *** What is read does not depend on what follows *)

Lemma strndup_more n (bs t : bytes) s : strndup n bs = Some s -> strndup n (bs ++ t) = Some s.
Proof using Type.
  clear pad_len. revert bs s. induction n as [|n IH]; intros bs s; [done|].
  destruct bs as [|c bs]; [done|]. cbn. case_decide; [done|].
  destruct (strndup n bs) as [s'|] eqn:E; [|done]. by rewrite (IH _ _ E).
Qed.

Lemma strndup_drop_more n k (bs t : bytes) s :
  strndup n (drop k bs) = Some s -> strndup n (drop k (bs ++ t)) = Some s.
Proof using Type.
  clear pad_len. intros E. destruct (decide (k <= length bs)%nat).
  - rewrite drop_app_le by lia. by apply strndup_more.
  - rewrite drop_ge in E by lia. destruct n; [exact E|discriminate E].
Qed.

Lemma deserialize_server_entry_more bs t p r :
  deserialize_server_entry bs p = Some r -> deserialize_server_entry (bs ++ t) p = Some r.
Proof using Type.
  clear pad_len. unfold deserialize_server_entry, rd.
  destruct (sub_bytes _ _ bs) as [hdr|] eqn:E1; [|done]. rewrite (sub_bytes_more _ _ _ _ t E1). simpl.
  destruct (rd64 hdr 0) as [index|]; [|done]. destruct (rd64 hdr 8) as [dlen|]; [|done].
  destruct (rd32 hdr 16) as [clen|]; [|done]. destruct (rd32 hdr 20) as [klen|]; [|done].
  destruct (rd32 hdr 24) as [command|]; [|done]. simpl.
  destruct (strndup (Z.to_nat clen) (drop _ bs)) as [c|] eqn:E2; [|done]. rewrite (strndup_drop_more _ _ _ t _ E2). simpl.
  destruct (strndup (Z.to_nat klen) (drop _ bs)) as [k|] eqn:E3; [|done].
  rewrite (strndup_drop_more _ _ _ t _ E3). simpl.
  destruct (sub_bytes (Z.to_nat (_ + klen)) _ bs) as [d|] eqn:E4; [|done]. by rewrite (sub_bytes_more _ _ _ _ t E4).
Qed.

Lemma deserialize_server_more bs t n p es :
  deserialize_log_entries bs n p SERVER_LOG = Some es ->
  deserialize_log_entries (bs ++ t) n p SERVER_LOG = Some es /\ length es = n.
Proof using Type.
  clear pad_len. revert p es. induction n as [|n IH]; intros p es; cbn [deserialize_log_entries].
  { by intros [= <-]. }
  change (SERVER_LOG =? SERVER_LOG) with true. cbv iota.
  destruct (deserialize_server_entry bs p) as [[e q]|] eqn:E; [|done].
  rewrite (deserialize_server_entry_more _ t _ _ E). simpl.
  destruct (deserialize_log_entries bs n q SERVER_LOG) as [es'|] eqn:E'; [|done].
  destruct (IH q es' E') as [-> Hl]. simpl. intros [= <-]. simpl. by rewrite Hl.
Qed.

(** *** From the log of the sender to the entries of the receiver *)

Lemma raft_transfer max from n lbuf s l :
  log_rep s l -> 0 < max < 2 ^ 31 -> 0 <= n ->
  l_index_offset (lg s) < from -> from - 1 + n <= l_last_log_index (lg s) ->
  let m := log_range s l from n in
  Forall raft_wire m -> Forall (fun e => esize RAFT_LOG e <= Z.of_nat (length lbuf)) m ->
  Forall (fun e => raft_entry e /\ e_context e = None /\ e_key e = None) m ->
  exists c z, serialize_log_entries pad true from n lbuf (Z.of_nat (length lbuf)) max RAFT_LOG s =
      Ok (Z.of_nat (length c), z, None) s /\
    c `prefix_of` m /\
    (forall e, m !! length c = Some e -> max < z_bytes z + esize RAFT_LOG e) /\
    z_bytes z = wire_size RAFT_LOG c /\
    z_bytes z <= max /\ z_bytes z <= Z.of_nat (length (z_buf z)) /\
    forall post, deserialize_raft_log_entries (take (Z.to_nat (z_bytes z)) (z_buf z) ++ post)
      (Z.of_nat (length c)) = Some c.
Proof using pad_len.
  intros R Hmax Hn Hfrom Hlast m Hw Hsz Hraft.
  destruct (serialize_range  RAFT_LOG max from n lbuf s l R Hmax Hn Hfrom Hlast Hw Hsz)
    as (z & E & Hb & Hle & Hbuf & _). fold m in E, Hb, Hbuf.
  set (c := chosen RAFT_LOG max 0 m) in *. exists c, z.
  pose proof (chosen_prefix RAFT_LOG max 0 m) as Hpre. fold c in Hpre.
  assert (Forall raft_wire c) as Hwc by (destruct Hpre as [r Er]; rewrite Er in Hw; by apply Forall_app in Hw as [? _]).
  assert (c = raft_received <$> c) as Hid.
  { assert (Forall (fun e => raft_entry e /\ e_context e = None /\ e_key e = None) c) as Hc
      by (destruct Hpre as [r Er]; rewrite Er in Hraft; by apply Forall_app in Hraft as [? _]).
    clear -Hc. induction Hc as [|e c (? & ? & ?) Hc IH]; [done|]. cbn. by rewrite raft_received_id, <- IH. }
  pose proof (length_images  RAFT_LOG c Hwc) as Hli.
  assert (z_bytes z = Z.of_nat (length (images RAFT_LOG c))) as Hzb by lia.
  split; [done|]. split; [done|]. split; [|split; [done|split; [done|split]]].
  - intros e He. rewrite Hb. pose proof (chosen_next RAFT_LOG max 0 m e He). fold c in H1. lia.
  - rewrite <- Hbuf in Hzb at 1. rewrite length_take in Hzb. lia.
  - intros post. rewrite Hzb, Nat2Z.id, Hbuf. unfold deserialize_raft_log_entries.
    rewrite Nat2Z.id. etransitivity; [exact (deserialize_raft_list c [] post 0 Hwc eq_refl)|].
    by rewrite <- Hid.
Qed.

Lemma server_transfer max from n lbuf s l :
  log_rep s l -> 0 < max < 2 ^ 31 -> 0 <= n ->
  l_index_offset (lg s) < from -> from - 1 + n <= l_last_log_index (lg s) ->
  let m := log_range s l from n in
  Forall (wire SERVER_LOG) m ->
  Forall (fun e => esize SERVER_LOG e <= Z.of_nat (length lbuf)) m ->
  exists c z, serialize_log_entries pad true from n lbuf (Z.of_nat (length lbuf)) max SERVER_LOG s =
      Ok (Z.of_nat (length c), z, None) s /\
    c `prefix_of` m /\ (forall e, m !! length c = Some e -> max < z_bytes z + esize SERVER_LOG e) /\
    z_bytes z = wire_size SERVER_LOG c /\ z_bytes z <= max /\
    z_bytes z <= Z.of_nat (length (z_buf z)) /\
    forall post, Forall (fun e => e_clen e + e_klen e <= Z.of_nat (length post)) c ->
      exists es, deserialize_server_log_entries (take (Z.to_nat (z_bytes z)) (z_buf z) ++ post)
        (Z.of_nat (length c)) = Some es /\ Forall2 server_echo c es.
Proof using pad_len.
  intros R Hmax Hn Hfrom Hlast m Hw Hsz.
  destruct (serialize_range  SERVER_LOG max from n lbuf s l R Hmax Hn Hfrom Hlast Hw Hsz)
    as (z & E & Hb & Hle & Hbuf & _). fold m in E, Hb, Hbuf.
  set (c := chosen SERVER_LOG max 0 m) in *. exists c, z.
  pose proof (chosen_prefix SERVER_LOG max 0 m) as Hpre. fold c in Hpre.
  assert (Forall (wire SERVER_LOG) c) as Hwc
    by (destruct Hpre as [r Er]; rewrite Er in Hw; by apply Forall_app in Hw as [? _]).
  pose proof (length_images  SERVER_LOG c Hwc) as Hli.
  assert (z_bytes z = Z.of_nat (length (images SERVER_LOG c))) as Hzb by lia.
  split; [done|]. split; [done|]. split; [|split; [done|split; [done|split]]].
  - intros e He. rewrite Hb. pose proof (chosen_next SERVER_LOG max 0 m e He). fold c in H1. lia.
  - rewrite <- Hbuf in Hzb at 1. rewrite length_take in Hzb. lia.
  - intros post Hpost. rewrite Hzb.
    rewrite Nat2Z.id, Hbuf. unfold deserialize_server_log_entries. rewrite Nat2Z.id.
    exact (deserialize_server_list c [] post 0 Hwc eq_refl Hpost).
Qed.

(** ** The buffer may be too small after it has grown

    The doubled size is compared with the size of the entry alone, not with
    what the message needs: an entry larger than what the doubled buffer has
    left is copied past its end. *)
Lemma put_raft_overflow e z s :
  raft_wire e -> 0 <= z_bytes z ->
  Z.of_nat (length (z_buf z)) < z_bytes z + esize RAFT_LOG e ->
  put_entry pad RAFT_LOG e z s = Fault OutOfBounds.
Proof using Type.
  clear pad_len. intros [] Hz Hl. unfold esize, put_entry in *.
  change (RAFT_LOG =? SERVER_LOG) with false in *. cbv iota in *.
  unfold RAFT_LOG_ENTRY_HDR_SIZE in *. rewrite u32_small in Hl by lia. mrun.
  destruct (put (z_bytes z) (raft_hdr e) (z_buf z)) as [b|] eqn:E; [|done].
  unfold sub_bytes. rewrite decide_True by lia. rewrite drop_0, take_ge by lia.
  assert (length b = length (z_buf z)) as Hb.
  { revert E. unfold put. case_decide; [|done]. intros [= <-].
    rewrite !length_app, length_take, length_drop. lia. }
  rewrite put_overflow; [done|lia|lia].
Qed.

Lemma reserve_fits r size z s :
  0 <= size + z_bytes z <= z_buf_len z -> z_buf_len z < 2 ^ 32 -> reserve r size z s = Ok z s.
Proof using Type.
  clear pad_len. intros Hs Hb. unfold reserve.
  by rewrite u32_small, (proj2 (Z.ltb_ge _ _)) by lia.
Qed.

Lemma reserve_double size z s :
  0 <= z_buf_len z < 2 ^ 31 -> z_buf_len z < size + z_bytes z < 2 ^ 32 ->
  let len := Z.max (2 * z_buf_len z) size in
  reserve true size z s = Ok (Srlz (z_bytes z) (grow len (z_buf z)) len) s.
Proof using Type.
  clear pad_len. intros Hb Hs len. unfold reserve.
  rewrite u32_small, (proj2 (Z.ltb_lt _ _)), u32_small by lia.
  assert ((if z_buf_len z * 2 <? size then size else z_buf_len z * 2) = len) as ->
    by (unfold len; zcases; lia). done.
Qed.

Lemma serialize_overflow max e1 e2 n lbuf s l :
  log_rep s (e1 :: e2 :: l) -> 0 < max < 2 ^ 31 -> 2 <= n ->
  l_index_offset (lg s) + n <= l_last_log_index (lg s) ->
  raft_wire e1 -> raft_wire e2 ->
  let size := esize RAFT_LOG in
  let len := Z.of_nat (length lbuf) in
  size e1 <= len < 2 ^ 30 -> size e1 + size e2 <= max ->
  Z.max (2 * len) (size e2) < size e1 + size e2 ->
  serialize_log_entries pad true (l_index_offset (lg s) + 1) n lbuf len max RAFT_LOG s =
    Fault OutOfBounds.
Proof using pad_len.
  intros R Hmax Hn Hlast W1 W2 size len Hs1 Hfit Hbig.
  pose proof (lr_offset s _ R) as Ho. pose proof (lr_max s _ R) as Hm.
  assert (forall x, wire RAFT_LOG x = raft_wire x) as Hwire by done.
  pose proof (esize_bounds RAFT_LOG e1 W1) as B1. pose proof (esize_bounds RAFT_LOG e2 W2) as B2.
  fold size in B1, B2. set (o := l_index_offset (lg s)) in *.
  assert (forall k x, (e1 :: e2 :: l) !! k = Some x -> o + 1 + Z.of_nat k < 2 ^ 64 ->
    on_ring (log_ring_get (o + 1 + Z.of_nat k)) s = Ok (Some x) s) as Hget.
  { intros k x Hk Hi. rewrite (log_get_rep s _ R) by lia. f_equal. unfold log_lookup. fold o.
    rewrite (proj2 (Z.leb_le _ _)) by lia. rewrite <- Hk. f_equal. lia. }
  unfold serialize_log_entries.
  rewrite (bind_Ok _ _ _ _ _ (eq_refl : gets lg s = Ok (lg s) s)).
  rewrite u64_small, (proj2 (Z.leb_le _ _)) by lia.
  pose proof (ring_fuel_rep s _ R) as Hf. simpl in Hf.
  destruct (ring_fuel (lg s)) as [|[|f]]; [lia|lia|].
  cbn [serialize_loop z_bytes]. rewrite (proj2 (Z.ltb_lt 0 n)), (proj2 (Z.ltb_lt 0 max)) by lia.
  cbn [andb]. pose proof (Hget 0%nat e1 eq_refl ltac:(lia)) as H1. rewrite Z.add_0_r in H1.
  rewrite (bind_Ok _ _ _ _ _ H1). rewrite Z.add_0_l, (u32_small (esize _ e1)) by (fold size; lia).
  fold size. rewrite (proj2 (Z.ltb_ge max (size e1))) by lia.
  rewrite (bind_Ok _ _ _ _ _ (reserve_fits true (size e1) (Srlz 0 lbuf len) s ltac:(cbn [z_bytes z_buf_len]; lia)
             ltac:(cbn [z_bytes z_buf_len]; lia))).
  destruct (put_entry_holds RAFT_LOG e1 [] (Srlz 0 lbuf len) s W1) as (b & E1 & _ & Hb1);
    [done|done|cbn [z_bytes z_buf]; fold size; lia|cbn [z_bytes]; fold size; lia|].
  rewrite (bind_Ok _ _ _ _ _ E1). cbn [z_bytes z_buf_len]. cbn [serialize_loop z_bytes z_buf_len].
  fold size. rewrite !Z.add_0_l, (proj2 (Z.ltb_lt 1 n)) by lia.
  rewrite (proj2 (Z.ltb_lt (size e1) max)) by lia. cbn [andb].
  rewrite (u64_small (o + 1 + 1)) by lia.
  rewrite (bind_Ok _ _ _ _ _ (Hget 1%nat e2 eq_refl ltac:(lia))).
  rewrite (u32_small (size e1 + size e2)), (proj2 (Z.ltb_ge max _)) by lia.
  rewrite (bind_Ok _ _ _ _ _ (reserve_double (size e2) (Srlz (size e1) b len) s ltac:(cbn [z_bytes z_buf_len]; lia)
             ltac:(cbn [z_bytes z_buf_len]; lia))). cbn [z_bytes z_buf z_buf_len].
  rewrite (bind_Fault _ _ _ OutOfBounds); [done|].
  apply put_raft_overflow; [done|cbn [z_bytes]; lia|]. cbn [z_bytes z_buf]. fold size.
  unfold grow. rewrite length_app, length_take, length_replicate. cbn in Hb1. lia.
Qed.

End Images.
