(* ===== verification/Containers.v ===== *)
(** * The containers against their specifications

    What the log ring, the logs and the hash table promise to the rest of the
    library, as refinements of sequences and maps by whole histories of
    operations. *)

From S2P Require Import Prelude Monad Refine Types LogRing HashTable HashMap State Log.
Open Scope Z_scope.

(** ** The ring of log entries is a bounded double-ended queue *)

Module Ring.

Inductive op := Insert (e : log_entry_t) | Extract | ExtractR | Count.
Inductive out := Int (z : Z) | Ptr (p : option log_entry_t).

Definition run (o : op) : M logring out :=
  match o with
  | Insert e => r ← log_ring_insert e; mret (Int r)
  | Extract => p ← log_ring_extract; mret (Ptr p)
  | ExtractR => p ← log_ring_extract_r; mret (Ptr p)
  | Count => n ← gets log_ring_count; mret (Int n)
  end.

Definition spec (cap : Z) (o : op) (l : list log_entry_t) : out * list log_entry_t :=
  match o with
  | Insert e => if Z.of_nat (length l) <? cap then (Int 1, l ++ [e]) else (Int 0, l)
  | Extract => (Ptr (head l), tail l)
  | ExtractR => (Ptr (last l), removelast l)
  | Count => (Int (Z.of_nat (length l)), l)
  end.

Definition rep (cap : Z) (r : logring) (l : list log_entry_t) : Prop :=
  ring_rep r l /\ log_ring_size r = cap.

#[global] Instance refines cap : Refines run (spec cap) (fun _ _ => True) (rep cap).
Proof.
  intros o r l [R Hc] _.
  pose proof (log_ring_size_rep r l R) as Hs. pose proof (ring_rep_length r l R) as Hl.
  assert (forall r' l', ring_rep r' l' -> r_size r' = r_size r -> rep cap r' l') as Hrep.
  { intros r' l' R' E. split; [done|]. rewrite (log_ring_size_rep r' l' R'). lia. }
  destruct o; cbn [run spec].
  - destruct (Z.ltb_spec (Z.of_nat (length l)) cap) as [Hlt|Hge].
    + destruct (insert_room r l e R) as (r' & E & R' & Hs'); [lia|].
      exists r'. rewrite (bind_Ok _ _ _ _ _ E). split; [done|]. by apply Hrep.
    + exists r. rewrite (bind_Ok _ _ _ _ _ (insert_full r l e R ltac:(lia))). by split.
  - destruct l as [|e l].
    + exists r. by rewrite (bind_Ok _ _ _ _ _ (proj1 (extract_empty r R))).
    + destruct (extract_oldest r e l R) as (r' & E & R' & Hs'). exists r'.
      rewrite (bind_Ok _ _ _ _ _ E). split; [done|]. by apply Hrep.
  - destruct l as [|e l _] using rev_ind.
    + exists r. by rewrite (bind_Ok _ _ _ _ _ (proj2 (extract_empty r R))).
    + destruct (extract_newest r l e R) as (r' & E & R' & Hs'). exists r'.
      rewrite (bind_Ok _ _ _ _ _ E), last_snoc, removelast_last. split; [done|]. by apply Hrep.
  - exists r. split; [|by split]. mrun. by rewrite (log_ring_count_rep r l R).
Qed.

End Ring.

(** ** A log is a list behind an offset *)

Module LogOps.

Inductive op := Append (e : log_entry_t) | Get (idx : index_t) | Last | Over
| Compact (idx : index_t) | FreeAll (idx : index_t).
Inductive out := Int (z : Z) | Ptr (p : option log_entry_t).

(** [m] is the mutex of the log, [size] what its compaction gives back. *)
Section Log.
Context (m : mutex) (size : log_entry_t -> Z).
Context (size_index : forall i e, size (set_index i e) = size e).
Context (cap mthresh cthresh : Z).

Definition run (o : op) : M log_st out :=
  match o with
  | Append e => r ← append_log_entry e; mret (Int r)
  | Get idx => p ← get_log_entry m idx; mret (Ptr p)
  | Last => i ← get_last_log_index m; mret (Int i)
  | Over => b ← over_threshold; mret (Int (b2z b))
  | Compact idx => compact_log m size idx;; mret (Int 0)
  | FreeAll idx => free_all_log_entries idx;; mret (Int 0)
  end.

(** The indices up to the offset are gone, the entries follow. *)
Definition alog : Type := Z * list log_entry_t.
Definition alast (a : alog) : index_t := a.1 + Z.of_nat (length a.2).

Definition spec (o : op) (a : alog) : out * alog :=
  match o with
  | Append e =>
      if Z.of_nat (length a.2) <? cap
      then (Int 1, (a.1, a.2 ++ [set_index (alast a + 1) e])) else (Int 0, a)
  | Get idx => (Ptr (log_lookup (a.1 + 1) a.2 idx), a)
  | Last => (Int (alast a), a)
  | Over => (Int (b2z ((mthresh <? u64 (sum_sizes a.2)) || (cthresh <? Z.of_nat (length a.2)))), a)
  | Compact idx => (Int 0, (idx, drop (Z.to_nat (idx - a.1)) a.2))
  | FreeAll idx => (Int 0, (idx, []))
  end.

Definition ok (o : op) (a : alog) : Prop :=
  match o with
  | Append e => size e = entry_size e /\ alast a + 1 < 2 ^ 64 - 1
  | Get idx => is_u64 idx
  | Last | Over => True
  | Compact idx => a.1 <= idx <= alast a
  | FreeAll idx => 0 <= idx < 2 ^ 64 - 1
  end.

Record rep (s : log_st) (a : alog) : Prop := {
  r_log : log_rep s a.2;
  r_free : lg_lock s = false;
  r_offset : l_index_offset (lg s) = a.1;
  r_cap : capacity s = cap;
  r_mthresh : l_mthresh (lg s) = mthresh;
  r_cthresh : l_cthresh (lg s) = cthresh;
  r_sizes : Forall (fun e => size e = entry_size e) a.2 }.

Lemma alog_frame s s' a l o :
  rep s a -> log_rep s' l -> log_frame s s' -> l_index_offset (lg s') = o ->
  Forall (fun e => size e = entry_size e) l -> rep s' (o, l).
Proof using Type.
  intros [] R (Fk & Fm & Fc & Fcap) Ho HF. split; cbn; congruence.
Qed.

#[global] Instance refines : Refines run spec ok rep.
Proof using size_index.
  intros o s a R Hok. pose proof R as [Rl Hk Ho Hcap Hm Hc Hsz].
  pose proof (lr_last s a.2 Rl) as Hlast. rewrite Ho in Hlast. fold (alast a) in Hlast.
  destruct o; cbn [run spec ok] in *.
  - destruct Hok as [He Hmax]. destruct (Z.ltb_spec (Z.of_nat (length a.2)) cap) as [Hlt|Hge].
    + destruct (append_room s a.2 Rl e) as (s' & E & R' & F & Ho'); [lia..|].
      exists s'. rewrite (bind_Ok _ _ _ _ _ E). split; [done|].
      rewrite Hlast in R'. eapply alog_frame; [done|exact R'|done|congruence|].
      apply Forall_app. split; [done|]. constructor; [|constructor].
      by rewrite size_index.
    + exists s. pose proof (length_le_capacity s a.2 Rl).
      rewrite (bind_Ok _ _ _ _ _ (append_full s a.2 Rl e ltac:(lia))). by split.
  - exists s. rewrite (bind_Ok _ _ _ _ _ (get_log_entry_rep s a.2 Rl m idx Hk Hok)), Ho. by split.
  - exists s. rewrite (bind_Ok _ _ _ _ _ (get_last_log_index_rep s a.2 Rl m Hk)), Ho. by split.
  - exists s. rewrite (bind_Ok _ _ _ _ _ (over_threshold_rep s a.2 Rl)), Hm, Hc. by split.
  - destruct (compact_log_rep m size s a.2 idx Rl Hk) as (s' & E & R' & F & Ho');
      [lia|done|]. exists s'. rewrite (bind_Ok _ _ _ _ _ E), <- Ho. split; [done|].
    eapply alog_frame; [done..|by apply Forall_drop].
  - destruct (free_all_rep s a.2 idx Rl Hok) as (s' & E & R' & F & Ho').
    exists s'. rewrite (bind_Ok _ _ _ _ _ E). split; [done|]. by eapply alog_frame.
Qed.

End Log.
End LogOps.

(** ** The hash table is a finite map *)

Module Table.

Inductive op :=
| Insert (elem_ok dup_ok : bool) (key : key_arg) (v : Z)
| Delete (key : key_arg)
| Get (key : key_arg).

Definition run (o : op) : M hashtable_t (Z * errno_t) :=
  match o with
  | Insert elem_ok dup_ok key v => hashtable_insert elem_ok dup_ok (Some key) v
  | Delete key => v ← hashtable_delete (Some key); mret (v, ENONE)
  | Get key => v ← hashtable_get (Some key); mret (v, ENONE)
  end.

Definition spec (o : op) (m : gmap key_arg Z) : (Z * errno_t) * gmap key_arg Z :=
  match o with
  | Insert elem_ok dup_ok key v =>
      if bool_decide (is_Some (m !! key)) || elem_ok && dup_ok then ((1, ENONE), <[key := v]> m)
      else ((0, ENOMEM), m)
  | Delete key => ((default 0 (m !! key), ENONE), delete key m)
  | Get key => ((default 0 (m !! key), ENONE), m)
  end.

(** Keys are of the kind of the table; a numeric key is not duplicated. *)
Definition ok (kt : hkey_t) (o : op) (m : gmap key_arg Z) : Prop :=
  match o with
  | Insert _ dup_ok key _ => key_ok kt key /\ (kt = NUMERIC_KEY -> dup_ok = true)
  | Delete key | Get key => key_ok kt key
  end.

Definition rep (kt : hkey_t) (t : hashtable_t) (m : gmap key_arg Z) : Prop :=
  ht_rep t m /\ t_key_type t = kt.

#[global] Instance refines kt : Refines run spec (ok kt) (rep kt).
Proof.
  intros o t m [R <-] Hok.
  assert (forall t' m', ht_rep t' m' -> same_kind t t' -> rep (t_key_type t) t' m') as Hrep
    by (intros t' m' R' [E _]; by split).
  destruct o; cbn [run spec ok] in *.
  - destruct Hok as [Hk Hn]. destruct (bool_decide_reflect (is_Some (m !! key))) as [Hs|Hs]; cbn [orb].
    + destruct (hashtable_insert_ok t m key R Hk elem_ok dup_ok v) as (t' & E & R' & K); [by right|].
      exists t'. split; [done|by apply Hrep].
    + destruct (elem_ok && dup_ok) eqn:Ha.
      * apply andb_true_iff in Ha as [-> ->].
        destruct (hashtable_insert_ok t m key R Hk true true v) as (t' & E & R' & K); [by left|].
        exists t'. split; [done|by apply Hrep].
      * exists t. split; [|by split]. apply (hashtable_insert_enomem t m key R Hk).
        { destruct (m !! key) eqn:Em; [|done]. destruct Hs. by eexists. }
        destruct elem_ok; [right|by left]. destruct dup_ok; [done|]. split; [done|].
        destruct (t_key_type t); [|done]. by specialize (Hn eq_refl).
  - destruct (hashtable_delete_ok t m key R Hok) as (t' & E & R' & K).
    exists t'. rewrite (bind_Ok _ _ _ _ _ E). split; [done|by apply Hrep].
  - exists t. rewrite (bind_Ok _ _ _ _ _ (hashtable_get_ok t m key R Hok)). by split.
Qed.

End Table.
