(* ===== verification/Snapshot.v ===== *)
(** * Snapshots (src/snapshot.c and the snapshot half of src/config.c)

    Taking a snapshot forks: the child works on a copy of the memory and its
    output travels through a pipe to a thread of the parent, which stores it
    and compacts the log. [fork] is that copy; the pipe holds what the child
    writes. The results of the system calls are arguments ([sys]). *)

From S2P Require Import Prelude Monad Types LogRing Mtl Config HashTable State Log.
From S2P Require Import Serialize.
Open Scope Z_scope.

(** ** Pipes

    [write_pipe] and [read_pipe] move any amount of data in chunks. What each
    system call returns is given by a list: for a write, how many bytes were
    accepted; for a read, the bytes delivered. *)

Definition PIPE_BUF : Z := 4096.

Definition next_chunk (len done : Z) : Z :=
  let chunk := len - done in if PIPE_BUF <? chunk then PIPE_BUF else chunk.

(** The requests made, in order, and the result; [None] when the list of
    system results is too short to tell. *)
Fixpoint write_pipe (rets : list Z) (src : bytes) (len done : Z) : option (list bytes * Z) :=
  match rets with
  | [] => None
  | n :: rets =>
      let request := take (Z.to_nat (next_chunk len done)) (drop (Z.to_nat done) src) in
      if 0 <? n then
        if done + n <? len
        then '(rs, ret) ← write_pipe rets src len (done + n); Some (request :: rs, ret)
        else Some ([request], 1)
      else Some ([request], 0)
  end.

(** The bytes written to [dest] from its start on, and the result. *)
Fixpoint read_pipe (rets : list (option bytes)) (len done : Z) : option (bytes * Z) :=
  match rets with
  | [] => None
  | Some (b :: bs) :: rets =>
      let n := Z.of_nat (length (b :: bs)) in
      if done + n <? len
      then '(got, ret) ← read_pipe rets len (done + n); Some ((b :: bs) ++ got, ret)
      else Some (b :: bs, 1)
  | _ :: _ => Some ([], 0)
  end.

(** ** The contexts of which this server is the primary *)

Record primary_ctx_t := PrimaryCtx {
  pc_size : Z;
  pc_contexts : list string;
  pc_len : Z }.

(** The handler's state: the table it is called for, and the contexts. *)
Record pctx_st := PctxSt { px_tab : hashtable_t; px_ctxs : primary_ctx_t }.
Definition px_tab_l : lens pctx_st hashtable_t := Lens px_tab (fun t s => PctxSt t (px_ctxs s)).

(** [alloc] tells whether [realloc] and [strdup] succeed. *)
Definition primary_ctx_handler (alloc : bool) (key : key_arg) : M pctx_st unit :=
  ptr ← zoom px_tab_l (hashtable_get (Some key));
  if truthy ptr && (ptr =? RFT_PRIMARY) then
    p ← gets px_ctxs;
    when (negb alloc) exit1;;
    let size := if pc_size p =? pc_len p then u32 (pc_size p * 2) else pc_size p in
    let name := match key with KStr s => s | KNum _ => EmptyString end in
    if pc_len p <? size then
      modify (fun s => PctxSt (px_tab s)
        (PrimaryCtx size (take (Z.to_nat (pc_len p)) (pc_contexts p) ++ [name])
           (u32 (pc_len p + 1))))
    else fail OutOfBounds
  else mret tt.

Definition init_pctxs : primary_ctx_t := PrimaryCtx 64 [] 0.

Definition primary_contexts (alloc : bool) : M hashtable_t (list string) := fun t =>
  match (hashtable_foreach_key px_tab_l (primary_ctx_handler alloc)) (PctxSt t init_pctxs) with
  | Ok _ s => Ok (pc_contexts (px_ctxs s)) (px_tab s)
  | Fault f => Fault f
  end.

(** ** The snapshot of the raft configuration (src/config.c) *)

Section Snapshots.
Context `{Rmr} `{Host}.

(** [raft_server_snapshot_t]: two character arrays, padding, the status. *)
Definition status_offset : nat := align (sizeof_server_id + sizeof_target) 4.
Definition sizeof_server_snapshot : nat := status_offset + 4.

(** The padding is whatever the fresh block holds, here NULs; so are the bytes
    of a name after its terminator. *)
Definition server_snapshot (x : server_t) : bytes :=
  carray sizeof_server_id (s_server_id x) ++ carray sizeof_target (s_target x) ++
  replicate (status_offset - (sizeof_server_id + sizeof_target)) NUL ++
  mem_bytes 4 (htonl (s_status x)).

Fixpoint serialize_servers (n i : nat) (data : bytes) : M config_st bytes :=
  match n with
  | O => mret data
  | S n =>
      p ← server_at i;
      x ← deref p;
      serialize_servers n (S i) (data ++ server_snapshot x)
  end.

Definition create_raft_config_snapshot (realloc_ok : bool) : M St (pipe_metabuf_t * bytes) :=
  when (negb realloc_ok) exit1;;
  n ← zoom config_l config_size;
  data ← zoom config_l (serialize_servers n 0 []);
  s ← get;
  mret (PipeMetabuf (m_current_term (g_me s)) (m_last_applied (g_me s))
          (Z.of_nat (length data)) (c_size (cf (g_config s))), data).

(** [get_replica_servers] stores its result through the pointer it is given. *)
Definition update_replica_servers : M St unit :=
  s ← get;
  if decide (m_state (g_me s) = INIT_SERVER) then mret tt
  else
    zoom repl_l (lock replica_lock repl_lock_l);;
    n ← (if decide (rp_type (g_repl s) = PARTIAL) then mret (rp_num_replicas (g_repl s))
         else n ← zoom config_l raft_get_num_servers; mret (u32 (n - 1)));
    servers ← zoom config_l (get_replica_servers (m_self_id (g_me s)) n);
    zoom repl_l (modify (set_rp_servers (Some <$> servers)));;
    zoom repl_l (unlock repl_lock_l).

(** [while( config.size > 0 ) remove_server( config.servers[0] )] *)
Fixpoint remove_all (self : server_id_t) (fuel : nat) : M config_st unit :=
  c ← gets cf;
  if 0 <? c_size c then
    match fuel with
    | O => fail OutOfFuel
    | S fuel =>
        p ← server_at 0;
        x ← deref p;
        remove_server self (s_server_id x);;
        remove_all self fuel
    end
  else mret tt.

(** The fields of the [i]-th server of a snapshot; [None] is a read outside. *)
Definition snapshot_server (data : bytes) (offset : nat) : option (server_id_t * target_t * Z) :=
  id_bs ← sub_bytes offset sizeof_server_id data;
  tg_bs ← sub_bytes (offset + sizeof_server_id) sizeof_target data;
  st_bs ← sub_bytes (offset + status_offset) 4 data;
  id ← cstring id_bs;
  tg ← cstring tg_bs;
  Some (id, tg, mem_val st_bs).

Fixpoint install_servers (self : server_id_t) (n offset : nat) (data : bytes) (last : index_t)
  : M config_st unit :=
  match n with
  | O => mret tt
  | S n =>
      '(id, target, status) ← from_opt OutOfBounds (snapshot_server data offset);
      added ← add_server self id target last;
      when (negb (truthy added)) exit1;;
      '(ok, _) ← set_server_voting_status id (ntohl status);
      when (negb (truthy ok)) exit1;;
      install_servers self n (offset + sizeof_server_snapshot) data last
  end.

Definition commit_raft_config_snapshot (snapshot : raft_snapshot_t) : M St unit :=
  zoom raft_log_l (lock raft_log_lock lg_lock_l);;
  zoom config_l (lock config_lock cf_lock_l);;
  s ← get;
  let self := m_self_id (g_me s) in
  zoom config_l (remove_all self (Z.to_nat (c_size (cf (g_config s)))));;
  zoom raft_log_l (free_all_log_entries (rs_last_index snapshot));;
  upd_me (me_term (rs_last_term snapshot));;
  upd_me (me_applied (rs_last_index snapshot));;
  upd_me (me_commit (rs_last_index snapshot));;
  data ← from_opt NullDeref
    (if rs_items snapshot =? 0 then Some [] else rs_data snapshot);
  zoom config_l (install_servers self (Z.to_nat (rs_items snapshot)) 0 data
    (rs_last_index snapshot));;
  zoom config_l (unlock cf_lock_l);;
  update_replica_servers;;
  zoom raft_log_l (unlock lg_lock_l).

(** ** Taking a snapshot *)

(** The results of [pipe], [fork], [pthread_create] and of the allocations of
    the child. *)
Record sys := Sys { sys_pipe : bool; sys_fork : bool; sys_thread : bool; sys_alloc : bool }.
Definition sys_ok : sys := Sys true true true true.

(** [fork( )]: the child computes on its copy of the memory; only its output
    comes back, and nothing when it ends early. *)
Definition fork {A} (child : M St A) : M St (option A) := fun s =>
  Ok (match child s with Ok a _ => Some a | Fault _ => None end) s.

(** Test and set of an "in progress" flag under its lock. *)
Definition start_progress (m : mutex) (L : lens snap_st bool) (flag : lens snap_st bool)
  : M St bool :=
  zoom snap_l (
    lock m L;;
    busy ← gets (lget flag);
    (if busy : bool then mret tt else modify (lput flag true));;
    unlock L;;
    mret (negb busy)).

Definition end_progress (m : mutex) (L : lens snap_st bool) (flag : lens snap_st bool)
  : M St unit :=
  zoom snap_l (lock m L;; modify (lput flag false);; unlock L).

Definition raft_in_progress_l : lens snap_st bool :=
  Lens sn_raft_in_progress set_raft_in_progress.
Definition xapp_in_progress_l : lens snap_st bool :=
  Lens sn_xapp_in_progress set_xapp_in_progress.

Definition take_raft_snapshot (k : sys) : M St unit :=
  start ← start_progress raft_in_progress_lock raft_in_progress_lock_l raft_in_progress_l;
  if negb start then mret tt
  else
    when (negb (sys_pipe k)) exit1;;
    zoom config_l (lock config_lock cf_lock_l);;
    when (negb (sys_fork k)) exit1;;
    out ← fork (zoom config_l (unlock cf_lock_l);; create_raft_config_snapshot (sys_alloc k));
    zoom snap_l (modify (set_raft_pipe out));;
    zoom config_l (unlock cf_lock_l);;
    when (negb (sys_thread k)) exit1.

(** The xApp's callback: the number of items and the bytes it produces for a
    list of contexts. *)
Definition take_snapshot_cb_t : Type := list string -> Z * bytes.

(** What the child of [take_xapp_snapshot] writes to the pipe. The caller
    holds the mutex of the xApp log, which the child releases. *)
Definition xapp_child (k : sys) (cb : take_snapshot_cb_t) : M St (pipe_metabuf_t * bytes) :=
  zoom xapp_log_l (unlock lg_lock_l);;
  contexts ← zoom (lens_comp app_l ctxtab_l) (primary_contexts (sys_alloc k));
  let '(items, data) := cb contexts in
  last ← zoom xapp_log_l (get_last_log_index server_log_lock);
  mret (PipeMetabuf 0 last (Z.of_nat (length data)) items, data).

Definition take_xapp_snapshot (k : sys) (cb : option take_snapshot_cb_t) : M St unit :=
  match cb with
  | None => mret tt
  | Some cb =>
      start ← start_progress xapp_in_progress_lock xapp_in_progress_lock_l xapp_in_progress_l;
      if negb start then mret tt
      else
        when (negb (sys_pipe k)) exit1;;
        when (negb (sys_fork k)) exit1;;
        out ← fork (xapp_child k cb);
        zoom snap_l (modify (set_xapp_pipe out));;
        when (negb (sys_thread k)) exit1
  end.

(** ** The threads of the parent

    [got] is the number of bytes of the data the read delivers before it
    fails, [None] when it delivers them all; a block of the new size has then
    been allocated already. A read of no bytes at all counts as a failure, so
    that empty data is never read. *)
Definition read_data (data : bytes) (old : option bytes) (got : option nat) : bytes * bool :=
  match got, data with
  | None, _ :: _ => (data, true)
  | _, _ =>
      let k := default O got in
      let block := grow (Z.of_nat (length data)) (default [] old) in
      (take k data ++ drop k block, false)
  end.

Definition parent_raft_thread (realloc_ok read_meta : bool) (got : option nat) : M St unit :=
  pipe ← gets (fun s => sn_raft_pipe (g_snap s));
  (match pipe with
   | Some (meta, data) =>
       if read_meta then
         zoom snap_l (lock raft_snapshot_lock raft_snapshot_lock_l);;
         when (negb realloc_ok) exit1;;
         old ← gets (fun s => sn_raft_snapshot (g_snap s));
         let '(block, ok) := read_data data (rs_data old) got in
         if ok then
           zoom snap_l (modify (set_raft_snapshot
             (RaftSnapshot (pm_last_term meta) (pm_last_index meta) (pm_dlen meta)
                (pm_items meta) (Some block))));;
           zoom raft_log_l (compact_raft_log (pm_last_index meta));;
           zoom snap_l (unlock raft_snapshot_lock_l)
         else
           zoom snap_l (modify (set_raft_snapshot
             (RaftSnapshot (rs_last_term old) (rs_last_index old) (rs_dlen old)
                (rs_items old) (Some block))));;
           zoom snap_l (unlock raft_snapshot_lock_l)
       else mret tt
   | None => mret tt
   end);;
  zoom snap_l (modify (set_raft_pipe None));;
  end_progress raft_in_progress_lock raft_in_progress_lock_l raft_in_progress_l.

Definition parent_xapp_thread (realloc_ok read_meta : bool) (got : option nat) : M St unit :=
  pipe ← gets (fun s => sn_xapp_pipe (g_snap s));
  (match pipe with
   | Some (meta, data) =>
       if read_meta then
         zoom snap_l (lock xapp_snapshot_lock xapp_snapshot_lock_l);;
         when (negb realloc_ok) exit1;;
         old ← gets (fun s => sn_xapp_snapshot (g_snap s));
         let '(block, ok) := read_data data (xs_data old) got in
         if ok then
           zoom snap_l (modify (set_xapp_snapshot
             (XappSnapshot (pm_last_index meta) (pm_dlen meta) (pm_items meta) (Some block))));;
           zoom xapp_log_l (compact_server_log (pm_last_index meta));;
           zoom snap_l (unlock xapp_snapshot_lock_l)
         else
           zoom snap_l (modify (set_xapp_snapshot
             (XappSnapshot (xs_last_index old) (xs_dlen old) (xs_items old) (Some block))));;
           zoom snap_l (unlock xapp_snapshot_lock_l)
       else mret tt
   | None => mret tt
   end);;
  zoom snap_l (modify (set_xapp_pipe None));;
  end_progress xapp_in_progress_lock xapp_in_progress_lock_l xapp_in_progress_l.

(** ** Installing a snapshot *)

Definition install_raft_snapshot (realloc_ok : bool) (snapshot : raft_snapshot_t) : M St Z :=
  zoom snap_l (lock raft_in_progress_lock raft_in_progress_lock_l);;
  s ← get;
  if sn_raft_in_progress (g_snap s) then
    zoom snap_l (unlock raft_in_progress_lock_l);;
    mret 0
  else
    zoom snap_l (modify (set_raft_in_progress true));;
    zoom snap_l (unlock raft_in_progress_lock_l);;
    let current := sn_raft_snapshot (g_snap s) in
    success ← (
      if negb (rs_last_term snapshot =? rs_last_term current) ||
         negb (rs_last_index snapshot =? rs_last_index current) then
        commit_raft_config_snapshot snapshot;;
        when (negb realloc_ok) exit1;;
        data ← from_opt NullDeref (if rs_dlen snapshot =? 0 then Some [] else rs_data snapshot);
        block ← from_opt OutOfBounds (sub_bytes 0 (Z.to_nat (rs_dlen snapshot)) data);
        zoom snap_l (modify (set_raft_snapshot
          (RaftSnapshot (rs_last_term snapshot) (rs_last_index snapshot) (rs_dlen snapshot)
             (rs_items snapshot) (Some block))));;
        mret 1
      else mret 0);
    zoom snap_l (lock raft_in_progress_lock raft_in_progress_lock_l);;
    zoom snap_l (modify (set_raft_in_progress false));;
    zoom snap_l (unlock raft_in_progress_lock_l);;
    mret success.

(** ** Snapshots on the wire

    The payload of an RMR buffer is a byte list; [rmr_realloc_payload] belongs
    to RMR and is a parameter: the new payload, or NULL. *)
Context (rmr_realloc_payload : bytes -> Z -> option bytes).

Definition ensure_payload (payload : bytes) (mlen : Z) : M snap_st bytes :=
  if Z.of_nat (length payload) <? mlen
  then from_opt Exit (rmr_realloc_payload payload mlen) else mret payload.

Definition put_at (off : Z) (bs payload : bytes) : M snap_st bytes :=
  from_opt OutOfBounds (put off bs payload).

(** [strcpy] of an identifier: its characters and the terminator. *)
Definition strcpy_bytes (s : string) : bytes := list_ascii_of_string s ++ [NUL].

Definition xs_items_offset : Z := Z.of_nat (align (8 + 8 + RMR_MAX_SRC) 4).
Definition rs_items_offset : Z := Z.of_nat (align (8 + 8 + 8 + 8 + RMR_MAX_SRC) 4).

Definition snapshot_data (data : option bytes) (dlen : Z) : M snap_st bytes :=
  d ← from_opt NullDeref data;
  from_opt OutOfBounds (sub_bytes 0 (Z.to_nat dlen) d).

(** The message length ([int], 0 when there is no snapshot) and the payload. *)
Definition serialize_xapp_snapshot (payload : bytes) (server_id : server_id_t)
  : M snap_st (Z * bytes) :=
  lock xapp_snapshot_lock xapp_snapshot_lock_l;;
  x ← gets sn_xapp_snapshot;
  r ← (match xs_data x with
       | None => mret (0, payload)
       | Some _ =>
           let mlen := i32 (XAPP_SNAPSHOT_HDR_SIZE + xs_dlen x) in
           when (mlen <? 0) exit1;;
           p ← ensure_payload payload mlen;
           p ← put_at 0 (mem_bytes 8 (HTONLL (xs_last_index x))) p;
           p ← put_at 8 (mem_bytes 8 (HTONLL (xs_dlen x))) p;
           p ← put_at 16 (strcpy_bytes server_id) p;
           p ← put_at xs_items_offset (mem_bytes 4 (htonl (xs_items x))) p;
           d ← snapshot_data (xs_data x) (xs_dlen x);
           p ← put_at XAPP_SNAPSHOT_HDR_SIZE d p;
           mret (mlen, p)
       end);
  unlock xapp_snapshot_lock_l;;
  mret r.

Definition serialize_raft_snapshot (payload : bytes) : M snap_st (Z * bytes) :=
  lock raft_snapshot_lock raft_snapshot_lock_l;;
  x ← gets sn_raft_snapshot;
  r ← (match rs_data x with
       | None => mret (0, payload)
       | Some _ =>
           let mlen := i32 (RAFT_SNAPSHOT_HDR_SIZE + rs_dlen x) in
           when (mlen <? 0) exit1;;
           p ← ensure_payload payload mlen;
           d ← snapshot_data (rs_data x) (rs_dlen x);
           p ← put_at RAFT_SNAPSHOT_HDR_SIZE d p;
           p ← put_at 24 (mem_bytes 8 (HTONLL (rs_dlen x))) p;
           p ← put_at rs_items_offset (mem_bytes 4 (htonl (rs_items x))) p;
           p ← put_at 8 (mem_bytes 8 (HTONLL (rs_last_index x))) p;
           p ← put_at 16 (mem_bytes 8 (HTONLL (rs_last_term x))) p;
           mret (mlen, p)
       end);
  unlock raft_snapshot_lock_l;;
  mret r.

End Snapshots.
