(* ===== verification/Pipes.v ===== *)
(** * The pipe between the child and the parent (src/snapshot.c)

    [write_pipe] and [read_pipe] cut their data into chunks, and the kernel
    cuts the chunks again. Whatever the cuts, the parent reads what the child
    wrote, or notices that it did not: this is what lets the model of the
    snapshot threads pass the metadata and the data as values. *)

From S2P Require Import Prelude Monad Types LogRing Mtl Config HashTable State Log.
From S2P Require Import Serialize Snapshot.
Open Scope Z_scope.

(** ** What the kernel does

    A write accepts a first part of what it is given, none after an error. A
    read returns a first part of what is in the pipe, not more than asked for;
    nothing at all only at the end of the stream; [None] is an error. *)

Fixpoint accepted (rets : list Z) (requests : list bytes) : bytes :=
  match rets, requests with
  | n :: rets, r :: requests => take (Z.to_nat n) r ++ accepted rets requests
  | _, _ => []
  end.

Fixpoint writes_ok (rets : list Z) (len off : Z) : Prop :=
  match rets with
  | [] => True
  | n :: rets => n <= next_chunk len off /\ (off + n < len -> writes_ok rets len (off + n))
  end.

Fixpoint reads_ok (stream : bytes) (rets : list (option bytes)) (len off : Z) : Prop :=
  match rets with
  | [] | None :: _ => True
  | Some r :: rets =>
      r `prefix_of` stream /\ Z.of_nat (length r) <= next_chunk len off /\ (r = [] -> stream = []) /\
      (off + Z.of_nat (length r) < len ->
       reads_ok (drop (length r) stream) rets len (off + Z.of_nat (length r)))
  end.

Lemma next_chunk_bounds len off : off < len -> 0 < next_chunk len off <= len - off.
Proof. intros Hd. unfold next_chunk, PIPE_BUF. destruct (Z.ltb_spec 4096 (len - off)); lia. Qed.

(** ** Writing *)

(** A request is the next bytes of the source. *)
Lemma accepted_request n len off (src : bytes) :
  0 <= off < len -> len <= Z.of_nat (length src) -> 0 < n ->
  n <= next_chunk len off ->
  take (Z.to_nat n) (take (Z.to_nat (next_chunk len off)) (drop (Z.to_nat off) src)) =
    take (Z.to_nat n) (drop (Z.to_nat off) src) /\ off + n <= len.
Proof.
  intros Hd Hl Hn Hr. pose proof (next_chunk_bounds len off ltac:(lia)) as Hc.
  split; [|lia].
  rewrite take_take. f_equal. lia.
Qed.

(** All the bytes when it returns 1, and otherwise fewer. *)
Lemma write_pipe_ok rets src len off requests ret :
  write_pipe rets src len off = Some (requests, ret) -> writes_ok rets len off ->
  0 <= off < len -> len <= Z.of_nat (length src) ->
  exists n, off <= n <= len /\ (ret = 1 /\ n = len \/ ret = 0 /\ n < len) /\
    accepted rets requests = take (Z.to_nat (n - off)) (drop (Z.to_nat off) src).
Proof.
  revert off requests ret. induction rets as [|n rets IH]; intros off requests ret; [done|].
  intros E Hw Hd Hl. cbn in E. destruct (Z.ltb_spec 0 n) as [Hn|Hn].
  2: { injection E as <- <-. exists off. split; [lia|]. split; [right; lia|]. cbn.
       rewrite (Z2Nat.nonpos n), Z.sub_diag by lia. by destruct rets. }
  destruct (Z.ltb_spec (off + n) len) as [Hlt|Hge].
  - destruct (write_pipe rets src len (off + n)) as [[rs r]|] eqn:E'; [|done]. injection E as <- <-.
    destruct Hw as [Hr Hw].
    destruct (accepted_request n len off src Hd Hl Hn Hr) as [Ea _].
    destruct (IH _ _ _ E' (Hw Hlt) ltac:(lia) Hl) as (m & Hm & Hret & Em).
    exists m. split; [lia|]. split; [done|]. cbn. rewrite Ea, Em.
    replace (Z.to_nat (m - off)) with (Z.to_nat n + Z.to_nat (m - (off + n)))%nat by lia.
    rewrite <- take_take_drop, drop_drop. do 3 f_equal. lia.
  - injection E as <- <-. destruct Hw as [Hr _].
    destruct (accepted_request n len off src Hd Hl Hn Hr) as [Ea Hle].
    exists len. split; [lia|]. split; [by left|]. cbn. rewrite Ea.
    assert (n = len - off) as -> by lia. destruct rets; by rewrite app_nil_r.
Qed.

(** It returns: no more calls than bytes, and one for no bytes. *)
Lemma write_pipe_returns rets src len off :
  0 <= off -> (Z.to_nat (len - off) <= length rets)%nat -> (1 <= length rets)%nat ->
  is_Some (write_pipe rets src len off).
Proof.
  revert off. induction rets as [|n rets IH]; intros off Hd Hl H1; cbn in *; [lia|].
  destruct (Z.ltb_spec 0 n); [|done]. destruct (Z.ltb_spec (off + n) len); [|done].
  destruct (IH (off + n)) as [[rs r] ->]; [lia|lia|lia|done].
Qed.

(** ** Reading *)

Lemma read_pipe_more b r rets len off :
  read_pipe (Some (b :: r) :: rets) len off =
    if off + Z.of_nat (length (b :: r)) <? len
    then '(got, ret) ← read_pipe rets len (off + Z.of_nat (length (b :: r))); Some ((b :: r) ++ got, ret)
    else Some (b :: r, 1).
Proof. done. Qed.

(** What it has read is a first part of the stream; it returns 1 exactly when
    it has all it wants. *)
Lemma read_pipe_ok rets stream len off got ret :
  read_pipe rets len off = Some (got, ret) -> reads_ok stream rets len off -> 0 <= off < len ->
  got `prefix_of` stream /\
  (ret = 1 /\ Z.of_nat (length got) = len - off \/ ret = 0 /\ Z.of_nat (length got) < len - off).
Proof.
  revert stream off got ret. induction rets as [|o rets IH]; intros stream off got ret; [done|].
  intros E Hr Hd. pose proof (next_chunk_bounds len off ltac:(lia)).
  destruct o as [[|b r]|]; [injection E as <- <-; split; [apply prefix_nil|right; cbn; lia]| |
    injection E as <- <-; split; [apply prefix_nil|right; cbn; lia]].
  destruct Hr as ([rest ->] & Hc & _ & Hr). rewrite drop_app_length in Hr.
  rewrite read_pipe_more in E. assert (0 < Z.of_nat (length (b :: r))) as Hn by (cbn; lia).
  revert E Hc Hn Hr. generalize (b :: r). clear b r. intros r E Hc Hn Hr.
  destruct (Z.ltb_spec (off + Z.of_nat (length r)) len).
  - destruct (read_pipe rets len _) as [[got' ret']|] eqn:E'; [|done]. injection E as <- <-.
    destruct (IH rest _ _ _ E' (Hr ltac:(lia)) ltac:(lia)) as [Hp Hret]. split; [by apply prefix_app|].
    rewrite length_app. lia.
  - injection E as <- <-. split; [by apply prefix_app_r|]. left. lia.
Qed.

Lemma read_pipe_returns rets len off :
  (Z.to_nat (len - off) <= length rets)%nat -> (1 <= length rets)%nat -> is_Some (read_pipe rets len off).
Proof.
  revert off. induction rets as [|o rets IH]; intros off Hl H1; cbn in Hl, H1; [lia|].
  destruct o as [[|b r]|]; [done| |done]. rewrite read_pipe_more.
  assert (0 < Z.of_nat (length (b :: r))) as Hn by (cbn; lia). revert Hn. generalize (b :: r). intros l Hn.
  destruct (Z.ltb_spec (off + Z.of_nat (length l)) len); [|done].
  destruct (IH (off + Z.of_nat (length l))) as [[g x] ->]; [lia|lia|done].
Qed.

(** With all it wants in the stream, no error and enough calls it returns 1. *)
Lemma read_pipe_full rets stream len off :
  reads_ok stream rets len off -> 0 <= off < len -> len - off <= Z.of_nat (length stream) ->
  Forall is_Some rets -> (Z.to_nat (len - off) <= length rets)%nat ->
  exists got, read_pipe rets len off = Some (got, 1).
Proof.
  revert stream off. induction rets as [|o rets IH]; intros stream off Hr Hd Hs Ho Hl; cbn in Hl; [lia|].
  apply Forall_cons_iff in Ho as [[r ->] Ho]. destruct Hr as ([rest ->] & Hc & He & Hr).
  rewrite drop_app_length in Hr. rewrite length_app in Hs. destruct r as [|b r].
  { specialize (He eq_refl). cbn in He, Hs. subst rest. cbn in Hs. lia. }
  rewrite read_pipe_more. assert (0 < Z.of_nat (length (b :: r))) as Hn by (cbn; lia).
  revert Hs Hc Hn Hr. generalize (b :: r). clear b r He. intros r Hs Hc Hn Hr.
  destruct (Z.ltb_spec (off + Z.of_nat (length r)) len); [|by eexists].
  destruct (IH rest _ (Hr ltac:(lia)) ltac:(lia) ltac:(lia) Ho ltac:(lia)) as [got ->]. by eexists.
Qed.

(** Nothing is wanted: the one call counts as an error. *)
Lemma read_pipe_nothing rets stream got ret :
  read_pipe rets 0 0 = Some (got, ret) -> reads_ok stream rets 0 0 -> got = [] /\ ret = 0.
Proof.
  destruct rets as [|[[|b r]|] rets]; try done; [by intros [= <- <-]| |by intros [= <- <-]].
  intros _ (_ & Hc & _). exfalso. change (next_chunk 0 0) with 0 in Hc. cbn in Hc. lia.
Qed.

(** ** The metadata and the data *)

Section Metabuf.
Context `{Host} (pad : bytes) (pad_len : length pad = 4%nat).

Definition sizeof_pipe_metabuf : Z := 32.

(** [pipe_metabuf_t] in memory: the padding is at its end. *)
Definition meta_image (m : pipe_metabuf_t) : bytes :=
  mem_bytes 8 (pm_last_term m) ++ mem_bytes 8 (pm_last_index m) ++ mem_bytes 8 (pm_dlen m) ++
  mem_bytes 4 (pm_items m) ++ pad.

Definition meta_of_image (bs : bytes) : option pipe_metabuf_t :=
  term ← sub_bytes 0 8 bs;
  index ← sub_bytes 8 8 bs;
  dlen ← sub_bytes 16 8 bs;
  items ← sub_bytes 24 4 bs;
  Some (PipeMetabuf (mem_val term) (mem_val index) (mem_val dlen) (mem_val items)).

(** The end of the child: what it got into the pipe, and whether it exits
    with success. *)
Definition child_writes (ws1 ws2 : list Z) (meta : pipe_metabuf_t) (data : bytes) : option (bytes * bool) :=
  '(rq1, r1) ← write_pipe ws1 (meta_image meta) sizeof_pipe_metabuf 0;
  if truthy r1 then
    '(rq2, r2) ← write_pipe ws2 data (pm_dlen meta) 0;
    Some (accepted ws1 rq1 ++ accepted ws2 rq2, truthy r2)
  else Some (accepted ws1 rq1, false).

(** The reads of the thread of the parent: nothing when the metadata cannot be
    read; otherwise the metadata, the reallocated block after the read into
    it, and whether that was complete. *)
Definition parent_reads (rs1 rs2 : list (option bytes)) (old : option bytes)
  : option (option (pipe_metabuf_t * (bytes * bool))) :=
  '(mb, r1) ← read_pipe rs1 sizeof_pipe_metabuf 0;
  if truthy r1 then
    meta ← meta_of_image mb;
    '(got, r2) ← read_pipe rs2 (pm_dlen meta) 0;
    let block := grow (pm_dlen meta) (default [] old) in
    Some (Some (meta, (got ++ drop (length got) block, truthy r2)))
  else Some None.

Definition meta_ok (m : pipe_metabuf_t) : Prop :=
  is_u64 (pm_last_term m) /\ is_u64 (pm_last_index m) /\ is_u64 (pm_dlen m) /\ is_u32 (pm_items m).

Lemma length_meta_image m : length (meta_image m) = 32%nat.
Proof using pad_len. unfold meta_image. rewrite !length_app, !length_mem_bytes, pad_len. done. Qed.

Lemma meta_image_inv m : meta_ok m -> meta_of_image (meta_image m) = Some m.
Proof using pad_len.
  intros (Ht & Hi & Hd & Hn). unfold meta_of_image, meta_image.
  assert (forall z, is_u64 z -> mem_val (mem_bytes 8 z) = z) as V
    by (intros z Hz; rewrite mem_val_bytes; by apply Z.mod_small).
  pose proof (fun z => length_mem_bytes 8 z) as L8.
  rewrite sub_bytes_app_l by (by rewrite L8).
  rewrite (sub_bytes_app_mid _ _ _ 8 8) by (by rewrite L8).
  rewrite (app_assoc (mem_bytes 8 (pm_last_term m))), (sub_bytes_app_mid _ _ _ 16 8) by (by rewrite ?length_app, ?L8).
  rewrite app_assoc, (sub_bytes_app_mid _ _ _ 24 4) by (by rewrite ?length_app, ?L8, ?length_mem_bytes).
  cbn [mbind option_bind]. rewrite !V by done. rewrite mem_val_bytes, (Z.mod_small (pm_items m)) by exact Hn.
  by destruct m.
Qed.

End Metabuf.

Lemma prefix_is_take {A} (l1 l2 : list A) : l1 `prefix_of` l2 -> l1 = take (length l1) l2.
Proof. intros [l3 ->]. by rewrite take_app_length. Qed.

(** All that is asked for arrives. *)
Lemma read_pipe_all rets l rest :
  l <> [] -> reads_ok (l ++ rest) rets (Z.of_nat (length l)) 0 -> Forall is_Some rets ->
  (length l <= length rets)%nat -> read_pipe rets (Z.of_nat (length l)) 0 = Some (l, 1).
Proof.
  intros Hl Hr Hs Hn. assert (0 < length l)%nat by (destruct l; [done|cbn; lia]).
  destruct (read_pipe_full rets (l ++ rest) (Z.of_nat (length l)) 0) as [got E];
    [done|lia|rewrite length_app; lia|done|lia|].
  destruct (read_pipe_ok _ _ _ _ _ _ E Hr ltac:(lia)) as [Hp [[_ Hg]|[? _]]]; [|done].
  apply prefix_is_take in Hp. assert (length got = length l) as Eg by lia.
  rewrite Eg, take_app_length in Hp. by rewrite E, Hp.
Qed.

Section Transfer.
Context `{Host} (pad : bytes) (pad_len : length pad = 4%nat).

Lemma accepted_all src : take (Z.to_nat (Z.of_nat (length src) - 0)) (drop (Z.to_nat 0) src) = (src : bytes).
Proof. rewrite Z.sub_0_r, Nat2Z.id. apply firstn_all. Qed.

(** What the child gets into the pipe: a first part of the metadata and the
    data, with the metadata complete before any data. *)
Lemma child_writes_ok ws1 ws2 meta data stream ok :
  child_writes pad ws1 ws2 meta data = Some (stream, ok) -> pm_dlen meta = Z.of_nat (length data) ->
  writes_ok ws1 sizeof_pipe_metabuf 0 -> writes_ok ws2 (pm_dlen meta) 0 ->
  ok = false /\ (length stream < 32)%nat \/
  exists n, (n <= length data)%nat /\ stream = meta_image pad meta ++ take n data /\
    (ok = true /\ n = length data /\ data <> [] \/ ok = false /\ (n < length data \/ data = [])%nat).
Proof using pad_len.
  intros E Hd Hw1 Hw2. unfold child_writes in E. pose proof (length_meta_image pad pad_len meta) as Lm.
  destruct (write_pipe ws1 _ _ 0) as [[rq1 r1]|] eqn:E1; [|done]. cbn in E.
  destruct (write_pipe_ok _ _ _ _ _ _ E1 Hw1 ltac:(unfold sizeof_pipe_metabuf; lia)
    ltac:(unfold sizeof_pipe_metabuf; lia)) as (n1 & Hn1 & [[-> ->]|[-> Hlt]] & Ea1); cbn in E.
  2: { injection E as <- <-. left. split; [done|]. rewrite Ea1, length_take, length_drop.
       unfold sizeof_pipe_metabuf in *. lia. }
  change sizeof_pipe_metabuf with (Z.of_nat 32) in Ea1. rewrite <- Lm, accepted_all in Ea1. rewrite Ea1 in E.
  destruct (write_pipe ws2 _ _ 0) as [[rq2 r2]|] eqn:E2; [|done]. injection E as <- <-. right.
  destruct data as [|c data].
  { rewrite Hd in E2, Hw2. destruct ws2 as [|w ws2]; [done|]. destruct Hw2 as [Hw2 _].
    change (w <= 0) in Hw2. cbn in E2. destruct (Z.ltb_spec 0 w); [lia|]. injection E2 as <- <-.
    exists O. split; [done|]. cbn. split; [|right; auto].
    f_equal. by destruct (Z.to_nat w), ws2. }
  destruct (write_pipe_ok _ _ _ _ _ _ E2 Hw2 ltac:(rewrite Hd; cbn; lia) ltac:(lia))
    as (n2 & Hn2 & Hr & Ea2). exists (Z.to_nat n2). rewrite Ea2, Z.sub_0_r. split; [lia|]. split; [done|].
  destruct Hr as [[-> ->]|[-> Hlt]]; [left; split; [done|]; split; [lia|done]|right; split; [done|left; lia]].
Qed.

(** The parent reads nothing, or the metadata, and then the data as [read_data]
    says, completely only if they are all in the stream. *)
Lemma parent_reads_ok rs1 rs2 old meta data n o :
  meta_ok meta -> pm_dlen meta = Z.of_nat (length data) ->
  let stream := meta_image pad meta ++ take n data in
  parent_reads rs1 rs2 old = Some o -> reads_ok stream rs1 sizeof_pipe_metabuf 0 ->
  reads_ok (drop 32 stream) rs2 (pm_dlen meta) 0 ->
  o = None \/ exists got, o = Some (meta, read_data data old got) /\
    ((read_data data old got).2 = true -> (length data <= n)%nat /\ (read_data data old got).1 = data).
Proof using pad_len.
  intros Hm Hd stream E Hr1 Hr2. unfold parent_reads in E. pose proof (length_meta_image pad pad_len meta) as Lm.
  destruct (read_pipe rs1 _ 0) as [[mb r1]|] eqn:E1; [|done]. cbn in E.
  destruct (read_pipe_ok _ _ _ _ _ _ E1 Hr1 ltac:(unfold sizeof_pipe_metabuf; lia)) as [Hp [[-> Hl]|[-> _]]]; cbn in E.
  2: { injection E as <-. by left. }
  unfold sizeof_pipe_metabuf in Hl. assert (length mb = length (meta_image pad meta)) as Hlm by lia.
  apply prefix_is_take in Hp. unfold stream in Hp. rewrite Hlm, take_app_length in Hp. subst mb.
  rewrite (meta_image_inv pad pad_len meta Hm) in E. cbn in E. right.
  unfold stream in Hr2. rewrite <- Lm, drop_app_length in Hr2.
  destruct (read_pipe rs2 _ 0) as [[got r2]|] eqn:E2; [|done]. injection E as <-. rewrite Hd in *.
  destruct data as [|c data].
  { destruct (read_pipe_nothing _ _ _ _ E2 Hr2) as [-> ->]. exists None. by split. }
  destruct (read_pipe_ok _ _ _ _ _ _ E2 Hr2 ltac:(cbn; lia)) as [Hp Hr]. pose proof (prefix_length _ _ Hp) as Hpl.
  rewrite length_take in Hpl. apply prefix_is_take in Hp. rewrite take_take in Hp.
  destruct Hr as [[-> Hg]|[-> Hg]]; rewrite Z.sub_0_r in Hg.
  - exists None. assert (length got = length (c :: data)) as Eg by lia. rewrite Eg in *.
    rewrite Nat.min_l, firstn_all in Hp by lia. subst got. cbn [read_data]. split; [|intros _; split; [lia|done]].
    rewrite drop_ge, app_nil_r; [done|]. unfold grow. rewrite length_app, length_take, length_replicate. lia.
  - exists (Some (length got)). rewrite Nat.min_l in Hp by lia. split; [|done].
    unfold read_data. change (default O (Some (length got))) with (length got). by rewrite <- Hp.
Qed.

Lemma parent_reads_all rs1 rs2 old meta data :
  meta_ok meta -> pm_dlen meta = Z.of_nat (length data) -> data <> [] ->
  let stream := meta_image pad meta ++ data in
  reads_ok stream rs1 sizeof_pipe_metabuf 0 -> reads_ok (drop 32 stream) rs2 (pm_dlen meta) 0 ->
  Forall is_Some rs1 -> Forall is_Some rs2 -> (32 <= length rs1)%nat -> (length data <= length rs2)%nat ->
  parent_reads rs1 rs2 old = Some (Some (meta, (data, true))).
Proof using pad_len.
  intros Hm Hd Hne stream Hr1 Hr2 Hs1 Hs2 Hl1 Hl2. unfold parent_reads.
  pose proof (length_meta_image pad pad_len meta) as Lm.
  change sizeof_pipe_metabuf with (Z.of_nat 32) in *. rewrite <- Lm in *.
  rewrite (read_pipe_all rs1 (meta_image pad meta) data); [|by destruct (meta_image pad meta)|done..].
  cbn. rewrite (meta_image_inv pad pad_len meta Hm). cbn. unfold stream in Hr2. rewrite drop_app_length in Hr2.
  rewrite Hd in *. rewrite (read_pipe_all rs2 data []); [|done|by rewrite app_nil_r|done..]. cbn.
  rewrite drop_ge, app_nil_r; [done|]. unfold grow. rewrite length_app, length_take, length_replicate. lia.
Qed.

(** Both return. *)
Lemma child_writes_returns ws1 ws2 meta data :
  (32 <= length ws1)%nat -> (Z.to_nat (pm_dlen meta) <= length ws2)%nat -> (1 <= length ws2)%nat ->
  is_Some (child_writes pad ws1 ws2 meta data).
Proof using Type.
  intros H1 H2 H3. unfold child_writes, sizeof_pipe_metabuf.
  destruct (write_pipe_returns ws1 (meta_image pad meta) 32 0) as [[rq1 r1] ->]; [done|done|clear -H1; lia|].
  cbn. destruct (truthy r1); [|done].
  destruct (write_pipe_returns ws2 data (pm_dlen meta) 0) as [[rq2 r2] ->]; [done|by rewrite Z.sub_0_r|done|].
  done.
Qed.

Lemma parent_reads_returns stream rs1 rs2 old meta data n :
  meta_ok meta -> reads_ok stream rs1 sizeof_pipe_metabuf 0 -> stream = meta_image pad meta ++ take n data ->
  (32 <= length rs1)%nat -> (Z.to_nat (pm_dlen meta) <= length rs2)%nat -> (1 <= length rs2)%nat ->
  is_Some (parent_reads rs1 rs2 old).
Proof using pad_len.
  intros Hm Hr1 -> H1 H2 H3. unfold parent_reads. pose proof (length_meta_image pad pad_len meta) as Lm.
  destruct (read_pipe_returns rs1 sizeof_pipe_metabuf 0) as [[mb r1] E];
    [unfold sizeof_pipe_metabuf; lia|lia|]. rewrite E. cbn.
  destruct (read_pipe_ok _ _ _ _ _ _ E Hr1 ltac:(unfold sizeof_pipe_metabuf; lia)) as [Hp [[-> Hl]|[-> _]]];
    cbn; [|done]. unfold sizeof_pipe_metabuf in Hl.
  apply prefix_is_take in Hp. replace (length mb) with (length (meta_image pad meta)) in Hp by lia.
  rewrite take_app_length in Hp. subst mb. rewrite (meta_image_inv pad pad_len meta Hm). cbn.
  destruct (read_pipe_returns rs2 (pm_dlen meta) 0) as [[got r2] ->]; [by rewrite Z.sub_0_r|done|done].
Qed.

(** C21. Through the pipe: whatever pieces the kernel cuts the writes of the child
    and the reads of the parent into and wherever an error stops either of
    them, both loops end, and the parent reads no metadata, or exactly the
    metadata of the child and then the data as [read_data] says, which is what
    the thread that stores the snapshot is modelled with; it takes the data
    for complete only when they are the data of the child and the child exits
    with success. When the child does and no read fails, the parent gets all. *)
Theorem snapshot_through_pipe ws1 ws2 meta data :
  meta_ok meta -> pm_dlen meta = Z.of_nat (length data) ->
  writes_ok ws1 sizeof_pipe_metabuf 0 -> writes_ok ws2 (pm_dlen meta) 0 ->
  (32 <= length ws1)%nat -> (length data <= length ws2)%nat -> (1 <= length ws2)%nat ->
  exists stream exited, child_writes pad ws1 ws2 meta data = Some (stream, exited) /\
  forall rs1 rs2 old,
    reads_ok stream rs1 sizeof_pipe_metabuf 0 -> reads_ok (drop 32 stream) rs2 (pm_dlen meta) 0 ->
    (32 <= length rs1)%nat -> (length data <= length rs2)%nat -> (1 <= length rs2)%nat ->
    exists o, parent_reads rs1 rs2 old = Some o /\
      (o = None \/ exists got, o = Some (meta, read_data data old got) /\
         ((read_data data old got).2 = true -> exited = true /\ (read_data data old got).1 = data)) /\
      (exited = true -> Forall is_Some rs1 -> Forall is_Some rs2 -> o = Some (meta, (data, true))).
Proof using pad_len.
  intros Hm Hd Hw1 Hw2 Hl1 Hl2 Hl3.
  destruct (child_writes_returns ws1 ws2 meta data) as [[stream exited] Ec]; [done|lia|done|].
  exists stream, exited. split; [done|]. intros rs1 rs2 old Hr1 Hr2 Hn1 Hn2 Hn3.
  destruct (child_writes_ok _ _ _ _ _ _ Ec Hd Hw1 Hw2) as [[-> Hs]|(n & Hn & Es & Hx)].
  - exists None. split; [|split; [by left|done]]. unfold parent_reads.
    destruct (read_pipe_returns rs1 sizeof_pipe_metabuf 0) as [[mb r] E]; [unfold sizeof_pipe_metabuf; lia|lia|].
    rewrite E. cbn.
    destruct (read_pipe_ok _ _ _ _ _ _ E Hr1 ltac:(unfold sizeof_pipe_metabuf; lia)) as [Hp [[-> Hg]|[-> _]]]; [|done].
    apply prefix_length in Hp. unfold sizeof_pipe_metabuf in Hg. lia.
  - destruct (parent_reads_returns stream rs1 rs2 old meta data n Hm Hr1 Es) as [o Ep]; [done|lia|done|].
    exists o. split; [done|]. subst stream. split.
    + destruct (parent_reads_ok rs1 rs2 old meta data n o Hm Hd Ep Hr1 Hr2) as [->|(got & -> & Hg)]; [by left|].
      right. exists got. split; [done|]. intros Hc. destruct (Hg Hc) as [Hle Hb]. split; [|done].
      destruct Hx as [[-> _]|[_ [Hlt|He]]]; [done|lia|]. subst data. by destruct got.
    + intros -> ? ?. destruct Hx as [(_ & -> & Hne)|[Hf _]]; [|done]. rewrite firstn_all in *.
      rewrite (parent_reads_all rs1 rs2 old meta data) in Ep by done. by injection Ep as <-.
Qed.

End Transfer.

(** An instance: 4 bytes of data, short writes and short reads. *)
Definition data4 : bytes := ["a"%char; "b"%char; "c"%char; "d"%char].
Definition meta4 : pipe_metabuf_t := PipeMetabuf 3 7 4 1.
Definition pad4 : bytes := replicate 4 NUL.

Lemma snapshot_through_pipe_witness :
  child_writes (H := little_host) pad4 (20 :: replicate 31 12) (1 :: replicate 3 3) meta4 data4 =
    Some (meta_image (H := little_host) pad4 meta4 ++ data4, true) /\
  exists stream exited,
    child_writes (H := little_host) pad4 (20 :: replicate 31 12) (1 :: replicate 3 3) meta4 data4 =
      Some (stream, exited) /\
  forall rs1 rs2 old,
    reads_ok stream rs1 sizeof_pipe_metabuf 0 -> reads_ok (drop 32 stream) rs2 4 0 ->
    (32 <= length rs1)%nat -> (4 <= length rs2)%nat -> (1 <= length rs2)%nat ->
    exists o, parent_reads (H := little_host) rs1 rs2 old = Some o /\
      (o = None \/ exists got, o = Some (meta4, read_data data4 old got) /\
         ((read_data data4 old got).2 = true -> exited = true /\ (read_data data4 old got).1 = data4)) /\
      (exited = true -> Forall is_Some rs1 -> Forall is_Some rs2 -> o = Some (meta4, (data4, true))).
Proof.
  split; [by vm_compute|].
  apply (snapshot_through_pipe (H := little_host) pad4 eq_refl (20 :: replicate 31 12) (1 :: replicate 3 3) meta4 data4).
  - unfold meta_ok, meta4. cbn. lia.
  - done.
  - split; [done|intros _]. split; [done|intros Hf]. by vm_compute in Hf.
  - split; [done|intros _]. split; [done|intros Hf]. by vm_compute in Hf.
  - cbn. lia.
  - cbn. lia.
  - cbn. lia.
Defined.
