(* ===== verification/PrimaryCtx.v ===== *)
(** * The primary contexts of a snapshot (proofs about src/snapshot.c)

    The handler that the snapshot of the xApp gives to the traversal of the
    context table collects every context of which this server is the primary,
    once, growing its array as needed. *)

From S2P Require Import Prelude Monad Types HashTable HashMap State Log Serialize Snapshot.
Open Scope Z_scope.

(** What the handler adds for a key. *)
Definition primary_of (m : gmap key_arg Z) (k : key_arg) : option string :=
  match k with
  | KStr s => if decide (m !! k = Some RFT_PRIMARY) then Some s else None
  | KNum _ => None
  end.

(** The array after the keys [ks]: it is large enough for its length, and no
    larger than twice that. *)
Record collected (m : gmap key_arg Z) (ks : list key_arg) (p : primary_ctx_t) : Prop := {
  co_names : pc_contexts p = omap (primary_of m) ks;
  co_len : pc_len p = Z.of_nat (length (pc_contexts p));
  co_size : 64 <= pc_size p <= Z.max 64 (2 * pc_len p);
  co_fits : pc_len p <= pc_size p }.

Lemma omap_length_le {A B} (f : A -> option B) l : (length (omap f l) <= length l)%nat.
Proof. induction l as [|x l IH]; [done|]. cbn. destruct (f x); simpl; lia. Qed.

Lemma primary_ctx_handler_ok t m ks key p :
  ht_rep t m -> t_key_type t = STRING_KEY -> key_ok STRING_KEY key ->
  collected m ks p -> Z.of_nat (length ks) < 2 ^ 31 - 1 ->
  exists p', primary_ctx_handler true key (PctxSt t p) = Ok tt (PctxSt t p') /\
    collected m (ks ++ [key]) p'.
Proof.
  intros R Hkt Hkey [Hn Hl [Hs1 Hs2] Hf] Hmax. unfold primary_ctx_handler.
  assert (zoom px_tab_l (hashtable_get (Some key)) (PctxSt t p)
    = Ok (default 0 (m !! key)) (PctxSt t p)) as Eg.
  { unfold zoom. cbn [lget px_tab_l px_tab].
    by rewrite (hashtable_get_ok t m key R) by (by rewrite Hkt). }
  rewrite (bind_Ok _ _ _ _ _ Eg). destruct key as [n|name]; [done|].
  assert (length (pc_contexts p) <= length ks)%nat as Hle by (rewrite Hn; apply omap_length_le).
  assert (omap (primary_of m) (ks ++ [KStr name]) = pc_contexts p ++
    (if decide (m !! KStr name = Some RFT_PRIMARY) then [name] else [])) as En.
  { rewrite omap_app, Hn. f_equal. cbn. by case_decide. }
  destruct (decide (m !! KStr name = Some RFT_PRIMARY)) as [Hm|Hm].
  - rewrite Hm. change (truthy _ && _) with true. cbv iota.
    rewrite (bind_Ok _ _ (PctxSt t p) p (PctxSt t p)) by done.
    rewrite (bind_Ok _ _ (PctxSt t p) tt (PctxSt t p)) by done. cbv zeta.
    set (size := if pc_size p =? pc_len p then u32 (pc_size p * 2) else pc_size p).
    assert (pc_len p < size /\ 64 <= size <= Z.max 64 (2 * (pc_len p + 1))) as [Hlt Hsz].
    { unfold size. destruct (Z.eqb_spec (pc_size p) (pc_len p)); [|lia].
      rewrite u32_small by lia. lia. }
    rewrite (proj2 (Z.ltb_lt _ _) Hlt). eexists. split; [reflexivity|].
    rewrite u32_small by lia. rewrite Hl, Nat2Z.id, firstn_all.
    split; cbn [pc_contexts pc_len pc_size]; rewrite ?length_app; cbn; try lia. done.
  - exists p. split.
    + assert (truthy (default 0 (m !! KStr name)) && (default 0 (m !! KStr name) =? RFT_PRIMARY)
        = false) as ->; [|done].
      destruct (m !! KStr name) as [v|]; [|done]. cbn. apply andb_false_iff. right.
      apply Z.eqb_neq. intros ->. by apply Hm.
    + split; rewrite ?En, ?app_nil_r; done.
Qed.

(** The contexts are exactly those this server is the primary of, each once. *)
Lemma primary_contexts_ok t m :
  ht_rep t m -> t_key_type t = STRING_KEY -> Z.of_nat (size m) < 2 ^ 31 ->
  exists names, primary_contexts true t = Ok names t /\ NoDup names /\
    forall name, name ∈ names <-> m !! KStr name = Some RFT_PRIMARY.
Proof.
  intros R Hkt Hmax. pose proof R as (B & HB & HT). unfold primary_contexts.
  assert (length (keys (mjoin B)) = size m) as Hlen.
  { rewrite <- HT. unfold table. rewrite map_size_list_to_map, !length_fmap; [done|].
    rewrite <- list_fmap_compose. apply (hb_keys _ _ HB). }
  assert (forall k, k ∈ keys (mjoin B) -> key_ok STRING_KEY k) as Hok.
  { intros k (c & -> & Hc)%list_elem_of_fmap. apply list_elem_of_join in Hc as (l & Hc & Hl).
    apply list_elem_of_lookup in Hl as [i Hi]. rewrite <- Hkt. by apply (hb_key _ _ HB i l c). }
  pose proof (hashtable_foreach_ok never px_tab_l ltac:(by intros [])
    (primary_ctx_handler true) t B HB (fun ks s => collected m ks (px_ctxs s))) as F.
  specialize (F ltac:(
    intros l1 key l2 [t' p] Hks Ht Hc; cbn in Ht; subst t';
    destruct (primary_ctx_handler_ok t m l1 key p R Hkt) as (p' & E & C');
      [apply Hok; rewrite Hks; apply elem_of_app; right; by left
      |done
      |rewrite <- Hlen, Hks, length_app in Hmax; cbn in Hmax; lia
      |by eapply wp_eq])
    (PctxSt t init_pctxs) eq_refl ltac:(by split)).
  apply wp_never in F as ([] & [t' p] & E & Ht & [Hn _ _ _]). cbn in Ht, Hn. subst t'.
  rewrite E. cbn [px_ctxs px_tab]. eexists. split; [reflexivity|]. rewrite Hn.
  assert (NoDup (keys (mjoin B))) as Hnd by apply (hb_keys _ _ HB). split.
  - clear -Hnd. induction Hnd as [|k ks Hk Hnd IH]; [by apply NoDup_nil_2|]. cbn.
    destruct (primary_of m k) as [s|] eqn:Es; [|done]. apply NoDup_cons. split; [|done].
    intros (k' & Hk' & Es')%list_elem_of_omap. destruct k as [|x], k' as [|y]; try done.
    cbn in Es, Es'. repeat case_decide; simplify_eq. done.
  - intros name. rewrite list_elem_of_omap. split.
    + intros ([n|s] & _ & Es); [done|]. cbn in Es. case_decide; by simplify_eq.
    + intros Hm. exists (KStr name). split.
      * rewrite <- HT in Hm. apply elem_of_list_to_map_2 in Hm.
        apply list_elem_of_fmap in Hm as (c & Ec & Hc). apply list_elem_of_fmap. exists c.
        split; [congruence|done].
      * cbn. by rewrite decide_True.
Qed.
