(* ===== verification/RaftLog.v ===== *)
(** * The two logs in the server (src/log.c)

    The operations of log.c that reach beyond their log: appending (which may
    trigger a snapshot and, for the raft log, changes the configuration), the
    consistency check of AppendEntries and the removal of conflicting entries. *)

From S2P Require Import Prelude Monad Types LogRing Mtl Config HashTable State Log.
From S2P Require Import Serialize Snapshot.
Open Scope Z_scope.

Section RaftLog.
Context `{Rmr} `{Host} (k : sys).

Definition get_raft_log_entry (log_index : index_t) : M St (option log_entry_t) :=
  zoom raft_log_l (get_log_entry raft_log_lock log_index).
Definition get_server_log_entry (log_index : index_t) : M St (option log_entry_t) :=
  zoom xapp_log_l (get_log_entry server_log_lock log_index).
Definition get_raft_last_log_index : M St index_t :=
  zoom raft_log_l (get_last_log_index raft_log_lock).
Definition get_server_last_log_index : M St index_t :=
  zoom xapp_log_l (get_last_log_index server_log_lock).

(** [get_myself_id( )] *)
Definition my_id : M St server_id_t := gets (fun s => m_self_id (g_me s)).

(** What an appended configuration entry does to the configuration. *)
Definition apply_config_entry (entry : log_entry_t) : M St unit :=
  data ← from_opt OutOfBounds (cmd_of_bytes (e_data entry));
  self ← my_id;
  if e_command entry =? ADD_MEMBER then
    found ← zoom config_l (raft_config_get_server (cc_server_id data));
    (match found with
     | Some _ => mret tt
     | None =>
         added ← zoom config_l
           (raft_config_add_server self (cc_server_id data) (Some (cc_target data)) 0);
         when (negb (truthy added)) exit1
     end);;
    '(ok, _) ← zoom config_l (raft_config_set_server_status (cc_server_id data) VOTING_MEMBER);
    when (negb (truthy ok)) exit1
  else if e_command entry =? DEL_MEMBER then
    zoom config_l (raft_config_remove_server self (cc_server_id data))
  else mret tt.

Definition append_raft_log_entry (entry : log_entry_t) : M St unit :=
  zoom raft_log_l (lock raft_log_lock lg_lock_l);;
  over ← zoom raft_log_l over_threshold;
  when over (take_raft_snapshot k);;
  appended ← zoom raft_log_l (append_log_entry entry);
  when (negb (truthy appended)) exit1;;
  when (e_type entry =? RAFT_CONFIG) (apply_config_entry entry);;
  zoom raft_log_l (unlock lg_lock_l).

Definition append_server_log_entry (cb : option take_snapshot_cb_t) (entry : log_entry_t)
  : M St unit :=
  zoom xapp_log_l (lock server_log_lock lg_lock_l);;
  over ← zoom xapp_log_l over_threshold;
  when over (take_xapp_snapshot k cb);;
  appended ← zoom xapp_log_l (append_log_entry entry);
  when (negb (truthy appended)) exit1;;
  zoom xapp_log_l (unlock lg_lock_l).

(** Falling back to the configuration before an entry that is removed. *)
Definition revert_config_entry (entry : log_entry_t) : M St unit :=
  cmd ← from_opt OutOfBounds (cmd_of_bytes (e_data entry));
  self ← my_id;
  if e_command entry =? ADD_MEMBER then
    zoom config_l (raft_config_remove_server self (cc_server_id cmd))
  else if e_command entry =? DEL_MEMBER then
    added ← zoom config_l
      (raft_config_add_server self (cc_server_id cmd) (Some (cc_target cmd)) 0);
    when (negb (truthy added)) exit1;;
    '(ok, _) ← zoom config_l (raft_config_set_server_status (cc_server_id cmd) VOTING_MEMBER);
    when (negb (truthy ok)) exit1
  else mret tt.

(** The loop runs from the last entry down to [committed_index]. *)
Fixpoint remove_raft_conflicting_loop (fuel : nat) (prev_log_index : index_t)
    (prev_log_term : term_t) (committed_index : index_t) : M St unit :=
  last ← gets (fun s => l_last_log_index (lg (g_raft_log s)));
  if committed_index <? last then
    match fuel with
    | O => fail OutOfFuel
    | S fuel =>
        entry ← zoom raft_log_l (on_ring log_ring_extract_r);
        let next :=
          zoom raft_log_l (mod_lg (fun g => set_last (u64 (l_last_log_index g - 1)) g));;
          remove_raft_conflicting_loop fuel prev_log_index prev_log_term committed_index in
        match entry with
        | Some e =>
            if (e_index e =? prev_log_index) && (e_term e =? prev_log_term) then
              zoom raft_log_l (on_ring (log_ring_insert e));; mret tt
            else
              when (e_type e =? RAFT_CONFIG) (revert_config_entry e);;
              zoom raft_log_l
                (mod_lg (fun g => set_memsize (u64 (l_memsize g - entry_size e)) g));;
              next
        | None => next
        end
    end
  else mret tt.

Definition remove_raft_conflicting_entries (prev_log_index : index_t) (prev_log_term : term_t)
    (committed_index : index_t) : M St unit :=
  last ← gets (fun s => l_last_log_index (lg (g_raft_log s)));
  remove_raft_conflicting_loop (Z.to_nat (last - committed_index)) prev_log_index prev_log_term
    committed_index.

Definition check_raft_log_consistency (prev_log_index : index_t) (prev_log_term : term_t)
    (committed_index : index_t) : M St Z :=
  zoom raft_log_l (lock raft_log_lock lg_lock_l);;
  last ← gets (fun s => l_last_log_index (lg (g_raft_log s)));
  log_entry ← zoom raft_log_l (on_ring (log_ring_get last));
  (match log_entry with
   | Some e =>
       when (negb (e_index e =? prev_log_index) || negb (e_term e =? prev_log_term))
         (remove_raft_conflicting_entries prev_log_index prev_log_term committed_index)
   | None => mret tt
   end);;
  log_entry ← zoom raft_log_l (on_ring (log_ring_get prev_log_index));
  '(prev_term, prev_index) ← (
    match log_entry with
    | Some e => mret (e_term e, e_index e)
    | None =>
        zoom snap_l (lock raft_snapshot_lock raft_snapshot_lock_l);;
        x ← gets (fun s => sn_raft_snapshot (g_snap s));
        zoom snap_l (unlock raft_snapshot_lock_l);;
        mret (rs_last_term x, rs_last_index x)
    end);
  let success := b2z ((prev_term =? prev_log_term) && (prev_index =? prev_log_index)) in
  zoom raft_log_l (unlock lg_lock_l);;
  mret success.

Definition get_raft_last_log_term : M St term_t :=
  zoom raft_log_l (lock raft_log_lock lg_lock_l);;
  last ← gets (fun s => l_last_log_index (lg (g_raft_log s)));
  entry ← zoom raft_log_l (on_ring (log_ring_get last));
  zoom raft_log_l (unlock lg_lock_l);;
  match entry with
  | Some e => mret (e_term e)
  | None =>
      lock raft_state_lock state_lock_l;;
      term ← gets (fun s => m_current_term (g_me s));
      unlock state_lock_l;;
      mret term
  end.

End RaftLog.
