(* ===== verification/Raft.v ===== *)
(** * The consensus handlers (src/rft.c)

    Elections, log replication between raft servers, commitment and
    application of configuration entries, and the installation of snapshots:
    every handler the worker thread runs, with its locks, and the bodies of
    the loops of the other threads. [k] holds the results of the system calls
    and [mem] those of the allocations of the running handler. *)

From S2P Require Import Prelude Monad Types LogRing Mtl Config HashTable State Utils.
From S2P Require Import Log Serialize Snapshot RaftLog.
Open Scope Z_scope.

Definition MAX_HEARBEAT_TIMEOUTS : Z := 5.

Section Raft.
Context `{Rmr} `{Host} (k : sys) (mem : allocs).

(** The assertions and fatal tests on [me.state]. *)
Definition me : M St raft_state_t := gets g_me.

(** [timespec_get( &election_timeout ); timespec_add_ms( election_timeout,
    rand_timeout_ms )] *)
Definition set_election_timeout : M elec_st unit :=
  modify (fun s => set_el_timeout (timespec_add_ms (el_now s) (el_rand_timeout_ms s)) s).

Definition restart_election_timer : M St unit :=
  zoom elec_l (lock election_timeout_lock el_lock_l;; set_election_timeout;; unlock el_lock_l).

Definition new_rand_timeout : M St unit :=
  zoom elec_l (t ← randomize_election_timeout; modify (set_el_rand t)).

(** ** Elections *)

Definition become_follower : M St unit :=
  upd_me (me_state FOLLOWER);;
  new_rand_timeout.

Definition become_leader : M St unit :=
  m ← me;
  when (negb (bool_decide (m_state m = CANDIDATE))) exit1;;
  upd_me (me_state LEADER);;
  upd_me (me_leader (m_self_id m));;
  entry ← from_opt Exit (new_raft_log_entry mem (m_current_term m) RAFT_NOOP 0 []);
  append_raft_log_entry k entry;;
  last ← get_raft_last_log_index;
  zoom config_l (raft_config_set_all_server_indexes last).

(** [become_candidate] up to its loop: the state lock is held afterwards. *)
Definition become_candidate : M St unit :=
  m ← me;
  when (negb (bool_decide (m_state m = FOLLOWER))) exit1;;
  lock raft_state_lock state_lock_l;;
  upd_me (me_state CANDIDATE).

(** One turn of its loop, up to the timed wait: the vote request it sends,
    unless its own vote is already a majority. *)
Definition candidate_round : M St (option request_vote_t) :=
  upd_me (fun m => me_term (u64 (m_current_term m + 1)) m);;
  upd_me (fun m => me_voted_for (m_self_id m) m);;
  upd_me (me_rcv_votes 1);;
  zoom config_l raft_config_reset_votes;;
  m ← me;
  voted ← zoom config_l (raft_config_set_new_vote (m_self_id m));
  when (negb (truthy voted)) exit1;;
  m ← me;
  majority ← zoom config_l (has_majority_of_votes (m_rcv_votes m));
  if truthy majority then become_leader;; mret None
  else
    last_log_index ← get_raft_last_log_index;
    last_log_term ← get_raft_last_log_term;
    new_rand_timeout;;
    zoom elec_l set_election_timeout;;
    mret (Some (ReqVote (m_current_term m) last_log_index last_log_term (m_self_id m))).

Definition match_terms (term : term_t) : M St term_match_e :=
  m ← me;
  if term <? m_current_term m then mret E_OUTDATED_MSG
  else if term =? m_current_term m then mret E_TERMS_MATCH
  else
    upd_me (me_term term);;
    upd_me (me_voted_for EmptyString);;
    upd_me (me_leader EmptyString);;
    when (bool_decide (m_state m = LEADER) || bool_decide (m_state m = CANDIDATE))
      become_follower;;
    mret E_OUTDATED_TERM.

(** The right operands of [||] and [&&] are only evaluated when needed. *)
Definition candidate_log_ok (req : request_vote_t) : M St bool :=
  term ← get_raft_last_log_term;
  if term <? rv_last_log_term req then mret true
  else
    term ← get_raft_last_log_term;
    if rv_last_log_term req =? term then
      last ← get_raft_last_log_index;
      mret (last <=? rv_last_log_index req)
    else mret false.

Definition handle_vote_request (req : request_vote_t) : M St reply_vote_t :=
  voter ← my_id;
  timed_out ← zoom elec_l (
    lock election_timeout_lock el_lock_l;;
    e ← get;
    unlock el_lock_l;;
    mret (timespec_lt (el_now e) (el_timeout e)));
  lock raft_state_lock state_lock_l;;
  matched ← match_terms (rv_term req);
  m ← me;
  granted ← (
    if negb timed_out && bool_decide (m_state m = FOLLOWER) then mret 0
    else if decide (matched = E_OUTDATED_MSG) then mret 0
    else
      log_ok ← candidate_log_ok req;
      (if log_ok && bool_decide (m_voted_for m = EmptyString)
       then upd_me (me_voted_for (rv_candidate_id req)) else mret tt);;
      m ← me;
      mret (b2z (bool_decide (rv_candidate_id req = m_voted_for m))));
  unlock state_lock_l;;
  mret (RepVote (m_current_term m) granted voter).

Definition handle_vote_reply (reply : reply_vote_t) : M St unit :=
  lock raft_state_lock state_lock_l;;
  matched ← match_terms (pv_term reply);
  m ← me;
  (if bool_decide (matched = E_TERMS_MATCH) && bool_decide (m_state m = CANDIDATE) &&
      truthy (pv_granted reply)
   then
     is_new_vote ← zoom config_l (raft_config_set_new_vote (pv_voter reply));
     if truthy is_new_vote then
       upd_me (fun m => me_rcv_votes (u32 (m_rcv_votes m + 1)) m);;
       m ← me;
       majority ← zoom config_l (has_majority_of_votes (m_rcv_votes m));
       when (truthy majority) become_leader
     else mret tt
   else mret tt);;
  unlock state_lock_l.

Definition handle_membership_request (req : membership_request_t) (src_addr : target_t)
  : M St unit :=
  lock raft_state_lock state_lock_l;;
  m ← me;
  (if bool_decide (m_state m = LEADER) && negb (bool_decide (mr_server_id req = m_self_id m))
   then
     zoom config_l (raft_config_add_server (m_self_id m) (mr_server_id req) (Some src_addr)
       (mr_last_log_index req));; mret tt
   else mret tt);;
  unlock state_lock_l.

(** ** Commitment *)

(** The loop of [raft_apply_log_entries]; the result is [cfg_change]. *)
Definition apply_member (e : log_entry_t) : M St unit :=
  if e_command e =? ADD_MEMBER then
    data ← from_opt OutOfBounds (cmd_of_bytes (e_data e));
    server ← zoom config_l (raft_config_get_server (cc_server_id data));
    match server with
    | Some p =>
        x ← zoom config_l (deref p);
        m ← me;
        when (bool_decide (s_server_id x = m_self_id m)) become_follower
    | None => mret tt
    end
  else mret tt.

Fixpoint apply_loop (fuel : nat) (cfg_change : bool) : M St bool :=
  m ← me;
  if m_last_applied m <? m_commit_index m then
    match fuel with
    | O => fail OutOfFuel
    | S fuel =>
        entry ← get_raft_log_entry (u64 (m_last_applied m + 1));
        e ← from_opt NullDeref entry;
        cfg ← (
          if e_type e =? RAFT_CONFIG then
            apply_member e;;
            mret true
          else mret cfg_change);
        upd_me (fun m => me_applied (u64 (m_last_applied m + 1)) m);;
        apply_loop fuel cfg
    end
  else mret cfg_change.

Definition raft_apply_log_entries : M St unit :=
  m ← me;
  cfg_change ← apply_loop (Z.to_nat (m_commit_index m - m_last_applied m)) false;
  when cfg_change update_replica_servers.

(** The leader's search for the newest entry of its term that a majority
    holds: [None] when the function returns at once. *)
Fixpoint find_commit (fuel : nat) (new_commit_index : index_t) : M St (option index_t) :=
  m ← me;
  if m_commit_index m <? new_commit_index then
    match fuel with
    | O => fail OutOfFuel
    | S fuel =>
        entry ← get_raft_log_entry new_commit_index;
        match entry with
        | None => mret None
        | Some e =>
            if negb (e_term e =? m_current_term m) then mret None
            else
              majority ← zoom config_l (has_majority_of_match_index new_commit_index);
              if truthy majority then mret (Some new_commit_index)
              else find_commit fuel (new_commit_index - 1)
        end
    end
  else mret (Some new_commit_index).

(** The search for a configuration entry among those that become committed;
    [false] when an entry is missing and the function returns. *)
Fixpoint release_config (fuel : nat) (cindex new_commit_index : index_t) : M St bool :=
  if cindex <=? new_commit_index then
    match fuel with
    | O => fail OutOfFuel
    | S fuel =>
        entry ← get_raft_log_entry cindex;
        match entry with
        | None => mret false
        | Some e =>
            if e_type e =? RAFT_CONFIG then
              zoom config_l (set_configuration_changing 0);; mret true
            else release_config fuel (u64 (cindex + 1)) new_commit_index
        end
    end
  else mret true.

(** The end of the function, for all states. *)
Definition set_commit_index (new_commit_index : index_t) : M St unit :=
  m ← me;
  if m_commit_index m <? new_commit_index then
    upd_me (me_commit new_commit_index);;
    raft_apply_log_entries
  else mret tt.

Definition raft_commit_log_entries (new_commit_index : index_t) : M St unit :=
  m ← me;
  if decide (m_state m = LEADER) then
    found ← find_commit (Z.to_nat (new_commit_index - m_commit_index m)) new_commit_index;
    match found with
    | None => mret tt
    | Some n =>
        let cindex := u64 (m_commit_index m + 1) in
        ok ← release_config (Z.to_nat (n + 1 - cindex)) cindex n;
        if ok : bool then set_commit_index n else mret tt
    end
  else
    last ← get_raft_last_log_index;
    set_commit_index (if new_commit_index <? last then new_commit_index else last).

(** ** Log replication *)

Definition handle_append_entries_request (req : request_append_entries_t)
  : M St reply_append_entries_t :=
  lock raft_state_lock state_lock_l;;
  matched ← match_terms (ra_term req);
  m ← me;
  success ← (
    if decide (matched = E_OUTDATED_MSG) then mret 0
    else
      when (bool_decide (m_current_leader m = EmptyString)) (upd_me (me_leader (ra_leader_id req)));;
      consistent ← check_raft_log_consistency (ra_prev_log_index req) (ra_prev_log_term req)
        (m_commit_index m);
      success ← (
        if truthy consistent then
          for_ (Z.to_nat (ra_n_entries req)) 0 (fun i =>
            e ← from_opt OutOfBounds (ra_entries req !! i);
            append_raft_log_entry k e);;
          m ← me;
          when (m_commit_index m <? ra_leader_commit req)
            (raft_commit_log_entries (ra_leader_commit req));;
          mret 1
        else mret 0);
      restart_election_timer;;
      mret success);
  unlock state_lock_l;;
  last ← get_raft_last_log_index;
  mret (RepAppend (m_current_term m) last success (m_self_id m)).

Definition handle_append_entries_reply (reply : reply_append_entries_t) : M St unit :=
  lock raft_state_lock state_lock_l;;
  matched ← match_terms (pa_term reply);
  m ← me;
  (if bool_decide (matched = E_TERMS_MATCH) && bool_decide (m_state m = LEADER) then
     server ← zoom config_l (raft_config_get_server (pa_server_id reply));
     match server with
     | None => mret tt
     | Some p =>
         now ← gets (fun s => el_now (g_elec s));
         zoom config_l (upd p (upd_replied_ts now));;
         zoom config_l (upd p (upd_next_index (u64 (pa_last_log_index reply + 1))));;
         when (truthy (pa_success reply)) (
           zoom config_l (upd p (upd_match_index (pa_last_log_index reply)));;
           m ← me;
           when (m_commit_index m <? pa_last_log_index reply)
             (raft_commit_log_entries (pa_last_log_index reply)));;
         zoom config_l (upd p (upd_hb_timeouts 0))
     end
   else mret tt);;
  unlock state_lock_l.

(** [send_append_entries]: the header and the payload of the message, when
    this server is still the leader. The payload's size is an [int]. *)
Definition send_append_entries (prev_log_index : index_t) (n_entries : Z) (srlz_buf : bytes)
    (n_bytes : Z) : M St (option (appnd_entr_hdr_t * bytes)) :=
  when (i32 (APND_ENTR_HDR_LEN + n_bytes) <? 0) exit1;;
  prev ← get_raft_log_entry prev_log_index;
  '(pidx, pterm) ← (
    match prev with
    | Some e => mret (e_index e, e_term e)
    | None =>
        zoom snap_l (lock raft_snapshot_lock raft_snapshot_lock_l);;
        x ← gets (fun s => sn_raft_snapshot (g_snap s));
        zoom snap_l (unlock raft_snapshot_lock_l);;
        mret (rs_last_index x, rs_last_term x)
    end);
  payload ← (if truthy n_entries then from_opt OutOfBounds (sub_bytes 0 (Z.to_nat n_bytes) srlz_buf)
             else mret []);
  lock raft_state_lock state_lock_l;;
  m ← me;
  unlock state_lock_l;;
  mret (if decide (m_state m = LEADER)
        then Some (AppndEntrHdr (m_current_term m) (m_self_id m) pidx pterm (m_commit_index m)
                     n_entries n_bytes, payload)
        else None).

(** ** Snapshots *)

Definition handle_raft_snapshot_request (realloc_ok : bool) (req : raft_snapshot_request_t)
  : M St raft_snapshot_reply_t :=
  lock raft_state_lock state_lock_l;;
  matched ← match_terms (rq_term req);
  m ← me;
  success ← (
    if decide (matched = E_OUTDATED_MSG) then mret 0
    else
      installed ← install_raft_snapshot realloc_ok (rq_snapshot req);
      if truthy installed then upd_me (me_leader (rq_leader_id req));; mret 1 else mret 0);
  last ← (if truthy success then m ← me; mret (m_last_applied m) else get_raft_last_log_index);
  unlock state_lock_l;;
  restart_election_timer;;
  mret (RepRsnap success (m_current_term m) last (m_self_id m)).

Definition handle_raft_snapshot_reply (reply : raft_snapshot_reply_t) : M St unit :=
  handle_append_entries_reply
    (RepAppend (Types.rp_term reply) (rp_last_index reply) (rp_success reply)
       (rp_server_id reply)).

End Raft.
