(* ===== verification/XApp.v ===== *)
(** * The replication of the xApp's state (src/rft.c)

    The interface the xApp calls ([rft_replicate], [get_role]) and the handlers
    of the asynchronous replication between the primary of a context and its
    backups. The callbacks of the xApp are calls recorded in [ax_applied] and
    [ax_installed]. *)

From S2P Require Import Prelude Monad Types LogRing Mtl Config HashTable State Log.
From S2P Require Import Serialize Snapshot RaftLog.
Open Scope Z_scope.

Section XApp.
Context `{Rmr} `{Host} (k : sys) (mem : allocs).

Definition on_ctxtab {A} (m : M hashtable_t A) : M St A := zoom (lens_comp app_l ctxtab_l) m.
Definition on_roletab {A} (m : M hashtable_t A) : M St A := zoom (lens_comp app_l roletab_l) m.

Definition set_role (m : M hashtable_t (Z * errno_t) -> M St (Z * errno_t)) (key : option string)
    (role : Z) : M St Z :=
  '(ok, _) ← m (hashtable_insert (sys_alloc k) (sys_alloc k) (KStr <$> key) role); mret ok.

(** A call of the registered apply callback. *)
Definition apply_command_cb (command : Z) (context key : option string) (value : bytes) (len : Z)
  : M St unit :=
  registered ← gets (fun s => ax_apply_cb (g_app s));
  if registered : bool then zoom app_l (modify (add_applied (Applied command context key value len)))
  else fail NullDeref.

(** The result and the errno it leaves, where it sets one. *)
Definition rft_replicate (cb : option take_snapshot_cb_t) (command : Z)
    (context key : option string) (value : option bytes) (meid : option string) (role : Z)
  : M St (Z * option errno_t) :=
  match context, key, value with
  | Some context, Some key, Some value =>
      let entry := new_server_log_entry mem (Some context) (Some key) command value in
      ok ← (
        if negb (role =? RFT_PRIMARY) then
          r1 ← set_role on_roletab meid RFT_PRIMARY;
          if negb (truthy r1) then mret 0
          else set_role on_ctxtab (Some context) RFT_PRIMARY
        else mret 1);
      if negb (truthy ok) then mret (0, None)
      else
        e ← from_opt AssertFail entry;
        append_server_log_entry k cb e;;
        apply_command_cb command (Some context) (Some key) value (Z.of_nat (length value));;
        mret (1, None)
  | _, _, _ => mret (0, Some EINVAL)
  end.

Definition get_role (meid : option string) : M St Z :=
  on_roletab (hashtable_get (KStr <$> meid)).

(** One turn of the loop of [handle_replication_request]. *)
Definition replicate_entry (p : loc) (e : log_entry_t) : M St unit :=
  set_role on_roletab (e_context e) RFT_BACKUP;;
  set_role on_ctxtab (e_context e) RFT_BACKUP;;
  apply_command_cb (e_command e) (e_context e) (e_key e) (e_data e) (e_dlen e);;
  zoom config_l (upd p (fun x => upd_replica_index (u64 (s_replica_index x + 1)) x)).

Definition handle_replication_request (req : replication_request_t) : M St replication_reply_t :=
  self ← my_id;
  server ← zoom config_l (raft_config_get_server (rr_server_id req));
  match server with
  | None => mret (RepRepl 0 0 self)
  | Some p =>
      x ← zoom config_l (deref p);
      success ← (
        if rr_master_index req =? s_replica_index x then
          registered ← gets (fun s => ax_apply_cb (g_app s));
          if registered : bool then
            for_ (Z.to_nat (rr_n_entries req)) 0 (fun i =>
              e ← from_opt OutOfBounds (rr_entries req !! i);
              replicate_entry p e);;
            mret 1
          else mret 0
        else mret 0);
      x ← zoom config_l (deref p);
      mret (RepRepl success (s_replica_index x) self)
  end.

Definition handle_replication_reply (reply : replication_reply_t) : M St unit :=
  server ← zoom config_l (raft_config_get_server (pr_server_id reply));
  match server with
  | Some p => zoom config_l (upd p (upd_master_index (pr_replica_index reply)))
  | None => mret tt
  end.

(** The installation of an xApp snapshot excludes others by a flag. *)
Definition handle_xapp_snapshot_request (req : xapp_snapshot_request_t)
  : M St xapp_snapshot_reply_t :=
  self ← my_id;
  server ← zoom config_l (raft_config_get_server (xq_server_id req));
  match server with
  | None => mret (RepXsnap 0 0 self)
  | Some p =>
      registered ← gets (fun s => ax_install_cb (g_app s));
      success ← (
        if registered : bool then
          zoom app_l (lock installing_xapp_snapshot_lock installing_lock_l);;
          busy ← gets (fun s => ax_installing (g_app s));
          if busy : bool then
            zoom app_l (unlock installing_lock_l);;
            mret 0
          else
            zoom app_l (modify (set_installing true));;
            zoom app_l (unlock installing_lock_l);;
            let x := xq_snapshot req in
            zoom app_l (modify (add_installed (xs_items x, xs_data x)));;
            zoom config_l (upd p (upd_replica_index (xs_last_index x)));;
            zoom app_l (lock installing_xapp_snapshot_lock installing_lock_l);;
            zoom app_l (modify (set_installing false));;
            zoom app_l (unlock installing_lock_l);;
            mret 1
        else mret 0);
      x ← zoom config_l (deref p);
      mret (RepXsnap success (s_replica_index x) self)
  end.

Definition handle_xapp_snapshot_reply (reply : xapp_snapshot_reply_t) : M St unit :=
  server ← zoom config_l (raft_config_get_server (xp_server_id reply));
  match server with
  | Some p => zoom config_l (upd p (upd_master_index (xp_last_index reply)))
  | None => mret tt
  end.

(** ** The replica servers *)

(** A replica whose thread has ended is NULL; the code does not test for it. *)
Definition replica_master (i : nat) : M St index_t :=
  r ← gets (fun s => rp_servers (g_repl s));
  o ← from_opt OutOfBounds (r !! i);
  p ← from_opt NullDeref o;
  x ← zoom config_l (deref p);
  mret (s_master_index x).

Fixpoint max_master (n i : nat) (last_index : index_t) : M St index_t :=
  match n with
  | O => mret last_index
  | S n =>
      v ← replica_master i;
      v' ← (if last_index <? v then replica_master i else mret last_index);
      max_master n (S i) v'
  end.

Definition get_full_replicated_log_index : M St index_t :=
  zoom repl_l (lock replica_lock repl_lock_l);;
  n ← gets (fun s => length (rp_servers (g_repl s)));
  assert (0 <? Z.of_nat n);;
  first ← replica_master 0;
  last_index ← max_master (n - 1) 1 first;
  zoom repl_l (unlock repl_lock_l);;
  mret last_index.

End XApp.
