(* ===== verification/Server.v ===== *)
(** * Messages, the worker and the threads (src/rft.c)

    Sending through RMR with its retries, the dispatch of the worker thread,
    and the bodies of the loops of the other threads between their waits. RMR
    and Redis are libraries outside the repository: the results of their calls
    are arguments. *)

From S2P Require Import Prelude Monad Types LogRing Mtl Config HashTable State Utils.
From S2P Require Import Log Serialize Snapshot RaftLog Raft XApp.
Open Scope Z_scope.

(** ** Sending *)

Definition MAX_RMR_RETRIES : nat := 10.

(** [state] of an RMR buffer, as far as the code looks at it. *)
Inductive rmr_state := RMR_OK | RMR_ERR_RETRY | RMR_ERR_OTHER.
#[export] Instance rmr_state_eq_dec : EqDecision rmr_state.
Proof. solve_decision. Defined.

(** [send i] is the result of the [i]-th call of the send function: the state
    of the buffer it returns, or NULL. The loop returns the last result and
    the number of calls made. *)
Fixpoint send_retry (retries : nat) (calls : nat) (send : nat -> option rmr_state)
    (state : option rmr_state) : option rmr_state * nat :=
  match retries with
  | S retries =>
      if decide (state = Some RMR_ERR_RETRY)
      then send_retry retries (S calls) send (send calls) else (state, calls)
  | O => (state, calls)
  end.

(** [rft_send_msg], [rft_rts_msg] and [rft_send_wh_msg] differ only in the send
    function and the log messages: 1 when the message was sent, and the
    number of calls. *)
Definition rft_send {S} (max_msg_size payload_size : Z) (send : nat -> option rmr_state)
  : M S (Z * nat) :=
  if max_msg_size <? payload_size then mret (0, 0%nat)
  else
    let '(state, calls) := send_retry MAX_RMR_RETRIES 1 send (send 0%nat) in
    st ← from_opt NullDeref state;
    mret (if decide (st = RMR_ERR_RETRY) then 0 else if decide (st = RMR_OK) then 1 else 0, calls).

Definition rft_send_msg {S} := @rft_send S.
Definition rft_rts_msg {S} := @rft_send S.
Definition rft_send_wh_msg {S} := @rft_send S.

(** The new value of [max_msg_size] and the result. *)
Definition set_max_msg_size (size max_msg_size : Z) : Z * Z :=
  if size <? 512 then (max_msg_size, 0) else (size, 1).

Section Server.
Context `{Rmr} `{Host} (k : sys) (mem : allocs) (pad : bytes) (max_msg_size : Z).

(** ** The thread of a raft server *)

(** The command data of a configuration entry about the server [x]. *)
Definition conf_cmd_of (x : server_t) : bytes :=
  bytes_of_cmd (ConfCmd (s_server_id x) (s_target x)).

(** Appending a configuration entry; [strcpy] keeps both names. *)
Definition append_config_entry (command : Z) (x : server_t) : M St unit :=
  m ← me;
  entry ← from_opt Exit
    (new_raft_log_entry mem (m_current_term m) RAFT_CONFIG command (conf_cmd_of x));
  append_raft_log_entry k entry.

(** After ten failed connections: the leader has the server removed, another
    server waits; the result tells whether it waits for a signal. *)
Definition raft_server_give_up (server : loc) : M St bool :=
  x ← zoom config_l (deref server);
  lock raft_state_lock state_lock_l;;
  m ← me;
  if decide (m_state m = LEADER) then
    entry ← from_opt Exit
      (new_raft_log_entry mem (m_current_term m) RAFT_CONFIG DEL_MEMBER (conf_cmd_of x));
    unlock state_lock_l;;
    append_raft_log_entry k entry;;
    mret false
  else
    unlock state_lock_l;;
    mret (bool_decide (s_active x = RUNNING)).

Inductive leader_msg :=
| MsgAppend (h : appnd_entr_hdr_t) (payload : bytes)
| MsgSnapshot (payload : bytes).

(** [send_raft_snapshot]: the header fields the serializer leaves open are
    written when this server is the leader; the rest of the header is in the
    payload already. *)
Definition send_raft_snapshot (rmr_realloc_payload : bytes -> Z -> option bytes) (payload : bytes)
  : M St (option leader_msg) :=
  '(plen, p) ← zoom snap_l (serialize_raft_snapshot rmr_realloc_payload payload);
  if truthy plen then
    lock raft_state_lock state_lock_l;;
    m ← me;
    if decide (m_state m = LEADER) then
      p ← zoom snap_l (put_at 0 (mem_bytes 8 (HTONLL (m_current_term m))) p);
      p ← zoom snap_l (put_at 32 (strcpy_bytes (m_current_leader m)) p);
      unlock state_lock_l;;
      mret (Some (MsgSnapshot p))
    else
      unlock state_lock_l;;
      mret None
  else mret None.

(** One turn of the sending loop up to the wait for the next heartbeat. The
    serialization buffer [lbuf] of [buf_len] bytes belongs to the thread. *)
Definition raft_server_send (rmr_realloc_payload : bytes -> Z -> option bytes) (server : loc)
    (lbuf payload : bytes) (buf_len : Z) : M St (option leader_msg * bool) :=
  x ← zoom config_l (deref server);
  let prev_log_index := u64 (s_next_index x - 1) in
  let logs_match := s_match_index x =? prev_log_index in
  '(n_entries, z, err) ← (
    if logs_match then
      last ← get_raft_last_log_index;
      let n := u32 (u32 last - prev_log_index) in
      if truthy n then
        zoom raft_log_l
          (serialize_raft_log_entries pad (sys_alloc k) (s_next_index x) n lbuf buf_len max_msg_size)
      else mret (0, Srlz 0 lbuf buf_len, None)
    else mret (0, Srlz 0 lbuf buf_len, None));
  msg ← (
    if decide (err = Some ENODATA) then send_raft_snapshot rmr_realloc_payload payload
    else
      o ← send_append_entries prev_log_index n_entries (z_buf z) (z_bytes z);
      mret ((fun hp => MsgAppend (fst hp) (snd hp)) <$> o));
  mret (msg, logs_match).

(** The rest of the turn, after the wait: a server that has caught up joins
    the cluster, one that does not answer is removed from it. The result is
    the values of [rounds] and [progress]. *)
Definition raft_server_after (server : loc) (next_heartbeat : timespec) (logs_match : bool)
    (rounds progress : Z) : M St (Z * Z) :=
  self ← my_id;
  x ← zoom config_l (deref server);
  '(rounds, progress) ← (
    if (s_status x =? NON_VOTING_MEMBER) && logs_match then
      '(caught_up, rounds, progress) ←
        zoom config_l (is_server_caught_up self server rounds next_heartbeat progress);
      when (truthy caught_up) (
        lock raft_state_lock state_lock_l;;
        m ← me;
        when (bool_decide (m_state m = LEADER)) (
          changing ← zoom config_l (set_configuration_changing 1);
          when (truthy changing) (append_config_entry ADD_MEMBER x));;
        unlock state_lock_l);;
      mret (rounds, progress)
    else mret (rounds, progress));
  lock raft_state_lock state_lock_l;;
  m ← me;
  when (bool_decide (m_state m = LEADER)) (
    zoom config_l (upd server (fun x => upd_hb_timeouts (s_hb_timeouts x + 1) x));;
    x ← zoom config_l (deref server);
    when (MAX_HEARBEAT_TIMEOUTS <? s_hb_timeouts x) (
      changing ← zoom config_l (set_configuration_changing 1);
      when (truthy changing) (append_config_entry DEL_MEMBER x)));;
  unlock state_lock_l;;
  mret (rounds, progress).

(** The end of the thread: no replica points to the server any more, and its
    memory is released. *)
Definition raft_server_exit (server : loc) : M St unit :=
  zoom repl_l (
    lock replica_lock repl_lock_l;;
    modify (fun r => set_rp_servers
      ((fun o => if decide (o = Some server) then None else o) <$> rp_servers r) r);;
    unlock repl_lock_l);;
  zoom config_l (deref server;; modify (fun s => set_heap (delete server (cf_heap s)) s)).

(** ** The thread of the xApp replication

    One turn of the loop over the replicas: the message for replica [i], and
    [must_lock], which is set when the replica lock was given up. *)
Inductive replication_msg :=
| MsgReplication (h : repl_req_hdr_t) (payload : bytes)
| MsgXappSnapshot (payload : bytes).

Definition send_locked (i : nat) (msg : replication_msg) : M St (option replication_msg * bool) :=
  zoom repl_l (lock replica_lock repl_lock_l);;
  r ← gets (fun s => rp_servers (g_repl s));
  mret (match r !! i with Some (Some _) => Some msg | _ => None end, false).

(** The message with [n] entries behind [master_index]. *)
Definition state_replication_send (rmr_realloc_payload : bytes -> Z -> option bytes) (i : nat)
    (lbuf payload : bytes) (buf_len : Z) (master_index : index_t) (n : Z)
  : M St (option replication_msg * bool) :=
  self ← my_id;
  '(n_entries, z, err) ← zoom xapp_log_l
    (serialize_server_log_entries pad (sys_alloc k) (u64 (master_index + 1)) n lbuf buf_len
       max_msg_size);
  if truthy (z_bytes z) then
    when (i32 (REPL_REQ_HDR_LEN + z_bytes z) <? 0) exit1;;
    data ← from_opt OutOfBounds (sub_bytes 0 (Z.to_nat (z_bytes z)) (z_buf z));
    send_locked i (MsgReplication (ReplReqHdr master_index self n_entries (z_bytes z)) data)
  else if decide (err = Some ENODATA) then
    '(mlen, p) ← zoom snap_l (serialize_xapp_snapshot rmr_realloc_payload payload self);
    if truthy mlen then send_locked i (MsgXappSnapshot p) else mret (None, true)
  else mret (None, true).

Definition state_replication_turn (rmr_realloc_payload : bytes -> Z -> option bytes) (i : nat)
    (lbuf payload : bytes) (buf_len : Z) (must_lock : bool)
  : M St (option replication_msg * bool) :=
  r ← gets (fun s => rp_servers (g_repl s));
  replica ← from_opt OutOfBounds (r !! i);
  match replica with
  | None => mret (None, must_lock)
  | Some p =>
      x ← zoom config_l (deref p);
      let master_index := s_master_index x in
      zoom repl_l (unlock repl_lock_l);;
      last ← get_server_last_log_index;
      let n := u32 (u32 last - master_index) in
      if truthy n
      then state_replication_send rmr_realloc_payload i lbuf payload buf_len master_index n
      else mret (None, true)
  end.

(** The replica lock is taken before the next wait, unless the last turn kept
    it. *)
Definition state_replication_sleep (must_lock : bool) : M St unit :=
  when must_lock (zoom repl_l (lock replica_lock repl_lock_l)).

(** The loop over the replicas from index [i] on: the messages with the index of
    their replica, and [must_lock]. [bufs i] are the serialization buffer and
    the payload of the message as turn [i] finds them. *)
Fixpoint state_replication_loop (rmr_realloc_payload : bytes -> Z -> option bytes)
    (bufs : nat -> bytes * bytes) (n i : nat) (must_lock : bool)
  : M St (list (nat * replication_msg) * bool) :=
  match n with
  | O => mret ([], must_lock)
  | S n =>
      let '(lbuf, payload) := bufs i in
      '(msg, must_lock) ← state_replication_turn rmr_realloc_payload i lbuf payload
        (Z.of_nat (length lbuf)) must_lock;
      '(msgs, must_lock) ← state_replication_loop rmr_realloc_payload bufs n (S i) must_lock;
      mret (match msg with Some m => (i, m) :: msgs | None => msgs end, must_lock)
  end.

(** One turn of the thread, from the end of one wait, which gives it the lock,
    to the next, which gives the lock back. Without a replica it goes on
    waiting for one. *)
Definition state_replication_pass (rmr_realloc_payload : bytes -> Z -> option bytes)
    (bufs : nat -> bytes * bytes) : M St (list (nat * replication_msg)) :=
  zoom repl_l (lock replica_lock repl_lock_l);;
  n ← gets (fun s => length (rp_servers (g_repl s)));
  waits ← (if (n =? 0)%nat then mret true
           else size ← zoom config_l raft_get_num_servers; mret (size =? 1));
  if waits : bool then zoom repl_l (unlock repl_lock_l);; mret []
  else
    '(msgs, must_lock) ← state_replication_loop rmr_realloc_payload bufs n 0 false;
    state_replication_sleep must_lock;;
    zoom repl_l (unlock repl_lock_l);;
    mret msgs.

(** ** The worker

    The messages, with their payloads as the structures the worker casts them
    to, and the replies it sends back. *)
Inductive rft_msg :=
| APPEND_ENTRIES_REQ (h : appnd_entr_hdr_t) (payload : bytes)
| APPEND_ENTRIES_REPLY (r : reply_append_entries_t)
| VOTE_REQ (r : request_vote_t)
| VOTE_REPLY (r : reply_vote_t)
| MEMBERSHIP_REQ (r : membership_request_t) (src : option target_t)
| REPLICATION_REQ (h : repl_req_hdr_t) (payload : bytes)
| REPLICATION_REPLY (r : replication_reply_t)
| XAPP_SNAPSHOT_REQ (h : xapp_snapshot_hdr_t) (payload : bytes)
| XAPP_SNAPSHOT_REPLY (r : xapp_snapshot_reply_t)
| RAFT_SNAPSHOT_REQ (h : raft_snapshot_hdr_t) (payload : bytes)
| RAFT_SNAPSHOT_REPLY (r : raft_snapshot_reply_t)
| UNRECOGNIZED (mtype : Z).

Definition worker_append_entries (h : appnd_entr_hdr_t) (payload : bytes)
  : M St reply_append_entries_t :=
  let req := appnd_entr_header_to_msg_cpy h (ReqAppend 0 "" 0 0 0 0 []) in
  entries ← (if truthy (ra_n_entries req)
             then when (negb (sys_alloc k)) exit1;;
                  from_opt OutOfBounds (deserialize_raft_log_entries payload (ra_n_entries req))
             else mret []);
  handle_append_entries_request k
    (ReqAppend (ra_term req) (ra_leader_id req) (ra_prev_log_index req) (ra_prev_log_term req)
       (ra_leader_commit req) (ra_n_entries req) entries).

Definition worker_replication (h : repl_req_hdr_t) (payload : bytes) : M St replication_reply_t :=
  let req := repl_req_header_to_msg_cpy h (ReqRepl 0 "" 0 []) in
  when (negb (sys_alloc k)) exit1;;
  entries ← from_opt OutOfBounds (deserialize_server_log_entries payload (rr_n_entries req));
  handle_replication_request k
    (ReqRepl (rr_master_index req) (rr_server_id req) (rr_n_entries req) entries).

Definition worker_xapp_snapshot (h : xapp_snapshot_hdr_t) (payload : bytes)
  : M St xapp_snapshot_reply_t :=
  let req := xapp_snapshot_header_to_msg_cpy h (ReqXsnap "" (XappSnapshot 0 0 0 None)) in
  let x := xq_snapshot req in
  when (negb (sys_alloc k)) exit1;;
  data ← from_opt OutOfBounds (sub_bytes 0 (Z.to_nat (xs_dlen x)) payload);
  handle_xapp_snapshot_request
    (ReqXsnap (xq_server_id req)
       (XappSnapshot (xs_last_index x) (xs_dlen x) (xs_items x) (Some data))).

Definition worker_raft_snapshot (h : raft_snapshot_hdr_t) (payload : bytes)
  : M St raft_snapshot_reply_t :=
  let req := raft_snapshot_header_to_msg_cpy h (ReqRsnap 0 "" (RaftSnapshot 0 0 0 0 None)) in
  let x := rq_snapshot req in
  when (negb (sys_alloc k)) exit1;;
  data ← from_opt OutOfBounds (sub_bytes 0 (Z.to_nat (rs_dlen x)) payload);
  handle_raft_snapshot_request (sys_alloc k)
    (ReqRsnap (rq_term req) (rq_leader_id req)
       (RaftSnapshot (rs_last_term x) (rs_last_index x) (rs_dlen x) (rs_items x) (Some data))).

(** One turn of the worker's loop: the reply it returns to the sender. *)
Definition worker_step (msg : rft_msg) : M St (option rft_msg) :=
  match msg with
  | APPEND_ENTRIES_REQ h payload =>
      r ← worker_append_entries h payload; mret (Some (APPEND_ENTRIES_REPLY r))
  | APPEND_ENTRIES_REPLY r => handle_append_entries_reply r;; mret None
  | REPLICATION_REQ h payload =>
      r ← worker_replication h payload; mret (Some (REPLICATION_REPLY r))
  | REPLICATION_REPLY r => handle_replication_reply r;; mret None
  | VOTE_REQ r =>
      self ← my_id;
      if decide (rv_candidate_id r = self) then mret None
      else reply ← handle_vote_request r; mret (Some (VOTE_REPLY reply))
  | VOTE_REPLY r => handle_vote_reply k mem r;; mret None
  | MEMBERSHIP_REQ r src =>
      match src with
      | None => mret None
      | Some a => handle_membership_request r a;; mret None
      end
  | XAPP_SNAPSHOT_REQ h payload =>
      r ← worker_xapp_snapshot h payload; mret (Some (XAPP_SNAPSHOT_REPLY r))
  | XAPP_SNAPSHOT_REPLY r => handle_xapp_snapshot_reply r;; mret None
  | RAFT_SNAPSHOT_REQ h payload =>
      r ← worker_raft_snapshot h payload; mret (Some (RAFT_SNAPSHOT_REPLY r))
  | RAFT_SNAPSHOT_REPLY r => handle_raft_snapshot_reply r;; mret None
  | UNRECOGNIZED _ => mret None
  end.

(** ** Joining the cluster *)

Record bootstrap_info_t := BootstrapInfo {
  b_rft_port : Z; b_redis_port : Z; b_redis_host : string; b_redis_key : string }.

(** [my_target]: the name and the port, cut to the size of the array. *)
Definition my_target (self : server_id_t) (port : Z) : target_t :=
  str_cut (sizeof_target - 1) (self ++ ":" ++ dec_string port)%string.

(** [key_set] is the result of [redis_sync_set_if_no_key]: this server is the
    first one. [connected] is a non-NULL Redis context. *)
Definition bootstrap_rft_cluster (connected key_set : bool) (binfo : bootstrap_info_t) : M St Z :=
  if negb connected then mret 0 else
  self ← my_id;
  let cmd := ConfCmd (str_cut (sizeof_server_id - 1) self) (my_target self (b_rft_port binfo)) in
  if key_set then
    added ← zoom config_l
      (raft_config_add_server self (cc_server_id cmd) (Some (cc_target cmd)) 0);
    when (negb (truthy added)) exit1;;
    entry ← from_opt Exit (new_raft_log_entry mem 1 RAFT_CONFIG ADD_MEMBER (bytes_of_cmd cmd));
    append_raft_log_entry k entry;;
    last ← get_raft_last_log_index;
    raft_commit_log_entries last;;
    mret 1
  else mret 0.

(** [send_membership_request] up to its loop: the time to give up. The state
    lock is held afterwards. *)
Definition membership_start : M St timespec :=
  m ← me;
  when (negb (bool_decide (m_state m = INIT_SERVER))) exit1;;
  new_rand_timeout;;
  now ← gets (fun s => el_now (g_elec s));
  lock raft_state_lock state_lock_l;;
  mret (timespec_add_ms now 20000).

(** What ends a turn of its loop: nothing was found in Redis; there is no
    connection and the thread sleeps; the timed wait, with the request that
    was sent before; the server has joined. *)
Inductive membership_wait :=
| NO_VALUE
| SLEEP
| WAIT_STATE (req : option membership_request_t)
| JOINED.

(** One turn of the loop up to its wait, for the [value] of the key in Redis
    (a reply with a string or without) and the result [wh_open] of opening a
    wormhole; [conn] is the target and whether it is connected. *)
Definition membership_turn (value : option (option string)) (wh_open : string -> bool)
    (conn : server_id_t * bool) : M St (server_id_t * bool * membership_wait) :=
  unlock state_lock_l;;
  match value with
  | None => mret (conn, NO_VALUE)
  | Some str =>
      let conn :=
        match str with
        | Some str =>
            if decide (str = fst conn) then conn
            else let target := str_cut (sizeof_server_id - 1) str in (target, wh_open target)
        | None => conn
        end in
      if snd conn then
        prior ← get_raft_last_log_index;
        lock raft_state_lock state_lock_l;;
        m ← me;
        if decide (m_state m = INIT_SERVER) then
          current ← get_raft_last_log_index;
          if prior =? current then
            last ← get_raft_last_log_index;
            mret (conn, WAIT_STATE (Some (ReqMember last (m_self_id m))))
          else mret (conn, WAIT_STATE None)
        else mret (conn, JOINED)
      else mret (conn, SLEEP)
  end.

(** The end of a turn, which a failed lookup does not reach. *)
Definition membership_deadline (stop : timespec) : M St unit :=
  now ← gets (fun s => el_now (g_elec s));
  when (timespec_gt now stop) exit1.

(** What the election thread does next in a given state. *)
Inductive timer_action := WAIT_TIMEOUT | START_ELECTION | PUBLISH_LEADER | JOIN_CLUSTER.

Definition trigger_election_timeout : M St timer_action :=
  lock raft_state_lock state_lock_l;;
  m ← me;
  unlock state_lock_l;;
  match m_state m with
  | FOLLOWER =>
      expired ← zoom elec_l (
        lock election_timeout_lock el_lock_l;;
        e ← get;
        unlock el_lock_l;;
        mret (negb (timespec_lt (el_now e) (el_timeout e))));
      if expired : bool then become_candidate;; mret START_ELECTION else mret WAIT_TIMEOUT
  | LEADER => mret PUBLISH_LEADER
  | INIT_SERVER => mret JOIN_CLUSTER
  | CANDIDATE => exit1
  end.

End Server.
