(* ===== verification/RaftServer.v ===== *)
(** * The thread of a raft server (src/rft.c)

    [raft_server] connects to its server, sends while this server is the leader
    and ends when the server is removed. It is a machine whose phases are the
    points of its loops where it tests a condition or waits, and whose turns
    are the stretches between them, over the definitions of Server.v. *)

From S2P Require Import Prelude Monad Types LogRing Mtl Config HashTable State Log Serialize Snapshot.
From S2P Require Import RaftLog Raft Server.
Open Scope Z_scope.

(** The variables of the thread that outlive a turn. *)
Record rs_local := RsLocal { rl_connected : bool; rl_rounds : Z; rl_progress : Z }.
Definition rs_local0 : rs_local := RsLocal false 10 0.

Inductive rs_phase :=
| RsStart
| RsConnect                          (* while( ok2run && running && ! connected ) *)
| RsConnecting (count : nat)         (* for( count = 10; count && running; count-- ) *)
| RsConnectSleep                     (* waits for leader_cond to connect again *)
| RsOuter                            (* while( ok2run && active ) *)
| RsInner                            (* while( ok2run && leader && running ) *)
| RsHeartbeat (logs_match : bool)    (* waits for the next heartbeat *)
| RsSleep                            (* waits for leader_cond *)
| RsCleanup
| RsDone.

(** What a turn finds outside the state: [ok2run], the results of the
    allocations and of [rmr_wh_open], the buffers, and the time of the next
    heartbeat. *)
Record rs_input := RsInput {
  ri_ok2run : bool; ri_msg : bool; ri_buf : bool; ri_opened : bool;
  ri_realloc : bytes -> Z -> option bytes; ri_lbuf : bytes; ri_payload : bytes; ri_buf_len : Z;
  ri_next_heartbeat : timespec }.

Section Thread.
Context `{Rmr} `{Host} (k : sys) (mem : allocs) (pad : bytes) (max_msg_size : Z) (server : loc).

Definition connected (l : rs_local) : rs_local := RsLocal true (rl_rounds l) (rl_progress l).

(** A turn: the message it sends, the variables, and the next phase. *)
Definition raft_server_turn (i : rs_input) (l : rs_local) (ph : rs_phase)
  : M St (option leader_msg * rs_local * rs_phase) :=
  match ph with
  | RsStart =>
      zoom config_l (upd server (upd_active RUNNING));;
      when (negb (ri_msg i)) exit1;;
      when (negb (ri_buf i)) exit1;;
      mret (None, l, RsConnect)
  | RsConnect =>
      x ← zoom config_l (deref server);
      mret (None, l, if ri_ok2run i && bool_decide (s_active x = RUNNING) && negb (rl_connected l)
                     then RsConnecting 10 else RsOuter)
  | RsConnecting count =>
      x ← zoom config_l (deref server);
      match count with
      | S n =>
          if decide (s_active x = RUNNING) then
            if ri_opened i then mret (None, connected l, RsOuter) else mret (None, l, RsConnecting n)
          else mret (None, l, RsOuter)
      | O =>
          waits ← raft_server_give_up k mem server;
          mret (None, l, if waits : bool then RsConnectSleep else RsConnect)
      end
  | RsConnectSleep => mret (None, l, RsConnect)
  | RsOuter =>
      x ← zoom config_l (deref server);
      mret (None, l, if ri_ok2run i && bool_decide (s_active x <> SHUTDOWN) then RsInner else RsCleanup)
  | RsInner =>
      m ← me;
      x ← zoom config_l (deref server);
      if ri_ok2run i && bool_decide (m_state m = LEADER) && bool_decide (s_active x = RUNNING) then
        '(msg, logs_match) ← raft_server_send k pad max_msg_size (ri_realloc i) server (ri_lbuf i)
          (ri_payload i) (ri_buf_len i);
        mret (msg, l, RsHeartbeat logs_match)
      else mret (None, l, if decide (s_active x <> SHUTDOWN) then RsSleep else RsOuter)
  | RsHeartbeat logs_match =>
      '(rounds, progress) ← raft_server_after k mem server (ri_next_heartbeat i) logs_match
        (rl_rounds l) (rl_progress l);
      mret (None, RsLocal (rl_connected l) rounds progress, RsInner)
  | RsSleep => mret (None, l, RsOuter)
  | RsCleanup => raft_server_exit server;; mret (None, l, RsDone)
  | RsDone => mret (None, l, RsDone)
  end.

(** The thread alone, with the inputs of its turns: the messages it has sent,
    its variables and its phase. *)
Fixpoint raft_server (is_ : list rs_input) (l : rs_local) (ph : rs_phase)
  : M St (list leader_msg * rs_local * rs_phase) :=
  match is_ with
  | [] => mret ([], l, ph)
  | i :: is_ =>
      '(msg, l, ph) ← raft_server_turn i l ph;
      '(msgs, l, ph) ← raft_server is_ l ph;
      mret (match msg with Some m => m :: msgs | None => msgs end, l, ph)
  end.

(** ** A server that was removed

    How far the thread is from its end, at a point where it tests its server or
    waits for a signal. *)
Definition rs_left (ph : rs_phase) : option nat :=
  match ph with
  | RsDone => Some 0%nat
  | RsCleanup => Some 1%nat
  | RsOuter => Some 2%nat
  | RsConnect | RsConnecting (S _) | RsInner | RsSleep => Some 3%nat
  | RsConnectSleep => Some 4%nat
  | RsStart | RsConnecting O | RsHeartbeat _ => None
  end.

(** The object of the server is gone, and no replica points to it. *)
Definition cleaned (s' : St) : Prop :=
  cf_heap (g_config s') !! server = None /\ Some server ∉ rp_servers (g_repl s').

Definition removed (s : St) : Prop :=
  (exists x, cf_heap (g_config s) !! server = Some x /\ s_active x = SHUTDOWN) /\ rp_lock (g_repl s) = false.

Lemma deref_server s x : cf_heap (g_config s) !! server = Some x ->
  zoom config_l (deref server) s = Ok x s.
Proof using.
  intros Hx. assert (deref server (g_config s) = Ok x (g_config s)) as E.
  { unfold deref. rewrite (bind_Ok _ _ _ (cf_heap (g_config s)) (g_config s)) by done. by rewrite Hx. }
  rewrite (zoom_Ok config_l _ s x (g_config s) E). by destruct s.
Qed.

Lemma raft_server_exit_removed s : removed s ->
  exists s', raft_server_exit server s = Ok tt s' /\ cleaned s'.
Proof using.
  intros ((x & Hx & _) & Hl).
  set (ps := (fun o => if decide (o = Some server) then None else o) <$> rp_servers (g_repl s)).
  assert (Some server ∉ ps) as Hps.
  { intros (o & Ho & _)%list_elem_of_fmap. by case_decide. }
  destruct s as [me sl rl xl cf sn [rs rk ty n] el ax]. cbn in *. subst rk.
  set (s1 := MkSt me sl rl xl cf sn (ReplSt ps false ty n) el ax).
  assert ((deref server;; modify (fun t => set_heap (delete server (cf_heap t)) t)) cf =
    Ok tt (set_heap (delete server (cf_heap cf)) cf)) as E2.
  { unfold deref. erewrite bind_Ok; [done|]. rewrite (bind_Ok _ _ _ (cf_heap cf) cf) by done. by rewrite Hx. }
  unfold raft_server_exit. rewrite (bind_Ok _ _ _ tt s1) by done.
  eexists. split; [exact (zoom_Ok config_l _ s1 _ _ E2)|]. split; [apply lookup_delete_eq|exact Hps].
Qed.

(** A turn of the thread of a removed server brings it nearer to its end. *)
Lemma removed_turn i l ph s n : removed s -> rs_left ph = Some (S n) ->
  exists ph' s', raft_server_turn i l ph s = Ok (None, l, ph') s' /\
    (s' = s /\ (exists n', rs_left ph' = Some n' /\ (0 < n' <= n)%nat) \/ ph' = RsDone /\ cleaned s').
Proof using.
  intros Hr Hn. pose proof Hr as ((x & Hx & Ha) & _). pose proof (deref_server s x Hx) as E.
  destruct ph as [| |[|c]| | | |b| | |]; cbn [rs_left] in Hn; try discriminate; injection Hn as <-;
    cbn [raft_server_turn]; unfold me, gets; rewrite ?(bind_Ok _ _ _ _ _ E), ?Ha.
  - eexists _, s. split; [reflexivity|]. left. split; [done|]. rewrite andb_false_r. exists 2%nat. split; [done|lia].
  - eexists _, s. split; [by rewrite decide_False|]. left. split; [done|]. exists 2%nat. split; [done|lia].
  - eexists _, s. split; [reflexivity|]. left. split; [done|]. exists 3%nat. split; [done|lia].
  - eexists _, s. split; [reflexivity|]. left. split; [done|]. rewrite andb_false_r. exists 1%nat. split; [done|lia].
  - erewrite (bind_Ok _ _ s _ s) by done. rewrite (bind_Ok _ _ _ _ _ E), Ha, !andb_false_r.
    eexists _, s. split; [reflexivity|]. left. split; [done|]. rewrite decide_False by tauto. exists 2%nat. split; [done|lia].
  - eexists _, s. split; [reflexivity|]. left. split; [done|]. exists 2%nat. split; [done|lia].
  - destruct (raft_server_exit_removed s Hr) as (s' & Ex & Hc). rewrite (bind_Ok _ _ _ _ _ Ex).
    eexists _, s'. split; [reflexivity|]. by right.
Qed.

Lemma raft_server_done is_ l s : raft_server is_ l RsDone s = Ok ([], l, RsDone) s.
Proof using.
  induction is_ as [|i is_ IH]; [done|]. cbn [raft_server raft_server_turn].
  rewrite (bind_Ok _ _ s (None, l, RsDone) s) by done. cbv beta iota. by rewrite (bind_Ok _ _ _ _ _ IH).
Qed.

Lemma removed_run is_ l ph s n : removed s -> rs_left ph = Some (S n) -> (S n <= length is_)%nat ->
  exists s', raft_server is_ l ph s = Ok ([], l, RsDone) s' /\ cleaned s'.
Proof using.
  intros Hr. revert ph n. induction is_ as [|i is_ IH]; intros ph n Hn Hl; cbn [length] in Hl; [lia|].
  cbn [raft_server]. destruct (removed_turn i l ph s n Hr Hn) as (ph' & s' & E & [(-> & n' & Hn' & Hle)|(-> & Hc)]);
    rewrite (bind_Ok _ _ _ _ _ E).
  - destruct n' as [|n']; [lia|]. destruct (IH ph' n' Hn' ltac:(lia)) as (s2 & E2 & Hc).
    rewrite (bind_Ok _ _ _ _ _ E2). by exists s2.
  - exists s'. by rewrite (bind_Ok _ _ _ _ _ (raft_server_done is_ l s')).
Qed.

End Thread.

(** ** An instance

    The server [b] was removed while it was a replica and its thread waited. *)
Definition removed_b : server_t :=
  Server "b" "b:4560" VOTING_MEMBER 0 1 0 SHUTDOWN (Timespec 0 0) 0 0 0.
Definition removed_st : St :=
  MkSt (RaftState LEADER 1 0 "a" "a" "a" 0 0) false init_log_st init_log_st
    (ConfigSt (RaftConfig 0 0 0 []) {[1%positive := removed_b]} false []) init_snap_st
    (ReplSt [Some 1%positive] false GLOBAL 1) (ElecSt (Timespec 0 0) false 0 (Timespec 0 0) [])
    (AppSt (HashTable 0 [] STRING_KEY ∅) (HashTable 0 [] STRING_KEY ∅) false false [] [] false false).
Definition turns4 : list rs_input :=
  replicate 4 (RsInput true true true true (fun _ _ => None) [] [] 0 (Timespec 0 0)).

