(* ===== verification/Invariant.v ===== *)
(** * The invariant of a server

    [core s L C] relates the memory of a server to its log entries [L] and its
    cluster members [C], and bounds the indices of the raft state by those of
    the log. Every building block of the handlers is shown to keep it, to end
    in a value or a tolerated fault, and to give back the mutexes it takes. *)

From S2P Require Import Prelude Monad Types LogRing Mtl Config Quorum HashTable.
From S2P Require Import State Utils Log Serialize Snapshot RaftLog Raft.
Open Scope Z_scope.

(** ** The mutexes of a server *)

Record lock_flags := LockFlags {
  k_state : bool; k_raft : bool; k_xapp : bool; k_cfg : bool; k_rsnap : bool; k_rprog : bool;
  k_xsnap : bool; k_xprog : bool; k_repl : bool; k_elec : bool; k_inst : bool }.

Definition locks (s : St) : lock_flags :=
  LockFlags (g_state_lock s) (lg_lock (g_raft_log s)) (lg_lock (g_xapp_log s))
    (cf_lock (g_config s)) (sn_raft_snapshot_lock (g_snap s))
    (sn_raft_in_progress_lock (g_snap s)) (sn_xapp_snapshot_lock (g_snap s))
    (sn_xapp_in_progress_lock (g_snap s)) (rp_lock (g_repl s)) (el_lock (g_elec s))
    (ax_installing_lock (g_app s)).

Definition no_locks : lock_flags :=
  LockFlags false false false false false false false false false false false.

(** ** Faults

    The deliberate [exit( 1 )], and one defect of the code: the last log term
    of an empty log is read under the state lock the callers already hold. *)
Definition tolerated (f : fault) : Prop := f = Exit \/ f = SelfDeadlock raft_state_lock.

Lemma only_exit_tolerated f : only_exit f -> tolerated f.
Proof. by left. Qed.

(** Lemmas about a string read from an array. *)
Lemma cstring_length bs s : cstring bs = Some s -> (String.length s < length bs)%nat.
Proof.
  revert s. induction bs as [|c bs IH]; intros s; simpl; [done|].
  destruct (decide (c = NUL)); [intros [= <-]; simpl; lia|].
  destruct (cstring bs) as [s'|]; simpl; [|done]. intros [= <-]. simpl.
  specialize (IH s' eq_refl). lia.
Qed.

Section Invariant.
Context `{Rmr} `{Host}.

Lemma cmd_of_bytes_length bs c :
  cmd_of_bytes bs = Some c -> (String.length (cc_server_id c) < sizeof_server_id)%nat.
Proof.
  unfold cmd_of_bytes. destruct (sub_bytes 0 sizeof_server_id bs) as [b|] eqn:Eb; simpl; [|done].
  destruct (sub_bytes sizeof_server_id sizeof_target bs) as [b'|]; simpl; [|done].
  destruct (cstring b) as [id|] eqn:Ei; simpl; [|done].
  destruct (cstring b') as [tg|]; simpl; [|done]. intros [= <-]. simpl.
  apply cstring_length in Ei. apply sub_bytes_length in Eb. lia.
Qed.

(** An entry of the raft log: no context, no key, and a configuration entry
    carries a command. *)
Definition entry_ok (e : log_entry_t) : Prop :=
  raft_entry e /\ (e_type e = RAFT_CONFIG -> is_Some (cmd_of_bytes (e_data e))).

Record core (s : St) (L : list log_entry_t) (C : list server_t) : Prop := {
  co_log : log_rep (g_raft_log s) L;
  co_entries : Forall entry_ok L;
  co_cfg : cfg_rep (g_config s) C;
  co_threads : Forall (fun r => r = 0) (cf_threads (g_config s));
  co_term : is_u64 (m_current_term (g_me s));
  co_applied : l_index_offset (lg (g_raft_log s)) <= m_last_applied (g_me s);
  co_commit : m_last_applied (g_me s) <= m_commit_index (g_me s);
  co_last : m_commit_index (g_me s) <= l_last_log_index (lg (g_raft_log s));
  co_pipe : forall meta data, sn_raft_pipe (g_snap s) = Some (meta, data) ->
    sn_raft_in_progress (g_snap s) = true /\
    l_index_offset (lg (g_raft_log s)) <= pm_last_index meta <= m_last_applied (g_me s) }.

Lemma log_rep_lg s s' L : lg s' = lg s -> log_rep s L -> log_rep s' L.
Proof. intros E [H1 H2 H3 H4 H5 H6]. split; by rewrite E. Qed.

Lemma cfg_rep_same c c' C : cf c' = cf c -> cf_heap c' = cf_heap c -> cfg_rep c C -> cfg_rep c' C.
Proof.
  intros E1 E2 [[H1 H2 H3 H4] H5 H6 H7]. split; rewrite ?E1; try done.
  split; rewrite ?E1, ?E2; done.
Qed.

(** [core] depends only on the data of the raft log, the configuration, the
    indices and the term of the raft state and the pipe. *)
Lemma core_same s s' L C :
  lg (g_raft_log s') = lg (g_raft_log s) -> cf (g_config s') = cf (g_config s) ->
  cf_heap (g_config s') = cf_heap (g_config s) ->
  cf_threads (g_config s') = cf_threads (g_config s) ->
  m_current_term (g_me s') = m_current_term (g_me s) ->
  m_last_applied (g_me s') = m_last_applied (g_me s) ->
  m_commit_index (g_me s') = m_commit_index (g_me s) ->
  sn_raft_pipe (g_snap s') = sn_raft_pipe (g_snap s) ->
  sn_raft_in_progress (g_snap s') = sn_raft_in_progress (g_snap s) ->
  core s L C -> core s' L C.
Proof.
  intros E1 E2 E3 E4 E5 E6 E7 E8 E9 [].
  split; rewrite ?E1, ?E4, ?E5, ?E6, ?E7, ?E8, ?E9; try done.
  - by eapply log_rep_lg.
  - by eapply cfg_rep_same.
Qed.

(** ** Operations of the configuration, under their lock *)

Record cfg_ok (c : config_st) (C : list server_t) : Prop := {
  ok_rep : cfg_rep c C;
  ok_free : cf_lock c = false;
  ok_threads : Forall (fun r => r = 0) (cf_threads c) }.

Lemma cfg_ok_lock b c C : cfg_rep c C -> cfg_rep (set_cf_lock b c) C.
Proof. by rewrite cfg_rep_lock. Qed.

Section ConfigOps.
Context (self : server_id_t) (c : config_st) (C : list server_t) (R : cfg_ok c C).

Lemma get_server_ok id :
  (exists p i x, raft_config_get_server id c = Ok (Some p) c /\
     list_find (has_id id) C = Some (i, x) /\ C !! i = Some x /\
     c_servers (cf c) !! i = Some p /\ cf_heap c !! p = Some x /\ s_server_id x = id) \/
  (raft_config_get_server id c = Ok None c /\ id ∉ ids C).
Proof using R.
  destruct R as [Rr Rl Rt]. pose proof (cfg_ok_lock true c C Rr) as R1.
  pose proof (rep_objs _ _ R1) as O.
  destruct (list_find (has_id id) C) as [[i x]|] eqn:Hf.
  - left. destruct (get_server_found _ C O id i x Hf) as (p & Hg & Hi & Hp & Hx & Hid).
    exists p, i, x. split; [|done]. unfold raft_config_get_server. by apply locked_read.
  - right. split; [|by apply ids_find_None]. unfold raft_config_get_server.
    apply locked_read; [done|]. by apply (get_server_absent _ C O).
Qed.

Lemma add_server_ok id target last :
  id ∉ ids C -> (String.length id < sizeof_server_id)%nat -> Z.of_nat (length C) + 1 < 2 ^ 32 ->
  exists c', raft_config_add_server self id (Some target) last c = Ok 1 c' /\
    cfg_ok c' (C ++ [new_server id target last]) /\
    c_is_changing (cf c') = c_is_changing (cf c).
Proof using R.
  intros Hid Hlen Hmax. destruct R as [Rr Rl Rt].
  destruct (add_server_absent self (set_cf_lock true c) C id target last) as
    (c1 & E & R1 & Hl & Ht & Hc); try done; [by apply cfg_ok_lock|].
  exists (set_cf_lock false c1). split; [|split].
  - cbn [raft_config_add_server]. by apply locked_run.
  - split; [by apply cfg_ok_lock|done|done].
  - done.
Qed.

Lemma add_server_again_ok id target last i x :
  list_find (has_id id) C = Some (i, x) ->
  exists c', raft_config_add_server self id (Some target) last c = Ok 0 c' /\
    cfg_ok c' (<[i := restart_indexes last x]> C).
Proof using R.
  intros Hf. destruct R as [Rr Rl Rt].
  destruct (add_server_present self (set_cf_lock true c) C id target last i x) as
    (c1 & E & R1 & Hl & Ht & Hc); try done; [by apply cfg_ok_lock|].
  exists (set_cf_lock false c1). split.
  - cbn [raft_config_add_server]. by apply locked_run.
  - split; [by apply cfg_ok_lock|done|]. cbn. by rewrite Ht.
Qed.

Lemma set_status_ok id status i x :
  list_find (has_id id) C = Some (i, x) ->
  status = VOTING_MEMBER \/ status = NON_VOTING_MEMBER ->
  exists c', raft_config_set_server_status id status c = Ok (1, ENONE) c' /\
    cfg_ok c' (<[i := upd_status status x]> C).
Proof using R.
  intros Hf Hs. destruct R as [Rr Rl Rt].
  destruct (set_status_rep (set_cf_lock true c) C id status i x) as (c1 & E & R1 & Hl & Ht & Hc);
    try done; [by apply cfg_ok_lock|].
  exists (set_cf_lock false c1). split.
  - by apply locked_run.
  - split; [by apply cfg_ok_lock|done|]. cbn. by rewrite Ht.
Qed.

Lemma remove_server_ok id :
  exists c', raft_config_remove_server self id c = Ok tt c' /\ cfg_ok c' (without id C).
Proof using R.
  destruct R as [Rr Rl Rt].
  destruct (remove_server_rep self (set_cf_lock true c) C id) as (c1 & E & R1 & Hl & Ht & Hc);
    [by apply cfg_ok_lock|].
  exists (set_cf_lock false c1). split.
  - by apply locked_run.
  - split; [by apply cfg_ok_lock|done|]. cbn. by rewrite Ht.
Qed.

End ConfigOps.

(** A server found at the end of the list after it was added. *)
Lemma find_new id target last (C : list server_t) :
  id ∉ ids C -> (String.length id < sizeof_server_id)%nat ->
  list_find (has_id id) (C ++ [new_server id target last]) =
    Some (length C, new_server id target last).
Proof.
  intros Hid Hl. apply list_find_Some. split; [|split].
  - by rewrite list_lookup_middle.
  - unfold new_server. cbn. apply str_cut_id. lia.
  - intros j y Hj Hlt. rewrite lookup_app_l in Hj by done. intros <-. apply Hid.
    unfold ids. apply list_elem_of_fmap. exists y. split; [done|].
    by eapply list_elem_of_lookup_2.
Qed.

(** ** What an append leaves alone *)

Record frame (s s' : St) : Prop := {
  fr_me : g_me s' = g_me s;
  fr_locks : locks s' = locks s;
  fr_xapp : g_xapp_log s' = g_xapp_log s;
  fr_repl : g_repl s' = g_repl s;
  fr_elec : g_elec s' = g_elec s;
  fr_app : g_app s' = g_app s;
  fr_rsnap : sn_raft_snapshot (g_snap s') = sn_raft_snapshot (g_snap s);
  fr_offset : l_index_offset (lg (g_raft_log s')) = l_index_offset (lg (g_raft_log s)) }.

#[global] Instance frame_preorder : PreOrder frame.
Proof.
  split; [by intros s; split|]. intros s1 s2 s3 [] []. split; congruence.
Qed.

Lemma zoom_config_inv {A} (m : M config_st A) s a s' :
  zoom config_l m s = Ok a s' -> exists c, s' = set_config c s.
Proof. unfold zoom. destruct (m (lget config_l s)); [|done]. intros [= _ <-]. by eexists. Qed.

(** The snapshot the child writes is the one of its last applied index. *)
Lemma create_snapshot_meta b s meta data s' :
  create_raft_config_snapshot b s = Ok (meta, data) s' ->
  pm_last_index meta = m_last_applied (g_me s) /\ pm_last_term meta = m_current_term (g_me s) /\
  pm_items meta = c_size (cf (g_config s)) /\ pm_dlen meta = Z.of_nat (length data).
Proof.
  unfold create_raft_config_snapshot. unfold mbind, M_bind, when.
  destruct b; [|done]. cbn [negb mret M_ret].
  destruct (zoom config_l config_size s) as [n s1|] eqn:E1; [|done].
  assert (s1 = s) as ->.
  { unfold zoom, config_size in E1. destruct s. by injection E1. }
  destruct (zoom config_l (serialize_servers n 0 []) s) as [d s2|] eqn:E2; [|done].
  assert (forall n i d0 c d c', serialize_servers n i d0 c = Ok d c' -> c' = c) as Hro.
  { clear. induction n as [|n IH]; intros i d0 c d c'; [by intros [= _ <-]|].
    cbn [serialize_servers]. unfold server_at, deref. mrun.
    destruct (c_servers (cf c) !! i) as [p|]; [|done]. destruct (cf_heap c !! p); [|done]. apply IH. }
  unfold zoom in E2. destruct (serialize_servers n 0 [] (lget config_l s)) as [d1 c1|] eqn:E3;
    [|done]. apply Hro in E3 as ->. injection E2 as <- <-.
  intros [= <- <- <-]. destruct s. done.
Qed.

Lemma take_raft_snapshot_ok k s L C :
  core s L C -> k_cfg (locks s) = false -> k_rprog (locks s) = false ->
  wp tolerated (take_raft_snapshot k) s (fun _ s' =>
    core s' L C /\ frame s s' /\ g_raft_log s' = g_raft_log s /\ g_config s' = g_config s).
Proof.
  intros Co Hc Hp. unfold take_raft_snapshot, start_progress.
  destruct s as [me sl rl xl [cfc cfh cfk cft] [ip rs pipe rsl rpl xip xs xpi xsl xpl] rp el ax].
  cbn in Hc, Hp. subst cfk rpl. unfold wp.
  unfold lock, unlock, fork. mrun. cbn.
  destruct ip; cbn.
  - split; [|by split]. by eapply core_same; [..|exact Co].
  - destruct (sys_pipe k); cbn; [|by left]. destruct (sys_fork k); cbn; [|by left].
    destruct (create_raft_config_snapshot (sys_alloc k) _) as [[meta data] s1|f] eqn:E; cbn.
    + apply create_snapshot_meta in E as (Ei & _). cbn in Ei.
      destruct (sys_thread k); cbn; [|by left]. split; [|by split].
      destruct Co as [C1 C2 C3 C4 C5 C6 C7 C8 C9]. cbn in *.
      split; cbn; try done.
      intros ? ? [= <- <-]. split; [done|]. lia.
    + destruct (sys_thread k); cbn; [|by left]. split; [|by split].
      destruct Co as [C1 C2 C3 C4 C5 C6 C7 C8 C9]. cbn in *. split; cbn; done.
Qed.

(** Configuration entries. *)
Definition entry_config (C C' : list server_t) : Prop :=
  Z.of_nat (length C') <= Z.of_nat (length C) + 1.

Lemma core_config s L C c C' :
  core s L C -> cfg_ok c C' -> core (set_config c s) L C'.
Proof. intros [] [? ? ?]. by split. Qed.

Lemma cfg_of_core s L C : core s L C -> k_cfg (locks s) = false -> cfg_ok (g_config s) C.
Proof. intros [] Hk. by split. Qed.

Lemma frame_config s c : cf_lock c = cf_lock (g_config s) -> frame s (set_config c s).
Proof. intros E. split; try done. unfold locks. cbn. by rewrite E. Qed.

(** The effect of a configuration entry on the members. *)
Inductive config_effect (self : server_id_t) (e : log_entry_t) (C : list server_t)
  : list server_t -> Prop :=
| EffAddNew cmd : cmd_of_bytes (e_data e) = Some cmd -> e_command e = ADD_MEMBER ->
    cc_server_id cmd ∉ ids C ->
    config_effect self e C
      (C ++ [upd_status VOTING_MEMBER (new_server (cc_server_id cmd) (cc_target cmd) 0)])
| EffAddOld cmd i x : cmd_of_bytes (e_data e) = Some cmd -> e_command e = ADD_MEMBER ->
    list_find (has_id (cc_server_id cmd)) C = Some (i, x) ->
    config_effect self e C (<[i := upd_status VOTING_MEMBER x]> C)
| EffDel cmd : cmd_of_bytes (e_data e) = Some cmd -> e_command e = DEL_MEMBER ->
    config_effect self e C (without (cc_server_id cmd) C)
| EffNone : e_command e <> ADD_MEMBER -> e_command e <> DEL_MEMBER -> config_effect self e C C.

Lemma without_length id (C : list server_t) : (length (without id C) <= length C)%nat.
Proof. apply sublist_length, without_sublist. Qed.

Lemma config_effect_length self e C C' :
  config_effect self e C C' -> (length C' <= length C + 1)%nat.
Proof.
  intros []; rewrite ?length_app, ?length_insert; simpl; try lia.
  pose proof (without_length (cc_server_id cmd) C). lia.
Qed.

Lemma apply_config_entry_ok s L C e :
  core s L C -> k_cfg (locks s) = false -> is_Some (cmd_of_bytes (e_data e)) ->
  Z.of_nat (length C) + 1 < 2 ^ 32 ->
  wp tolerated (apply_config_entry e) s (fun _ s' => exists C',
    core s' L C' /\ frame s s' /\ g_raft_log s' = g_raft_log s /\ g_snap s' = g_snap s /\
    config_effect (m_self_id (g_me s)) e C C').
Proof.
  intros Co Hk [cmd Hcmd] Hmax. unfold apply_config_entry, my_id.
  apply wp_bind, wp_from_opt. rewrite Hcmd. apply wp_bind, wp_gets.
  pose proof (cfg_of_core s L C Co Hk) as R. pose proof (cmd_of_bytes_length _ _ Hcmd) as Hlen.
  set (self := m_self_id (g_me s)).
  destruct (Z.eqb_spec (e_command e) ADD_MEMBER) as [Ha|Ha].
  - apply wp_bind, wp_zoom. cbn [lget config_l].
    destruct (get_server_ok _ C R (cc_server_id cmd)) as
      [(p & i & x & E & Hf & _)|[E Hid]]; eapply wp_eq; try exact E.
    + apply wp_bind, wp_ret. apply wp_bind, wp_zoom. cbn.
      destruct (set_status_ok _ C R _ VOTING_MEMBER i x Hf) as (c2 & E2 & R2); [by left|].
      eapply wp_eq; [exact E2|]. cbn. exists (<[i := upd_status VOTING_MEMBER x]> C).
      split; [exact (core_config s L C _ _ Co R2)|].
      split; [apply (frame_config s); by rewrite (ok_free _ _ R2), (ok_free _ _ R)|].
      split; [done|]. split; [done|]. by eapply EffAddOld.
    + apply wp_bind, wp_bind, wp_zoom. cbn.
      destruct (add_server_ok self _ C R _ (cc_target cmd) 0 Hid Hlen Hmax) as (c1 & E1 & R1 & _).
      eapply wp_eq; [exact E1|]. cbn. apply wp_bind, wp_zoom. cbn.
      destruct (set_status_ok _ _ R1 _ VOTING_MEMBER _ _ (find_new _ (cc_target cmd) 0 C Hid Hlen))
        as (c2 & E2 & R2); [by left|].
      eapply wp_eq; [exact E2|]. cbn.
      rewrite insert_app_r_alt, Nat.sub_diag in R2 by lia. cbn in R2.
      eexists. split; [exact (core_config s L C _ _ Co R2)|].
      split; [apply (frame_config s); by rewrite (ok_free _ _ R2), (ok_free _ _ R)|].
      split; [done|]. split; [done|]. by apply EffAddNew.
  - destruct (Z.eqb_spec (e_command e) DEL_MEMBER) as [Hd|Hd].
    + apply wp_zoom. cbn [lget config_l].
      destruct (remove_server_ok self _ C R (cc_server_id cmd)) as (c1 & E1 & R1).
      eapply wp_eq; [exact E1|]. cbn. exists (without (cc_server_id cmd) C).
      split; [exact (core_config s L C _ _ Co R1)|].
      split; [apply (frame_config s); by rewrite (ok_free _ _ R1), (ok_free _ _ R)|].
      split; [done|]. split; [done|]. by apply EffDel.
    + apply wp_ret. exists C. split; [done|]. split; [done|]. split; [done|]. split; [done|].
      by apply EffNone.
Qed.

(** ** Appending to the raft log *)

Lemma core_log s L C g L' :
  core s L C -> log_rep g L' -> Forall entry_ok L' ->
  l_index_offset (lg g) = l_index_offset (lg (g_raft_log s)) ->
  m_commit_index (g_me s) <= l_last_log_index (lg g) ->
  core (set_raft_log g s) L' C.
Proof.
  intros [C1 C2 C3 C4 C5 C6 C7 C8 C9] R F Ho Hl. split; cbn; rewrite ?Ho; done.
Qed.

Definition with_raft_lock (b : bool) (s : St) : St :=
  set_raft_log (LogSt (lg (g_raft_log s)) b) s.

Lemma core_raft_lock b s L C : core s L C -> core (with_raft_lock b s) L C.
Proof. by apply core_same. Qed.

(** A log lock around an operation on the state. *)
Lemma wp_raft_locked E s (Q : unit -> St -> Prop) :
  k_raft (locks s) = false -> Q tt (with_raft_lock true s) ->
  wp E (zoom raft_log_l (lock raft_log_lock lg_lock_l)) s Q.
Proof. intros Hk HQ. apply wp_zoom, wp_lock; done. Qed.

Lemma wp_raft_unlock E s (Q : unit -> St -> Prop) :
  Q tt (with_raft_lock false s) -> wp E (zoom raft_log_l (unlock lg_lock_l)) s Q.
Proof. intros HQ. by apply wp_zoom, wp_unlock. Qed.

(** The mutexes of a state in which the raft log is locked. *)
Lemma locks_raft b s s' :
  locks s' = locks (with_raft_lock b s) -> forall b',
  locks (with_raft_lock b' s') = locks (with_raft_lock b' s).
Proof. unfold locks. cbn. intros [=] b'. congruence. Qed.

Lemma over_threshold_ok s L C :
  core s L C -> exists b, zoom raft_log_l over_threshold s = Ok b s.
Proof.
  intros Co. eexists. rewrite (zoom_Ok _ _ _ _ _ (over_threshold_rep _ L (co_log s L C Co))).
  by destruct s.
Qed.

Lemma append_raft_log_entry_ok k s L C e :
  core s L C -> k_raft (locks s) = false -> k_cfg (locks s) = false ->
  k_rprog (locks s) = false -> entry_ok e ->
  l_last_log_index (lg (g_raft_log s)) + 1 < 2 ^ 64 - 1 -> Z.of_nat (length C) + 1 < 2 ^ 32 ->
  wp tolerated (append_raft_log_entry k e) s (fun _ s' => exists C',
    core s' (L ++ [set_index (l_last_log_index (lg (g_raft_log s)) + 1) e]) C' /\
    frame s s' /\
    (e_type e <> RAFT_CONFIG -> C' = C) /\
    (e_type e = RAFT_CONFIG -> config_effect (m_self_id (g_me s)) e C C')).
Proof.
  intros Co Hr Hc Hp He Hlast Hmax. unfold append_raft_log_entry.
  apply wp_bind, wp_raft_locked; [done|].
  apply (core_raft_lock true) in Co as C0. set (s0 := with_raft_lock true s) in *.
  destruct (over_threshold_ok s0 L C C0) as (b & Eb).
  apply wp_bind. eapply wp_eq; [exact Eb|]. apply wp_bind.
  apply (wp_mono tolerated _ _ (fun _ s1 =>
    core s1 L C /\ frame s0 s1 /\ g_raft_log s1 = g_raft_log s0 /\ g_config s1 = g_config s0)).
  { unfold when. destruct b; [by apply take_raft_snapshot_ok|]. apply wp_ret. by split. }
  intros [] s1 (C1 & F1 & Hl1 & Hc1). apply wp_bind, wp_zoom. cbn [lget raft_log_l].
  pose proof (co_log s1 L C C1) as Rl. rewrite Hl1 in Rl |- *.
  pose proof (length_le_capacity _ L Rl) as Hcap.
  destruct (decide (Z.of_nat (length L) = capacity (g_raft_log s0))) as [Hfull|Hroom].
  { eapply wp_eq; [by apply (append_full _ L)|]. by left. }
  destruct (append_room (g_raft_log s0) L Rl e ltac:(lia) Hlast) as (g & E & Rg & Fg & Hog).
  eapply wp_eq; [exact E|]. cbn [lput raft_log_l]. apply wp_bind. cbn [truthy Z.eqb negb when].
  apply wp_ret. set (e' := set_index _ e) in *.
  assert (entry_ok e') as He' by exact He.
  assert (core (set_raft_log g s1) (L ++ [e']) C) as C2.
  { apply (core_log s1 L); [done|done| |by rewrite Hog, Hl1|].
    - apply Forall_app. split; [apply C1|]. by apply list.Forall_singleton.
    - rewrite (lr_last _ _ Rg), Hog, length_app.
      pose proof (co_last s1 L C C1) as Hcl. rewrite Hl1 in Hcl.
      rewrite (lr_last _ _ Rl) in Hcl. cbn [length]. lia. }
  assert (frame s0 (set_raft_log g s1)) as F2.
  { destruct F1, Fg as (Fk & _). split; try done.
    rewrite <- fr_locks0. unfold locks. cbn. by rewrite Fk, Hl1. }
  assert (forall s', frame (set_raft_log g s1) s' -> frame s (with_raft_lock false s')) as F3.
  { intros s' Fs'. assert (frame s0 s') as [] by (by transitivity (set_raft_log g s1)).
    split; try done. rewrite (locks_raft true s s' fr_locks0 false).
    unfold locks. cbn. cbn in Hr. by rewrite Hr. }
  unfold when. destruct (Z.eqb_spec (e_type e) RAFT_CONFIG) as [Ht|Ht].
  - apply wp_bind. eapply wp_mono; [apply (apply_config_entry_ok _ _ C e C2)|].
    + rewrite (fr_locks _ _ F2). done.
    + by apply He.
    + done.
    + intros [] s3 (C' & C3 & Fs3 & Hl3 & _ & Hef). apply wp_raft_unlock.
      exists C'. split; [by apply core_raft_lock|]. split; [by apply F3|]. split; [done|].
      intros _. cbn in Hef. by rewrite (fr_me _ _ F1) in Hef.
  - apply wp_bind, wp_ret, wp_raft_unlock. exists C.
    split; [by apply core_raft_lock|]. split; [by apply F3|]. by split.
Qed.

(** Several entries, as a message carries them. *)
Lemma frame_me s s' : frame s s' -> m_self_id (g_me s') = m_self_id (g_me s).
Proof. by intros [-> ]. Qed.

Lemma core_last_length s L C :
  core s L C ->
  l_last_log_index (lg (g_raft_log s)) = l_index_offset (lg (g_raft_log s)) + Z.of_nat (length L).
Proof. intros []. by apply lr_last. Qed.

(** ** Removing conflicting entries *)

Lemma revert_config_entry_ok s C e :
  cfg_ok (g_config s) C -> is_Some (cmd_of_bytes (e_data e)) ->
  Z.of_nat (length C) + 1 < 2 ^ 32 ->
  wp tolerated (revert_config_entry e) s (fun _ s' => exists c' C',
    s' = set_config c' s /\ cfg_ok c' C' /\ (length C' <= length C + 1)%nat).
Proof.
  intros R [cmd Hcmd] Hmax. unfold revert_config_entry, my_id.
  apply wp_bind, wp_from_opt. rewrite Hcmd. apply wp_bind, wp_gets.
  pose proof (cmd_of_bytes_length _ _ Hcmd) as Hlen. set (self := m_self_id (g_me s)).
  destruct (Z.eqb_spec (e_command e) ADD_MEMBER) as [Ha|Ha];
    [|destruct (Z.eqb_spec (e_command e) DEL_MEMBER) as [Hd|Hd]].
  - apply wp_zoom. cbn [lget config_l].
    destruct (remove_server_ok self _ C R (cc_server_id cmd)) as (c1 & E1 & R1).
    eapply wp_eq; [exact E1|]. exists c1, (without (cc_server_id cmd) C).
    split; [done|]. split; [done|]. pose proof (without_length (cc_server_id cmd) C). lia.
  - apply wp_bind, wp_zoom. cbn [lget config_l].
    destruct (list_find (has_id (cc_server_id cmd)) C) as [[i x]|] eqn:Hf.
    + destruct (add_server_again_ok self _ C R _ (cc_target cmd) 0 i x Hf) as (c1 & E1 & R1).
      eapply wp_eq; [exact E1|]. by left.
    + apply ids_find_None in Hf.
      destruct (add_server_ok self _ C R _ (cc_target cmd) 0 Hf Hlen Hmax) as (c1 & E1 & R1 & _).
      eapply wp_eq; [exact E1|]. apply wp_bind, wp_ret, wp_bind, wp_zoom. cbn [lget lput config_l].
      destruct (set_status_ok _ _ R1 _ VOTING_MEMBER _ _ (find_new _ (cc_target cmd) 0 C Hf Hlen))
        as (c2 & E2 & R2); [by left|].
      eapply wp_eq; [exact E2|]. eexists c2, _. split; [done|]. split; [exact R2|].
      rewrite length_insert, length_app. simpl. lia.
  - apply wp_ret. exists (g_config s), C. split; [by destruct s|]. split; [done|]. lia.
Qed.

Definition matches_prev (prev_log_index : index_t) (prev_log_term : term_t) (e : log_entry_t)
  : bool := (e_index e =? prev_log_index) && (e_term e =? prev_log_term).

(** What is left of a log whose first [n] entries are committed: everything
    after the last matching entry goes, down to the committed ones. *)
Inductive conflict_cut (pi : index_t) (pt : term_t) (n : nat) (L : list log_entry_t)
  : list log_entry_t -> Prop :=
| CutMatch L1 e R : L = L1 ++ [e] ++ R -> matches_prev pi pt e = true ->
    Forall (fun x => matches_prev pi pt x = false) R -> (n <= length L1)%nat ->
    conflict_cut pi pt n L (L1 ++ [e])
| CutCommitted L1 R : L = L1 ++ R -> length L1 = n ->
    Forall (fun x => matches_prev pi pt x = false) R -> conflict_cut pi pt n L L1.

Lemma conflict_cut_snoc pi pt n L e L' :
  matches_prev pi pt e = false -> conflict_cut pi pt n L L' -> conflict_cut pi pt n (L ++ [e]) L'.
Proof.
  intros He []; subst.
  - apply (CutMatch _ _ _ _ L1 e0 (R ++ [e])); try done.
    + by rewrite <- !app_assoc.
    + apply Forall_app. split; [done|]. by apply list.Forall_singleton.
  - apply (CutCommitted _ _ _ _ L1 (R ++ [e])); try done.
    + by rewrite <- !app_assoc.
    + apply Forall_app. split; [done|]. by apply list.Forall_singleton.
Qed.

Lemma conflict_cut_prefix pi pt n L L' : conflict_cut pi pt n L L' -> L' `prefix_of` L.
Proof.
  intros []; subst; [exists R; by rewrite <- app_assoc|by exists R].
Qed.

Lemma conflict_cut_length pi pt n L L' : conflict_cut pi pt n L L' -> (n <= length L')%nat.
Proof. intros []; subst; rewrite ?length_app; simpl; lia. Qed.

(** The number of committed entries the log still holds. *)
Definition committed (s : St) : nat :=
  Z.to_nat (m_commit_index (g_me s) - l_index_offset (lg (g_raft_log s))).

Lemma committed_frame s s' : frame s s' -> committed s' = committed s.
Proof. intros []. unfold committed. by rewrite fr_me0, fr_offset0. Qed.

Lemma pop_entry_ok s L C e :
  core s (L ++ [e]) C -> m_commit_index (g_me s) < l_last_log_index (lg (g_raft_log s)) ->
  exists g1, on_ring log_ring_extract_r (g_raft_log s) = Ok (Some e) g1 /\
    lg_lock g1 = lg_lock (g_raft_log s) /\
    let s' := set_raft_log (set_lg (set_last (u64 (l_last_log_index (lg g1) - 1))
                (set_memsize (u64 (l_memsize (lg g1) - entry_size e)) (lg g1))) g1) s in
    core s' L C /\ frame s s'.
Proof.
  intros Co Hlt. destruct (pop_newest_rep _ L e (co_log _ _ _ Co)) as (g1 & E & Hk & R & F & Ho).
  exists g1. split; [done|]. split; [done|]. split.
  - eapply core_log; [done|done| |done|].
    + pose proof (co_entries _ _ _ Co) as Fe. by apply Forall_app in Fe as [Fe _].
    + rewrite (lr_last _ _ R), Ho. pose proof (core_last_length _ _ _ Co) as Hl.
      rewrite length_app in Hl. simpl in Hl. lia.
  - split; try done. unfold locks. cbn. by rewrite Hk.
Qed.

Lemma conflict_loop_ok fuel pi pt s L C :
  core s L C -> k_cfg (locks s) = false ->
  l_last_log_index (lg (g_raft_log s)) - m_commit_index (g_me s) <= Z.of_nat fuel ->
  Z.of_nat (length C) + Z.of_nat fuel < 2 ^ 32 ->
  wp tolerated (remove_raft_conflicting_loop fuel pi pt (m_commit_index (g_me s))) s (fun _ s' =>
    exists L' C', core s' L' C' /\ frame s s' /\ conflict_cut pi pt (committed s) L L' /\
      (length C' <= length C + fuel)%nat).
Proof.
  revert s L C. induction fuel as [|fuel IH]; intros s L C Co Hk Hf Hmax;
    pose proof (core_last_length s L C Co) as Hll;
    cbn [remove_raft_conflicting_loop]; apply wp_bind, wp_gets;
    destruct (Z.ltb_spec (m_commit_index (g_me s)) (l_last_log_index (lg (g_raft_log s)))) as [Hlt|Hge];
    [lia| | |].
  1,3: apply wp_ret; exists L, C; split; [done|]; split; [done|]; split; [|lia];
    apply (CutCommitted _ _ _ _ L []); rewrite ?app_nil_r; try done;
    pose proof (co_last _ _ _ Co); unfold committed; lia.
  pose proof (co_applied _ _ _ Co). pose proof (co_commit _ _ _ Co).
  destruct L as [|e L0 _] using rev_ind; [simpl in Hll; lia|].
  destruct (pop_entry_ok s L0 C e Co Hlt) as (g1 & E1 & Hk1 & Co1 & F1).
  apply wp_bind, wp_zoom. cbn [lget raft_log_l]. eapply wp_eq; [exact E1|]. cbn [lput raft_log_l].
  pose proof (co_entries _ _ _ Co) as Fe. apply Forall_app in Fe as [_ Fe].
  apply Forall_cons_iff in Fe as [Fe _].
  fold (matches_prev pi pt e). destruct (matches_prev pi pt e) eqn:Hm.
  - apply wp_bind, wp_zoom. cbn [lget raft_log_l].
    destruct (push_back_rep _ L0 e (co_log _ _ _ Co)) as (g1' & E1' & g2 & E2 & R2 & Fr2 & Ho2).
    rewrite E1 in E1'. injection E1' as <-. eapply wp_eq; [exact E2|]. apply wp_ret.
    exists (L0 ++ [e]), C. split; [|split; [|split; [|lia]]].
    + refine (core_log s (L0 ++ [e]) C g2 _ Co R2 (co_entries _ _ _ Co) Ho2 _).
      rewrite (lr_last _ _ R2), Ho2. pose proof (co_last _ _ _ Co). lia.
    + split; try done. unfold locks. cbn. by destruct Fr2 as (-> & _).
    + apply (CutMatch _ _ _ _ L0 e []); [done|done|done|].
      rewrite length_app in Hll. simpl in Hll. unfold committed. lia.
  - set (s1 := set_raft_log g1 s).
    assert (cfg_ok (g_config s) C) as Rc by (by apply (cfg_of_core s (L0 ++ [e]))).
    apply wp_bind. apply (wp_mono tolerated _ _ (fun _ s2 => exists c' C',
      s2 = set_config c' s1 /\ cfg_ok c' C' /\ (length C' <= length C + 1)%nat)).
    { unfold when. destruct (Z.eqb_spec (e_type e) RAFT_CONFIG) as [Ht|Ht].
      - apply revert_config_entry_ok; [done|by apply Fe|lia].
      - apply wp_ret. exists (g_config s), C. split; [by destruct s|]. split; [done|lia]. }
    intros [] s2 (c' & C' & -> & Rc' & Hlen'). apply wp_bind, wp_zoom, wp_modify.
    apply wp_bind, wp_zoom, wp_modify.
    set (s3 := set_config c' (set_raft_log (set_lg (set_last (u64 (l_last_log_index (lg g1) - 1))
      (set_memsize (u64 (l_memsize (lg g1) - entry_size e)) (lg g1))) g1) s)).
    assert (core s3 L0 C') as Co3 by exact (core_config _ L0 C c' C' Co1 Rc').
    assert (frame s s3) as F3.
    { etransitivity; [exact F1|]. apply frame_config. cbn.
      by rewrite (ok_free _ _ Rc'), (ok_free _ _ Rc). }
    assert (l_last_log_index (lg (g_raft_log s3)) = l_last_log_index (lg (g_raft_log s)) - 1) as Hl3.
    { rewrite (core_last_length _ _ _ Co3), Hll, (fr_offset _ _ F3), length_app. simpl. lia. }
    pose proof (IH s3 L0 C' Co3) as IH3. rewrite (fr_locks _ _ F3), Hl3, (fr_me _ _ F3) in IH3.
    eapply wp_mono; [apply IH3; [done|lia|lia]|].
    intros [] s4 (L' & C4 & Co4 & F4 & Hcut & Hlen4). exists L', C4.
    split; [done|]. split; [by transitivity s3|]. split; [|lia].
    apply conflict_cut_snoc; [done|]. by rewrite <- (committed_frame s s3).
Qed.

(** ** The consistency check

    Nothing has to be removed from a log whose last entry is the previous one
    of the request. *)
Definition settled (pi : index_t) (pt : term_t) (L : list log_entry_t) : Prop :=
  forall e, last L = Some e -> matches_prev pi pt e = true.

Lemma lookup_last s L : log_rep s L ->
  log_lookup (l_index_offset (lg s) + 1) L (l_last_log_index (lg s)) = last L.
Proof.
  intros [_ _ -> _ _ _]. unfold log_lookup. rewrite last_lookup.
  destruct L as [|e L]; [by rewrite (proj2 (Z.leb_gt _ _)) by (simpl; lia)|].
  rewrite (proj2 (Z.leb_le _ _)) by (simpl; lia). f_equal. simpl. lia.
Qed.

(** The term and index the follower compares with the leader's: of the entry
    at that index, or of its snapshot. *)
Definition prev_of (s : St) (L : list log_entry_t) (prev_log_index : index_t)
  : term_t * index_t :=
  match log_lookup (l_index_offset (lg (g_raft_log s)) + 1) L prev_log_index with
  | Some e => (e_term e, e_index e)
  | None => let x := sn_raft_snapshot (g_snap s) in (rs_last_term x, rs_last_index x)
  end.

(** The first part: the conflicting entries are removed when the last entry is
    another than the previous one of the request. *)
Lemma drop_conflicts_ok s0 L C pi pt o :
  core s0 L C -> k_cfg (locks s0) = false -> Z.of_nat (length C) + Z.of_nat (length L) < 2 ^ 32 ->
  wp tolerated (match o with
    | Some e =>
        when (negb (e_index e =? pi) || negb (e_term e =? pt))
          (remove_raft_conflicting_entries pi pt (m_commit_index (g_me s0)))
    | None => mret tt
    end) s0 (fun _ s1 => exists L' C', core s1 L' C' /\ frame s0 s1 /\
      (L' = L /\ C' = C /\ (forall e, o = Some e -> matches_prev pi pt e = true) \/
       conflict_cut pi pt (committed s0) L L') /\
      (length C' <= length C + length L)%nat).
Proof.
  intros C0 Hc Hmax. pose proof (core_last_length _ _ _ C0) as Hll. pose proof (co_commit _ _ _ C0).
  pose proof (co_applied _ _ _ C0).
  assert ((forall e, o = Some e -> matches_prev pi pt e = true) -> exists L' C',
    core s0 L' C' /\ frame s0 s0 /\
    (L' = L /\ C' = C /\ (forall e, o = Some e -> matches_prev pi pt e = true) \/
     conflict_cut pi pt (committed s0) L L') /\
    (length C' <= length C + length L)%nat) as Hsame
    by (intros Ho; exists L, C; split; [done|]; split; [done|]; split; [by left|lia]).
  destruct o as [e|]; [|by apply wp_ret, Hsame]. unfold when. destruct (_ || _) eqn:Hne.
  2: { apply wp_ret, Hsame. intros x [= <-]. unfold matches_prev.
       by destruct (e_index e =? pi), (e_term e =? pt). }
  unfold remove_raft_conflicting_entries. apply wp_bind, wp_gets.
  eapply wp_mono; [apply (conflict_loop_ok _ pi pt _ L C C0); [done|lia|lia]|].
  intros [] s' (L' & C' & Co' & F' & Hcut & Hlen). exists L', C'.
  split; [done|]. split; [exact F'|]. split; [by right|]. lia.
Qed.

(** The second part: the entry at the previous index, or the snapshot. *)
Lemma read_prev_ok s1 L C pi (Q : term_t * index_t -> St -> Prop) :
  core s1 L C -> is_u64 pi -> k_rsnap (locks s1) = false -> Q (prev_of s1 L pi) s1 ->
  wp tolerated (
    log_entry ← zoom raft_log_l (on_ring (log_ring_get pi));
    match log_entry with
    | Some e => mret (e_term e, e_index e)
    | None =>
        zoom snap_l (lock raft_snapshot_lock raft_snapshot_lock_l);;
        x ← gets (fun s => sn_raft_snapshot (g_snap s));
        zoom snap_l (unlock raft_snapshot_lock_l);;
        mret (rs_last_term x, rs_last_index x)
    end) s1 Q.
Proof.
  intros Co Hpi Hs HQ. apply wp_bind, wp_zoom. cbn [lget raft_log_l].
  eapply wp_eq; [by apply (log_get_rep _ L (co_log _ _ _ Co))|].
  assert (lput raft_log_l (g_raft_log s1) s1 = s1) as -> by (by destruct s1).
  unfold prev_of in HQ. destruct (log_lookup _ L pi) as [e|]; [by apply wp_ret|].
  destruct s1 as [me sl rl xl cf [ip rs pipe rsl rpl xip xs xpi xsl xpl] rp el ax].
  cbn in Hs. subst. exact HQ.
Qed.

Lemma check_consistency_ok s L C pi pt :
  core s L C -> k_raft (locks s) = false -> k_cfg (locks s) = false ->
  k_rsnap (locks s) = false -> is_u64 pi ->
  Z.of_nat (length C) + Z.of_nat (length L) < 2 ^ 32 ->
  wp tolerated (check_raft_log_consistency pi pt (m_commit_index (g_me s))) s (fun r s' =>
    exists L' C', core s' L' C' /\ frame s s' /\
      (L' = L /\ C' = C /\ settled pi pt L \/ conflict_cut pi pt (committed s) L L') /\
      (length C' <= length C + length L)%nat /\
      r = b2z (bool_decide (prev_of s' L' pi = (pt, pi)))).
Proof.
  intros Co Hr Hc Hs Hpi Hmax. unfold check_raft_log_consistency.
  apply wp_bind, wp_raft_locked; [done|].
  apply (core_raft_lock true) in Co as C0. set (s0 := with_raft_lock true s) in *.
  apply wp_bind, wp_gets, wp_bind, wp_zoom. cbn [lget raft_log_l].
  pose proof (co_log _ _ _ C0) as R0. pose proof (lr_max _ _ R0). pose proof (lr_last _ _ R0).
  pose proof (lr_offset _ _ R0).
  eapply wp_eq; [apply (log_get_rep _ L R0); change (g_raft_log s0) with (g_raft_log s0) in *; lia|].
  rewrite (lookup_last _ _ R0).
  assert (lput raft_log_l (g_raft_log s0) s0 = s0) as -> by (by destruct s).
  apply wp_bind. eapply wp_mono; [by apply (drop_conflicts_ok s0 L C pi pt _ C0)|].
  intros [] s1 (L' & C' & Co1 & F1 & HL & HC).
  apply wp_bind_assoc, wp_bind. eapply read_prev_ok; [done|done|by rewrite (fr_locks _ _ F1)|].
  destruct (prev_of s1 L' pi) as [t i] eqn:Ep. apply wp_bind, wp_raft_unlock, wp_ret.
  exists L', C'. split; [by apply core_raft_lock|]. split.
  - destruct F1. split; try done. rewrite (locks_raft true s s1 fr_locks0 false).
    unfold locks. cbn. cbn in Hr. by rewrite Hr.
  - split; [done|]. split; [done|]. change (prev_of (with_raft_lock false s1) L' pi) with (prev_of s1 L' pi).
    rewrite Ep. f_equal. destruct (Z.eqb_spec t pt), (Z.eqb_spec i pi); simpl; symmetry;
      [apply bool_decide_true; by subst|apply bool_decide_false; congruence..].
Qed.

End Invariant.
