(* ===== verification/Commit.v ===== *)
(** * Commitment and application (proofs about src/rft.c)

    The leader commits what a majority holds and what is of its term; every
    server applies what is committed, in order, and only entries that are in
    its log. *)

From S2P Require Import Prelude Monad Types LogRing Mtl Config Quorum HashTable.
From S2P Require Import State Utils Log Serialize Snapshot RaftLog Raft Invariant.
Open Scope Z_scope.

Section Commit.
Context `{Rmr} `{Host}.

(** What the functions below take from their environment: the settings of the
    replication and the random numbers. *)
Record env_ok (s : St) : Prop := {
  env_replicas : is_u32 (rp_num_replicas (g_repl s));
  env_rands : rands_ok (g_elec s) }.

Definition with_changing (b : Z) (c : config_st) : config_st :=
  set_cf (RaftConfig (c_size (cf c)) (c_voting_members (cf c)) b (c_servers (cf c))) c.

(** What committing and applying leave alone. *)
Record cframe (s s' : St) : Prop := {
  cr_locks : locks s' = locks s;
  cr_log : g_raft_log s' = g_raft_log s;
  cr_xapp : g_xapp_log s' = g_xapp_log s;
  cr_snap : g_snap s' = g_snap s;
  cr_app : g_app s' = g_app s;
  cr_config : exists b, g_config s' = with_changing b (g_config s);
  cr_term : m_current_term (g_me s') = m_current_term (g_me s);
  cr_voted : m_voted_for (g_me s') = m_voted_for (g_me s);
  cr_leader : m_current_leader (g_me s') = m_current_leader (g_me s);
  cr_self : m_self_id (g_me s') = m_self_id (g_me s);
  cr_votes : m_rcv_votes (g_me s') = m_rcv_votes (g_me s);
  cr_role : m_state (g_me s') = m_state (g_me s) \/ m_state (g_me s') = FOLLOWER;
  cr_env : env_ok s -> env_ok s' }.

Lemma with_changing_id c : with_changing (c_is_changing (cf c)) c = c.
Proof. by destruct c as [[] ? ? ?]. Qed.

#[global] Instance cframe_preorder : PreOrder cframe.
Proof.
  split.
  - intros s. split; try done; [|by left]. exists (c_is_changing (cf (g_config s))).
    by rewrite with_changing_id.
  - intros s1 s2 s3 [] []. split; try congruence; try tauto.
    + destruct cr_config0 as [b1 E1], cr_config1 as [b2 E2]. exists b2. by rewrite E2, E1.
    + destruct cr_role1 as [->|]; [done|by right].
Qed.

Lemma core_me s L C m :
  core s L C -> is_u64 (m_current_term m) ->
  l_index_offset (lg (g_raft_log s)) <= m_last_applied m -> m_last_applied m <= m_commit_index m ->
  m_commit_index m <= l_last_log_index (lg (g_raft_log s)) ->
  m_last_applied (g_me s) <= m_last_applied m -> core (set_me m s) L C.
Proof.
  intros [C1 C2 C3 C4 C5 C6 C7 C8 C9] Ht Ha Hc Hl Hm. split; cbn; try done.
  intros meta data Hp. destruct (C9 meta data Hp). split; [done|]. lia.
Qed.

(** *** The election timer *)

Lemma become_follower_run s :
  env_ok s ->
  exists e, become_follower s = Ok tt (set_elec e (set_me (me_state FOLLOWER (g_me s)) s)) /\
    rands_ok e /\ el_lock e = el_lock (g_elec s) /\ el_now e = el_now (g_elec s).
Proof.
  intros [_ Hr]. destruct (randomize_range (g_elec s) Hr) as (t & e' & E & _ & Hr' & Ee).
  exists (set_el_rand t e'). split; [|split; [exact Hr'|by rewrite Ee]].
  unfold become_follower, upd_me, new_rand_timeout. mrun. cbn. by rewrite E.
Qed.

Lemma become_follower_ok s L C :
  core s L C -> env_ok s ->
  exists s', become_follower s = Ok tt s' /\ core s' L C /\ cframe s s' /\
    m_state (g_me s') = FOLLOWER /\ m_last_applied (g_me s') = m_last_applied (g_me s) /\
    m_commit_index (g_me s') = m_commit_index (g_me s) /\ g_repl s' = g_repl s.
Proof.
  intros Co En. destruct (become_follower_run s En) as (e & E & Hr & Hl & _).
  eexists. split; [exact E|]. split; [by apply (core_same s)|]. split; [|by repeat split].
  split; try done.
  - unfold locks. cbn. by rewrite Hl.
  - exists (c_is_changing (cf (g_config s))). by rewrite with_changing_id.
  - by right.
  - intros [H1 _]. by split.
Qed.

(** *** The backup servers follow the configuration *)

Lemma update_replica_servers_ok s L C :
  core s L C -> env_ok s -> k_cfg (locks s) = false -> k_repl (locks s) = false ->
  Z.of_nat (length C) + 1 < 2 ^ 32 ->
  wp never update_replica_servers s (fun _ s' => core s' L C /\ cframe s s' /\
    g_me s' = g_me s /\ g_config s' = g_config s /\
    (m_state (g_me s) <> INIT_SERVER ->
     exists ps, rp_servers (g_repl s') = Some <$> ps /\
       Forall2 (fun p x => cf_heap (g_config s) !! p = Some x) ps
         (take (Z.to_nat (if decide (rp_type (g_repl s) = PARTIAL) then rp_num_replicas (g_repl s)
                          else u32 (Z.of_nat (length C) - 1)))
            (filter voting (candidates (my_position (m_self_id (g_me s)) C) C))))).
Proof.
  intros Co En Hc Hp Hmax. unfold update_replica_servers.
  apply wp_bind. apply wp_ret. destruct (decide (m_state (g_me s) = INIT_SERVER)) as [Hi|Hi].
  { apply wp_ret. split; [done|]. split; [done|]. by split. }
  apply wp_bind, wp_zoom, wp_lock; [done|]. set (s1 := lput repl_l _ s).
  assert (cfg_rep (g_config s) C) as Rc by apply Co.
  assert (cf_lock (g_config s) = false) as Hlk by done.
  apply wp_bind.
  apply (wp_mono never _ _ (fun n s2 => s2 = s1 /\
    n = if decide (rp_type (g_repl s) = PARTIAL) then rp_num_replicas (g_repl s)
        else u32 (Z.of_nat (length C) - 1))).
  { change (rp_type (g_repl s1)) with (rp_type (g_repl s)).
    destruct (decide (rp_type (g_repl s) = PARTIAL)); [by apply wp_ret|].
    apply wp_bind, wp_zoom.
    assert (raft_get_num_servers (lget config_l s1) = Ok (Z.of_nat (length C)) (lget config_l s1)) as E.
    { apply locked_read; [done|]. mrun. cbn. by rewrite (objs_size _ _ (rep_objs _ _ Rc)). }
    eapply wp_eq; [exact E|]. apply wp_ret. by destruct s. }
  intros n s2 [-> En']. apply wp_bind, wp_zoom. cbn [lget config_l].
  assert (is_u32 n) as Hn.
  { rewrite En'. case_decide; [apply En|apply u32_range]. }
  destruct (get_replica_servers_rep (g_config s) C (m_self_id (g_me s)) n Rc Hlk Hn Hmax)
    as (ps & E & HF).
  eapply wp_eq; [exact E|]. apply wp_bind, wp_zoom, wp_modify. apply wp_zoom, wp_unlock.
  split; [by apply (core_same s)|]. split; [|split; [done|split; [done|]]].
  - split; try done.
    + unfold locks. cbn. cbn in Hp. by rewrite Hp.
    + exists (c_is_changing (cf (g_config s))). by rewrite with_changing_id.
    + by left.
    + intros [H1 H2]. by split.
  - intros _. exists ps. split; [done|]. by rewrite <- En'.
Qed.

(** *** Applying *)

Lemma committed_lookup s L C i :
  core s L C -> m_last_applied (g_me s) < i <= m_commit_index (g_me s) ->
  exists e, log_lookup (l_index_offset (lg (g_raft_log s)) + 1) L i = Some e /\ e ∈ L.
Proof.
  intros Co Hi. pose proof (core_last_length _ _ _ Co). destruct Co.
  unfold log_lookup. rewrite (proj2 (Z.leb_le _ _)) by lia.
  destruct (L !! Z.to_nat (i - (l_index_offset (lg (g_raft_log s)) + 1))) as [e|] eqn:E.
  - exists e. split; [done|]. by eapply list_elem_of_lookup_2.
  - apply lookup_ge_None in E. lia.
Qed.

Lemma get_raft_log_entry_ok s L C i :
  core s L C -> k_raft (locks s) = false -> is_u64 i ->
  get_raft_log_entry i s = Ok (log_lookup (l_index_offset (lg (g_raft_log s)) + 1) L i) s.
Proof.
  intros Co Hk Hi. unfold get_raft_log_entry, zoom. cbn [lget raft_log_l].
  rewrite (get_log_entry_rep _ L (co_log _ _ _ Co)) by done. by destruct s.
Qed.

Lemma get_raft_last_ok s L C :
  core s L C -> k_raft (locks s) = false ->
  get_raft_last_log_index s = Ok (l_last_log_index (lg (g_raft_log s))) s.
Proof.
  intros Co Hk. unfold get_raft_last_log_index, zoom. cbn [lget raft_log_l].
  rewrite (get_last_log_index_rep _ L (co_log _ _ _ Co)) by done.
  rewrite <- (core_last_length s L C Co). by destruct s.
Qed.

(** The result of an apply: everything committed is applied. *)
Definition applied_all (s s' : St) : Prop :=
  m_commit_index (g_me s') = m_commit_index (g_me s) /\
  m_last_applied (g_me s') = m_commit_index (g_me s).

(** An entry without effect on the data: a server that finds itself added
    becomes a follower. *)
Record member_applied (s s' : St) (L : list log_entry_t) (C : list server_t) : Prop := {
  ma_core : core s' L C;
  ma_frame : cframe s s';
  ma_applied : m_last_applied (g_me s') = m_last_applied (g_me s);
  ma_commit : m_commit_index (g_me s') = m_commit_index (g_me s);
  ma_config : g_config s' = g_config s;
  ma_repl : g_repl s' = g_repl s }.

Lemma member_applied_refl s L C : core s L C -> member_applied s s L C.
Proof. intros Co. by split. Qed.

Lemma apply_member_ok e s L C :
  core s L C -> env_ok s -> k_cfg (locks s) = false -> is_Some (cmd_of_bytes (e_data e)) ->
  wp never (apply_member e) s (fun _ s' => member_applied s s' L C).
Proof.
  intros Co En Hc [cmd Hcmd]. pose proof (member_applied_refl s L C Co) as Hrefl. unfold apply_member.
  destruct (e_command e =? ADD_MEMBER); [|by apply wp_ret].
  apply wp_bind, wp_from_opt. rewrite Hcmd. apply wp_bind, wp_zoom. cbn [lget config_l].
  pose proof (cfg_of_core s L C Co Hc) as R.
  assert (lput config_l (g_config s) s = s) as Es by (by destruct s).
  destruct (get_server_ok _ C R (cc_server_id cmd)) as [(p & i & x & E & _ & _ & _ & Hpx & _)|[E _]];
    (eapply wp_eq; [exact E|]); rewrite Es; [|by apply wp_ret].
  apply wp_bind, wp_zoom. cbn [lget config_l].
  eapply wp_eq; [by apply deref_objs|]. rewrite Es. apply wp_bind, wp_gets.
  unfold when. case_match; [|by apply wp_ret].
  destruct (become_follower_ok s L C Co En) as (s1 & E1 & Co1 & F1 & _ & Hap & Hco & Hrp).
  eapply wp_eq; [exact E1|]. split; try done.
  unfold become_follower, upd_me, new_rand_timeout in E1. revert E1. mrun. cbn.
  destruct (randomize_election_timeout (g_elec s)); [|done]. by intros [= <-].
Qed.

(** The index of the last applied entry moves on. *)
Lemma advance_applied s L C :
  core s L C -> m_last_applied (g_me s) < m_commit_index (g_me s) ->
  let s' := set_me (me_applied (u64 (m_last_applied (g_me s) + 1)) (g_me s)) s in
  core s' L C /\ cframe s s' /\ m_last_applied (g_me s') = m_last_applied (g_me s) + 1.
Proof.
  intros Co Hlt s'. pose proof (co_commit _ _ _ Co). pose proof (co_applied _ _ _ Co).
  pose proof (co_last _ _ _ Co). pose proof (lr_max _ _ (co_log _ _ _ Co)).
  pose proof (lr_offset _ _ (co_log _ _ _ Co)).
  assert (u64 (m_last_applied (g_me s) + 1) = m_last_applied (g_me s) + 1) as Hu by (rewrite u64_small; lia).
  split; [|split; [|exact Hu]].
  - apply core_me; [done|apply Co|..]; cbn; rewrite ?Hu; lia.
  - split; try done.
    + exists (c_is_changing (cf (g_config s))). by rewrite with_changing_id.
    + by left.
    + intros [? ?]. by split.
Qed.

Lemma apply_loop_ok fuel : forall s L C chg,
  core s L C -> env_ok s -> k_raft (locks s) = false -> k_cfg (locks s) = false ->
  m_commit_index (g_me s) - m_last_applied (g_me s) <= Z.of_nat fuel ->
  wp never (apply_loop fuel chg) s (fun _ s' =>
    core s' L C /\ cframe s s' /\ applied_all s s' /\ g_config s' = g_config s /\
    g_repl s' = g_repl s).
Proof.
  induction fuel as [|fuel IH]; intros s L C chg Co En Hr Hc Hf;
    cbn [apply_loop]; apply wp_bind, wp_gets; pose proof (co_commit _ _ _ Co) as Hcm;
    destruct (Z.ltb_spec (m_last_applied (g_me s)) (m_commit_index (g_me s))) as [Hlt|Hge];
    [lia| | |].
  1,3: apply wp_ret; split; [done|]; split; [done|]; split; [|by split]; split; [done|lia].
  pose proof (co_applied _ _ _ Co) as Ha. pose proof (co_last _ _ _ Co) as Hl.
  pose proof (lr_max _ _ (co_log _ _ _ Co)) as Hmx. pose proof (lr_offset _ _ (co_log _ _ _ Co)) as Ho.
  rewrite u64_small by lia.
  destruct (committed_lookup s L C (m_last_applied (g_me s) + 1) Co ltac:(lia)) as (e & He & Hin).
  apply wp_bind. eapply wp_eq; [apply (get_raft_log_entry_ok s L C); [done|done|lia]|].
  apply wp_bind, wp_from_opt. rewrite He. apply wp_bind.
  apply (wp_mono never _ _ (fun _ s1 => member_applied s s1 L C)).
  { destruct (Z.eqb_spec (e_type e) RAFT_CONFIG) as [Ht|Ht]; [|by apply wp_ret, member_applied_refl].
    pose proof (co_entries _ _ _ Co) as Fe. rewrite list.Forall_forall in Fe. apply wp_bind.
    eapply wp_mono; [apply (apply_member_ok e s L C Co En Hc), (Fe e Hin), Ht|]. intros [] s1 M. by apply wp_ret. }
  intros chg' s1 [Co1 F1 Ha1 Hc1 Hcf1 Hrp1]. apply wp_bind, wp_modify.
  destruct (advance_applied s1 L C Co1 ltac:(lia)) as (Co2 & F2 & Hla). set (s2 := set_me _ s1) in *.
  assert (cframe s s2) as F by (by transitivity s1).
  eapply wp_mono; [apply (IH s2 L C chg' Co2)|].
  - by apply (cr_env _ _ F).
  - by rewrite (cr_locks _ _ F).
  - by rewrite (cr_locks _ _ F).
  - rewrite Hla. cbn. lia.
  - intros b s3 (Co3 & F3 & [Hx Hy] & Hcf3 & Hrp3). split; [done|]. split; [by transitivity s2|].
    split; [|by split; [rewrite Hcf3|rewrite Hrp3]]. cbn in Hx, Hy. rewrite Hc1 in Hx, Hy. by split.
Qed.

Lemma raft_apply_ok s L C :
  core s L C -> env_ok s -> k_raft (locks s) = false -> k_cfg (locks s) = false ->
  k_repl (locks s) = false -> Z.of_nat (length C) + 1 < 2 ^ 32 ->
  wp never raft_apply_log_entries s (fun _ s' =>
    core s' L C /\ cframe s s' /\ applied_all s s' /\ g_config s' = g_config s).
Proof.
  intros Co En Hr Hc Hp Hmax. unfold raft_apply_log_entries. apply wp_bind, wp_gets, wp_bind.
  eapply wp_mono; [apply (apply_loop_ok _ s L C); try done; lia|].
  intros chg s1 (Co1 & F1 & [Ha1 Hb1] & Hcf & Hrp). unfold when. destruct chg.
  - eapply wp_mono; [apply (update_replica_servers_ok s1 L C Co1)|].
    + by apply (cr_env _ _ F1).
    + by rewrite (cr_locks _ _ F1).
    + by rewrite (cr_locks _ _ F1).
    + done.
    + intros [] s2 (Co2 & F2 & Hm & Hcf2 & _). split; [done|]. split; [by transitivity s1|].
      split; [unfold applied_all; by rewrite Hm|]. by rewrite Hcf2.
  - apply wp_ret. split; [done|]; split; [done|]; by split.
Qed.

(** *** Committing *)

(** A majority, the leader included, holds the entry [idx]. *)
Definition quorum (idx : index_t) (C : list server_t) : Prop := voters C < 2 * (matches idx C + 1).

(** The entry of index [idx], of the log of a server. *)
Definition entry_at (s : St) (L : list log_entry_t) (idx : index_t) : option log_entry_t :=
  log_lookup (l_index_offset (lg (g_raft_log s)) + 1) L idx.

(** What the search of the leader may answer. *)
Record commit_answer (s : St) (L : list log_entry_t) (C : list server_t) (n : index_t)
    (r : option index_t) : Prop := {
  ca_below : forall i, r = Some i -> m_commit_index (g_me s) <= i <= Z.max n (m_commit_index (g_me s));
  ca_safe : forall i, r = Some i -> m_commit_index (g_me s) < i ->
    quorum i C /\ exists e, entry_at s L i = Some e /\ e_term e = m_current_term (g_me s);
  ca_newest : forall e, m_commit_index (g_me s) < n -> entry_at s L n = Some e ->
    e_term e = m_current_term (g_me s) -> quorum n C -> r = Some n }.

Lemma find_commit_ok fuel : forall s L C n,
  core s L C -> k_raft (locks s) = false -> k_cfg (locks s) = false ->
  Z.of_nat (length C) + 1 < 2 ^ 32 -> m_commit_index (g_me s) <= n < 2 ^ 64 ->
  n - m_commit_index (g_me s) <= Z.of_nat fuel ->
  wp never (find_commit fuel n) s (fun r s' => s' = s /\ commit_answer s L C n r).
Proof.
  induction fuel as [|fuel IH]; intros s L C n Co Hr Hc Hmax Hn Hf;
    cbn [find_commit]; apply wp_bind, wp_gets;
    destruct (Z.ltb_spec (m_commit_index (g_me s)) n) as [Hlt|Hge]; [lia| | |].
  1,3: apply wp_ret; split; [done|]; split; [intros i [= <-]; lia|intros i [= <-]; lia|lia].
  pose proof (co_applied _ _ _ Co). pose proof (co_commit _ _ _ Co).
  pose proof (lr_offset _ _ (co_log _ _ _ Co)).
  apply wp_bind. eapply wp_eq; [apply (get_raft_log_entry_ok s L C); [done|done|lia]|].
  fold (entry_at s L n). destruct (entry_at s L n) as [e|] eqn:Ee.
  2: { apply wp_ret. split; [done|]. split; [done|done|]. intros e He. congruence. }
  destruct (Z.eqb_spec (e_term e) (m_current_term (g_me s))) as [Ht|Ht]; cbn [negb].
  2: { apply wp_ret. split; [done|]. split; [done|done|]. intros e' _. rewrite Ee. by intros [= ->]. }
  apply wp_bind, wp_zoom. cbn [lget config_l].
  pose proof (voters_le_length C) as Hv.
  eapply wp_eq; [apply (has_majority_of_match_index_rep _ C); [apply Co|done|lia]|].
  assert (lput config_l (g_config s) s = s) as -> by (by destruct s).
  destruct (Z.ltb_spec (voters C) (2 * (matches n C + 1))) as [Hq|Hq]; cbn [b2z truthy Z.eqb negb].
  - apply wp_ret. split; [done|]. split; [intros i [= <-]; lia| |done].
    intros i [= <-] _. split; [done|]. by exists e.
  - eapply wp_mono; [apply (IH s L C (n - 1)); try done; lia|].
    intros r s' [-> [Q1 Q2 Q3]]. split; [done|]. split; [|done|].
    + intros i Hi. specialize (Q1 i Hi). lia.
    + intros e' _ _ _ Hq'. unfold quorum in Hq'. lia.
Qed.

Lemma cfg_rep_changing b c C : cfg_rep c C -> cfg_rep (with_changing b c) C.
Proof. intros [[]]. by split. Qed.

Lemma core_changing b s L C :
  core s L C -> core (set_config (with_changing b (g_config s)) s) L C.
Proof. intros []. split; try done. by apply cfg_rep_changing. Qed.

Definition is_config (e : log_entry_t) : bool := e_type e =? RAFT_CONFIG.

Lemma set_changing_0 c :
  cf_lock c = false -> set_configuration_changing 0 c = Ok 1 (with_changing 0 c).
Proof.
  intros Hk. unfold set_configuration_changing.
  rewrite (locked_run _ c 1 (with_changing 0 (set_cf_lock true c))); [|done|].
  - f_equal. unfold with_changing, set_cf_lock. destruct c. cbn in *. by rewrite Hk.
  - mrun. by rewrite andb_false_r.
Qed.

(** The entries of the indices [i .. n]. *)
Definition entries_between (s : St) (L : list log_entry_t) (i n : index_t) : list log_entry_t :=
  take (Z.to_nat (n + 1 - i)) (drop (Z.to_nat (i - (l_index_offset (lg (g_raft_log s)) + 1))) L).

Lemma entries_between_cons s L i n e :
  entry_at s L i = Some e -> i <= n ->
  entries_between s L i n = e :: entries_between s L (i + 1) n.
Proof.
  unfold entry_at, log_lookup, entries_between. intros He Hi.
  destruct (Z.leb_spec (l_index_offset (lg (g_raft_log s)) + 1) i) as [Ho|]; [|done].
  rewrite (drop_S _ _ _ He).
  replace (Z.to_nat (n + 1 - i)) with (S (Z.to_nat (n + 1 - (i + 1)))) by lia. cbn [take].
  do 3 f_equal. lia.
Qed.

Lemma release_config_ok fuel : forall s L C i n,
  core s L C -> k_raft (locks s) = false -> k_cfg (locks s) = false ->
  l_index_offset (lg (g_raft_log s)) < i -> n <= l_last_log_index (lg (g_raft_log s)) ->
  n + 1 - i <= Z.of_nat fuel ->
  wp never (release_config fuel i n) s (fun ok s' => ok = true /\
    s' = if existsb is_config (entries_between s L i n)
         then set_config (with_changing 0 (g_config s)) s else s).
Proof.
  induction fuel as [|fuel IH]; intros s L C i n Co Hr Hc Hi Hn Hf; cbn [release_config];
    destruct (Z.leb_spec i n) as [Hle|Hgt]; [lia| | |].
  1,3: apply wp_ret; split; [done|]; unfold entries_between;
    by replace (Z.to_nat (n + 1 - i)) with O by lia.
  pose proof (core_last_length _ _ _ Co) as Hll. pose proof (lr_max _ _ (co_log _ _ _ Co)).
  pose proof (lr_offset _ _ (co_log _ _ _ Co)).
  apply wp_bind. eapply wp_eq; [apply (get_raft_log_entry_ok s L C); [done|done|lia]|].
  fold (entry_at s L i).
  assert (is_Some (entry_at s L i)) as [e Ee].
  { unfold entry_at, log_lookup. rewrite (proj2 (Z.leb_le _ _)) by lia. apply lookup_lt_is_Some. lia. }
  rewrite Ee, (entries_between_cons s L i n e Ee Hle). cbn [existsb].
  change (e_type e =? RAFT_CONFIG) with (is_config e). destruct (is_config e); cbn [orb].
  - apply wp_bind, wp_zoom. cbn [lget config_l]. eapply wp_eq; [by apply set_changing_0|].
    apply wp_ret. by split.
  - rewrite u64_small by lia. apply (IH s L C); try done; lia.
Qed.

Lemma set_commit_ok s L C n :
  core s L C -> env_ok s -> k_raft (locks s) = false -> k_cfg (locks s) = false ->
  k_repl (locks s) = false -> Z.of_nat (length C) + 1 < 2 ^ 32 ->
  n <= l_last_log_index (lg (g_raft_log s)) ->
  m_commit_index (g_me s) < n \/ m_last_applied (g_me s) = m_commit_index (g_me s) ->
  wp never (set_commit_index n) s (fun _ s' => core s' L C /\ cframe s s' /\
    m_commit_index (g_me s') = Z.max n (m_commit_index (g_me s)) /\
    m_last_applied (g_me s') = m_commit_index (g_me s') /\ g_config s' = g_config s).
Proof.
  intros Co En Hr Hc Hp Hmax Hn Ha. unfold set_commit_index. apply wp_bind, wp_gets.
  destruct (Z.ltb_spec (m_commit_index (g_me s)) n) as [Hlt|Hge].
  2: { apply wp_ret. split; [done|]. split; [done|]. split; [lia|]. split; [lia|done]. }
  apply wp_bind, wp_modify. set (s1 := set_me _ s).
  pose proof (co_applied _ _ _ Co). pose proof (co_commit _ _ _ Co).
  assert (core s1 L C) as Co1 by (apply core_me; [done|apply Co|..]; cbn; lia).
  assert (env_ok s1) as En1 by (by destruct En).
  eapply wp_mono; [by apply (raft_apply_ok s1 L C)|].
  intros [] s2 (Co2 & F2 & [Hc2 Ha2] & Hcf2). split; [done|]. split; [|split; [|split]].
  - destruct F2 as [? ? ? ? ? ? ? ? ? ? ? ? He]. split; try done. intros _. by apply He.
  - rewrite Hc2. cbn. lia.
  - by rewrite Ha2, Hc2.
  - done.
Qed.

(** What [raft_commit_log_entries n] does. *)
Record commit_spec (s s' : St) (L : list log_entry_t) (C : list server_t) (n : index_t) : Prop := {
  cs_mono : m_commit_index (g_me s) <= m_commit_index (g_me s');
  cs_below : m_commit_index (g_me s') <= Z.max n (m_commit_index (g_me s));
  cs_applied : m_last_applied (g_me s') = m_commit_index (g_me s');
  cs_leader : m_state (g_me s) = LEADER ->
    m_commit_index (g_me s) < m_commit_index (g_me s') ->
    quorum (m_commit_index (g_me s')) C /\
    exists e, entry_at s L (m_commit_index (g_me s')) = Some e /\
      e_term e = m_current_term (g_me s);
  cs_released : m_state (g_me s) = LEADER ->
    g_config s' = if existsb is_config (entries_between s L (m_commit_index (g_me s) + 1)
                                          (m_commit_index (g_me s')))
                  then with_changing 0 (g_config s) else g_config s;
  cs_newest : forall e, m_state (g_me s) = LEADER -> m_commit_index (g_me s) < n ->
    entry_at s L n = Some e -> e_term e = m_current_term (g_me s) -> quorum n C ->
    m_commit_index (g_me s') = n;
  cs_follower : m_state (g_me s) <> LEADER ->
    m_commit_index (g_me s') =
      Z.max (m_commit_index (g_me s)) (Z.min n (l_last_log_index (lg (g_raft_log s)))) }.

Lemma commit_ok s L C n :
  core s L C -> env_ok s -> k_raft (locks s) = false -> k_cfg (locks s) = false ->
  k_repl (locks s) = false -> Z.of_nat (length C) + 1 < 2 ^ 32 ->
  m_last_applied (g_me s) = m_commit_index (g_me s) -> m_commit_index (g_me s) <= n < 2 ^ 64 ->
  wp never (raft_commit_log_entries n) s (fun _ s' =>
    core s' L C /\ cframe s s' /\ commit_spec s s' L C n).
Proof.
  intros Co En Hr Hc Hp Hmax Ha Hn. unfold raft_commit_log_entries. apply wp_bind, wp_gets.
  pose proof (core_last_length _ _ _ Co) as Hll. pose proof (co_last _ _ _ Co) as Hcl.
  destruct (decide (m_state (g_me s) = LEADER)) as [Hl|Hl].
  2: { apply wp_bind. eapply wp_eq; [by apply (get_raft_last_ok s L C)|].
       set (i := if n <? _ then _ else _).
       assert (i = Z.min n (l_last_log_index (lg (g_raft_log s)))) as Ei
         by (unfold i; destruct (Z.ltb_spec n (l_last_log_index (lg (g_raft_log s)))); lia).
       eapply wp_mono; [apply (set_commit_ok s L C i); try done; [lia|by right]|].
       intros [] s' (Co' & F & Hc' & Ha' & Hcf). split; [done|]. split; [done|].
       split; try done; lia. }
  apply wp_bind. eapply wp_mono; [apply (find_commit_ok _ s L C n); try done; lia|].
  intros [i|] s1 [-> [Q1 Q2 Q3]].
  2: { apply wp_ret. split; [done|]. split; [done|]. split; try done; try lia.
       - intros _. unfold entries_between.
         by replace (Z.to_nat (m_commit_index (g_me s) + 1 - (m_commit_index (g_me s) + 1)))
           with O by lia.
       - intros e _ Hlt He Ht Hq. by specialize (Q3 e Hlt He Ht Hq). }
  specialize (Q1 i eq_refl). specialize (Q2 i eq_refl).
  assert (i <= l_last_log_index (lg (g_raft_log s))) as Hil.
  { destruct (decide (m_commit_index (g_me s) < i)) as [Hlt|]; [|lia].
    destruct (Q2 Hlt) as [_ (e & He & _)]. unfold entry_at, log_lookup in He.
    destruct (_ <=? _); [|done]. apply lookup_lt_Some in He. lia. }
  pose proof (co_applied _ _ _ Co). pose proof (lr_offset _ _ (co_log _ _ _ Co)).
  pose proof (lr_max _ _ (co_log _ _ _ Co)). rewrite u64_small by lia.
  apply wp_bind. eapply wp_mono; [apply (release_config_ok _ s L C); try done; lia|].
  intros ok s1 [-> Es1].
  assert (core s1 L C /\ cframe s s1 /\ g_me s1 = g_me s /\ g_raft_log s1 = g_raft_log s /\
    g_config s1 = if existsb is_config (entries_between s L (m_commit_index (g_me s) + 1) i)
                  then with_changing 0 (g_config s) else g_config s) as
    (Co1 & F1 & Em & Er & Ecf).
  { subst s1. destruct (existsb _ _); [|split; [done|]; split; [reflexivity|]; by split].
    split; [by apply core_changing|]. split; [|by split].
    split; try done; [|by left|]; [by exists 0|]. intros [E1 E2]. by split. }
  eapply wp_mono; [apply (set_commit_ok s1 L C i Co1)|].
  - by apply (cr_env _ _ F1).
  - by rewrite (cr_locks _ _ F1).
  - by rewrite (cr_locks _ _ F1).
  - by rewrite (cr_locks _ _ F1).
  - done.
  - by rewrite Er.
  - right. by rewrite Em.
  - intros [] s2 (Co2 & F2 & Hc2 & Ha2 & Hcf2). rewrite Em in Hc2.
    assert (m_commit_index (g_me s2) = i) as Ei by lia.
    split; [done|]. split; [by transitivity s1|]. split; rewrite ?Ei; try done; try lia.
    + by rewrite Hcf2.
    + intros e _ Hlt He Ht Hq. specialize (Q3 e Hlt He Ht Hq). congruence.
Qed.

End Commit.
