(* ===== verification/Election.v ===== *)
(** * Elections (proofs about src/rft.c)

    The invariant of a server between two handlers, and the election handlers:
    at most one vote per term, granted to a candidate whose log is as up to
    date, and a leader elected by a majority of distinct voting members. *)

From S2P Require Import Prelude Monad Types LogRing Mtl Config Quorum HashTable.
From S2P Require Import State Utils Log Serialize Snapshot RaftLog Raft Invariant.
From S2P Require Import Commit.
Open Scope Z_scope.

(** The mutexes while a handler holds [raft_state_lock]. *)
Definition state_locked : lock_flags :=
  LockFlags true false false false false false false false false false false.

Section Election.
Context `{Rmr} `{Host}.

(** The invariant between two handlers: everything committed is applied. *)
Record inv (s : St) (L : list log_entry_t) (C : list server_t) : Prop := {
  inv_core : core s L C;
  inv_env : env_ok s;
  inv_applied : m_last_applied (g_me s) = m_commit_index (g_me s) }.

(** Neither the indices nor the counters of the server wrap around when [n]
    more entries arrive. *)
Definition roomy (s : St) (L : list log_entry_t) (C : list server_t) (n : Z) : Prop :=
  l_last_log_index (lg (g_raft_log s)) + n < 2 ^ 64 - 1 /\
  Z.of_nat (length C) + Z.of_nat (length L) + n + 1 < 2 ^ 32.

(** The same of a state, with a term to come. *)
Definition room (n : Z) (s : St) : Prop :=
  let l := lg (g_raft_log s) in
  m_current_term (g_me s) + 1 < 2 ^ 64 /\ l_last_log_index l + n < 2 ^ 64 - 1 /\
  c_size (cf (g_config s)) + (l_last_log_index l - l_index_offset l) + n + 1 < 2 ^ 32.

Lemma room_roomy s L C n : inv s L C -> room n s -> roomy s L C n.
Proof.
  intros I (_ & H1 & H2). pose proof (core_last_length _ _ _ (inv_core _ _ _ I)).
  pose proof (objs_size _ _ (rep_objs _ _ (co_cfg _ _ _ (inv_core _ _ _ I)))). split; [done|lia].
Qed.

Lemma core_state_lock b s L C : core s L C -> core (set_state_lock b s) L C.
Proof. by apply core_same. Qed.

Lemma inv_state_lock b s L C : inv s L C -> inv (set_state_lock b s) L C.
Proof. intros [Co [E1 E2] Ha]. split; [by apply core_state_lock|by split|done]. Qed.

Lemma locks_lock s : locks s = no_locks -> locks (set_state_lock true s) = state_locked.
Proof. unfold locks, no_locks, state_locked. cbn. intros [=]. congruence. Qed.

Lemma locks_unlock s : locks s = state_locked -> locks (set_state_lock false s) = no_locks.
Proof. unfold locks, no_locks, state_locked. cbn. intros [=]. congruence. Qed.

#[local] Hint Resolve inv_state_lock locks_lock locks_unlock : server.

Lemma wp_state_lock E s (Q : unit -> St -> Prop) :
  locks s = no_locks -> Q tt (set_state_lock true s) -> wp E (lock raft_state_lock state_lock_l) s Q.
Proof. intros [= Hk _] HQ. by apply wp_lock. Qed.

(** *** What an election step leaves alone: everything but the raft state and
    the election timer, and of the raft state the indices. *)

Record eframe (s s' : St) : Prop := {
  ef_locks : locks s' = locks s;
  ef_log : g_raft_log s' = g_raft_log s;
  ef_xapp : g_xapp_log s' = g_xapp_log s;
  ef_snap : g_snap s' = g_snap s;
  ef_app : g_app s' = g_app s;
  ef_repl : g_repl s' = g_repl s;
  ef_config : g_config s' = g_config s;
  ef_self : m_self_id (g_me s') = m_self_id (g_me s);
  ef_commit : m_commit_index (g_me s') = m_commit_index (g_me s);
  ef_applied : m_last_applied (g_me s') = m_last_applied (g_me s);
  ef_now : el_now (g_elec s') = el_now (g_elec s);
  ef_env : env_ok s -> env_ok s' }.

#[global] Instance eframe_preorder : PreOrder eframe.
Proof.
  split; [by intros s; split|]. intros s1 s2 s3 [] []. split; try congruence. tauto.
Qed.

Lemma eframe_core s s' L C :
  eframe s s' -> is_u64 (m_current_term (g_me s')) -> core s L C -> core s' L C.
Proof.
  intros [] Ht []. split; rewrite ?ef_log0, ?ef_config0, ?ef_commit0, ?ef_applied0, ?ef_snap0; done.
Qed.

Lemma eframe_inv s s' L C :
  eframe s s' -> is_u64 (m_current_term (g_me s')) -> inv s L C -> inv s' L C.
Proof.
  intros F Ht [Co En Ha]. split; [by eapply eframe_core|by apply (ef_env _ _ F)|].
  by rewrite (ef_applied _ _ F), (ef_commit _ _ F).
Qed.

Lemma eframe_me s f :
  m_self_id (f (g_me s)) = m_self_id (g_me s) ->
  m_commit_index (f (g_me s)) = m_commit_index (g_me s) ->
  m_last_applied (f (g_me s)) = m_last_applied (g_me s) -> eframe s (set_me (f (g_me s)) s).
Proof. intros H1 H2 H3. split; try done. by intros []. Qed.

(** *** The timer *)

Lemma restart_timer_ok s :
  k_elec (locks s) = false ->
  exists s', restart_election_timer s = Ok tt s' /\ eframe s s' /\ g_me s' = g_me s.
Proof.
  destruct s as [me0 sl rl xl cf sn rp [to lk rt now rs] ax]. cbn. intros ->.
  eexists. split; [unfold restart_election_timer, set_election_timeout, lock, unlock; mrun; done|].
  split; [|done]. split; try done. by intros [].
Qed.

Lemma become_follower_eframe s :
  env_ok s -> exists s', become_follower s = Ok tt s' /\ eframe s s' /\
    g_me s' = me_state FOLLOWER (g_me s).
Proof.
  intros En. destruct (become_follower_run s En) as (e & E & Hr & Hl & Hn). eexists.
  split; [exact E|]. split; [|done]. split; try done.
  - unfold locks. cbn. by rewrite Hl.
  - intros [H1 _]. by split.
Qed.

(** *** Terms *)

(** The state of a server that adopts a newer term. *)
Definition step_down (term : term_t) (m : raft_state_t) : raft_state_t :=
  RaftState (if decide (m_state m = INIT_SERVER) then INIT_SERVER else FOLLOWER) term
    (m_rcv_votes m) (m_self_id m) "" "" (m_commit_index m) (m_last_applied m).

Lemma match_terms_ok term s :
  env_ok s ->
  exists s', eframe s s' /\
    match_terms term s =
      Ok (if term <? m_current_term (g_me s) then E_OUTDATED_MSG
          else if term =? m_current_term (g_me s) then E_TERMS_MATCH else E_OUTDATED_TERM) s' /\
    g_me s' = if m_current_term (g_me s) <? term then step_down term (g_me s) else g_me s.
Proof.
  intros En. unfold match_terms. rewrite (bind_Ok _ _ _ (g_me s) s) by done.
  destruct (Z.ltb_spec term (m_current_term (g_me s))) as [Hlt|Hge].
  { exists s. split; [reflexivity|]. split; [done|].
    destruct (Z.ltb_spec (m_current_term (g_me s)) term); [lia|done]. }
  destruct (Z.eqb_spec term (m_current_term (g_me s))) as [->|Hne].
  { exists s. split; [reflexivity|]. split; [done|]. by rewrite Z.ltb_irrefl. }
  rewrite (proj2 (Z.ltb_lt _ _)) by lia.
  set (s1 := set_me (me_leader "" (me_voted_for "" (me_term term (g_me s)))) s).
  assert (eframe s s1) as F1 by (split; try done; by intros []).
  destruct (bool_decide (m_state (g_me s) = LEADER) || bool_decide (m_state (g_me s) = CANDIDATE))
    eqn:Hs.
  - destruct (become_follower_eframe s1 (ef_env _ _ F1 En)) as (s2 & E2 & F2 & Hm).
    exists s2. split; [by transitivity s1|]. split.
    + unfold upd_me. mrun. lazymatch goal with |- context [become_follower ?x] =>
        change x with s1 end. by rewrite E2.
    + rewrite Hm. unfold step_down. rewrite decide_False; [done|].
      intros Hi. rewrite Hi in Hs. by cbn in Hs.
  - exists s1. split; [done|]. split; [done|].
    unfold step_down. cbn. destruct (m_state (g_me s)) eqn:Er; cbn in Hs; try done;
      unfold me_leader, me_voted_for, me_term; cbn; rewrite Er; by case_decide.
Qed.

(** A server keeps its name and never forgets the vote it gave in its term,
    and its term never decreases. *)
Record votes_kept (s s' : St) : Prop := {
  vk_term : m_current_term (g_me s) <= m_current_term (g_me s');
  vk_vote : m_current_term (g_me s') = m_current_term (g_me s) ->
    m_voted_for (g_me s) <> "" -> m_voted_for (g_me s') = m_voted_for (g_me s);
  vk_self : m_self_id (g_me s') = m_self_id (g_me s) }.

#[global] Instance votes_kept_preorder : PreOrder votes_kept.
Proof.
  split; [by intros s; split|]. intros s1 s2 s3 [T1 V1 S1] [T2 V2 S2]. split; [lia| |congruence].
  intros E Hv. rewrite V2; [apply V1|lia|]; [lia|done|]. rewrite V1; [done|lia|done].
Qed.

(** A handler that is no part of an election makes nobody a candidate or the
    leader, and a server that stays one stays in its term, with its votes. *)
Definition role_kept (s s' : St) : Prop :=
  m_state (g_me s') = CANDIDATE \/ m_state (g_me s') = LEADER ->
  m_state (g_me s') = m_state (g_me s) /\ m_current_term (g_me s') = m_current_term (g_me s) /\
  m_rcv_votes (g_me s') = m_rcv_votes (g_me s).

Record stays (s s' : St) : Prop := {
  sy_votes : votes_kept s s';
  sy_role : role_kept s s' }.

#[global] Instance stays_preorder : PreOrder stays.
Proof.
  split; [by intros s; split|]. intros s1 s2 s3 [V1 R1] [V2 R2]. split; [by transitivity s2|].
  intros Hr. destruct (R2 Hr) as (E1 & E2 & E3). rewrite E1 in Hr. destruct (R1 Hr) as (E4 & E5 & E6).
  split; [|split]; congruence.
Qed.

(** Steps that leave the term and the vote alone. *)
Lemma stays_same s0 s s' :
  stays s0 s -> m_current_term (g_me s') = m_current_term (g_me s) ->
  m_voted_for (g_me s') = m_voted_for (g_me s) -> m_self_id (g_me s') = m_self_id (g_me s) ->
  m_rcv_votes (g_me s') = m_rcv_votes (g_me s) ->
  m_state (g_me s') = m_state (g_me s) \/ m_state (g_me s') = FOLLOWER -> stays s0 s'.
Proof.
  intros [[T V N] R] Et Ev En Ec Er. split; [split; by rewrite ?Et, ?Ev, ?En|]. intros Hr. rewrite Et, Ec.
  destruct Er as [Er|Er]; rewrite Er in *; [by apply R|by destruct Hr].
Qed.

Lemma stays_me s0 s s' : stays s0 s -> g_me s' = g_me s -> stays s0 s'.
Proof. intros S E. eapply stays_same; [done|by rewrite E..|]. left. by rewrite E. Qed.

(** *** The last term of the log *)

Lemma last_lookup (L : list log_entry_t) e :
  last L = Some e -> L !! (length L - 1)%nat = Some e.
Proof. rewrite last_lookup. by replace (length L - 1)%nat with (Init.Nat.pred (length L)) by lia. Qed.

(** The term is read under [raft_log_lock]; of an empty log, it is the current
    term, read under [raft_state_lock]. *)
Lemma last_log_term_ok s L C :
  core s L C -> k_raft (locks s) = false ->
  get_raft_last_log_term s =
    match last L with
    | Some e => Ok (e_term e) s
    | None => if g_state_lock s then Fault (SelfDeadlock raft_state_lock)
              else Ok (m_current_term (g_me s)) s
    end.
Proof.
  intros Co Hk. pose proof (core_last_length _ _ _ Co) as Hll.
  pose proof (lr_offset _ _ (co_log _ _ _ Co)). pose proof (lr_max _ _ (co_log _ _ _ Co)).
  unfold get_raft_last_log_term. set (s1 := with_raft_lock true s).
  assert (zoom raft_log_l (lock raft_log_lock lg_lock_l) s = Ok tt s1) as E1.
  { unfold zoom, lock. cbn. cbn in Hk. by rewrite Hk. }
  rewrite (bind_Ok _ _ _ _ _ E1), (bind_Ok _ _ _ (l_last_log_index (lg (g_raft_log s))) s1) by done.
  pose proof (core_raft_lock true s L C Co) as Co1. fold s1 in Co1.
  assert (zoom raft_log_l (on_ring (log_ring_get (l_last_log_index (lg (g_raft_log s))))) s1 =
    Ok (last L) s1) as E2.
  { unfold zoom. rewrite (log_get_rep _ L (co_log _ _ _ Co1)) by lia. f_equal.
    unfold log_lookup. cbn. destruct (last L) as [e|] eqn:El.
    - apply last_lookup in El as Hl. apply lookup_lt_Some in Hl as Hlt.
      rewrite (proj2 (Z.leb_le _ _)) by lia. rewrite <- Hl. f_equal. lia.
    - apply last_None in El as ->. destruct (_ <=? _) eqn:Hle; [|done].
      apply Z.leb_le in Hle. simpl in Hll. lia. }
  rewrite (bind_Ok _ _ _ _ _ E2).
  assert (with_raft_lock false s1 = s) as Es.
  { destruct s as [? ? [] ? ? ? ? ? ?]. cbn in *. by subst. }
  assert (zoom raft_log_l (unlock lg_lock_l) s1 = Ok tt s) as E3
    by (transitivity (Ok tt (with_raft_lock false s1)); [done|by rewrite Es]).
  rewrite (bind_Ok _ _ _ _ _ E3).
  destruct (last L); [done|]. unfold lock. unfold mbind, M_bind. cbn.
  destruct s as [? [] ? ? ? ? ? ? ?]; done.
Qed.

(** The candidate's log is at least as up to date as this server's. *)
Definition up_to_date (req : request_vote_t) (s : St) (L : list log_entry_t) : Prop :=
  exists e, last L = Some e /\ (e_term e < rv_last_log_term req \/
    e_term e = rv_last_log_term req /\
    l_last_log_index (lg (g_raft_log s)) <= rv_last_log_index req).

Lemma candidate_log_run req s L C :
  core s L C -> k_raft (locks s) = false -> L <> [] ->
  exists b : bool, candidate_log_ok req s = Ok b s /\ (b <-> up_to_date req s L).
Proof.
  intros Co Hk HL. pose proof (last_log_term_ok s L C Co Hk) as E.
  destruct (last L) as [e|] eqn:El; [|by apply last_None in El].
  unfold candidate_log_ok, up_to_date. rewrite (bind_Ok _ _ _ _ _ E).
  destruct (Z.ltb_spec (e_term e) (rv_last_log_term req)) as [Hlt|Hge].
  { exists true. split; [done|]. split; [|done]. intros _. exists e. split; [done|by left]. }
  rewrite (bind_Ok _ _ _ _ _ E).
  destruct (Z.eqb_spec (rv_last_log_term req) (e_term e)) as [Heq|Hne].
  - rewrite (bind_Ok _ _ _ _ _ (get_raft_last_ok s L C Co Hk)). eexists. split; [done|].
    rewrite Is_true_true, Z.leb_le. split.
    + intros Hle. exists e. split; [done|]. right. by split.
    + intros (e' & E' & [|[_ ?]]); [|done]. rewrite El in E'. injection E' as <-. lia.
  - exists false. split; [done|]. split; [done|]. intros (e' & E' & [|[? _]]); rewrite El in E'; injection E' as <-; lia.
Qed.

(** *** Answering a vote request *)

(** What a voter's answer says of the two states of the server. *)
Record vote_spec (req : request_vote_t) (s s' : St) (L : list log_entry_t) (r : reply_vote_t)
  : Prop := {
  vs_votes : votes_kept s s';
  vs_term : pv_term r = m_current_term (g_me s') /\
    m_current_term (g_me s') = Z.max (m_current_term (g_me s)) (rv_term req);
  vs_voter : pv_voter r = m_self_id (g_me s);
  vs_role : m_state (g_me s') = m_state (if m_current_term (g_me s) <? rv_term req
                                         then step_down (rv_term req) (g_me s) else g_me s);
  vs_count : m_rcv_votes (g_me s') = m_rcv_votes (g_me s);
  vs_frame : g_raft_log s' = g_raft_log s /\ g_config s' = g_config s /\ g_app s' = g_app s;
  vs_granted : pv_granted r = 0 \/
    pv_granted r = 1 /\ m_voted_for (g_me s') = rv_candidate_id req /\
    m_current_term (g_me s') = rv_term req /\
    (up_to_date req s L \/
     m_voted_for (g_me s) = rv_candidate_id req /\ m_current_term (g_me s) = rv_term req);
  vs_must : m_current_term (g_me s) < rv_term req ->
    timespec_lt (el_now (g_elec s)) (el_timeout (g_elec s)) = true -> up_to_date req s L ->
    pv_granted r = 1;
  vs_expired : m_state (g_me s') = FOLLOWER ->
    timespec_lt (el_now (g_elec s)) (el_timeout (g_elec s)) = false -> pv_granted r = 0 }.

Lemma step_down_not_candidate term m : m_state (step_down term m) <> CANDIDATE.
Proof. unfold step_down. cbn. by case_decide. Qed.

Lemma step_down_not_leader term m : m_state (step_down term m) <> LEADER.
Proof. unfold step_down. cbn. by case_decide. Qed.

(** What [match_terms] keeps, for a handler that runs it first. *)
Lemma match_terms_inv term s L C :
  inv s L C -> locks s = no_locks -> is_u64 term ->
  exists s2, match_terms term (set_state_lock true s) =
      Ok (if term <? m_current_term (g_me s) then E_OUTDATED_MSG
          else if term =? m_current_term (g_me s) then E_TERMS_MATCH else E_OUTDATED_TERM) s2 /\
    eframe (set_state_lock true s) s2 /\ inv s2 L C /\ locks s2 = state_locked /\
    stays s s2 /\
    m_current_term (g_me s2) = Z.max (m_current_term (g_me s)) term /\
    g_me s2 = if m_current_term (g_me s) <? term then step_down term (g_me s) else g_me s.
Proof.
  intros I Hk Ht. set (s1 := set_state_lock true s).
  assert (inv s1 L C) as I1 by (by apply inv_state_lock).
  destruct (match_terms_ok term s1 (inv_env _ _ _ I1)) as (s2 & F2 & E2 & Hm2).
  change (g_me s1) with (g_me s) in *. exists s2. split; [done|]. split; [done|].
  assert (m_current_term (g_me s2) = Z.max (m_current_term (g_me s)) term) as Hterm.
  { rewrite Hm2. destruct (Z.ltb_spec (m_current_term (g_me s)) term); cbn; lia. }
  pose proof (co_term _ _ _ (inv_core _ _ _ I)) as Hct.
  split; [eapply eframe_inv; [done|lia|done]|]. split; [|split; [|done]].
  - rewrite (ef_locks _ _ F2). by apply locks_lock.
  - split; [split; [lia| |apply (ef_self _ _ F2)]|intros Hr]; rewrite Hm2 in *;
      destruct (Z.ltb_spec (m_current_term (g_me s)) term); try done; [cbn; lia|].
    destruct Hr as [[]%step_down_not_candidate|[]%step_down_not_leader].
Qed.

Lemma timer_read s :
  k_elec (locks s) = false ->
  zoom elec_l (lock election_timeout_lock el_lock_l;; e ← get; unlock el_lock_l;;
    mret (timespec_lt (el_now e) (el_timeout e))) s =
  Ok (timespec_lt (el_now (g_elec s)) (el_timeout (g_elec s))) s.
Proof.
  destruct s as [me0 sl rl xl cf sn rp [to lk rt now rs] ax]. cbn. by intros ->.
Qed.

(** The vote of a server that may give it. *)
Lemma cast_vote_ok req s2 L C :
  inv s2 L C -> locks s2 = state_locked -> rv_candidate_id req <> "" ->
  wp tolerated (
    log_ok ← candidate_log_ok req;
    (if log_ok && bool_decide (m_voted_for (g_me s2) = EmptyString)
     then upd_me (me_voted_for (rv_candidate_id req)) else mret tt);;
    m ← me;
    mret (b2z (bool_decide (rv_candidate_id req = m_voted_for m)))) s2 (fun g s3 =>
      eframe s2 s3 /\
      (exists v, g_me s3 = me_voted_for v (g_me s2) /\
        (m_voted_for (g_me s2) <> "" -> v = m_voted_for (g_me s2)) /\
        (g = 0 \/ g = 1 /\ v = rv_candidate_id req /\
          (up_to_date req s2 L \/ m_voted_for (g_me s2) = v))) /\
      (m_voted_for (g_me s2) = "" -> up_to_date req s2 L -> g = 1)).
Proof.
  intros I2 Hk2 Hid. destruct (decide (L = [])) as [->|HL].
  { unfold candidate_log_ok. apply wp_bind, wp_bind. unfold wp.
    rewrite (last_log_term_ok s2 [] C (inv_core _ _ _ I2)) by (by rewrite Hk2).
    assert (g_state_lock s2 = true) as -> by (by injection Hk2). by right. }
  destruct (candidate_log_run req s2 L C (inv_core _ _ _ I2) ltac:(by rewrite Hk2) HL) as (b & Eb & Hb).
  apply wp_bind. eapply wp_eq; [exact Eb|]. apply wp_bind.
  assert (me_voted_for (m_voted_for (g_me s2)) (g_me s2) = g_me s2) as Esame by (by destruct (g_me s2)).
  destruct (b && bool_decide (m_voted_for (g_me s2) = "")) eqn:Hv.
  - apply andb_true_iff in Hv as [-> Hv%bool_decide_eq_true]. apply wp_modify, wp_bind, wp_gets, wp_ret.
    cbn [g_me set_me m_voted_for me_voted_for]. rewrite bool_decide_true by done.
    split; [by split; try done; intros []|]. split; [|done].
    exists (rv_candidate_id req). split; [done|]. split; [done|]. right. split; [done|]. split; [done|].
    left. by apply Hb.
  - apply wp_ret, wp_bind, wp_gets, wp_ret. split; [done|]. split.
    + exists (m_voted_for (g_me s2)). split; [done|]. split; [done|].
      destruct (bool_decide_reflect (rv_candidate_id req = m_voted_for (g_me s2))); [right; auto|by left].
    + intros E Hu. apply Hb in Hu. rewrite E in Hv. by destruct b.
Qed.

Lemma handle_vote_request_ok req s L C :
  inv s L C -> locks s = no_locks -> is_u64 (rv_term req) -> rv_candidate_id req <> "" ->
  wp tolerated (handle_vote_request req) s (fun r s' =>
    inv s' L C /\ locks s' = no_locks /\ vote_spec req s s' L r).
Proof.
  intros I Hk Ht Hid. unfold handle_vote_request. apply wp_bind, wp_gets, wp_bind.
  eapply wp_eq; [apply timer_read; by rewrite Hk|]. set (in_time := timespec_lt _ _).
  apply wp_bind, wp_state_lock; [done|].
  destruct (match_terms_inv (rv_term req) s L C I Hk Ht)
    as (s2 & E2 & F2 & I2 & Hk2 & [V2 _] & Hterm & Hm2).
  apply wp_bind. eapply wp_eq; [exact E2|]. apply wp_bind, wp_gets.
  assert (m_rcv_votes (g_me s2) = m_rcv_votes (g_me s)) as Hcnt
    by (rewrite Hm2; by destruct (m_current_term (g_me s) <? rv_term req)).
  assert (g_raft_log s2 = g_raft_log s /\ g_config s2 = g_config s /\ g_app s2 = g_app s) as Fr2
    by (by destruct F2).
  assert (forall s3 g, inv s3 L C -> locks s3 = state_locked ->
    vote_spec req s (set_state_lock false s3) L
      (RepVote (m_current_term (g_me s2)) g (m_self_id (g_me s))) ->
    wp tolerated (unlock state_lock_l;;
        mret (RepVote (m_current_term (g_me s2)) g (m_self_id (g_me s)))) s3 (fun r s' =>
      inv s' L C /\ locks s' = no_locks /\ vote_spec req s s' L r)) as Hend.
  { intros s3 g I3 Hk3 V. apply wp_bind, wp_unlock, wp_ret. split; [by auto with server|].
    split; [by auto with server|]. exact V. }
  apply wp_bind.
  destruct (negb in_time && bool_decide (m_state (g_me s2) = FOLLOWER)) eqn:Hdeny.
  { apply wp_ret, Hend; [done|done|]. split; try done; [by destruct V2|by cbn; rewrite Hm2|by left|].
    intros _ Hin. unfold in_time in Hdeny. by rewrite Hin in Hdeny. }
  destruct (Z.ltb_spec (rv_term req) (m_current_term (g_me s))) as [Hold|Hge].
  { rewrite decide_True by done. apply wp_ret, Hend; [done|done|].
    split; try done; [by destruct V2|by cbn; rewrite Hm2|by left|]. lia. }
  rewrite decide_False by (by destruct (rv_term req =? m_current_term (g_me s))).
  assert (m_current_term (g_me s2) = rv_term req) as Ecur by lia.
  assert (up_to_date req s2 L <-> up_to_date req s L) as Hup
    by (unfold up_to_date; by rewrite (proj1 Fr2)).
  assert (m_voted_for (g_me s2) = "" \/ m_voted_for (g_me s) = m_voted_for (g_me s2) /\
    m_current_term (g_me s) = rv_term req) as Hsame.
  { rewrite Hm2. destruct (Z.ltb_spec (m_current_term (g_me s)) (rv_term req)); [by left|].
    right. split; [done|lia]. }
  eapply wp_mono; [by apply (cast_vote_ok req s2 L C)|]. intros g s3 (F3 & (v & Em3 & Hv & Hg) & Hmust).
  apply Hend; [eapply eframe_inv; [done|rewrite Em3; apply I2|done]|by rewrite (ef_locks _ _ F3)|].
  split; cbn [pv_term pv_granted pv_voter set_state_lock g_me]; rewrite ?Em3; try done.
  - etransitivity; [exact V2|]. split; cbn [set_state_lock g_me]; rewrite ?Em3; done.
  - by cbn; rewrite Hm2.
  - destruct F3. cbn. destruct Fr2 as (? & ? & ?). split; [congruence|]. split; congruence.
  - destruct Hg as [|(-> & -> & Hu)]; [by left|]. right. split; [done|]. split; [done|]. split; [done|].
    destruct Hu as [Hu|Hu]; [left; by apply Hup|]. right. destruct Hsame as [Hs|[-> ?]]; [congruence|done].
  - intros Hlt _ Hu. apply Hmust; [|by apply Hup].
    destruct Hsame as [|[_ Hx]]; [done|lia].
  - intros Hf Hin. unfold in_time in Hdeny. by rewrite Hin, (bool_decide_true _ Hf) in Hdeny.
Qed.

(** *** Counting votes *)

(** The members whose vote this server has. *)
Definition granted (x : server_t) : Prop := voting x /\ truthy (s_voted_for_me x) = true.
#[global] Instance granted_dec x : Decision (granted x).
Proof. unfold granted. apply _. Defined.

Definition votes (C : list server_t) : Z := Z.of_nat (length (filter granted C)).

Lemma votes_insert C i x y : C !! i = Some x ->
  votes (<[i := y]> C) = votes C - b2z (bool_decide (granted x)) + b2z (bool_decide (granted y)).
Proof.
  intros Hi. pose proof (lookup_lt_Some _ _ _ Hi). unfold votes.
  rewrite <- (take_drop_middle C i x Hi) at 2. rewrite insert_take_drop by done.
  rewrite !filter_app, !length_app, !filter_cons.
  rewrite !bool_decide_decide. repeat case_decide; simpl; lia.
Qed.

Lemma votes_le_voters C : 0 <= votes C <= voters C.
Proof.
  unfold votes, voters. induction C as [|x C IH]; [done|].
  rewrite !filter_cons. unfold granted in *. repeat case_decide; simpl; try lia; tauto.
Qed.

Lemma votes_fmap C f :
  (forall x, granted (f x) <-> granted x) -> votes (f <$> C) = votes C.
Proof.
  intros Hf. unfold votes. induction C as [|x C IH]; [done|].
  rewrite fmap_cons, !filter_cons. specialize (Hf x). repeat case_decide; simpl; try lia; tauto.
Qed.

Lemma voters_fmap C f :
  (forall x, s_status (f x) = s_status x) -> voters (f <$> C) = voters C.
Proof.
  intros Hf. unfold voters. induction C as [|x C IH]; [done|].
  rewrite fmap_cons, !filter_cons. specialize (Hf x). unfold voting in *.
  repeat case_decide; simpl; try lia; congruence.
Qed.

Lemma votes_reset C : votes (upd_voted_for_me 0 <$> C) = 0.
Proof.
  unfold votes. induction C as [|x C IH]; [done|].
  rewrite fmap_cons, filter_cons, decide_False; [done|]. by intros [_ ?].
Qed.

(** A candidate counts each vote once. *)
Definition votes_ok (s : St) (C : list server_t) : Prop :=
  m_state (g_me s) = CANDIDATE -> m_rcv_votes (g_me s) = votes C.

(** Who the members are, and whose votes the server has. *)
Definition roster (C : list server_t) : list (server_id_t * Z) :=
  (fun x => (s_server_id x, s_status x)) <$> C.
Definition voted_ids (C : list server_t) : list server_id_t := s_server_id <$> filter granted C.

Lemma elem_of_voted_ids v C : v ∈ voted_ids C <-> exists x, x ∈ C /\ granted x /\ s_server_id x = v.
Proof.
  unfold voted_ids. rewrite list_elem_of_fmap. split.
  - intros (x & -> & Hx). apply list_elem_of_filter in Hx as [? ?]. by exists x.
  - intros (x & ? & ? & <-). exists x. split; [done|]. by apply list_elem_of_filter.
Qed.

Lemma roster_fmap C f :
  (forall x, s_server_id (f x) = s_server_id x /\ s_status (f x) = s_status x) ->
  roster (f <$> C) = roster C.
Proof.
  intros Hf. unfold roster. rewrite <- list_fmap_compose. apply list_fmap_ext. intros i x _. cbn.
  destruct (Hf x) as [-> ->]. done.
Qed.

Lemma roster_insert C i x y :
  C !! i = Some x -> s_server_id y = s_server_id x -> s_status y = s_status x ->
  roster (<[i := y]> C) = roster C.
Proof.
  intros Hi Hid Hs. unfold roster. rewrite list_fmap_insert, Hid, Hs. apply list_insert_id.
  by rewrite list_lookup_fmap, Hi.
Qed.

Lemma voted_ids_fmap C f :
  (forall x, s_server_id (f x) = s_server_id x) -> (forall x, granted (f x) <-> granted x) ->
  forall v, v ∈ voted_ids (f <$> C) <-> v ∈ voted_ids C.
Proof.
  intros Hid Hg v. rewrite !elem_of_voted_ids. split.
  - intros (y & (x & -> & Hx)%list_elem_of_fmap & Hy & <-). exists x. by rewrite <- Hg, Hid.
  - intros (x & Hx & Hgx & <-). exists (f x). rewrite Hg, Hid. split; [|done].
    apply list_elem_of_fmap. by exists x.
Qed.

Lemma voted_ids_insert C i x y v :
  C !! i = Some x -> s_server_id y = s_server_id x ->
  v ∈ voted_ids (<[i := y]> C) -> v ∈ voted_ids C \/ v = s_server_id x /\ granted y.
Proof.
  intros Hi Hid. rewrite !elem_of_voted_ids. intros (z & Hz & Hg & <-).
  apply list_elem_of_lookup in Hz as [j Hj]. destruct (decide (i = j)) as [<-|Hne].
  - rewrite list_lookup_insert_eq in Hj by (by eapply lookup_lt_Some). injection Hj as <-. by right.
  - rewrite list_lookup_insert_ne in Hj by done. left. exists z. split; [|done].
    by eapply list_elem_of_lookup_2.
Qed.

Lemma voted_ids_reset C : voted_ids (upd_voted_for_me 0 <$> C) = [].
Proof.
  unfold voted_ids. induction C as [|x C IH]; [done|].
  rewrite fmap_cons, filter_cons, decide_False; [done|]. by intros [_ ?].
Qed.

(** The same members with the same votes. *)
Definition same_ballots (C C' : list server_t) : Prop :=
  ids C' = ids C /\ voters C' = voters C /\ votes C' = votes C /\ roster C' = roster C /\
  forall v, v ∈ voted_ids C' -> v ∈ voted_ids C.

Lemma same_ballots_fmap C f :
  (forall x, s_server_id (f x) = s_server_id x /\ s_status (f x) = s_status x) ->
  (forall x, granted (f x) <-> granted x) -> same_ballots C (f <$> C).
Proof.
  intros Hf Hg. split; [|split; [by apply voters_fmap; intros x; apply Hf|split; [by apply votes_fmap|]]].
  - unfold ids. rewrite <- list_fmap_compose. apply list_fmap_ext. intros i x _. apply Hf.
  - split; [by apply roster_fmap|]. intros v Hv. by apply voted_ids_fmap in Hv; [..|intros x; apply Hf|].
Qed.

(** A member that has not been counted yet gives its vote. *)
Lemma new_ballot C i x :
  C !! i = Some x -> voting x -> truthy (s_voted_for_me x) = false ->
  let C1 := <[i := upd_voted_for_me 1 x]> C in
  ids C1 = ids C /\ voters C1 = voters C /\ votes C1 = votes C + 1 /\ roster C1 = roster C /\
  forall v, v ∈ voted_ids C1 -> v ∈ voted_ids C \/ v = s_server_id x.
Proof.
  intros Hi Hvm Hnv C1. split; [by apply (ids_insert _ _ x)|]. split; [|split; [|split]].
  - unfold C1. rewrite (voters_insert C i x _ Hi).
    assert (b2z (bool_decide (voting (upd_voted_for_me 1 x))) = b2z (bool_decide (voting x)))
      by (f_equal; by apply bool_decide_ext). lia.
  - unfold C1. rewrite (votes_insert C i x _ Hi).
    rewrite bool_decide_false, bool_decide_true; [simpl; lia|by split|]. intros [_ Hx]. congruence.
  - unfold C1. by eapply roster_insert.
  - intros v Hv. unfold C1 in Hv. eapply voted_ids_insert in Hv as [?|[-> _]]; [by left|by right|done|done].
Qed.

(** No member has voted. *)
Lemma reset_ballots C :
  let C1 := upd_voted_for_me 0 <$> C in
  ids C1 = ids C /\ voters C1 = voters C /\ votes C1 = 0 /\ roster C1 = roster C /\ voted_ids C1 = [].
Proof.
  split; [|split; [by apply voters_fmap|split; [apply votes_reset|split; [by apply roster_fmap|apply voted_ids_reset]]]].
  unfold ids. rewrite <- list_fmap_compose. by apply list_fmap_ext.
Qed.

Lemma ids_length C C' : ids C' = ids C -> length C' = length C.
Proof. intros E. rewrite <- (length_fmap s_server_id C'), <- (length_fmap s_server_id C). by apply (f_equal length). Qed.

(** *** Becoming the leader *)

Lemma frame_env s s' : frame s s' -> env_ok s -> env_ok s'.
Proof. intros [] []. split; congruence. Qed.

Lemma frame_inv s s' L C : frame s s' -> core s' L C -> env_ok s ->
  m_last_applied (g_me s) = m_commit_index (g_me s) -> inv s' L C.
Proof. intros F Co En Ha. split; [done|by eapply frame_env|by rewrite (fr_me _ _ F)]. Qed.

(** The entry a new leader appends. *)
Definition noop_entry (s : St) : log_entry_t :=
  LogEntry (m_current_term (g_me s)) (l_last_log_index (lg (g_raft_log s)) + 1) 0 0 0 RAFT_NOOP 0
    None None [].

(** What a new leader believes of the others: they have none of its log. *)
Definition leader_view (last : index_t) (x : server_t) : server_t :=
  upd_match_index 0 (upd_next_index (u64 (last + 1)) x).

Record new_leader (s s' : St) : Prop := {
  nl_me : g_me s' = me_leader (m_self_id (g_me s)) (me_state LEADER (g_me s));
  nl_locks : locks s' = locks s;
  nl_elec : g_elec s' = g_elec s;
  nl_app : g_app s' = g_app s }.

Lemma become_leader_ok k mem s L C :
  inv s L C -> locks s = state_locked -> m_state (g_me s) = CANDIDATE -> roomy s L C 1 ->
  wp tolerated (become_leader k mem) s (fun _ s' =>
    inv s' (L ++ [noop_entry s])
      (leader_view (l_last_log_index (lg (g_raft_log s)) + 1) <$> C) /\ new_leader s s').
Proof.
  intros I Hk Hst [Hr1 Hr2]. unfold become_leader. apply wp_bind, wp_gets.
  rewrite (bool_decide_true _ Hst). apply wp_bind, wp_ret, wp_bind, wp_modify, wp_bind, wp_modify.
  set (s1 := set_me _ (set_me _ s)).
  assert (eframe s s1) as F1 by (split; try done; by intros []).
  assert (inv s1 L C) as I1 by (eapply eframe_inv; [done|apply I|done]).
  apply wp_bind, wp_from_opt. rewrite new_raft_log_entry_spec by done.
  destruct (a_entry mem && a_data mem); [|by left].
  apply wp_bind. eapply wp_mono; [apply (append_raft_log_entry_ok k s1 L C _ (inv_core _ _ _ I1))|].
  1-3: by rewrite (ef_locks _ _ F1), Hk.
  1: by repeat split.
  1: change (g_raft_log s1) with (g_raft_log s); lia.
  1: lia.
  intros [] s2 (C' & Co2 & F2 & HC & _). rewrite (HC ltac:(done)) in Co2. clear HC C'.
  change (set_index _ _) with (noop_entry s) in Co2.
  assert (locks s2 = locks s) as Hk2 by (by rewrite (fr_locks _ _ F2), (ef_locks _ _ F1)).
  apply wp_bind. eapply wp_eq; [apply (get_raft_last_ok s2 _ C Co2); by rewrite Hk2, Hk|].
  apply wp_zoom. cbn [lget config_l].
  assert (cf_lock (g_config s2) = false) as Hc2.
  { change (k_cfg (locks s2) = false). by rewrite Hk2, Hk. }
  destruct (set_all_server_indexes_rep (g_config s2) C (l_last_log_index (lg (g_raft_log s2)))
    (co_cfg _ _ _ Co2) Hc2) as (c & Ec & Rc & Lc & Tc & _).
  assert (l_last_log_index (lg (g_raft_log s2)) = l_last_log_index (lg (g_raft_log s)) + 1) as Hl2.
  { rewrite (core_last_length _ _ _ Co2), (core_last_length _ _ _ (inv_core _ _ _ I)), length_app.
    rewrite (fr_offset _ _ F2). change (g_raft_log s1) with (g_raft_log s). simpl. lia. }
  eapply wp_eq; [exact Ec|]. cbn [lput config_l].
  rewrite Hl2 in Rc. split.
  - apply (frame_inv s1).
    + etransitivity; [exact F2|]. by apply frame_config.
    + eapply core_config; [exact Co2|]. split; [exact Rc|congruence|]. rewrite Tc. apply Co2.
    + apply I1.
    + apply I1.
  - split.
    + cbn. by rewrite (fr_me _ _ F2).
    + rewrite <- Hk2. unfold locks. cbn. by rewrite Lc.
    + cbn. by rewrite (fr_elec _ _ F2).
    + cbn. by rewrite (fr_app _ _ F2).
Qed.

(** *** Counting a vote *)


Lemma get_cfg_lock s : k_cfg (locks s) = false -> cf_lock (g_config s) = false.
Proof. done. Qed.

(** What the answer to a vote request changes. *)
Record count_spec (reply : reply_vote_t) (s s' : St) (L L' : list log_entry_t)
    (C C' : list server_t) : Prop := {
  cv_votes : votes_kept s s';
  cv_ok : votes_ok s C -> votes_ok s' C';
  cv_app : g_app s' = g_app s;
  cv_members : ids C' = ids C /\ voters C' = voters C;
  cv_elected : m_state (g_me s') = LEADER -> m_state (g_me s) = LEADER \/
    m_state (g_me s) = CANDIDATE /\ m_current_term (g_me s) = pv_term reply /\
    pv_granted reply <> 0 /\ (votes_ok s C -> voters C' < 2 * votes C') /\
    L' = L ++ [noop_entry s];
  cv_log : m_state (g_me s') <> LEADER \/ m_state (g_me s) = LEADER -> L' = L;
  cv_roster : roster C' = roster C;
  cv_same : m_state (g_me s) <> CANDIDATE -> C' = C;
  cv_ballot : forall v, v ∈ voted_ids C' -> v ∈ voted_ids C \/
    v = pv_voter reply /\ m_state (g_me s) = CANDIDATE /\
    m_current_term (g_me s) = pv_term reply /\ pv_granted reply <> 0;
  cv_role : m_state (g_me s') = CANDIDATE \/ m_state (g_me s') = LEADER ->
    m_current_term (g_me s') = m_current_term (g_me s) /\
    (m_state (g_me s) = CANDIDATE \/ m_state (g_me s) = LEADER /\ m_state (g_me s') = LEADER) }.

Lemma votes_kept_unlock b s s' : votes_kept s s' -> votes_kept s (set_state_lock b s').
Proof. by intros []. Qed.

(** The configuration of a server with a vote noted. *)
Lemma note_vote_ok id s L C i x :
  inv s L C -> locks s = state_locked -> list_find (has_id id) C = Some (i, x) ->
  let new := (s_status x =? VOTING_MEMBER) && negb (truthy (s_voted_for_me x)) in
  exists c, zoom config_l (raft_config_set_new_vote id) s = Ok (b2z new) (set_config c s) /\
    inv (set_config c s) L (if new then <[i := upd_voted_for_me 1 x]> C else C) /\
    locks (set_config c s) = state_locked.
Proof.
  intros I Hk Hf new. assert (cf_lock (g_config s) = false) as Hc by (by apply get_cfg_lock; rewrite Hk).
  destruct (set_new_vote_rep (g_config s) C id i x (co_cfg _ _ _ (inv_core _ _ _ I)) Hc Hf)
    as (c & Ec & Rc & Lc & Tc & _). exists c. split; [|split].
  - unfold zoom. cbn [lget config_l]. by rewrite Ec.
  - apply (frame_inv s); [by apply frame_config; rewrite Lc| |apply I|apply I].
    eapply core_config; [apply I|]. split; [done|congruence|]. rewrite Tc. apply I.
  - rewrite <- Hk. unfold locks. cbn. by rewrite Lc.
Qed.

(** A new vote is counted, and may be the one that was missing. *)
Lemma count_vote_ok k mem reply s s3 L C C1 :
  inv s3 L C1 -> locks s3 = state_locked -> roomy s L C 1 ->
  g_me s3 = g_me s -> g_raft_log s3 = g_raft_log s -> g_app s3 = g_app s ->
  m_state (g_me s) = CANDIDATE -> m_current_term (g_me s) = pv_term reply -> pv_granted reply <> 0 ->
  ids C1 = ids C /\ voters C1 = voters C /\ votes C1 = votes C + 1 /\ roster C1 = roster C /\
    (forall v, v ∈ voted_ids C1 -> v ∈ voted_ids C \/ v = pv_voter reply) ->
  wp tolerated (
    upd_me (fun m => me_rcv_votes (u32 (m_rcv_votes m + 1)) m);;
    m ← me;
    majority ← zoom config_l (has_majority_of_votes (m_rcv_votes m));
    when (truthy majority) (become_leader k mem)) s3 (fun _ s5 => exists L' C',
      inv s5 L' C' /\ locks s5 = state_locked /\
      count_spec reply s (set_state_lock false s5) L L' C C').
Proof.
  intros I3 Hk3 [Hr1 Hr2] Em3 El3 Ea3 Hst Hcur Hgr (Hids & Hvo & Hvs & Hro & Hbal).
  pose proof (votes_le_voters C1) as Hle. pose proof (voters_le_length C) as Hlen.
  apply wp_bind, wp_modify. rewrite Em3. set (n := u32 (m_rcv_votes (g_me s) + 1)).
  set (s4 := set_me _ s3).
  assert (votes_ok s C -> n = votes C1) as Hcount.
  { intros Hv. unfold n. rewrite Hv by done. rewrite u32_small; lia. }
  assert (eframe s3 s4) as F4
    by (unfold s4; rewrite <- Em3; by apply (eframe_me s3 (me_rcv_votes n))).
  assert (m_current_term (g_me s4) = m_current_term (g_me s3)) as Hcur4 by (by rewrite Em3).
  assert (inv s4 L C1) as I4 by (eapply eframe_inv; [exact F4|rewrite Hcur4; apply I3|exact I3]).
  assert (cf_lock (g_config s4) = false) as Hc4 by (by apply get_cfg_lock; rewrite (ef_locks _ _ F4), Hk3).
  apply wp_bind, wp_gets, wp_bind, wp_zoom. cbn [lget config_l]. change (m_rcv_votes (g_me s4)) with n.
  destruct (decide (n <= voters C1)) as [Hnle|Hgt].
  2: { unfold wp. rewrite (has_majority_of_votes_exit _ C1); [by left|apply I4|done|lia]. }
  eapply wp_eq; [by apply (has_majority_of_votes_rep _ C1); [apply I4| |]|].
  assert (lput config_l (g_config s4) s4 = s4) as -> by (by destruct s4).
  rewrite truthy_b2z. unfold when. destruct (Z.ltb_spec (voters C1) (2 * n)) as [Hmaj|Hmin].
  - eapply wp_mono; [apply (become_leader_ok k mem s4 L C1 I4); [done|done|]|].
    { split; [by change (g_raft_log s4) with (g_raft_log s3); rewrite El3|]. rewrite (ids_length _ _ Hids). lia. }
    intros [] s5 [I5 [Em5 Hk5 _ Ha5]].
    destruct (same_ballots_fmap C1 (leader_view (l_last_log_index (lg (g_raft_log s4)) + 1)))
      as (Bi & Bv & Bn & Br & Bb); [done|done|].
    assert (noop_entry s4 = noop_entry s) as En
      by (unfold noop_entry; change (g_raft_log s4) with (g_raft_log s3); by rewrite El3).
    eexists _, _. split; [exact I5|]. split; [by rewrite Hk5|].
    split; cbn [set_state_lock g_me g_app]; rewrite ?Em5, ?Bi, ?Bv, ?Bn, ?Br; try done; try congruence.
    + apply votes_kept_unlock. by split; rewrite Em5.
    + unfold votes_ok. cbn. by rewrite Em5.
    + rewrite Ha5. exact Ea3.
    + intros _. right. split; [done|]. split; [done|]. split; [done|]. split; [|by rewrite En].
      intros Hv. rewrite <- (Hcount Hv). lia.
    + cbn. intros [|Hl]; [done|congruence].
    + intros v Hv. destruct (Hbal v (Bb v Hv)) as [|]; [by left|by right].
    + split; [done|by left].
  - apply wp_ret. exists L, C1. split; [exact I4|]. split; [done|].
    split; cbn [set_state_lock g_me]; try done; try congruence.
    + intros Hv _. by apply Hcount.
    + cbn. congruence.
    + intros v Hv. destruct (Hbal v Hv) as [|]; [by left|by right].
    + split; [done|by left].
Qed.

Lemma handle_vote_reply_ok k mem reply s L C :
  inv s L C -> locks s = no_locks -> is_u64 (pv_term reply) -> roomy s L C 1 ->
  wp tolerated (handle_vote_reply k mem reply) s (fun _ s' => exists L' C',
    inv s' L' C' /\ locks s' = no_locks /\ count_spec reply s s' L L' C C').
Proof.
  intros I Hk Ht Hroom. unfold handle_vote_reply. apply wp_bind, wp_state_lock; [done|].
  destruct (match_terms_inv (pv_term reply) s L C I Hk Ht)
    as (s2 & E2 & F2 & I2 & Hk2 & V2 & Hterm & Hm2).
  apply wp_bind. eapply wp_eq; [exact E2|]. apply wp_bind, wp_gets.
  assert (forall s3 L' C', inv s3 L' C' -> locks s3 = state_locked ->
    count_spec reply s (set_state_lock false s3) L L' C C' ->
    wp tolerated (unlock state_lock_l) s3 (fun _ s' => exists L' C',
      inv s' L' C' /\ locks s' = no_locks /\ count_spec reply s s' L L' C C')) as Hend.
  { intros s3 L' C' I3 Hk3 V. apply wp_unlock. exists L', C'.
    split; [by auto with server|]. split; [by auto with server|]. exact V. }
  assert (g_app s2 = g_app s) as Ha2 by apply (ef_app _ _ F2).
  assert (forall c, count_spec reply s (set_state_lock false (set_config c s2)) L L C C) as Hsame.
  { intros c. split; cbn; [apply votes_kept_unlock; by destruct V2 as [[] _]| |done|done| |done|done|done|by left|].
    3: { intros Hr. destruct (sy_role _ _ V2 Hr) as (Er & -> & _). split; [done|].
         rewrite Er in Hr |- *. destruct Hr; auto. }
    - intros Hv. unfold votes_ok. cbn. rewrite Hm2.
      destruct (m_current_term _ <? pv_term _); [|exact Hv]. by intros Hs%step_down_not_candidate.
    - rewrite Hm2. destruct (m_current_term _ <? pv_term _); [by intros Hs%step_down_not_leader|by left]. }
  assert (set_config (g_config s2) s2 = s2) as Ec2 by (by destruct s2).
  pose proof (Hsame (g_config s2)) as Hsame2. rewrite Ec2 in Hsame2.
  apply wp_bind. destruct (_ && _ && _) eqn:Hcond; [|apply wp_ret; by eapply Hend].
  rewrite !andb_true_iff, !bool_decide_eq_true in Hcond. destruct Hcond as [[Hmt Hst] Hg].
  assert (m_current_term (g_me s) = pv_term reply) as Hcur.
  { revert Hmt. destruct (pv_term _ <? m_current_term _); [done|]. by destruct (Z.eqb_spec (pv_term reply) (m_current_term (g_me s))). }
  assert (g_me s2 = g_me s) as Em2 by (by rewrite Hm2, Hcur, Z.ltb_irrefl).
  assert (pv_granted reply <> 0) as Hgr by (by intros E; rewrite E in Hg).
  apply wp_bind. destruct (list_find (has_id (pv_voter reply)) C) as [[i x]|] eqn:Hf.
  2: { apply ids_find_None in Hf. apply wp_zoom. cbn [lget config_l].
       eapply wp_eq; [by apply (set_new_vote_absent _ C); [apply I2|by apply get_cfg_lock; rewrite Hk2|]|].
       cbn [lput config_l]. rewrite Ec2. apply wp_ret. by eapply Hend. }
  destruct (note_vote_ok (pv_voter reply) s2 L C i x I2 Hk2 Hf) as (c & Ec & I3 & Hk3).
  eapply wp_eq; [exact Ec|]. rewrite truthy_b2z. destruct (_ && _) eqn:Hnew.
  2: { apply wp_ret. by eapply Hend. }
  apply andb_true_iff in Hnew as [Hvm%Z.eqb_eq Hnv%negb_true_iff].
  apply list_find_Some in Hf as (Hi & Hid & _).
  eapply wp_mono; [apply (count_vote_ok k mem reply s _ L C _ I3 Hk3 Hroom); try done|].
  - apply (ef_log _ _ F2).
  - congruence.
  - rewrite <- Hid. by apply new_ballot.
  - intros [] s5 (L' & C' & I5 & Hk5 & Sp). by eapply Hend.
Qed.

(** *** Standing for election *)

Lemma new_timeout_ok s :
  env_ok s -> exists s', (new_rand_timeout;; zoom elec_l set_election_timeout) s = Ok tt s' /\
    eframe s s' /\ g_me s' = g_me s.
Proof.
  intros En. destruct (randomize_range (g_elec s) (env_rands _ En)) as (t & e' & E & _ & Hr & Ee).
  eexists. split; [|split].
  - unfold new_rand_timeout, set_election_timeout. mrun. cbn. rewrite E. done.
  - split; try done.
    + unfold locks. cbn. by rewrite Ee.
    + cbn. by rewrite Ee.
    + intros [H1 _]. split; [done|]. cbn. done.
  - done.
Qed.

(** A round of a candidacy: a new term, the candidate's own vote, and the
    request it sends, or at once its leadership. *)
Record round_spec (r : option request_vote_t) (s s' : St) (L L' : list log_entry_t)
    (C C' : list server_t) : Prop := {
  ro_term : m_current_term (g_me s') = m_current_term (g_me s) + 1;
  ro_vote : m_voted_for (g_me s') = m_self_id (g_me s);
  ro_self : m_self_id (g_me s') = m_self_id (g_me s);
  ro_members : ids C' = ids C /\ voters C' = voters C /\ votes C' = 1;
  ro_roster : roster C' = roster C;
  ro_ballot : forall v, v ∈ voted_ids C' -> v = m_self_id (g_me s);
  ro_ok : votes_ok s' C';
  ro_app : g_app s' = g_app s;
  ro_request : match r with
    | Some req => m_state (g_me s') = CANDIDATE /\ L' = L /\
        exists e, last L = Some e /\
          req = ReqVote (m_current_term (g_me s')) (l_last_log_index (lg (g_raft_log s)))
                  (e_term e) (m_self_id (g_me s))
    | None => m_state (g_me s') = LEADER /\ voters C = 1
    end }.

(** All votes are taken back. *)
Lemma reset_votes_ok s L C :
  inv s L C -> locks s = state_locked ->
  exists c, zoom config_l raft_config_reset_votes s = Ok tt (set_config c s) /\
    inv (set_config c s) L (upd_voted_for_me 0 <$> C) /\ locks (set_config c s) = state_locked.
Proof.
  intros I Hk. assert (cf_lock (g_config s) = false) as Hc by (by apply get_cfg_lock; rewrite Hk).
  destruct (reset_votes_rep (g_config s) C (co_cfg _ _ _ (inv_core _ _ _ I)) Hc)
    as (c & Ec & Rc & Lc & Tc & _). exists c. split; [|split].
  - unfold zoom. cbn [lget config_l]. by rewrite Ec.
  - apply (frame_inv s); [by apply frame_config; rewrite Lc| |apply I|apply I].
    eapply core_config; [apply I|]. split; [done|congruence|]. rewrite Tc. apply I.
  - rewrite <- Hk. unfold locks. cbn. by rewrite Lc.
Qed.

(** The request of a candidate, and the timer of its round. *)
Lemma vote_request_ok s2 L C2 :
  inv s2 L C2 -> locks s2 = state_locked ->
  wp tolerated (
    last_log_index ← get_raft_last_log_index;
    last_log_term ← get_raft_last_log_term;
    new_rand_timeout;;
    zoom elec_l set_election_timeout;;
    mret (Some (ReqVote (m_current_term (g_me s2)) last_log_index last_log_term (m_self_id (g_me s2)))))
    s2 (fun r s3 => inv s3 L C2 /\ eframe s2 s3 /\ g_me s3 = g_me s2 /\ exists e, last L = Some e /\
      r = Some (ReqVote (m_current_term (g_me s2)) (l_last_log_index (lg (g_raft_log s2)))
            (e_term e) (m_self_id (g_me s2)))).
Proof.
  intros I2 Hk2. apply wp_bind.
  eapply wp_eq; [apply (get_raft_last_ok s2 L C2); [apply I2|by rewrite Hk2]|]. apply wp_bind.
  pose proof (last_log_term_ok s2 L C2 (inv_core _ _ _ I2) ltac:(by rewrite Hk2)) as Elt.
  destruct (last L) as [e|] eqn:El.
  2: { unfold wp. rewrite Elt. assert (g_state_lock s2 = true) as -> by (by injection Hk2). by right. }
  eapply wp_eq; [exact Elt|].
  destruct (new_timeout_ok s2 (inv_env _ _ _ I2)) as (s3 & E3 & F3 & Em3).
  pose proof (wp_bind_inv _ _ _ _ _ (wp_eq tolerated _ s2 tt s3 (fun _ s' => s' = s3) E3 eq_refl)) as Hto.
  apply wp_bind. eapply wp_mono; [exact Hto|]. clear Hto. intros [] s4 Hto.
  apply wp_bind. eapply wp_mono; [exact Hto|]. intros [] ? ->. apply wp_ret.
  split; [eapply eframe_inv; [exact F3|rewrite Em3; apply I2|exact I2]|]. split; [done|].
  split; [done|]. by exists e.
Qed.

Lemma candidate_round_ok k mem s L C :
  inv s L C -> locks s = state_locked -> m_state (g_me s) = CANDIDATE ->
  m_current_term (g_me s) + 1 < 2 ^ 64 -> roomy s L C 1 ->
  wp tolerated (candidate_round k mem) s (fun r s' => exists L' C',
    inv s' L' C' /\ locks s' = state_locked /\ round_spec r s s' L L' C C').
Proof.
  intros I Hk Hst Ht [Hr1 Hr2]. pose proof (co_term _ _ _ (inv_core _ _ _ I)) as Hct.
  unfold candidate_round. do 3 (apply wp_bind, wp_modify).
  set (s1 := set_me _ (set_me _ (set_me _ s))).
  assert (m_current_term (g_me s1) = m_current_term (g_me s) + 1) as Ht1
    by (cbn; by rewrite u64_small by lia).
  assert (eframe s s1) as F1 by (split; try done; by intros []).
  assert (inv s1 L C) as I1 by (eapply eframe_inv; [done|lia|done]).
  destruct (reset_votes_ok s1 L C I1 Hk) as (c1 & Ec1 & I1' & Hk1).
  destruct (reset_ballots C) as (Ri & Rv & Rn & Rr & Rb). set (C1 := upd_voted_for_me 0 <$> C) in *.
  apply wp_bind. eapply wp_eq; [exact Ec1|]. apply wp_bind, wp_gets, wp_bind.
  change (m_self_id (g_me (set_config c1 s1))) with (m_self_id (g_me s)).
  destruct (list_find (has_id (m_self_id (g_me s))) C1) as [[i x]|] eqn:Hf.
  2: { apply ids_find_None in Hf. apply wp_zoom. cbn [lget config_l].
       eapply wp_eq; [by apply (set_new_vote_absent _ C1); [apply I1'|by apply get_cfg_lock; rewrite Hk1|]|].
       by apply wp_bind, wp_fail; left. }
  destruct (note_vote_ok _ _ L C1 i x I1' Hk1 Hf) as (c2 & Ec2 & I2 & Hk2).
  eapply wp_eq; [exact Ec2|]. rewrite truthy_b2z.
  destruct (_ && _) eqn:Hnew; cbn [negb when]; [|by apply wp_bind, wp_fail; left].
  apply andb_true_iff in Hnew as [Hvm%Z.eqb_eq Hnv%negb_true_iff].
  apply list_find_Some in Hf as (Hi & Hid & _).
  destruct (new_ballot C1 i x Hi Hvm Hnv) as (Ni & Nv & Nn & Nr & Nb).
  set (C2 := <[i := upd_voted_for_me 1 x]> C1) in *. set (s2 := set_config c2 _) in *.
  assert (forall v, v ∈ voted_ids C2 -> v = m_self_id (g_me s)) as Hbal.
  { intros v Hv. destruct (Nb v Hv) as [Hn| ->]; [|done]. rewrite Rb in Hn. by apply elem_of_nil in Hn. }
  pose proof (votes_le_voters C2) as Hle.
  apply wp_bind, wp_ret, wp_bind, wp_gets, wp_bind, wp_zoom. cbn [lget lput config_l].
  eapply wp_eq; [apply (has_majority_of_votes_rep _ C2); [apply I2|by apply (get_cfg_lock s2); rewrite Hk2|]|].
  { cbn. lia. }
  match goal with |- wp _ _ ?y _ => change y with s2 end.
  change (m_rcv_votes _) with 1. rewrite truthy_b2z.
  destruct (Z.ltb_spec (voters C2) (2 * 1)) as [Hmaj|Hmin]; [apply wp_bind|].
  - eapply wp_mono.
    { apply (become_leader_ok k mem s2 L C2 I2 Hk2); [exact Hst|]. split; [exact Hr1|].
      rewrite (ids_length C C2) by congruence. lia. }
    intros [] s3 [I3 [Em3 Hk3 _ Ha3]]. apply wp_ret. eexists _, _. split; [exact I3|].
    split; [congruence|].
    destruct (same_ballots_fmap C2 (leader_view (l_last_log_index (lg (g_raft_log s2)) + 1)))
      as (Bi & Bv & Bn & Br & Bb); [done|done|].
    split; rewrite ?Em3, ?Bi, ?Bv, ?Bn, ?Br; try done; try congruence.
    + split; [congruence|]. split; lia.
    + intros v Hv. by apply Hbal, Bb.
    + unfold votes_ok. by rewrite Em3.
    + split; [done|lia].
  - eapply wp_mono; [by apply (vote_request_ok s2 L C2 I2)|].
    intros r s3 (I3 & F3 & Em3 & e & El & ->). exists L, C2. split; [exact I3|].
    split; [by rewrite (ef_locks _ _ F3)|]. split; rewrite ?Em3; try done; try congruence.
    + split; [congruence|]. split; lia.
    + unfold votes_ok. rewrite Em3. cbn. lia.
    + apply (ef_app _ _ F3).
    + split; [done|]. split; [done|]. by exists e.
Qed.

End Election.

#[export] Hint Resolve inv_state_lock locks_lock locks_unlock : server.
#[export] Hint Extern 1 (locks (lput state_lock_l _ _) = _) => apply locks_unlock : server.
#[export] Hint Extern 1 (inv (lput state_lock_l _ _) _ _) => apply inv_state_lock : server.
