(* ===== verification/Replication.v ===== *)
(** * Log replication (proofs about src/rft.c and src/log.c)

    The AppendEntries handlers: what a follower keeps and appends, when it
    answers with success, and what the leader learns from the answer. *)

From S2P Require Import Prelude Monad Types LogRing Mtl Config Quorum HashTable.
From S2P Require Import State Utils Log Serialize Snapshot RaftLog Raft Invariant.
From S2P Require Import Commit Election.
Open Scope Z_scope.

(** Received entries take the indices after the last one of the log. *)
Fixpoint renumber (i : index_t) (es : list log_entry_t) : list log_entry_t :=
  match es with
  | [] => []
  | e :: es => set_index i e :: renumber (i + 1) es
  end.

Lemma length_renumber i es : length (renumber i es) = length es.
Proof. revert i. induction es as [|e es IH]; intros i; simpl; [done|]. by rewrite IH. Qed.

Lemma renumber_snoc i es e :
  renumber i (es ++ [e]) = renumber i es ++ [set_index (i + Z.of_nat (length es)) e].
Proof.
  revert i. induction es as [|x es IH]; intros i; simpl.
  - by rewrite Z.add_0_r.
  - rewrite IH. do 4 f_equal. lia.
Qed.

(** A log whose entries carry their own indices is kept as it is. *)
Lemma renumber_contiguous i es : contiguous i es -> renumber i es = es.
Proof.
  revert i. induction es as [|e es IH]; intros i Hc; [done|]. simpl.
  rewrite IH by (by eapply contiguous_tail). pose proof (Hc 0%nat e eq_refl) as He.
  rewrite Z.add_0_r in He. f_equal. destruct e. unfold set_index. cbn in *. by subst.
Qed.

Section Replication.
Context `{Rmr} `{Host}.

(** *** Appending the entries of a message *)

Lemma append_entries_ok k s L C es :
  core s L C -> k_raft (locks s) = false -> k_cfg (locks s) = false ->
  k_rprog (locks s) = false -> Forall entry_ok es ->
  l_last_log_index (lg (g_raft_log s)) + Z.of_nat (length es) < 2 ^ 64 - 1 ->
  Z.of_nat (length C) + Z.of_nat (length es) < 2 ^ 32 ->
  wp tolerated (for_ (length es) 0 (fun i =>
      e ← from_opt OutOfBounds (es !! i); append_raft_log_entry k e)) s (fun _ s' => exists C',
    core s' (L ++ renumber (l_last_log_index (lg (g_raft_log s)) + 1) es) C' /\ frame s s' /\
    (length C' <= length C + length es)%nat).
Proof.
  intros Co Hr Hc Hp He Hl Hmax. set (i0 := l_last_log_index (lg (g_raft_log s)) + 1).
  apply (wp_for tolerated (fun n s' => exists C',
    core s' (L ++ renumber i0 (take n es)) C' /\ frame s s' /\
    (length C' <= length C + n)%nat)).
  - exists C. rewrite take_0, app_nil_r. split; [done|]. split; [done|lia].
  - intros i e s1 Hi (C1 & Co1 & F1 & Hlen1). cbn [Nat.add] in *.
    apply wp_bind, wp_from_opt. rewrite Hi. pose proof (lookup_lt_Some _ _ _ Hi) as Hlt.
    assert (l_last_log_index (lg (g_raft_log s1)) =
      l_last_log_index (lg (g_raft_log s)) + Z.of_nat i) as Hl1.
    { rewrite (core_last_length _ _ _ Co1), (core_last_length _ _ _ Co), (fr_offset _ _ F1).
      rewrite length_app, length_renumber, length_take. lia. }
    eapply wp_mono; [apply (append_raft_log_entry_ok k s1 _ C1 e Co1)|].
    1-3: by rewrite (fr_locks _ _ F1).
    1: by eapply Forall_lookup_1.
    1-2: lia.
    intros [] s2 (C2 & Co2 & F2 & HC1 & HC2). exists C2.
    rewrite (take_S_r _ _ _ Hi), renumber_snoc, length_take, app_assoc.
    replace (i0 + Z.of_nat (i `min` length es)) with (l_last_log_index (lg (g_raft_log s1)) + 1)
      by (unfold i0; lia).
    split; [done|]. split; [by transitivity s1|].
    destruct (decide (e_type e = RAFT_CONFIG)) as [Ht|Ht].
    + pose proof (config_effect_length _ _ _ _ (HC2 Ht)). lia.
    + rewrite (HC1 Ht). lia.
  - intros s1 (C1 & Co1 & F1 & Hlen1). exists C1. cbn [Nat.add] in *.
    rewrite take_ge in Co1 by lia. by split; [|split].
Qed.

(** *** AppendEntries at the follower *)

(** The log of the follower after its consistency check. *)
Definition checked (req : request_append_entries_t) (s : St) (L L1 : list log_entry_t) : Prop :=
  L1 = L /\ settled (ra_prev_log_index req) (ra_prev_log_term req) L \/
  conflict_cut (ra_prev_log_index req) (ra_prev_log_term req) (committed s) L L1.

(** The previous entry of the request is the one the follower holds, or the
    last one of its snapshot. *)
Definition consistent (req : request_append_entries_t) (s : St) (L1 : list log_entry_t) : Prop :=
  prev_of s L1 (ra_prev_log_index req) = (ra_prev_log_term req, ra_prev_log_index req).
#[global] Instance consistent_dec req s L1 : Decision (consistent req s L1).
Proof. unfold consistent. apply _. Defined.

Record append_spec (req : request_append_entries_t) (s s' : St) (L L' : list log_entry_t)
    (r : reply_append_entries_t) : Prop := {
  as_votes : stays s s';
  as_reply : pa_term r = m_current_term (g_me s') /\ pa_server_id r = m_self_id (g_me s) /\
    m_current_term (g_me s') = Z.max (m_current_term (g_me s)) (ra_term req) /\
    pa_last_log_index r = l_last_log_index (lg (g_raft_log s'));
  as_stale : ra_term req < m_current_term (g_me s) ->
    pa_success r = 0 /\ L' = L /\ g_me s' = g_me s;
  as_app : g_app s' = g_app s;
  as_snap : sn_raft_snapshot (g_snap s') = sn_raft_snapshot (g_snap s);
  as_offset : l_index_offset (lg (g_raft_log s')) = l_index_offset (lg (g_raft_log s));
  as_committed : take (committed s) L `prefix_of` L';
  as_log : m_current_term (g_me s) <= ra_term req -> exists L1, checked req s L L1 /\
    (pa_success r = 1 /\ consistent req s L1 /\
       L' = L1 ++ renumber (l_index_offset (lg (g_raft_log s)) + Z.of_nat (length L1) + 1)
                    (ra_entries req) \/
     pa_success r = 0 /\ ~ consistent req s L1 /\ L' = L1);
  as_commit : m_commit_index (g_me s) <= m_commit_index (g_me s');
  as_follower : m_state (g_me s) <> LEADER \/ m_current_term (g_me s) < ra_term req ->
    pa_success r = 1 ->
    m_commit_index (g_me s') = Z.max (m_commit_index (g_me s))
      (Z.min (ra_leader_commit req) (l_last_log_index (lg (g_raft_log s'))));
  as_rejected : pa_success r = 0 -> m_commit_index (g_me s') = m_commit_index (g_me s) }.

(** A committed prefix of the log is in what the check leaves. *)
Lemma checked_prefix req s L L1 :
  checked req s L L1 -> L1 `prefix_of` L /\ take (committed s) L `prefix_of` L1.
Proof.
  intros [[-> _]|Hc]; [split; [done|apply prefix_take]|]. split; [by eapply conflict_cut_prefix|].
  destruct (conflict_cut_prefix _ _ _ _ _ Hc) as [k ->].
  pose proof (conflict_cut_length _ _ _ _ _ Hc) as Hl. rewrite take_app_le by done.
  apply prefix_take.
Qed.

Lemma prev_of_same s s' L pi :
  l_index_offset (lg (g_raft_log s')) = l_index_offset (lg (g_raft_log s)) ->
  sn_raft_snapshot (g_snap s') = sn_raft_snapshot (g_snap s) -> prev_of s' L pi = prev_of s L pi.
Proof. intros E1 E2. unfold prev_of. by rewrite E1, E2. Qed.

(** The state of a handler between its parts: what the rest of the handler may
    rely on. *)
Record mid (s0 s : St) (L : list log_entry_t) (C : list server_t) : Prop := {
  mid_inv : inv s L C;
  mid_locks : locks s = state_locked;
  mid_offset : l_index_offset (lg (g_raft_log s)) = l_index_offset (lg (g_raft_log s0));
  mid_snap : sn_raft_snapshot (g_snap s) = sn_raft_snapshot (g_snap s0);
  mid_app : g_app s = g_app s0;
  mid_self : m_self_id (g_me s) = m_self_id (g_me s0);
  mid_votes : stays s0 s }.

Lemma mid_frame s0 s s' L C L' C' :
  mid s0 s L C -> frame s s' -> core s' L' C' -> mid s0 s' L' C'.
Proof.
  intros [I Hk Ho Hs Hap Hi Hv] F Co. pose proof F as [].
  split; try congruence.
  - apply (frame_inv s); [done|done|apply I|apply I].
  - by eapply stays_me.
Qed.

Lemma mid_eframe s0 s s' L C :
  mid s0 s L C -> eframe s s' -> m_current_term (g_me s') = m_current_term (g_me s) ->
  m_voted_for (g_me s') = m_voted_for (g_me s) -> m_state (g_me s') = m_state (g_me s) ->
  m_rcv_votes (g_me s') = m_rcv_votes (g_me s) -> mid s0 s' L C.
Proof.
  intros [I Hk Ho Hs Hap Hi Hv] F Et Ev Er Ec. pose proof F as [].
  split; try congruence.
  - eapply eframe_inv; [done| |done]. rewrite Et. apply (co_term _ _ _ (inv_core _ _ _ I)).
  - eapply stays_same; eauto.
Qed.

Lemma mid_cframe s0 s s' L C :
  mid s0 s L C -> cframe s s' -> core s' L C ->
  m_last_applied (g_me s') = m_commit_index (g_me s') -> mid s0 s' L C.
Proof.
  intros [I Hk Ho Hs Hap Hi Hv] F Co Ha. pose proof F as [].
  split; try congruence.
  - split; [done|by apply cr_env, I|done].
  - by eapply stays_same.
Qed.

Lemma match_terms_mid term s L C :
  inv s L C -> locks s = no_locks -> is_u64 term ->
  exists s2, match_terms term (set_state_lock true s) =
      Ok (if term <? m_current_term (g_me s) then E_OUTDATED_MSG
          else if term =? m_current_term (g_me s) then E_TERMS_MATCH else E_OUTDATED_TERM) s2 /\
    mid s s2 L C /\ g_raft_log s2 = g_raft_log s /\
    el_now (g_elec s2) = el_now (g_elec s) /\ g_config s2 = g_config s /\
    m_current_term (g_me s2) = Z.max (m_current_term (g_me s)) term /\
    g_me s2 = if m_current_term (g_me s) <? term then step_down term (g_me s) else g_me s.
Proof.
  intros I Hk Ht. destruct (match_terms_inv term s L C I Hk Ht)
    as (s2 & E2 & F2 & I2 & Hk2 & V2 & Hterm & Hm2). exists s2. split; [done|].
  split; [|split; [apply (ef_log _ _ F2)|split; [apply (ef_now _ _ F2)|split; [apply (ef_config _ _ F2)|done]]]].
  split; try done; [by rewrite (ef_log _ _ F2)|by rewrite (ef_snap _ _ F2)|apply (ef_app _ _ F2)|
    apply (ef_self _ _ F2)].
Qed.

(** The end of a handler: the mutex is released. *)
Lemma mid_unlock s0 s L C : mid s0 s L C ->
  inv (set_state_lock false s) L C /\ locks (set_state_lock false s) = no_locks /\
  stays s0 (set_state_lock false s).
Proof.
  intros []. split; [by auto with server|]. split; [by auto with server|].
  by eapply stays_me.
Qed.

(** The follower notes who leads, once in a term. *)
Lemma learn_leader_mid req s s2 L C :
  mid s s2 L C -> exists s3,
    when (bool_decide (m_current_leader (g_me s2) = EmptyString)) (upd_me (me_leader (ra_leader_id req))) s2
      = Ok tt s3 /\ mid s s3 L C /\
    (m_commit_index (g_me s3) = m_commit_index (g_me s2) /\ m_state (g_me s3) = m_state (g_me s2) /\
     m_current_term (g_me s3) = m_current_term (g_me s2)) /\ g_raft_log s3 = g_raft_log s2.
Proof.
  intros M2. case_bool_decide; [|by exists s2]. eexists. split; [done|]. split; [|done].
  eapply (mid_eframe _ s2); try done. split; try done. by intros [].
Qed.

(** The entries of a request that passed the check are appended, and what the
    leader has committed of them becomes committed. *)
Lemma append_and_commit k req s s4 L1 C1 :
  mid s s4 L1 C1 -> Forall entry_ok (ra_entries req) -> is_u64 (ra_leader_commit req) ->
  ra_n_entries req = Z.of_nat (length (ra_entries req)) ->
  l_last_log_index (lg (g_raft_log s4)) + Z.of_nat (length (ra_entries req)) < 2 ^ 64 - 1 ->
  Z.of_nat (length C1) + Z.of_nat (length (ra_entries req)) + 1 < 2 ^ 32 ->
  wp tolerated (
    for_ (Z.to_nat (ra_n_entries req)) 0 (fun i =>
      e ← from_opt OutOfBounds (ra_entries req !! i);
      append_raft_log_entry k e);;
    m ← me;
    when (m_commit_index m <? ra_leader_commit req)
      (raft_commit_log_entries (ra_leader_commit req));;
    mret 1) s4 (fun r s6 => r = 1 /\ exists C5,
      mid s s6 (L1 ++ renumber (l_last_log_index (lg (g_raft_log s4)) + 1) (ra_entries req)) C5 /\
      m_current_term (g_me s6) = m_current_term (g_me s4) /\
      m_commit_index (g_me s4) <= m_commit_index (g_me s6) /\
      (m_state (g_me s4) <> LEADER -> m_commit_index (g_me s6) = Z.max (m_commit_index (g_me s4))
        (Z.min (ra_leader_commit req) (l_last_log_index (lg (g_raft_log s6)))))).
Proof.
  intros M4 He Hlc Hn Hl4 Hmax.
  replace (Z.to_nat (ra_n_entries req)) with (length (ra_entries req)) by lia.
  apply wp_bind. eapply wp_mono; [apply (append_entries_ok k s4 L1 C1 _ (inv_core _ _ _ (mid_inv _ _ _ _ M4)))|].
  1-3: by rewrite (mid_locks _ _ _ _ M4).
  1: done.
  1-2: lia.
  intros [] s5 (C5 & Co5 & F5 & HC5). set (L5 := L1 ++ _) in *.
  pose proof (mid_frame _ _ _ _ _ _ _ M4 F5 Co5) as M5. rewrite <- (fr_me _ _ F5).
  apply wp_bind, wp_gets, wp_bind. unfold when.
  destruct (Z.ltb_spec (m_commit_index (g_me s5)) (ra_leader_commit req)) as [Hlt|Hnlt].
  - apply never_wp. eapply wp_mono; [apply (commit_ok s5 L5 C5 (ra_leader_commit req) Co5)|].
    1: apply (inv_env _ _ _ (mid_inv _ _ _ _ M5)).
    1-3: by rewrite (mid_locks _ _ _ _ M5).
    1,3: lia.
    1: apply (inv_applied _ _ _ (mid_inv _ _ _ _ M5)).
    intros [] s6 (Co6 & F6 & Sp). apply wp_ret. split; [done|]. exists C5.
    split; [eapply mid_cframe; [done|done|done|apply Sp]|]. split; [apply (cr_term _ _ F6)|].
    split; [apply (cs_mono _ _ _ _ _ Sp)|]. intros Hnl. rewrite (cr_log _ _ F6).
    by rewrite (cs_follower _ _ _ _ _ Sp).
  - apply wp_ret, wp_ret. split; [done|]. exists C5. split; [done|]. split; [done|]. split; [lia|].
    intros _. pose proof (co_last _ _ _ Co5). lia.
Qed.

(** The parts of the specification that the checks leave open. *)
Definition append_outcome (req : request_append_entries_t) (s s' : St) (L1 L' : list log_entry_t)
    (success : Z) : Prop :=
  (success = 1 /\ consistent req s L1 /\
     L' = L1 ++ renumber (l_index_offset (lg (g_raft_log s)) + Z.of_nat (length L1) + 1)
                  (ra_entries req) /\
     (m_state (g_me s) <> LEADER \/ m_current_term (g_me s) < ra_term req ->
      m_commit_index (g_me s') = Z.max (m_commit_index (g_me s))
        (Z.min (ra_leader_commit req) (l_last_log_index (lg (g_raft_log s')))))) \/
  (success = 0 /\ ~ consistent req s L1 /\ L' = L1 /\
     m_commit_index (g_me s') = m_commit_index (g_me s)).

Lemma append_spec_intro req s s' L L1 L' C' success :
  mid s s' L' C' -> m_current_term (g_me s) <= ra_term req ->
  m_current_term (g_me s') = ra_term req -> checked req s L L1 ->
  m_commit_index (g_me s) <= m_commit_index (g_me s') -> append_outcome req s s' L1 L' success ->
  append_spec req s s' L L' (RepAppend (ra_term req) (l_last_log_index (lg (g_raft_log s')))
    success (m_self_id (g_me s))).
Proof.
  intros M Hge Et Hch Hc Ho. destruct (checked_prefix _ _ _ _ Hch) as [_ Hp].
  split; cbn [pa_term pa_server_id pa_last_log_index pa_success]; try apply M; try done; try lia.
  - split; [done|]. split; [done|]. split; [lia|done].
  - transitivity L1; [done|]. destruct Ho as [(_ & _ & -> & _)|(_ & _ & -> & _)]; [by apply prefix_app_r|done].
  - intros _. exists L1. split; [done|].
    destruct Ho as [(? & ? & ? & _)|(? & ? & ? & _)]; [by left|by right].
  - intros Hlead Hs1. destruct Ho as [(_ & _ & _ & Hx)|(E & _)]; [by apply Hx|congruence].
  - intros Hs0. destruct Ho as [(E & _)|(_ & _ & _ & Hx)]; [congruence|done].
Qed.

(** The end of the handler, with the mutex given back before the answer. *)
Lemma append_finish req t id s s5 L L5 C5 success :
  mid s s5 L5 C5 ->
  append_spec req s s5 L L5 (RepAppend t (l_last_log_index (lg (g_raft_log s5))) success id) ->
  wp tolerated (restart_election_timer;; mret success) s5 (fun a s' =>
    wp tolerated (unlock state_lock_l;; last ← get_raft_last_log_index;
      mret (RepAppend t last a id)) s' (fun r s' => exists L' C',
        inv s' L' C' /\ locks s' = no_locks /\ append_spec req s s' L L' r)).
Proof.
  intros M5 A.
  destruct (restart_timer_ok s5) as (s6 & E6 & F6 & Em6); [by rewrite (mid_locks _ _ _ _ M5)|].
  apply wp_bind. eapply wp_eq; [exact E6|]. apply wp_ret.
  assert (mid s s6 L5 C5) as M6 by (eapply mid_eframe; [done|done|by rewrite Em6..]).
  destruct (mid_unlock _ _ _ _ M6) as (I7 & Hk7 & V7).
  apply wp_bind, wp_unlock, wp_bind. eapply wp_eq.
  { apply (get_raft_last_ok (set_state_lock false s6) L5 C5); [apply I7|by rewrite Hk7]. }
  apply wp_ret. exists L5, C5. split; [done|]. split; [done|].
  cbn [set_state_lock g_raft_log]. rewrite (ef_log _ _ F6).
  destruct A. split; cbn [set_state_lock g_raft_log g_me]; rewrite ?(ef_log _ _ F6), ?Em6; try done.
  - apply (mid_app _ _ _ _ M6).
  - apply (mid_snap _ _ _ _ M6).
Qed.

(** An outdated request changes nothing. *)
Lemma append_outdated req s s2 L C :
  mid s s2 L C -> g_raft_log s2 = g_raft_log s -> g_me s2 = g_me s ->
  ra_term req < m_current_term (g_me s) ->
  wp tolerated (unlock state_lock_l;; last ← get_raft_last_log_index;
    mret (RepAppend (m_current_term (g_me s2)) last 0 (m_self_id (g_me s2)))) s2 (fun r s' =>
      exists L' C', inv s' L' C' /\ locks s' = no_locks /\ append_spec req s s' L L' r).
Proof.
  intros M2 El2 Hm2 Hst. apply wp_bind, wp_unlock.
  destruct (mid_unlock _ _ _ _ M2) as (I3 & Hk3 & V3).
  apply wp_bind. eapply wp_eq.
  { apply (get_raft_last_ok (set_state_lock false s2) L C); [apply I3|by rewrite Hk3]. }
  apply wp_ret. exists L, C. split; [done|]. split; [done|]. rewrite Hm2.
  split; cbn [pa_term pa_server_id pa_last_log_index pa_success set_state_lock g_me g_raft_log];
    rewrite ?Hm2; try done; try lia.
  - split; [done|]. split; [done|]. split; [lia|done].
  - apply (mid_app _ _ _ _ M2).
  - apply (mid_snap _ _ _ _ M2).
  - by rewrite El2.
  - apply prefix_take.
Qed.

Lemma handle_append_ok k req s L C :
  inv s L C -> locks s = no_locks -> is_u64 (ra_term req) -> is_u64 (ra_prev_log_index req) ->
  is_u64 (ra_leader_commit req) -> Forall entry_ok (ra_entries req) ->
  ra_n_entries req = Z.of_nat (length (ra_entries req)) ->
  roomy s L C (Z.of_nat (length (ra_entries req))) ->
  wp tolerated (handle_append_entries_request k req) s (fun r s' => exists L' C',
    inv s' L' C' /\ locks s' = no_locks /\ append_spec req s s' L L' r).
Proof.
  intros I Hk Ht Hpi Hlc He Hn [Hr1 Hr2]. unfold handle_append_entries_request.
  apply wp_bind, wp_state_lock; [done|].
  destruct (match_terms_mid (ra_term req) s L C I Hk Ht) as (s2 & E2 & M2 & El2 & Hnow2 & Hcf2 & Hterm & Hm2).
  apply wp_bind. eapply wp_eq; [exact E2|]. apply wp_bind, wp_gets, wp_bind.
  destruct (Z.ltb_spec (ra_term req) (m_current_term (g_me s))) as [Hst|Hge].
  { rewrite decide_True by done. apply wp_ret. rewrite (proj2 (Z.ltb_ge _ _)) in Hm2 by lia.
    by apply append_outdated with C. }
  rewrite decide_False by (by destruct (ra_term req =? _)).
  assert (m_current_term (g_me s2) = ra_term req) as -> by lia. rewrite (mid_self _ _ _ _ M2).
  destruct (learn_leader_mid req s s2 L C M2) as (s3 & E3 & M3 & Em3 & El3).
  apply wp_bind. eapply wp_eq; [exact E3|].
  assert (m_commit_index (g_me s3) = m_commit_index (g_me s) /\
    (m_state (g_me s) <> LEADER \/ m_current_term (g_me s) < ra_term req -> m_state (g_me s3) <> LEADER) /\
    m_current_term (g_me s3) = ra_term req) as (Hc3 & Hs3 & Et3).
  { destruct Em3 as (-> & -> & ->). rewrite Hm2.
    destruct (Z.ltb_spec (m_current_term (g_me s)) (ra_term req)); cbn [m_commit_index step_down m_current_term].
    - split; [done|]. split; [|done]. intros _. apply step_down_not_leader.
    - split; [done|]. split; [|lia]. intros [|]; [done|lia]. }
  assert (m_commit_index (g_me s2) = m_commit_index (g_me s3)) as -> by (symmetry; apply Em3).
  rewrite El2 in El3. pose proof (mid_inv _ _ _ _ M3) as I3. pose proof (mid_locks _ _ _ _ M3) as Hk3.
  apply wp_bind.
  eapply wp_mono; [apply (check_consistency_ok s3 L C _ (ra_prev_log_term req) (inv_core _ _ _ I3))|].
  1-3: by rewrite Hk3.
  1: done.
  1: lia.
  intros r s4 (L1 & C1 & Co4 & F4 & HL1 & HC1 & Hr).
  pose proof (mid_frame _ _ _ _ _ _ _ M3 F4 Co4) as M4. rewrite <- (fr_me _ _ F4) in Hc3, Hs3, Et3.
  assert (committed s3 = committed s) as Hcm.
  { unfold committed. by rewrite <- (fr_me _ _ F4), Hc3, El3. }
  assert (checked req s L L1) as Hch.
  { destruct HL1 as [(-> & _ & Hset)|Hcut]; [by left|right; by rewrite <- Hcm]. }
  assert (r = b2z (bool_decide (consistent req s L1))) as ->.
  { rewrite Hr. f_equal. apply bool_decide_ext. unfold consistent. by rewrite (prev_of_same s s4);
      [|apply (mid_offset _ _ _ _ M4)|apply (mid_snap _ _ _ _ M4)]. }
  destruct (checked_prefix _ _ _ _ Hch) as [Hp1 _]. pose proof (prefix_length _ _ Hp1) as Hlen1.
  pose proof (core_last_length _ _ _ Co4) as Hl4. pose proof (mid_offset _ _ _ _ M4) as Ho4.
  pose proof (core_last_length _ _ _ (inv_core _ _ _ I)) as Hl.
  rewrite truthy_b2z. destruct (bool_decide_reflect (consistent req s L1)) as [Hcons|Hcons].
  - apply wp_bind. eapply wp_mono; [apply (append_and_commit k req s s4 L1 C1 M4); try done; lia|].
    intros r' s6 (-> & C5 & M6 & Et6 & Hc6 & Hc6'). eapply append_finish; [exact M6|].
    eapply append_spec_intro; [exact M6|done|by rewrite Et6|done|lia|].
    left. split; [done|]. split; [done|]. split; [by rewrite Hl4, Ho4|].
    intros Hnl. by rewrite (Hc6' (Hs3 Hnl)), Hc3.
  - apply wp_bind, wp_ret. eapply append_finish; [exact M4|].
    eapply append_spec_intro; [exact M4|done|done|done|lia|]. by right.
Qed.

(** *** The answer at the leader *)

(** An update of a server object that keeps its name and its status. *)
Definition keeps_member (f : server_t -> server_t) : Prop :=
  forall x, s_server_id (f x) = s_server_id x /\ s_status (f x) = s_status x.

Lemma member_upd_ok s0 s L C i p f x :
  mid s0 s L C -> C !! i = Some x -> c_servers (cf (g_config s)) !! i = Some p -> keeps_member f ->
  exists c, zoom config_l (upd p f) s = Ok tt (set_config c s) /\
    mid s0 (set_config c s) L (<[i := f x]> C) /\ cf c = cf (g_config s).
Proof.
  intros M Hi Hp Hf. pose proof (co_cfg _ _ _ (inv_core _ _ _ (mid_inv _ _ _ _ M))) as R.
  pose proof (objs_lookup _ _ (rep_objs _ _ R) i x Hi) as (p' & Hp' & Hx).
  rewrite Hp in Hp'. injection Hp' as <-. destruct (Hf x) as [Hid Hst].
  exists (set_heap (<[p := f x]> (cf_heap (g_config s))) (g_config s)). split; [|split; [|done]].
  - unfold zoom. cbn [lget config_l].
    by rewrite (upd_objs _ C i p x f Hi Hp Hx).
  - eapply (mid_frame s0 s).
    + exact M.
    + by apply frame_config.
    + eapply core_config; [apply M|]. split.
      * by apply (cfg_rep_store _ _ _ _ x).
      * apply get_cfg_lock. by rewrite (mid_locks _ _ _ _ M).
      * apply (co_threads _ _ _ (inv_core _ _ _ (mid_inv _ _ _ _ M))).
Qed.

(** What the leader notes about a follower that answered. *)
Definition noted (now : timespec) (reply : reply_append_entries_t) (x : server_t) : server_t :=
  let y := upd_next_index (u64 (pa_last_log_index reply + 1)) (upd_replied_ts now x) in
  upd_hb_timeouts 0 (if truthy (pa_success reply)
                     then upd_match_index (pa_last_log_index reply) y else y).

Lemma noted_keeps now reply : keeps_member (noted now reply).
Proof. intros x. unfold noted. by destruct (truthy _). Qed.

Record reply_spec (reply : reply_append_entries_t) (s s' : St) (L : list log_entry_t)
    (C C' : list server_t) : Prop := {
  rp_votes : stays s s';
  rp_noted : C' = C \/ exists i x, C !! i = Some x /\ s_server_id x = pa_server_id reply /\
    m_state (g_me s) = LEADER /\ pa_term reply = m_current_term (g_me s) /\
    C' = <[i := noted (el_now (g_elec s)) reply x]> C;
  rp_found : forall i x, list_find (has_id (pa_server_id reply)) C = Some (i, x) ->
    m_state (g_me s) = LEADER -> pa_term reply = m_current_term (g_me s) ->
    C' = <[i := noted (el_now (g_elec s)) reply x]> C;
  rp_objs : c_servers (cf (g_config s')) = c_servers (cf (g_config s));
  rp_snap : sn_raft_snapshot (g_snap s') = sn_raft_snapshot (g_snap s);
  rp_log : g_raft_log s' = g_raft_log s;
  rp_app : g_app s' = g_app s;
  rp_commit : m_commit_index (g_me s) <= m_commit_index (g_me s');
  rp_safe : m_commit_index (g_me s) < m_commit_index (g_me s') ->
    m_state (g_me s) = LEADER /\ pa_term reply = m_current_term (g_me s) /\
    pa_success reply <> 0 /\ m_commit_index (g_me s') <= pa_last_log_index reply /\
    quorum (m_commit_index (g_me s')) C' /\
    exists e, entry_at s L (m_commit_index (g_me s')) = Some e /\
      e_term e = m_current_term (g_me s) }.

(** An update that keeps status and [match_index] keeps the majorities. *)
Lemma quorum_insert idx (C : list server_t) i x y :
  C !! i = Some x -> s_status y = s_status x -> s_match_index y = s_match_index x ->
  quorum idx C -> quorum idx (<[i := y]> C).
Proof.
  intros Hi Hs Hm. pose proof (lookup_lt_Some _ _ _ Hi). unfold quorum, voters, matches.
  rewrite <- (take_drop_middle C i x Hi) at 1 2. rewrite insert_take_drop by done.
  rewrite !filter_app, !length_app, !filter_cons.
  assert (voting y <-> voting x) by (unfold voting; by rewrite Hs).
  assert (matching idx y <-> matching idx x) by (unfold matching; by rewrite Hs, Hm).
  repeat case_decide; simpl; try lia; tauto.
Qed.

Lemma wp_member_upd E s0 s L C i p f x (Q : unit -> St -> Prop) :
  mid s0 s L C -> C !! i = Some x -> c_servers (cf (g_config s)) !! i = Some p -> keeps_member f ->
  (forall c, cf c = cf (g_config s) -> mid s0 (set_config c s) L (<[i := f x]> C) -> Q tt (set_config c s)) ->
  wp E (zoom config_l (upd p f)) s Q.
Proof.
  intros M Hi Hp Hf HQ. destruct (member_upd_ok s0 s L C i p f x M Hi Hp Hf) as (c & Eu & M' & Ec).
  eapply wp_eq; [exact Eu|]. by apply HQ.
Qed.

(** After a success the leader notes the index and tries to commit it. *)
Lemma note_match_ok reply s s4 L C i p y :
  mid s s4 L C -> C !! i = Some y -> c_servers (cf (g_config s4)) !! i = Some p ->
  g_me s4 = g_me s -> g_raft_log s4 = g_raft_log s -> m_state (g_me s) = LEADER ->
  is_u64 (pa_last_log_index reply) -> Z.of_nat (length C) + 1 < 2 ^ 32 ->
  let z := if truthy (pa_success reply) then upd_match_index (pa_last_log_index reply) y else y in
  wp tolerated (when (truthy (pa_success reply)) (
      zoom config_l (upd p (upd_match_index (pa_last_log_index reply)));;
      m ← me;
      when (m_commit_index m <? pa_last_log_index reply)
        (raft_commit_log_entries (pa_last_log_index reply)))) s4 (fun _ s5 =>
    mid s s5 L (<[i := z]> C) /\ c_servers (cf (g_config s5)) = c_servers (cf (g_config s4)) /\
    g_raft_log s5 = g_raft_log s /\ m_commit_index (g_me s) <= m_commit_index (g_me s5) /\
    (m_commit_index (g_me s) < m_commit_index (g_me s5) ->
     pa_success reply <> 0 /\ m_commit_index (g_me s5) <= pa_last_log_index reply /\
     quorum (m_commit_index (g_me s5)) (<[i := z]> C) /\
     exists e, entry_at s L (m_commit_index (g_me s5)) = Some e /\
       e_term e = m_current_term (g_me s))).
Proof.
  intros M4 Hi Hp4 Em4 El4 Hst Hl Hmax z. unfold z, when. clear z.
  destruct (truthy (pa_success reply)) eqn:Hsu.
  2: { apply wp_ret. rewrite list_insert_id by done. rewrite Em4. repeat (split; [done|]). split; lia. }
  assert (pa_success reply <> 0) as Hs0 by (by intros E0; rewrite E0 in Hsu).
  apply wp_bind. eapply wp_member_upd; [exact M4|exact Hi|exact Hp4|done|]. intros c Ec M5.
  set (s5 := set_config c s4) in *. assert (g_me s5 = g_me s) as Em5 by exact Em4.
  assert (c_servers (cf (g_config s5)) = c_servers (cf (g_config s4))) as Hp5 by (cbn; by rewrite Ec).
  apply wp_bind, wp_gets. rewrite Em5.
  destruct (Z.ltb_spec (m_commit_index (g_me s)) (pa_last_log_index reply)) as [Hnew|Hold].
  2: { apply wp_ret. rewrite Em5. repeat (split; [done|]). split; lia. }
  pose proof (mid_inv _ _ _ _ M5) as I5. pose proof (mid_locks _ _ _ _ M5) as Hk5.
  apply never_wp. eapply wp_mono.
  { apply (commit_ok s5 L _ (pa_last_log_index reply) (inv_core _ _ _ I5) (inv_env _ _ _ I5));
      [by rewrite Hk5..| |apply I5|rewrite Em5; lia]. by rewrite length_insert. }
  intros [] s6 (Co6 & F6 & Sp). pose proof (cs_mono _ _ _ _ _ Sp) as Hmo. rewrite Em5 in Hmo.
  split; [by eapply mid_cframe; [done|done|done|apply Sp]|].
  split. { destruct (cr_config _ _ F6) as [b ->]. exact Hp5. }
  split; [by rewrite (cr_log _ _ F6)|]. split; [done|]. intros Hgt. split; [done|].
  pose proof (cs_below _ _ _ _ _ Sp) as Hbe. rewrite Em5 in Hbe. split; [lia|].
  destruct (cs_leader _ _ _ _ _ Sp) as [Hq (e & He & Het)]; rewrite ?Em5; [done|done|].
  split; [done|]. exists e. split; [|by rewrite <- Em5]. rewrite <- He. unfold entry_at.
  change (g_raft_log s5) with (g_raft_log s4). by rewrite El4.
Qed.

Lemma handle_append_reply_ok reply s L C :
  inv s L C -> locks s = no_locks -> is_u64 (pa_term reply) ->
  is_u64 (pa_last_log_index reply) -> Z.of_nat (length C) + 1 < 2 ^ 32 ->
  wp tolerated (handle_append_entries_reply reply) s (fun _ s' => exists C',
    inv s' L C' /\ locks s' = no_locks /\ reply_spec reply s s' L C C').
Proof.
  intros I Hk Ht Hl Hmax. unfold handle_append_entries_reply. apply wp_bind, wp_state_lock; [done|].
  destruct (match_terms_mid (pa_term reply) s L C I Hk Ht) as (s2 & E2 & M2 & El2 & Hnow2 & Hcf2 & Hterm & Hm2).
  apply wp_bind. eapply wp_eq; [exact E2|]. apply wp_bind, wp_gets.
  assert (forall s3 C', mid s s3 L C' -> reply_spec reply s s3 L C C' ->
    wp tolerated (unlock state_lock_l) s3 (fun _ s' => exists C',
      inv s' L C' /\ locks s' = no_locks /\ reply_spec reply s s' L C C')) as Hend.
  { intros s3 C' M3 V. apply wp_unlock. destruct (mid_unlock _ _ _ _ M3) as (I3 & Hk3 & V3).
    exists C'. split; [done|]. split; [done|]. by destruct V. }
  assert (m_commit_index (g_me s2) = m_commit_index (g_me s)) as Hc2
    by (rewrite Hm2; by destruct (m_current_term (g_me s) <? _)).
  assert ((forall i x, list_find (has_id (pa_server_id reply)) C = Some (i, x) ->
    m_state (g_me s) = LEADER -> pa_term reply = m_current_term (g_me s) -> False) ->
    reply_spec reply s s2 L C C) as Hsame.
  { intros Hno. split; try apply M2; try done; [by left| |by rewrite Hcf2|lia|lia].
    intros i x Hf H1 H2. by destruct (Hno i x Hf H1 H2). }
  apply wp_bind. destruct (_ && _) eqn:Hcond.
  2: { apply wp_ret. eapply Hend; [done|]. apply Hsame. intros i x _ Hst Hcur. revert Hcond.
       by rewrite Hm2, Hcur, Z.ltb_irrefl, Z.eqb_refl, Hst. }
  rewrite !andb_true_iff, !bool_decide_eq_true in Hcond. destruct Hcond as [Hmt Hst].
  assert (pa_term reply = m_current_term (g_me s)) as Hcur.
  { revert Hmt. destruct (pa_term _ <? m_current_term _); [done|].
    by destruct (Z.eqb_spec (pa_term reply) (m_current_term (g_me s))). }
  assert (g_me s2 = g_me s) as Em2 by (by rewrite Hm2, Hcur, Z.ltb_irrefl). clear Hm2 Hmt.
  apply wp_bind, wp_zoom. cbn [lget config_l].
  pose proof (cfg_of_core s2 L C (inv_core _ _ _ (mid_inv _ _ _ _ M2))
    ltac:(by rewrite (mid_locks _ _ _ _ M2))) as R2.
  assert (lput config_l (g_config s2) s2 = s2) as Es2 by (by destruct s2).
  destruct (get_server_ok _ C R2 (pa_server_id reply)) as
    [(p & i & x & E & Hf & Hi & Hp & _ & Hid)|[E Hid]]; (eapply wp_eq; [exact E|]); rewrite Es2.
  2: { apply wp_ret. eapply Hend, Hsame; [done|]. intros i x Hf. apply ids_find_None in Hid. congruence. }
  apply wp_bind, wp_gets. rewrite Hnow2, Em2 in *. pose proof (lookup_lt_Some _ _ _ Hi) as Hlt.
  set (now := el_now (g_elec s)).
  apply wp_bind. eapply wp_member_upd; [exact M2|exact Hi|exact Hp|done|]. intros c3 Ec3 M3.
  apply wp_bind. eapply wp_member_upd; [exact M3|by apply list_lookup_insert_eq|by cbn; rewrite Ec3|done|].
  intros c4 Ec4 M4. rewrite list_insert_insert_eq in M4. cbn [set_config g_config] in *.
  apply wp_bind. eapply wp_mono.
  { eapply note_match_ok; [exact M4|by apply list_lookup_insert_eq|by cbn; rewrite Ec4, Ec3|done..|].
    by rewrite length_insert. }
  intros [] s5 (M5 & Hp5 & El5 & Hc5 & Hsafe). rewrite list_insert_insert_eq in *.
  eapply wp_member_upd; [exact M5|by apply list_lookup_insert_eq|by rewrite Hp5; cbn; rewrite Ec4, Ec3|done|]. intros c6 Ec6 M6.
  rewrite list_insert_insert_eq in M6. eapply Hend; [exact M6|].
  split; cbn [g_me set_config g_raft_log]; try apply M6; try done.
  - right. by exists i, x.
  - intros i' x' Hf'. rewrite Hf in Hf'. injection Hf' as <- <-. done.
  - cbn [set_config g_config]. rewrite Ec6, Hp5. cbn [set_config g_config]. by rewrite Ec4, Ec3, Hcf2.
  - intros Hgt. destruct (Hsafe Hgt) as (Hs0 & Hle & Hq & He).
    split; [done|]. split; [done|]. split; [done|]. split; [done|]. split; [|done].
    match type of Hq with quorum _ (<[_ := ?z]> _) =>
      rewrite <- (list_insert_insert_eq C i (upd_hb_timeouts 0 z) z) end.
    eapply quorum_insert; [by apply list_lookup_insert_eq|done|done|done].
Qed.

End Replication.
