(* ===== verification/Install.v ===== *)
(** * Snapshots of the configuration (proofs about src/config.c and
      src/snapshot.c)

    A configuration snapshot holds the members of the server that took it; its
    installation replaces the members, empties the log and moves the indices
    to those of the snapshot. *)

From S2P Require Import Prelude Monad Types LogRing Mtl Config Quorum HashTable.
From S2P Require Import State Utils Log Serialize Snapshot RaftLog Raft Invariant.
From S2P Require Import Commit Election Replication.
Open Scope Z_scope.

(** A member as a snapshot records it: name, address and status. *)
Definition member : Type := server_id_t * target_t * Z.
Definition member_of (x : server_t) : member := (s_server_id x, s_target x, s_status x).
Abbreviation member_id m := (fst (fst m)).

Section Install.
Context `{Rmr} `{Host}.

(** The server the installation creates for a member. *)
Definition installed (last : index_t) (m : member) : server_t :=
  upd_status (snd m) (new_server (member_id m) (snd (fst m)) last).

(** The members in the data of a snapshot. *)
Fixpoint snapshot_members (n offset : nat) (data : bytes) : option (list member) :=
  match n with
  | O => Some []
  | S n =>
      '(id, target, status) ← snapshot_server data offset;
      l ← snapshot_members n (offset + sizeof_server_snapshot) data;
      Some ((id, target, ntohl status) :: l)
  end.

(** *** Removing every server *)

Lemma remove_all_ok self fuel : forall s C,
  cfg_rep s C -> (length C <= fuel)%nat ->
  exists s', remove_all self fuel s = Ok tt s' /\ cfg_rep s' [] /\ config_frame s s'.
Proof.
  induction fuel as [|fuel IH]; intros s C R Hf; cbn [remove_all];
    rewrite (bind_Ok _ _ s (cf s) s) by done;
    pose proof (objs_size _ _ (rep_objs _ _ R)) as Hs.
  - destruct C; [|simpl in Hf; lia]. rewrite Hs. by exists s.
  - destruct C as [|x C].
    { rewrite Hs. by exists s. }
    rewrite Hs. rewrite (proj2 (Z.ltb_lt _ _)) by (simpl; lia).
    destruct (objs_lookup _ _ (rep_objs _ _ R) 0%nat x eq_refl) as (p & Hp & Hx).
    rewrite (bind_Ok _ _ _ _ _ (server_at_objs s 0 p Hp)).
    rewrite (bind_Ok _ _ _ _ _ (deref_objs s p x Hx)).
    destruct (remove_server_rep self s _ (s_server_id x) R) as (s1 & E1 & R1 & F1).
    rewrite (bind_Ok _ _ _ _ _ E1).
    assert (without (s_server_id x) (x :: C) = C) as Ew.
    { by rewrite (without_delete _ _ 0 x (rep_ids _ _ R) eq_refl eq_refl). }
    rewrite Ew in R1. destruct (IH s1 C R1) as (s2 & E2 & R2 & F2); [simpl in Hf; lia|].
    exists s2. split; [done|]. split; [done|].
    destruct F1 as (?&?&?), F2 as (?&?&?). split; [|split]; congruence.
Qed.

(** *** Installing the members *)

Lemma snapshot_server_length data off id target status :
  snapshot_server data off = Some (id, target, status) ->
  (String.length id < sizeof_server_id)%nat.
Proof.
  unfold snapshot_server. destruct (sub_bytes off sizeof_server_id data) as [b|] eqn:Eb; [|done].
  cbn. destruct (sub_bytes _ sizeof_target data); [|done]. cbn.
  destruct (sub_bytes _ 4 data); [|done]. cbn. destruct (cstring b) as [i|] eqn:Ei; [|done]. cbn.
  destruct (cstring l); [|done]. cbn. intros [= <- _ _].
  apply cstring_length in Ei. apply sub_bytes_length in Eb. lia.
Qed.

Lemma install_servers_ok self data last n : forall s C off X,
  cfg_rep s C -> Forall (fun r => r = 0) (cf_threads s) ->
  snapshot_members n off data = Some X -> NoDup (ids C ++ ((fun m => member_id m) <$> X)) ->
  Forall (fun m => snd m = VOTING_MEMBER \/ snd m = NON_VOTING_MEMBER) X ->
  Z.of_nat (length C) + Z.of_nat n < 2 ^ 32 ->
  exists s', install_servers self n off data last s = Ok tt s' /\
    cfg_rep s' (C ++ (installed last <$> X)) /\ cf_lock s' = cf_lock s /\
    Forall (fun r => r = 0) (cf_threads s').
Proof.
  induction n as [|n IH]; intros s C off X R Ht HX Hn Hs Hmax; cbn [install_servers snapshot_members] in *.
  { injection HX as <-. exists s. rewrite app_nil_r. done. }
  destruct (snapshot_server data off) as [[[id target] status]|] eqn:E; [|done]. cbn in HX.
  destruct (snapshot_members n _ data) as [X1|] eqn:E1; [|done]. cbn in HX. injection HX as <-.
  apply Forall_cons_iff in Hs as [Hst Hs]. cbn in Hst, Hn.
  pose proof (snapshot_server_length _ _ _ _ _ E) as Hlen.
  assert (id ∉ ids C) as Hid.
  { intros Hin. apply NoDup_app in Hn as (_ & Hd & _). apply (Hd id Hin). by left. }
  rewrite (bind_Ok _ _ s (id, target, status) s) by done. cbv beta iota.
  destruct (add_server_absent self s C id target last R Hid Hlen ltac:(lia) Ht)
    as (s1 & E2 & R1 & L1 & T1 & _).
  rewrite (bind_Ok _ _ _ _ _ E2), (bind_Ok _ _ _ tt s1) by done.
  destruct (set_status_rep s1 _ id (ntohl status) _ _ R1 (find_new id target last C Hid Hlen) Hst)
    as (s2 & E3 & R2 & (L2 & T2 & _)).
  rewrite (bind_Ok _ _ _ _ _ E3). cbv beta iota. rewrite (bind_Ok _ _ _ tt s2) by done.
  rewrite insert_app_r_alt, Nat.sub_diag in R2 by done. cbn in R2.
  change (upd_status _ _) with (installed last (id, target, ntohl status)) in R2.
  destruct (IH s2 (C ++ [installed last (id, target, ntohl status)]) (off + sizeof_server_snapshot)%nat X1 R2)
    as (s3 & E4 & R3 & L3 & T3); [by rewrite T2|done| |done|rewrite length_app; simpl; lia|].
  { unfold ids. rewrite fmap_app, <- app_assoc. cbn.
    assert (str_cut (sizeof_server_id - 1) id = id) as -> by (apply str_cut_id; lia). done. }
  exists s3. split; [done|]. rewrite <- app_assoc in R3. split; [done|]. split; [congruence|done].
Qed.

(** *** Committing a snapshot of the configuration *)

(** A snapshot whose data can be installed: it decodes into members with
    different names and valid statuses. *)
Record snapshot_ok (x : raft_snapshot_t) (X : list member) : Prop := {
  sk_term : is_u64 (rs_last_term x);
  sk_index : 0 <= rs_last_index x < 2 ^ 64 - 1;
  sk_items : 0 < rs_items x < 2 ^ 31;
  sk_data : exists data, rs_data x = Some data /\
    snapshot_members (Z.to_nat (rs_items x)) 0 data = Some X /\
    0 < rs_dlen x <= Z.of_nat (length data);
  sk_ids : NoDup ((fun m => member_id m) <$> X);
  sk_status : Forall (fun m => snd m = VOTING_MEMBER \/ snd m = NON_VOTING_MEMBER) X }.

Lemma snapshot_members_length n off data X :
  snapshot_members n off data = Some X -> length X = n.
Proof.
  revert off X. induction n as [|n IH]; intros off X; cbn [snapshot_members].
  - by intros [= <-].
  - destruct (snapshot_server data off) as [[[id t] st]|]; [|done]. cbn.
    destruct (snapshot_members n _ data) as [X1|] eqn:E; [|done]. cbn. intros [= <-].
    cbn. f_equal. by eapply IH.
Qed.

(** The raft state after the installation: the term and the indices of the
    snapshot, whatever they were before. *)
Definition snapshot_me (x : raft_snapshot_t) (m : raft_state_t) : raft_state_t :=
  me_commit (rs_last_index x) (me_applied (rs_last_index x) (me_term (rs_last_term x) m)).

Record installs (x : raft_snapshot_t) (X : list member) (s s' : St) : Prop := {
  is_core : core s' [] (installed (rs_last_index x) <$> X);
  is_env : env_ok s';
  is_me : g_me s' = snapshot_me x (g_me s);
  is_locks : locks s' = locks s;
  is_snap : g_snap s' = g_snap s;
  is_app : g_app s' = g_app s;
  is_offset : l_index_offset (lg (g_raft_log s')) = rs_last_index x }.

Lemma commit_snapshot_ok x X s L C :
  inv s L C -> k_raft (locks s) = false -> k_cfg (locks s) = false -> k_repl (locks s) = false ->
  sn_raft_pipe (g_snap s) = None -> snapshot_ok x X ->
  wp never (commit_raft_config_snapshot x) s (fun _ s' => installs x X s s').
Proof.
  intros [Co En _] Hr Hc Hp Hpipe [Kt Ki Kn (data & Kd & Km & Kl) Kx Ks].
  unfold commit_raft_config_snapshot. pose proof (snapshot_members_length _ _ _ _ Km) as HlX.
  apply wp_bind, wp_raft_locked; [done|]. apply wp_bind, wp_zoom, wp_lock; [done|].
  cbn [lget lput config_l cf_lock_l]. set (self := m_self_id (g_me s)).
  set (s1 := with_raft_lock true s). set (c1 := set_cf_lock true (g_config s)).
  apply wp_bind. eapply wp_eq; [reflexivity|].
  assert (cfg_rep c1 C) as R1 by (by apply cfg_ok_lock, Co).
  destruct (remove_all_ok self (Z.to_nat (c_size (cf (g_config s)))) c1 C R1) as (c2 & E2 & R2 & F2).
  { change (cf (g_config s)) with (cf c1). rewrite (objs_size _ _ (rep_objs _ _ R1)). lia. }
  apply wp_bind, wp_zoom. eapply wp_eq; [exact E2|]. cbn [lput config_l].
  destruct (free_all_rep (g_raft_log s1) L (rs_last_index x)) as (g2 & E3 & Rg & Fg & Og).
  { by apply (co_log _ _ _ (core_raft_lock true _ _ _ Co)). }
  { lia. }
  apply wp_bind, wp_zoom. eapply wp_eq; [exact E3|]. cbn [lput raft_log_l].
  do 3 (apply wp_bind, wp_modify). apply wp_bind, wp_from_opt.
  rewrite (proj2 (Z.eqb_neq _ _)) by lia. rewrite Kd.
  destruct F2 as (L2 & T2 & _). destruct Fg as (Lg & _).
  destruct (install_servers_ok self data (rs_last_index x) (Z.to_nat (rs_items x)) c2 [] 0 X R2)
    as (c3 & E4 & R4 & L4 & T4); [rewrite T2; apply Co|done|done|done|simpl; lia|].
  apply wp_bind, wp_zoom. eapply wp_eq; [exact E4|]. cbn [lput config_l].
  apply wp_bind, wp_zoom, wp_unlock. cbn [lget lput config_l cf_lock_l].
  set (s5 := set_config _ _). rewrite app_nil_l in R4.
  assert (core s5 [] (installed (rs_last_index x) <$> X)) as Co5.
  { split; try done.
    - by apply cfg_ok_lock.
    - cbn. by rewrite Og.
    - cbn. pose proof (lr_last _ _ Rg) as E. rewrite Og in E. simpl in E. lia.
    - cbn. by rewrite Hpipe. }
  assert (env_ok s5) as En5 by (by destruct En).
  assert (locks s5 = locks s1) as Hk5.
  { unfold locks. cbn. rewrite Lg. cbn. cbn in Hc. by rewrite Hc. }
  apply wp_bind. eapply wp_mono; [apply (update_replica_servers_ok s5 [] _ Co5 En5)|].
  { by rewrite Hk5. }
  { by rewrite Hk5. }
  { rewrite length_fmap, HlX. lia. }
  intros [] s6 (Co6 & F6 & Em6 & Ec6 & _). apply wp_raft_unlock. split.
  - by apply core_raft_lock.
  - destruct (cr_env _ _ F6 En5). by split.
  - cbn. by rewrite Em6.
  - pose proof (cr_locks _ _ F6) as Hk6. rewrite Hk5 in Hk6.
    rewrite (locks_raft true s s6 Hk6 false). unfold locks. cbn. cbn in Hr. by rewrite Hr.
  - cbn. by rewrite (cr_snap _ _ F6).
  - cbn. by rewrite (cr_app _ _ F6).
  - cbn. rewrite (cr_log _ _ F6). exact Og.
Qed.

(** *** Installing a snapshot

    The installation ends the process only when its allocation fails. *)

Definition oom (realloc_ok : bool) (f : fault) : Prop := realloc_ok = false /\ f = Exit.

(** A change of the snapshot module only, without a pending pipe. *)
Lemma inv_snap sn s L C :
  inv s L C -> sn_raft_pipe sn = None -> inv (set_snap sn s) L C.
Proof.
  intros [[] [] Ha] Hn. split; [|by split|done]. split; try done. cbn. by rewrite Hn.
Qed.

Lemma no_pipe s L C : core s L C -> sn_raft_in_progress (g_snap s) = false ->
  sn_raft_pipe (g_snap s) = None.
Proof.
  intros Co Hp. destruct (sn_raft_pipe (g_snap s)) as [[meta data]|] eqn:E; [|done].
  destruct (co_pipe _ _ _ Co meta data E) as [Hb _]. congruence.
Qed.

(** What is stored of an installed snapshot. *)
Definition stored (x : raft_snapshot_t) : raft_snapshot_t :=
  RaftSnapshot (rs_last_term x) (rs_last_index x) (rs_dlen x) (rs_items x)
    (take (Z.to_nat (rs_dlen x)) <$> rs_data x).

(** A snapshot is new when its term or its index differ from the stored one's. *)
Definition same_snapshot (x y : raft_snapshot_t) : Prop :=
  rs_last_term x = rs_last_term y /\ rs_last_index x = rs_last_index y.

Record install_spec (x : raft_snapshot_t) (X : list member) (s s' : St)
    (L L' : list log_entry_t) (C C' : list server_t) (r : Z) : Prop := {
  in_locks : locks s' = locks s;
  in_app : g_app s' = g_app s;
  in_skipped : sn_raft_in_progress (g_snap s) = true \/
      same_snapshot x (sn_raft_snapshot (g_snap s)) ->
    r = 0 /\ L' = L /\ C' = C /\ g_me s' = g_me s /\ g_raft_log s' = g_raft_log s;
  in_installed : sn_raft_in_progress (g_snap s) = false ->
      ~ same_snapshot x (sn_raft_snapshot (g_snap s)) ->
    r = 1 /\ L' = [] /\ C' = installed (rs_last_index x) <$> X /\
    g_me s' = snapshot_me x (g_me s) /\ sn_raft_snapshot (g_snap s') = stored x /\
    sn_raft_in_progress (g_snap s') = false /\
    l_index_offset (lg (g_raft_log s')) = rs_last_index x }.

Lemma inv_set_prog b b' s L C : inv s L C -> sn_raft_pipe (g_snap s) = None ->
  inv (set_snap (set_raft_in_progress_lock b (set_raft_in_progress b' (g_snap s))) s) L C.
Proof. intros I Hn. by apply inv_snap. Qed.

(** The end of the installation: the flag is cleared. *)
Lemma install_end E r s4 (Q : Z -> St -> Prop) :
  k_rprog (locks s4) = false -> Q r (set_snap (set_raft_in_progress false (g_snap s4)) s4) ->
  wp E (zoom snap_l (lock raft_in_progress_lock raft_in_progress_lock_l);;
    zoom snap_l (modify (set_raft_in_progress false));;
    zoom snap_l (unlock raft_in_progress_lock_l);; mret r) s4 Q.
Proof.
  destruct s4 as [? ? ? ? ? [? ? ? ? lk] ? ? ?]. cbn. intros Hg. subst lk. done.
Qed.

(** Nothing is installed while another snapshot is in progress. *)
Lemma install_busy x X s L C :
  inv s L C -> k_rprog (locks s) = false -> sn_raft_in_progress (g_snap s) = true ->
  let s' := set_snap (set_raft_in_progress_lock false (set_raft_in_progress_lock true (g_snap s))) s in
  inv s' L C /\ install_spec x X s s' L L C C 0.
Proof.
  intros I Hg Hip s'. split.
  - destruct I as [Co [] Ha]. split; [|by split|done]. by apply (core_same s).
  - split; try done; [|congruence]. unfold locks. cbn. cbn in Hg. by rewrite Hg.
Qed.

Lemma install_snapshot_ok realloc_ok x X s L C :
  inv s L C -> k_raft (locks s) = false -> k_cfg (locks s) = false -> k_repl (locks s) = false ->
  k_rprog (locks s) = false -> snapshot_ok x X ->
  wp (oom realloc_ok) (install_raft_snapshot realloc_ok x) s (fun r s' => exists L' C',
    inv s' L' C' /\ install_spec x X s s' L L' C C' r).
Proof.
  intros I Hr Hc Hp Hg K. unfold install_raft_snapshot. apply wp_bind, wp_zoom, wp_lock; [done|].
  cbn [lget lput snap_l raft_in_progress_lock_l].
  set (s1 := set_snap _ s). apply wp_bind. eapply wp_eq; [reflexivity|].
  destruct (sn_raft_in_progress (g_snap s1)) eqn:Hip.
  { apply wp_bind, wp_zoom, wp_unlock, wp_ret. exists L, C. by apply (install_busy x X s L C). }
  change (sn_raft_in_progress (g_snap s) = false) in Hip.
  pose proof (no_pipe s L C (inv_core _ _ _ I) Hip) as Hpipe.
  apply wp_bind, wp_zoom, wp_modify, wp_bind, wp_zoom, wp_unlock.
  cbn [lget lput snap_l raft_in_progress_lock_l].
  match goal with |- context [set_snap ?sn (set_snap _ _)] => set (s2 := set_snap sn s) end.
  assert (inv s2 L C) as I2 by (by apply inv_snap).
  assert (locks s2 = locks s) as Hk2.
  { unfold locks. cbn. cbn in Hg. by rewrite Hg. }
  change (sn_raft_snapshot (g_snap s1)) with (sn_raft_snapshot (g_snap s)).
  set (cur := sn_raft_snapshot (g_snap s)) in *.
  apply wp_bind. destruct (negb _ || negb _) eqn:Hd.
  2: { apply orb_false_iff in Hd as [Hd1%negb_false_iff%Z.eqb_eq Hd2%negb_false_iff%Z.eqb_eq].
       apply wp_ret, install_end; [by change (k_rprog (locks s2) = false); rewrite Hk2|]. exists L, C. split; [by apply inv_snap|].
       split; [by rewrite <- Hk2|done|done|]. intros _ Hn. by destruct Hn. }
  assert (~ same_snapshot x cur) as Hnew.
  { intros [E1 E2]. rewrite E1, E2, !Z.eqb_refl in Hd. done. }
  apply wp_bind, never_wp. eapply wp_mono.
  { apply (commit_snapshot_ok x X s2 L C I2); [by rewrite Hk2..|exact Hpipe|exact K]. }
  intros [] s3 [Co3 En3 Em3 Hk3 Hs3 Ha3 Ho3]. apply wp_bind. unfold when.
  destruct realloc_ok; [|by apply wp_fail]. apply wp_ret, wp_bind, wp_from_opt.
  destruct K as [_ _ _ (data & Kd & _ & Kl) _ _].
  rewrite (proj2 (Z.eqb_neq _ _)), Kd by lia. apply wp_bind, wp_from_opt.
  unfold sub_bytes. rewrite decide_True by lia. cbn [drop]. apply wp_bind, wp_zoom, wp_modify, wp_ret.
  cbn [lget lput snap_l]. set (s4 := set_snap _ s3).
  assert (sn_raft_pipe (g_snap s4) = None) as Hp4 by (cbn; by rewrite Hs3).
  assert (inv s4 [] (installed (rs_last_index x) <$> X)) as I4.
  { apply inv_snap; [|done]. split; [done|done|]. rewrite Em3. done. }
  assert (locks s4 = locks s) as Hk4 by (by rewrite <- Hk2, <- Hk3).
  apply install_end; [by rewrite Hk4|]. eexists _, _. split; [by apply inv_snap|]. split.
  - by rewrite <- Hk4.
  - cbn. by rewrite Ha3.
  - intros [|]; [congruence|done].
  - intros _ _. split; [done|]. split; [done|]. split; [done|]. split; [cbn; by rewrite Em3|].
    split; [|by split]. cbn. unfold stored. by rewrite Kd.
Qed.

(** *** The handler of a snapshot request *)

Record snapshot_spec (req : raft_snapshot_request_t) (X : list member) (s s' : St)
    (L L' : list log_entry_t) (C C' : list server_t) (r : raft_snapshot_reply_t) : Prop := {
  ss_reply : Types.rp_term r = Z.max (m_current_term (g_me s)) (rq_term req) /\
    rp_server_id r = m_self_id (g_me s) /\
    rp_last_index r = l_last_log_index (lg (g_raft_log s'));
  ss_app : g_app s' = g_app s;
  ss_skipped : rq_term req < m_current_term (g_me s) \/
      sn_raft_in_progress (g_snap s) = true \/
      same_snapshot (rq_snapshot req) (sn_raft_snapshot (g_snap s)) ->
    rp_success r = 0 /\ L' = L /\ C' = C /\ stays s s' /\
    m_commit_index (g_me s') = m_commit_index (g_me s);
  ss_installed : m_current_term (g_me s) <= rq_term req ->
      sn_raft_in_progress (g_snap s) = false ->
      ~ same_snapshot (rq_snapshot req) (sn_raft_snapshot (g_snap s)) ->
    rp_success r = 1 /\ L' = [] /\
    C' = installed (rs_last_index (rq_snapshot req)) <$> X /\
    m_current_term (g_me s') = rs_last_term (rq_snapshot req) /\
    m_commit_index (g_me s') = rs_last_index (rq_snapshot req) /\
    m_last_applied (g_me s') = rs_last_index (rq_snapshot req) /\
    m_current_leader (g_me s') = rq_leader_id req /\
    sn_raft_snapshot (g_snap s') = stored (rq_snapshot req) }.

(** The end of the handler: the mutex is given back and the timer restarted. *)
Lemma snapshot_answer E r s4 L4 C4 (Q : raft_snapshot_reply_t -> St -> Prop) :
  inv s4 L4 C4 -> locks s4 = state_locked ->
  (forall s5, inv s5 L4 C4 -> locks s5 = no_locks -> g_me s5 = g_me s4 ->
    g_raft_log s5 = g_raft_log s4 -> g_snap s5 = g_snap s4 -> g_app s5 = g_app s4 -> Q r s5) ->
  wp E (unlock state_lock_l;; restart_election_timer;; mret r) s4 Q.
Proof.
  intros I4 Hk4 HQ. apply wp_bind, wp_unlock.
  assert (locks (set_state_lock false s4) = no_locks) as Hk5 by (by auto with server).
  assert (inv (set_state_lock false s4) L4 C4) as I5 by (by auto with server).
  destruct (restart_timer_ok (set_state_lock false s4)) as (s6 & E6 & F6 & Em6); [by rewrite Hk5|].
  apply wp_bind. eapply wp_eq; [exact E6|]. apply wp_ret, HQ.
  - eapply eframe_inv; [exact F6|rewrite Em6; apply I5|exact I5].
  - by rewrite (ef_locks _ _ F6).
  - by rewrite Em6.
  - by rewrite (ef_log _ _ F6).
  - by rewrite (ef_snap _ _ F6).
  - by rewrite (ef_app _ _ F6).
Qed.

(** The end of the handler when nothing was installed; [s2] is the state behind
    the comparison of the terms. *)
Lemma snapshot_skipped E req X s s2 s4 L C :
  stays s s2 -> m_current_term (g_me s2) = Z.max (m_current_term (g_me s)) (rq_term req) ->
  m_commit_index (g_me s2) = m_commit_index (g_me s) -> m_self_id (g_me s2) = m_self_id (g_me s) ->
  rq_term req < m_current_term (g_me s) \/ sn_raft_in_progress (g_snap s) = true \/
    same_snapshot (rq_snapshot req) (sn_raft_snapshot (g_snap s)) ->
  inv s4 L C -> locks s4 = state_locked -> g_me s4 = g_me s2 -> g_app s4 = g_app s ->
  wp E (last ← get_raft_last_log_index; unlock state_lock_l;; restart_election_timer;;
    mret (RepRsnap 0 (m_current_term (g_me s2)) last (m_self_id (g_me s2)))) s4
    (fun r s' => exists L' C', inv s' L' C' /\ locks s' = no_locks /\
      snapshot_spec req X s s' L L' C C' r).
Proof.
  intros V2 Hterm Hc2 Hi2 Hwhy I4 Hk4 Em4 Ea4. apply wp_bind. eapply wp_eq.
  { apply (get_raft_last_ok s4 L C); [apply I4|by rewrite Hk4]. }
  eapply snapshot_answer; [exact I4|done|]. intros s5 I5 Hk5 Em5 El5 _ Ea5.
  exists L, C. split; [done|]. split; [done|]. split.
  - split; [done|]. split; [by cbn|]. cbn. by rewrite El5.
  - by rewrite Ea5.
  - intros _. split; [done|]. split; [done|]. split; [done|].
    rewrite Em5, Em4. split; [|done]. eapply stays_me; [exact V2|]. by rewrite Em5, Em4.
  - intros Hge Hip Hne. destruct Hwhy as [|[|]]; [lia|congruence|done].
Qed.

Lemma handle_snapshot_ok realloc_ok req X s L C :
  inv s L C -> locks s = no_locks -> is_u64 (rq_term req) -> snapshot_ok (rq_snapshot req) X ->
  wp (oom realloc_ok) (handle_raft_snapshot_request realloc_ok req) s (fun r s' => exists L' C',
    inv s' L' C' /\ locks s' = no_locks /\ snapshot_spec req X s s' L L' C C' r).
Proof.
  intros I Hk Ht K. unfold handle_raft_snapshot_request. apply wp_bind, wp_state_lock; [done|].
  destruct (match_terms_inv (rq_term req) s L C I Hk Ht)
    as (s2 & E2 & F2 & I2 & Hk2 & V2 & Hterm & Hm2).
  apply wp_bind. eapply wp_eq; [exact E2|]. apply wp_bind, wp_gets.
  assert (m_commit_index (g_me s2) = m_commit_index (g_me s)) as Hc2
    by (rewrite Hm2; by destruct (m_current_term (g_me s) <? rq_term req)).
  assert (m_self_id (g_me s2) = m_self_id (g_me s)) as Hi2
    by (rewrite Hm2; by destruct (m_current_term (g_me s) <? rq_term req)).
  pose proof (ef_snap _ _ F2) as Hsn2. pose proof (ef_app _ _ F2) as Ha2.
  change (g_app (set_state_lock true s)) with (g_app s) in Ha2.
  change (g_snap (set_state_lock true s)) with (g_snap s) in Hsn2.
  pose proof (fun s4 => snapshot_skipped (oom realloc_ok) req X s s2 s4 L C V2 Hterm Hc2 Hi2) as Hskip.
  apply wp_bind. destruct (Z.ltb_spec (rq_term req) (m_current_term (g_me s))) as [Hst|Hge].
  { rewrite decide_True by done. apply wp_ret, (Hskip _ ltac:(by left)); done. }
  rewrite decide_False by (by destruct (rq_term req =? _)).
  apply wp_bind. eapply wp_mono; [apply (install_snapshot_ok realloc_ok _ X s2 L C I2); by rewrite ?Hk2|].
  intros r s3 (L3 & C3 & I3 & [Lk3 La3 Hsk Hin]). rewrite Ha2 in La3. rewrite Hsn2 in *. rewrite Hk2 in Lk3.
  destruct (sn_raft_in_progress (g_snap s)) eqn:Hip.
  { destruct Hsk as (-> & -> & -> & Em3 & _); [by left|]. apply wp_ret, Hskip; try done. by right; left. }
  assert (Decision (same_snapshot (rq_snapshot req) (sn_raft_snapshot (g_snap s)))) as D
    by (unfold same_snapshot; apply _).
  destruct (decide (same_snapshot (rq_snapshot req) (sn_raft_snapshot (g_snap s)))) as [Hs|Hs].
  { destruct Hsk as (-> & -> & -> & Em3 & _); [by right|]. apply wp_ret, Hskip; try done. by right; right. }
  destruct (Hin eq_refl Hs) as (-> & -> & -> & Em3 & Esn3 & _ & Ho3).
  cbn [truthy Z.eqb negb]. apply wp_bind, wp_modify, wp_ret. cbn [truthy Z.eqb negb].
  set (s4 := set_me _ s3).
  assert (eframe s3 s4) as F4 by (split; try done; by intros []).
  assert (inv s4 [] (installed (rs_last_index (rq_snapshot req)) <$> X)) as I4.
  { eapply eframe_inv; [exact F4| |exact I3]. apply (co_term _ _ _ (inv_core _ _ _ I3)). }
  apply wp_bind, wp_bind, wp_gets, wp_ret.
  eapply snapshot_answer; [exact I4|exact Lk3|]. intros s5 I5 Hk5 Em5 El5 Es5 Ea5.
  eexists _, _. split; [exact I5|]. split; [done|]. split.
  - split; [done|]. split; [by cbn|]. cbn. rewrite El5, Em3.
    pose proof (core_last_length _ _ _ (inv_core _ _ _ I4)) as Hl. cbn in Hl |- *.
    change (g_raft_log s4) with (g_raft_log s3). lia.
  - by rewrite Ea5.
  - intros [|[|]]; [lia|congruence|done].
  - intros _ _ _. rewrite Em5, Es5. cbn. rewrite Em3, Esn3. done.
Qed.

(** *** The data of a snapshot *)

(** Names that fit their arrays, and a valid status. *)
Definition member_wf (x : server_t) : Prop :=
  fits sizeof_server_id (s_server_id x) /\ fits sizeof_target (s_target x) /\ valid_status x.

Lemma cstring_carray_all n s :
  no_nul s -> (String.length s < n)%nat -> cstring (carray n s) = Some s.
Proof. intros Hs Hl. rewrite <- (app_nil_r (carray n s)). by apply cstring_carray. Qed.

Lemma status_offset_ge : (sizeof_server_id + sizeof_target <= status_offset)%nat.
Proof.
  unfold status_offset, align. set (n := (sizeof_server_id + sizeof_target)%nat).
  pose proof (Nat.div_mod_eq (n + (4 - 1)) 4). pose proof (Nat.mod_upper_bound (n + (4 - 1)) 4). lia.
Qed.

Lemma sizes_pos : (0 < sizeof_server_id)%nat /\ (0 < sizeof_target)%nat.
Proof. pose proof RMR_MAX_SRC_pos. unfold sizeof_server_id, sizeof_target. lia. Qed.

Lemma length_server_snapshot x : length (server_snapshot x) = sizeof_server_snapshot.
Proof.
  pose proof sizes_pos as [? ?]. pose proof status_offset_ge.
  unfold server_snapshot, sizeof_server_snapshot. rewrite !length_app, length_replicate.
  rewrite !length_carray, length_mem_bytes by done. lia.
Qed.

Lemma snapshot_server_at x pre post off :
  member_wf x -> off = length pre ->
  snapshot_server (pre ++ server_snapshot x ++ post) off =
    Some (s_server_id x, s_target x, htonl (s_status x)).
Proof.
  intros ([Q1 Q2] & [Q3 Q4] & Q5) ->. pose proof sizes_pos as [P1 P2].
  pose proof status_offset_ge as P3. unfold snapshot_server, server_snapshot.
  pose proof (length_carray sizeof_server_id (s_server_id x) P1) as L1.
  pose proof (length_carray sizeof_target (s_target x) P2) as L2.
  set (a := carray _ (s_server_id x)) in *. set (b := carray _ (s_target x)) in *.
  set (c := replicate _ NUL). set (d := mem_bytes 4 _).
  assert (length c = (status_offset - (sizeof_server_id + sizeof_target))%nat) as L3
    by (unfold c; by rewrite length_replicate).
  assert (length d = 4%nat) as L4 by (unfold d; by rewrite length_mem_bytes).
  assert (pre ++ (a ++ b ++ c ++ d) ++ post = pre ++ a ++ (b ++ c ++ d ++ post)) as E1
    by (by rewrite <- !app_assoc).
  assert (pre ++ (a ++ b ++ c ++ d) ++ post = (pre ++ a) ++ b ++ (c ++ d ++ post)) as E2
    by (by rewrite <- !app_assoc).
  assert (pre ++ (a ++ b ++ c ++ d) ++ post = (pre ++ a ++ b ++ c) ++ d ++ post) as E3
    by (by rewrite <- !app_assoc).
  rewrite E1 at 1. rewrite (sub_bytes_app_mid pre a) by done. cbn [option_bind mbind].
  rewrite E2 at 1. rewrite (sub_bytes_app_mid (pre ++ a) b) by (rewrite ?length_app; lia).
  cbn [option_bind mbind].
  rewrite E3. rewrite (sub_bytes_app_mid (pre ++ a ++ b ++ c) d) by (rewrite ?length_app; lia).
  unfold a, b, d.
  cbn. rewrite !cstring_carray_all by done. cbn. rewrite mem_val_bytes.
  rewrite Z.mod_small; [done|]. apply htonl_range.
Qed.

Lemma snapshot_members_data : forall (C : list server_t) pre off,
  Forall member_wf C -> off = length pre ->
  snapshot_members (length C) off (pre ++ mjoin (server_snapshot <$> C)) = Some (member_of <$> C).
Proof.
  induction C as [|x C IH]; intros pre off Hw Ho; [done|].
  apply Forall_cons_iff in Hw as [Hx Hw]. cbn [length snapshot_members fmap list_fmap mjoin list_join].
  rewrite snapshot_server_at by done. cbn. rewrite (app_assoc pre).
  rewrite IH; [cbn|done|rewrite length_app, length_server_snapshot, Ho; done].
  rewrite ntohl_htonl, u32_small; [done|].
  destruct Hx as (_ & _ & [-> | ->]); done.
Qed.

Lemma serialize_servers_ok C : forall n i s data,
  objs s C -> (i + n = length C)%nat ->
  serialize_servers n i data s = Ok (data ++ mjoin (server_snapshot <$> drop i C)) s.
Proof.
  induction n as [|n IH]; intros i s data O Hi; cbn [serialize_servers].
  - rewrite drop_ge by lia. cbn. by rewrite app_nil_r.
  - destruct (lookup_lt_is_Some_2 C i) as [x Hx]; [lia|].
    destruct (objs_lookup _ _ O i x Hx) as (p & Hp & Hh).
    rewrite (bind_Ok _ _ _ _ _ (server_at_objs s i p Hp)).
    rewrite (bind_Ok _ _ _ _ _ (deref_objs s p x Hh)).
    rewrite IH by (done || lia). rewrite (drop_S _ _ _ Hx). cbn. by rewrite app_assoc.
Qed.

Lemma create_snapshot_ok s L C :
  core s L C ->
  create_raft_config_snapshot true s =
    Ok (PipeMetabuf (m_current_term (g_me s)) (m_last_applied (g_me s))
          (Z.of_nat (length (mjoin (server_snapshot <$> C)))) (Z.of_nat (length C)),
        mjoin (server_snapshot <$> C)) s.
Proof.
  intros Co. pose proof (rep_objs _ _ (co_cfg _ _ _ Co)) as O.
  unfold create_raft_config_snapshot. rewrite (bind_Ok _ _ s tt s) by done.
  assert (forall c, c = g_config s -> lput config_l c s = s) as Es by (intros c ->; by destruct s).
  rewrite (bind_Ok _ _ s (length C) s).
  2: { unfold zoom. cbn [lget config_l]. rewrite (config_size_objs _ C O). by rewrite Es. }
  rewrite (bind_Ok _ _ s (mjoin (server_snapshot <$> C)) s).
  2: { unfold zoom. cbn [lget config_l].
       rewrite (serialize_servers_ok C _ 0 _ [] O) by lia. by rewrite Es. }
  rewrite (bind_Ok _ _ s s s) by done. by rewrite (objs_size _ _ O).
Qed.

(** The snapshot of a well-formed server is installable, and gives back its
    members. *)
Lemma length_snapshot_data (C : list server_t) :
  length (mjoin (server_snapshot <$> C)) = (length C * sizeof_server_snapshot)%nat.
Proof.
  induction C as [|x C IH]; [done|].
  change (mjoin (server_snapshot <$> x :: C)) with
    (server_snapshot x ++ mjoin (server_snapshot <$> C)).
  by rewrite length_app, length_server_snapshot, IH.
Qed.

Definition snapshot_of (term : term_t) (index : index_t) (C : list server_t) : raft_snapshot_t :=
  RaftSnapshot term index (Z.of_nat (length (mjoin (server_snapshot <$> C)))) (Z.of_nat (length C))
    (Some (mjoin (server_snapshot <$> C))).

Lemma snapshot_of_ok term index C :
  is_u64 term -> 0 <= index < 2 ^ 64 - 1 -> NoDup (ids C) -> Forall member_wf C ->
  0 < Z.of_nat (length C) < 2 ^ 31 -> snapshot_ok (snapshot_of term index C) (member_of <$> C).
Proof.
  intros Ht Hi Hn Hw Hlen. split; cbn [snapshot_of rs_last_term rs_last_index rs_dlen rs_items rs_data].
  - done.
  - done.
  - done.
  - eexists. split; [done|]. split.
    + rewrite Nat2Z.id. by apply (snapshot_members_data C []).
    + rewrite length_snapshot_data. unfold sizeof_server_snapshot. nia.
  - by rewrite <- list_fmap_compose.
  - apply Forall_fmap. eapply Forall_impl; [exact Hw|]. by intros x (_ & _ & Hs).
Qed.

Lemma installed_member last x : member_wf x -> member_of (installed last (member_of x)) = member_of x.
Proof.
  intros ([_ Hi] & [_ Ht] & _). unfold member_of, installed, new_server. cbn.
  rewrite !str_cut_id by lia. done.
Qed.

End Install.
