(* ===== verification/XRepl.v ===== *)
(** * The replication of the xApp's state is in order (proofs about src/rft.c)

    A backup applies the commands of a context once and in the order of the
    primary's log; the role tables are finite maps; the callbacks of the xApp
    are called with what the primary replicated. *)

From S2P Require Import Prelude Monad Types LogRing Mtl Config Quorum HashTable.
From S2P Require Import HashMap State Utils Log Serialize Snapshot RaftLog Raft XApp.
From S2P Require Import Invariant Commit Election Replication.
Open Scope Z_scope.

(** The role tables of the server: of the contexts and of the xApp's users. *)
Record roles (a : app_st) (mc mr : gmap key_arg Z) : Prop := {
  ro_ctx : ht_rep (ax_ctxtab a) mc;
  ro_ctx_kind : t_key_type (ax_ctxtab a) = STRING_KEY;
  ro_role : ht_rep (ax_roletab a) mr;
  ro_role_kind : t_key_type (ax_roletab a) = STRING_KEY }.

Definition app_ok (a : app_st) : Prop := exists mc mr, roles a mc mr.

(** The table after an insertion that may fail. *)
Definition inserted (key : option string) (v : Z) (r : Z) (m m' : gmap key_arg Z) : Prop :=
  r = 0 /\ m' = m \/ r = 1 /\ exists x, key = Some x /\ m' = <[KStr x := v]> m.

Lemma insert_any alloc key v t m :
  ht_rep t m -> t_key_type t = STRING_KEY ->
  exists r e t' m', hashtable_insert alloc alloc (KStr <$> key) v t = Ok (r, e) t' /\
    ht_rep t' m' /\ t_key_type t' = STRING_KEY /\ inserted key v r m m' /\
    (alloc = true -> is_Some key -> r = 1).
Proof.
  intros R Hk. destruct key as [x|].
  2: { exists 0, EINVAL, t, m. split; [done|]. split; [done|]. split; [done|]. split; [by left|].
       by intros _ [? ?]. }
  assert (key_ok (t_key_type t) (KStr x)) as Hok by (by rewrite Hk).
  destruct (decide (is_Some (m !! KStr x) \/ alloc = true)) as [Hyes|Hno].
  - destruct (hashtable_insert_ok t m (KStr x) R Hok alloc alloc v) as (t' & E & R' & [K' _]).
    { destruct Hyes as [Hs| ->]; [by right|by left]. }
    exists 1, ENONE, t', (<[KStr x := v]> m). split; [done|]. split; [done|].
    split; [congruence|]. split; [|done]. right. split; [done|]. by exists x.
  - assert (m !! KStr x = None) as Hn by (apply eq_None_not_Some; tauto).
    exists 0, ENOMEM, t, m. split; [|split; [done|split; [done|split; [by left|tauto]]]].
    apply (hashtable_insert_enomem t m (KStr x) R Hok); [done|]. left.
    destruct alloc; [tauto|done].
Qed.

Section XRepl.
Context `{Rmr} `{Host}.

(** What the role tables' updates leave alone: the callbacks and their calls. *)
Definition same_calls (a a' : app_st) : Prop :=
  ax_apply_cb a' = ax_apply_cb a /\ ax_install_cb a' = ax_install_cb a /\
  ax_applied a' = ax_applied a /\ ax_installed a' = ax_installed a /\
  ax_installing a' = ax_installing a /\ ax_installing_lock a' = ax_installing_lock a.

Lemma set_roletab_ok k key v s mc mr :
  roles (g_app s) mc mr ->
  exists r a mr', set_role k on_roletab key v s = Ok r (set_app a s) /\ roles a mc mr' /\
    inserted key v r mr mr' /\ (sys_alloc k = true -> is_Some key -> r = 1) /\
    same_calls (g_app s) a.
Proof.
  intros [R1 K1 R2 K2]. destruct (insert_any (sys_alloc k) key v _ mr R2 K2)
    as (r & e & t' & m' & E & R' & K' & Hi & Hr).
  exists r, (set_roletab t' (g_app s)), m'. split; [|by repeat split].
  unfold set_role, on_roletab. rewrite (bind_Ok _ _ s (r, e) (set_app (set_roletab t' (g_app s)) s)).
  - done.
  - unfold zoom. cbn. by rewrite E.
Qed.

Lemma set_ctxtab_ok k key v s mc mr :
  roles (g_app s) mc mr ->
  exists r a mc', set_role k on_ctxtab key v s = Ok r (set_app a s) /\ roles a mc' mr /\
    inserted key v r mc mc' /\ (sys_alloc k = true -> is_Some key -> r = 1) /\
    same_calls (g_app s) a.
Proof.
  intros [R1 K1 R2 K2]. destruct (insert_any (sys_alloc k) key v _ mc R1 K1)
    as (r & e & t' & m' & E & R' & K' & Hi & Hr).
  exists r, (set_ctxtab t' (g_app s)), m'. split; [|by repeat split].
  unfold set_role, on_ctxtab. rewrite (bind_Ok _ _ s (r, e) (set_app (set_ctxtab t' (g_app s)) s)).
  - done.
  - unfold zoom. cbn. by rewrite E.
Qed.

(** *** The state around the xApp side *)

Lemma inv_app a s L C : inv s L C -> inv (set_app a s) L C.
Proof. intros [Co [] Ha]. split; [by apply (core_same s)|by split|done]. Qed.

Lemma locks_app a s : ax_installing_lock a = ax_installing_lock (g_app s) ->
  locks (set_app a s) = locks s.
Proof. intros E. unfold locks. cbn. by rewrite E. Qed.

(** An update of a member, found by its name. *)
Lemma inv_member s L C i p f x :
  inv s L C -> k_cfg (locks s) = false -> C !! i = Some x ->
  c_servers (cf (g_config s)) !! i = Some p -> keeps_member f ->
  exists c, zoom config_l (upd p f) s = Ok tt (set_config c s) /\
    inv (set_config c s) L (<[i := f x]> C) /\ cf c = cf (g_config s) /\
    cf_heap c !! p = Some (f x) /\ locks (set_config c s) = locks s.
Proof.
  intros I Hk Hi Hp Hf. pose proof (co_cfg _ _ _ (inv_core _ _ _ I)) as R.
  pose proof (objs_lookup _ _ (rep_objs _ _ R) i x Hi) as (p' & Hp' & Hx).
  rewrite Hp in Hp'. injection Hp' as <-. destruct (Hf x) as [Hid Hst].
  exists (set_heap (<[p := f x]> (cf_heap (g_config s))) (g_config s)).
  split; [|split; [|split; [done|split; [by apply lookup_insert_eq|done]]]].
  - unfold zoom. cbn [lget config_l]. by rewrite (upd_objs _ C i p x f Hi Hp Hx).
  - apply (frame_inv s); [by apply frame_config| |apply I|apply I].
    eapply core_config; [apply I|]. split.
    + by apply (cfg_rep_store _ _ _ _ x).
    + by apply get_cfg_lock.
    + apply (co_threads _ _ _ (inv_core _ _ _ I)).
Qed.

(** *** Applying replicated commands *)

(** The call of the apply callback for an entry. *)
Definition applied_of (e : log_entry_t) : applied_t :=
  Applied (e_command e) (e_context e) (e_key e) (e_data e) (e_dlen e).

(** [replica_index++], [n] times. *)
Definition advance (n : nat) (v : index_t) : index_t := Nat.iter n (fun v => u64 (v + 1)) v.

Lemma advance_eq n v : is_u64 v -> advance n v = u64 (v + Z.of_nat n).
Proof.
  intros Hv. unfold advance. induction n as [|n IH].
  - cbn. rewrite Z.add_0_r. by rewrite u64_small.
  - cbn [Nat.iter nat_rect]. unfold Nat.iter in IH. rewrite IH, u64_add_l. f_equal. lia.
Qed.

Definition advanced (n : nat) (x : server_t) : server_t :=
  upd_replica_index (advance n (s_replica_index x)) x.

Lemma upd_replica_id x : upd_replica_index (s_replica_index x) x = x.
Proof. by destruct x. Qed.

Record applying (s0 s : St) (L : list log_entry_t) (C : list server_t) : Prop := {
  ap_inv : inv s L C;
  ap_locks : locks s = locks s0;
  ap_roles : app_ok (g_app s);
  ap_cb : ax_apply_cb (g_app s) = ax_apply_cb (g_app s0);
  ap_cf : cf (g_config s) = cf (g_config s0);
  ap_me : g_me s = g_me s0;
  ap_logs : g_raft_log s = g_raft_log s0 /\ g_xapp_log s = g_xapp_log s0;
  ap_snap : g_snap s = g_snap s0;
  ap_repl : g_repl s = g_repl s0 }.

Lemma replicate_entry_ok k s0 s L C i p x e :
  applying s0 s L C -> k_cfg (locks s0) = false -> ax_apply_cb (g_app s0) = true ->
  C !! i = Some x -> c_servers (cf (g_config s0)) !! i = Some p ->
  wp never (replicate_entry k p e) s (fun _ s' =>
    applying s0 s' L (<[i := upd_replica_index (u64 (s_replica_index x + 1)) x]> C) /\
    ax_applied (g_app s') = ax_applied (g_app s) ++ [applied_of e]).
Proof.
  intros [I Hk (mc & mr & R) Hcb Hcf Hme Hlg Hsn Hrp] Hkc Hcb0 Hi Hp. unfold replicate_entry.
  destruct (set_roletab_ok k (e_context e) RFT_BACKUP s mc mr R)
    as (r1 & a1 & mr1 & E1 & R1 & _ & _ & (S1 & S2 & S3 & S4 & S5 & S6)).
  apply wp_bind. eapply wp_eq; [exact E1|].
  destruct (set_ctxtab_ok k (e_context e) RFT_BACKUP (set_app a1 s) mc mr1 R1)
    as (r2 & a2 & mc2 & E2 & R2 & _ & _ & (T1 & T2 & T3 & T4 & T5 & T6)).
  apply wp_bind. eapply wp_eq; [exact E2|]. cbn in T1, T2, T3, T4, T5, T6.
  set (s2 := set_app a2 (set_app a1 s)).
  assert (ax_apply_cb (g_app s2) = true) as Hcb2 by (cbn; congruence).
  apply wp_bind. unfold apply_command_cb. apply wp_bind, wp_gets. rewrite Hcb2.
  apply wp_zoom, wp_modify. cbn [lget lput app_l].
  set (s3 := set_app (add_applied _ (g_app s2)) s2).
  assert (inv s3 L C) as I3 by (by do 3 apply inv_app).
  assert (locks s3 = locks s) as Hk3 by (unfold locks; cbn; by rewrite T6, S6).
  destruct (inv_member s3 L C i p (fun x => upd_replica_index (u64 (s_replica_index x + 1)) x) x)
    as (c & E4 & I4 & Hc4 & _ & Hk4); try done.
  { by rewrite Hk3, Hk. }
  { change (cf (g_config s3)) with (cf (g_config s)). by rewrite Hcf. }
  eapply wp_eq; [exact E4|]. split.
  - split; try done; [congruence| |cbn; congruence|].
    + exists mc2, mr1. by destruct R2.
    + change (cf (g_config (set_config c s3))) with (cf c). rewrite Hc4. exact Hcf.
  - cbn. by rewrite T3, S3.
Qed.

(** The answer to a replication request. *)
Record repl_spec (req : replication_request_t) (s s' : St) (C C' : list server_t)
    (r : replication_reply_t) : Prop := {
  rs_self : pr_server_id r = m_self_id (g_me s);
  rs_unknown : rr_server_id req ∉ ids C ->
    pr_success r = 0 /\ pr_replica_index r = 0 /\ s' = s /\ C' = C;
  rs_known : forall i x, list_find (has_id (rr_server_id req)) C = Some (i, x) ->
    if bool_decide (rr_master_index req = s_replica_index x /\ ax_apply_cb (g_app s) = true) then
      pr_success r = 1 /\
      ax_applied (g_app s') = ax_applied (g_app s) ++ (applied_of <$> rr_entries req) /\
      C' = <[i := advanced (length (rr_entries req)) x]> C /\
      pr_replica_index r = advance (length (rr_entries req)) (s_replica_index x)
    else pr_success r = 0 /\ pr_replica_index r = s_replica_index x /\ s' = s /\ C' = C }.

Lemma applying_refl s L C : inv s L C -> app_ok (g_app s) -> applying s s L C.
Proof. by split. Qed.

(** The reads of the configuration by a handler. *)
Lemma find_server_run id s L C : inv s L C -> k_cfg (locks s) = false ->
  (exists p i x, zoom config_l (raft_config_get_server id) s = Ok (Some p) s /\
     list_find (has_id id) C = Some (i, x) /\ C !! i = Some x /\
     c_servers (cf (g_config s)) !! i = Some p /\
     zoom config_l (deref p) s = Ok x s) \/
  zoom config_l (raft_config_get_server id) s = Ok None s /\ id ∉ ids C.
Proof.
  intros I Hk. pose proof (cfg_of_core s L C (inv_core _ _ _ I) Hk) as R.
  assert (lput config_l (g_config s) s = s) as Es by (by destruct s).
  destruct (get_server_ok _ C R id) as [(p & i & x & E & Hf & Hi & Hp & Hx & _)|[E Hid]].
  - left. exists p, i, x. split; [|split; [done|split; [done|split; [done|]]]].
    + unfold zoom. cbn [lget config_l]. by rewrite E, Es.
    + unfold zoom. cbn [lget config_l]. by rewrite (deref_objs _ p x Hx), Es.
  - right. split; [|done]. unfold zoom. cbn [lget config_l]. by rewrite E, Es.
Qed.

Lemma handle_replication_ok k req s L C :
  inv s L C -> locks s = no_locks -> app_ok (g_app s) ->
  rr_n_entries req = Z.of_nat (length (rr_entries req)) ->
  wp never (handle_replication_request k req) s (fun r s' => exists C',
    applying s s' L C' /\ repl_spec req s s' C C' r).
Proof.
  intros I Hk Hap Hn. unfold handle_replication_request. apply wp_bind, wp_gets, wp_bind.
  assert (k_cfg (locks s) = false) as Hkc by (by rewrite Hk).
  destruct (find_server_run (rr_server_id req) s L C I Hkc)
    as [(p & i & x & E & Hf & Hi & Hp & Ed)|[E Hid]]; (eapply wp_eq; [exact E|]).
  2: { apply wp_ret. exists C. split; [by apply applying_refl|]. split; [done|done|].
       intros i x Hf. exfalso. apply Hid. apply list_find_Some in Hf as (Hi & <- & _).
       apply list_elem_of_fmap. exists x. split; [done|]. by eapply list_elem_of_lookup_2. }
  assert (rr_server_id req ∉ ids C -> False) as Hin.
  { intros Hid. apply ids_find_None in Hid. congruence. }
  apply wp_bind. eapply wp_eq; [exact Ed|].
  set (yes := bool_decide (rr_master_index req = s_replica_index x /\ ax_apply_cb (g_app s) = true)).
  assert (forall success, yes = false -> success = 0 ->
    wp never (x ← zoom config_l (deref p); mret (RepRepl success (s_replica_index x) (m_self_id (g_me s)))) s
    (fun r s' => exists C', applying s s' L C' /\ repl_spec req s s' C C' r)) as Hno.
  { intros success Hy ->. apply wp_bind. eapply wp_eq; [exact Ed|]. apply wp_ret. exists C.
    split; [by apply applying_refl|]. split; [done|done|]. intros i' x' Hf'. rewrite Hf in Hf'.
    injection Hf' as <- <-. fold yes. by rewrite Hy. }
  apply wp_bind. destruct (Z.eqb_spec (rr_master_index req) (s_replica_index x)) as [Hm|Hm].
  2: { apply wp_ret, Hno; [|done]. apply bool_decide_false. tauto. }
  apply wp_bind, wp_gets. destruct (ax_apply_cb (g_app s)) eqn:Hcb.
  2: { apply wp_ret, Hno; [|done]. apply bool_decide_false. by intros []. }
  assert (yes = true) as Hy by (by apply bool_decide_true).
  replace (Z.to_nat (rr_n_entries req)) with (length (rr_entries req)) by lia.
  apply wp_bind, (wp_for never (fun n s' =>
    applying s s' L (<[i := advanced n x]> C) /\
    ax_applied (g_app s') = ax_applied (g_app s) ++ (applied_of <$> take n (rr_entries req)))).
  - unfold advanced. cbn [advance Nat.iter nat_rect]. unfold advance. cbn [Nat.iter nat_rect].
    rewrite upd_replica_id, list_insert_id by done.
    split; [by apply applying_refl|]. cbn. by rewrite app_nil_r.
  - intros j e s1 Hj [A1 Ha1]. cbn [Nat.add] in *. apply wp_bind, wp_from_opt. rewrite Hj.
    eapply wp_mono; [apply (replicate_entry_ok k s s1 L _ i p (advanced j x) e A1)|]; try done.
    { apply list_lookup_insert_eq. by eapply lookup_lt_Some. }
    intros [] s2 [A2 Ha2]. split.
    + rewrite list_insert_insert_eq in A2. exact A2.
    + rewrite Ha2, Ha1, (take_S_r _ _ _ Hj), fmap_app, <- app_assoc. done.
  - intros s1 [A1 Ha1]. cbn [Nat.add] in *. rewrite take_ge in Ha1 by lia. apply wp_ret.
    set (y := advanced (length (rr_entries req)) x) in *.
    assert (zoom config_l (deref p) s1 = Ok y s1) as Ed1.
    { pose proof (rep_objs _ _ (co_cfg _ _ _ (inv_core _ _ _ (ap_inv _ _ _ _ A1)))) as O.
      destruct (objs_lookup _ _ O i y) as (p' & Hp' & Hx');
        [apply list_lookup_insert_eq; by eapply lookup_lt_Some|].
      rewrite (ap_cf _ _ _ _ A1), Hp in Hp'. injection Hp' as <-.
      unfold zoom. cbn [lget config_l]. rewrite (deref_objs _ p y Hx'). by destruct s1. }
    apply wp_bind. eapply wp_eq; [exact Ed1|]. apply wp_ret. eexists. split; [exact A1|].
    split; [done|done|]. intros i' x' Hf'. rewrite Hf in Hf'. injection Hf' as <- <-.
    rewrite Hcb. fold yes. by rewrite Hy.
Qed.

(** *** The other handlers of the replication *)

(** The index the primary keeps of a backup, set by its answers. *)
Lemma set_master_ok id v s L C :
  inv s L C -> locks s = no_locks -> app_ok (g_app s) ->
  wp never (server ← zoom config_l (raft_config_get_server id);
    match server with Some p => zoom config_l (upd p (upd_master_index v)) | None => mret tt end) s
    (fun _ s' => exists C', applying s s' L C' /\ g_app s' = g_app s /\
      C' = match list_find (has_id id) C with
           | Some (i, x) => <[i := upd_master_index v x]> C | None => C end).
Proof.
  intros I Hk Hap. assert (k_cfg (locks s) = false) as Hkc by (by rewrite Hk).
  apply wp_bind. destruct (find_server_run id s L C I Hkc)
    as [(p & i & x & E & Hf & Hi & Hp & Ed)|[E Hid]]; (eapply wp_eq; [exact E|]).
  - destruct (inv_member s L C i p (upd_master_index v) x I Hkc Hi Hp) as (c & E1 & I1 & Hc1 & _ & Hk1);
      [done|]. eapply wp_eq; [exact E1|]. exists (<[i := upd_master_index v x]> C).
    split; [by split|]. split; [done|]. by rewrite Hf.
  - apply wp_ret. exists C. split; [by apply applying_refl|]. split; [done|].
    apply ids_find_None in Hid. by rewrite Hid.
Qed.

(** The answer to a snapshot of the xApp. *)
Record xsnap_spec (req : xapp_snapshot_request_t) (s s' : St) (C C' : list server_t)
    (r : xapp_snapshot_reply_t) : Prop := {
  xs_self : xp_server_id r = m_self_id (g_me s);
  xs_unknown : xq_server_id req ∉ ids C -> xp_success r = 0 /\ C' = C /\
    ax_installed (g_app s') = ax_installed (g_app s);
  xs_known : forall i x, list_find (has_id (xq_server_id req)) C = Some (i, x) ->
    if ax_install_cb (g_app s) && negb (ax_installing (g_app s)) then
      xp_success r = 1 /\
      ax_installed (g_app s') = ax_installed (g_app s) ++
        [(Types.xs_items (xq_snapshot req), xs_data (xq_snapshot req))] /\
      C' = <[i := upd_replica_index (xs_last_index (xq_snapshot req)) x]> C /\
      xp_last_index r = xs_last_index (xq_snapshot req) /\
      ax_installing (g_app s') = false
    else xp_success r = 0 /\ xp_last_index r = s_replica_index x /\ C' = C /\
      ax_installed (g_app s') = ax_installed (g_app s) }.

(** The flag "installing" is tested and set under its lock. *)
Lemma installing_run s : locks s = no_locks -> forall (k : M St Z),
  (zoom app_l (lock installing_xapp_snapshot_lock installing_lock_l);;
   busy ← gets (fun s => ax_installing (g_app s));
   (if busy : bool then zoom app_l (unlock installing_lock_l);; mret 0
    else zoom app_l (modify (set_installing true));; zoom app_l (unlock installing_lock_l);; k)) s =
  (if ax_installing (g_app s) then Ok 0 s
   else k (set_app (set_installing true (g_app s)) s)).
Proof.
  intros Hk k. pose proof (f_equal k_inst Hk) as Hi. cbn in Hi.
  destruct s as [? ? ? ? ? ? ? ? [? ? ? ? ? ? b l]]. cbn in Hi. subst l. by destruct b.
Qed.

Lemma handle_xapp_snapshot_ok req s L C :
  inv s L C -> locks s = no_locks -> app_ok (g_app s) ->
  wp never (handle_xapp_snapshot_request req) s (fun r s' => exists C',
    applying s s' L C' /\ xsnap_spec req s s' C C' r).
Proof.
  intros I Hk Hap. unfold handle_xapp_snapshot_request. apply wp_bind, wp_gets, wp_bind.
  assert (k_cfg (locks s) = false) as Hkc by (by rewrite Hk).
  destruct (find_server_run (xq_server_id req) s L C I Hkc)
    as [(p & i & x & E & Hf & Hi & Hp & Ed)|[E Hid]]; (eapply wp_eq; [exact E|]).
  2: { apply wp_ret. exists C. split; [by apply applying_refl|]. split; [done|done|].
       intros i x Hf. apply ids_find_None in Hid. congruence. }
  assert (xq_server_id req ∉ ids C -> False) as Hin.
  { intros Hid. apply ids_find_None in Hid. congruence. }
  assert (ax_install_cb (g_app s) && negb (ax_installing (g_app s)) = false ->
    wp never (x ← zoom config_l (deref p); mret (RepXsnap 0 (s_replica_index x) (m_self_id (g_me s)))) s
    (fun r s' => exists C', applying s s' L C' /\ xsnap_spec req s s' C C' r)) as Hno.
  { intros Hy. apply wp_bind. eapply wp_eq; [exact Ed|]. apply wp_ret. exists C.
    split; [by apply applying_refl|]. split; [done|done|]. intros i' x' Hf'. rewrite Hf in Hf'.
    injection Hf' as <- <-. by rewrite Hy. }
  apply wp_bind, wp_gets, wp_bind. destruct (ax_install_cb (g_app s)) eqn:Hcb; [|by apply wp_ret, Hno].
  unfold wp at 1. rewrite installing_run by done.
  destruct (ax_installing (g_app s)) eqn:Hbusy; [by apply Hno|].
  set (s1 := set_app (set_installing true (g_app s)) s).
  set (k := _ ;; _). change (wp never k s1 (fun a s' => wp never
    (x ← zoom config_l (deref p); mret (RepXsnap a (s_replica_index x) (m_self_id (g_me s)))) s'
    (fun r s' => exists C', applying s s' L C' /\ xsnap_spec req s s' C C' r))).
  subst k. apply wp_bind, wp_zoom, wp_modify. cbn [lget lput app_l].
  set (s2 := set_app (add_installed _ (g_app s1)) s1).
  assert (inv s2 L C) as I2 by (by do 2 apply inv_app).
  assert (locks s2 = no_locks) as Hk2 by exact Hk.
  destruct (inv_member s2 L C i p (upd_replica_index (xs_last_index (xq_snapshot req))) x I2)
    as (c & E3 & I3 & Hc3 & Hx3 & Hk3); try done.
  apply wp_bind. eapply wp_eq; [exact E3|]. set (s3 := set_config c s2) in *.
  rewrite Hk2 in Hk3. pose proof (f_equal k_inst Hk3) as Hl3. cbn in Hl3.
  apply wp_bind, wp_zoom, wp_lock; [exact Hl3|].
  apply wp_bind, wp_zoom, wp_modify, wp_bind, wp_zoom, wp_unlock, wp_ret.
  cbn [lget lput app_l installing_lock_l].
  set (a := set_installing_lock false _).
  set (y := upd_replica_index (xs_last_index (xq_snapshot req)) x) in *.
  set (s4 := set_app a s3).
  assert (zoom config_l (deref p) s4 = Ok y s4) as Ed4.
  { unfold zoom, deref. mrun. cbn [lget config_l]. change (cf_heap (g_config s4)) with (cf_heap c).
    rewrite Hx3. cbn. done. }
  apply wp_bind. eapply wp_eq; [exact Ed4|]. apply wp_ret. exists (<[i := y]> C).
  split.
  - split; try done.
    + by apply inv_app.
    + unfold locks. cbn. unfold locks, no_locks in Hk3. cbn in Hk3.
      injection Hk3 as K1 K2 K3 K4 K5 K6 K7 K8 K9 K10 K11.
      unfold locks, no_locks in Hk. cbn in Hk. congruence.
    + destruct Hap as (mc & mr & []). by exists mc, mr.
  - split; [done|done|]. intros i' x' Hf'. rewrite Hf in Hf'. injection Hf' as <- <-.
    rewrite Hcb, Hbusy. done.
Qed.

End XRepl.
