(* ===== verification/Worker.v ===== *)
(** * The worker keeps the invariant (proofs about src/rft.c)

    Every message the worker thread handles, from a well-formed peer, leaves a
    server in a state that satisfies the invariant, with every mutex released:
    no access outside an object, no use after free, no deadlock other than the
    one of the last log term, no assertion that fails. *)

From S2P Require Import Prelude Monad Types LogRing Mtl Config Quorum HashTable.
From S2P Require Import HashMap State Utils Log Serialize Snapshot RaftLog Raft XApp.
From S2P Require Import Server Invariant Commit Election Replication Install XRepl.
Open Scope Z_scope.

Section Worker.
Context `{Rmr} `{Host} (k : sys) (mem : allocs).

(** A server between two messages. *)
Record server_ok (s : St) (L : list log_entry_t) (C : list server_t) : Prop := {
  ok_inv : inv s L C;
  ok_locks : locks s = no_locks;
  ok_app : app_ok (g_app s) }.

(** *** A server asks to join *)

(** The members after a membership request at the leader. *)
Definition joined (req : membership_request_t) (src : target_t) (C : list server_t)
  : list server_t :=
  match list_find (has_id (mr_server_id req)) C with
  | Some (i, x) => <[i := restart_indexes (mr_last_log_index req) x]> C
  | None => C ++ [new_server (mr_server_id req) src (mr_last_log_index req)]
  end.

Lemma handle_membership_ok req src s L C :
  inv s L C -> locks s = no_locks -> (String.length (mr_server_id req) < sizeof_server_id)%nat ->
  Z.of_nat (length C) + 1 < 2 ^ 32 ->
  wp never (handle_membership_request req src) s (fun _ s' => exists C',
    inv s' L C' /\ locks s' = no_locks /\ g_app s' = g_app s /\ g_me s' = g_me s /\
    g_raft_log s' = g_raft_log s /\
    C' = if bool_decide (m_state (g_me s) = LEADER) &&
            negb (bool_decide (mr_server_id req = m_self_id (g_me s)))
         then joined req src C else C).
Proof.
  intros I Hk Hlen Hmax. unfold handle_membership_request. apply wp_bind, wp_state_lock; [done|].
  set (s1 := set_state_lock true s). assert (inv s1 L C) as I1 by (by apply inv_state_lock).
  assert (locks s1 = state_locked) as Hk1 by (by apply locks_lock).
  assert (forall c C', cfg_ok c C' ->
    C' = (if bool_decide (m_state (g_me s) = LEADER) &&
            negb (bool_decide (mr_server_id req = m_self_id (g_me s)))
         then joined req src C else C) ->
    wp never (unlock state_lock_l) (set_config c s1) (fun _ s' => exists C',
      inv s' L C' /\ locks s' = no_locks /\ g_app s' = g_app s /\ g_me s' = g_me s /\
      g_raft_log s' = g_raft_log s /\
      C' = if bool_decide (m_state (g_me s) = LEADER) &&
            negb (bool_decide (mr_server_id req = m_self_id (g_me s)))
         then joined req src C else C)) as Hend.
  { intros c C' Rc EC. pose proof (f_equal k_cfg Hk1) as Hc1. cbn in Hc1.
    assert (locks (set_config c s1) = state_locked) as Hk2.
    { rewrite <- Hk1. unfold locks. cbn. by rewrite (ok_free _ _ Rc), Hc1. }
    apply wp_unlock. exists C'. split; [apply inv_state_lock|].
    - apply (frame_inv s1); [by apply frame_config; rewrite (ok_free _ _ Rc)| |apply I1|apply I1].
      by eapply core_config; [apply I1|].
    - split; [by auto with server|]. done. }
  pose proof (cfg_of_core s1 L C (inv_core _ _ _ I1) ltac:(by rewrite Hk1)) as Rc.
  apply wp_bind, wp_gets, wp_bind. change (g_me s1) with (g_me s).
  destruct (bool_decide (m_state (g_me s) = LEADER) && _) eqn:Hcond.
  2: { apply wp_ret. assert (s1 = set_config (g_config s1) s1) as -> by (by destruct s1).
       by apply (Hend _ C). }
  apply wp_bind, wp_zoom. cbn [lget config_l].
  destruct (list_find (has_id (mr_server_id req)) C) as [[i x]|] eqn:Hf.
  - destruct (add_server_again_ok (m_self_id (g_me s)) _ C Rc _ src (mr_last_log_index req) i x Hf)
      as (c & E & Rc'). eapply wp_eq; [exact E|]. apply wp_ret. eapply (Hend c); [done|].
    unfold joined. by rewrite Hf.
  - destruct (add_server_ok (m_self_id (g_me s)) _ C Rc (mr_server_id req) src (mr_last_log_index req))
      as (c & E & Rc' & _); [by apply ids_find_None|done|done|].
    eapply wp_eq; [exact E|]. apply wp_ret. eapply (Hend c); [done|].
    unfold joined. by rewrite Hf.
Qed.

(** *** Messages from well-formed peers *)

(** The requests the worker builds from a message. *)
Definition append_req (h : appnd_entr_hdr_t) (es : list log_entry_t) : request_append_entries_t :=
  ReqAppend (ah_term h) (ah_leader_id h) (ah_prev_log_index h) (ah_prev_log_term h)
    (ah_leader_commit h) (ah_n_entries h) es.

Definition snapshot_req (h : raft_snapshot_hdr_t) (payload : bytes) : raft_snapshot_request_t :=
  ReqRsnap (NTOHLL (sh_term h)) (sh_leader_id h)
    (RaftSnapshot (NTOHLL (sh_last_term h)) (NTOHLL (sh_last_index h)) (NTOHLL (sh_dlen h))
       (ntohl (sh_items h)) (Some (take (Z.to_nat (NTOHLL (sh_dlen h))) payload))).

(** What a message must hold: integers of the width of their fields, names
    that fit their arrays, a payload that the receiver can decode, and room for
    what it adds. *)
Definition msg_ok (s : St) (L : list log_entry_t) (C : list server_t) (msg : rft_msg) : Prop :=
  match msg with
  | APPEND_ENTRIES_REQ h payload => exists es,
      (if truthy (ah_n_entries h)
       then deserialize_raft_log_entries payload (ah_n_entries h) = Some es else es = []) /\
      ah_n_entries h = Z.of_nat (length es) /\ Forall entry_ok es /\
      is_u64 (ah_term h) /\ is_u64 (ah_prev_log_index h) /\ is_u64 (ah_leader_commit h) /\
      roomy s L C (Z.of_nat (length es))
  | APPEND_ENTRIES_REPLY r =>
      is_u64 (pa_term r) /\ is_u64 (pa_last_log_index r) /\ roomy s L C 1
  | VOTE_REQ r => is_u64 (rv_term r) /\ rv_candidate_id r <> ""
  | VOTE_REPLY r => is_u64 (pv_term r) /\ roomy s L C 1
  | MEMBERSHIP_REQ r _ =>
      (String.length (mr_server_id r) < sizeof_server_id)%nat /\ roomy s L C 1
  | REPLICATION_REQ h payload => exists es,
      deserialize_server_log_entries payload (rh_n_entries h) = Some es /\
      rh_n_entries h = Z.of_nat (length es)
  | XAPP_SNAPSHOT_REQ h payload =>
      NTOHLL (xh_dlen h) <= Z.of_nat (length payload)
  | RAFT_SNAPSHOT_REQ h payload => exists X,
      is_u64 (NTOHLL (sh_term h)) /\ snapshot_ok (rq_snapshot (snapshot_req h payload)) X /\
      NTOHLL (sh_dlen h) <= Z.of_nat (length payload)
  | RAFT_SNAPSHOT_REPLY r =>
      is_u64 (Types.rp_term r) /\ is_u64 (rp_last_index r) /\ roomy s L C 1
  | REPLICATION_REPLY _ | XAPP_SNAPSHOT_REPLY _ | UNRECOGNIZED _ => True
  end.

Lemma applying_ok s s' L C C' : server_ok s L C -> applying s s' L C' -> server_ok s' L C'.
Proof. intros [_ Hk _] A. split; [apply A|by rewrite (ap_locks _ _ _ _ A)|apply A]. Qed.

Lemma sub_bytes_all (n : Z) (bs : bytes) :
  n <= Z.of_nat (length bs) -> sub_bytes 0 (Z.to_nat n) bs = Some (take (Z.to_nat n) bs).
Proof. intros Hn. unfold sub_bytes. by rewrite decide_True by lia. Qed.

(** A failed allocation ends the process. *)
Lemma wp_alloc b (s : St) (Q : unit -> St -> Prop) :
  Q tt s -> wp tolerated (when (negb b) exit1) s Q.
Proof. destruct b; [done|]. by left. Qed.

Lemma worker_append_run h payload es s Q :
  (if truthy (ah_n_entries h)
   then deserialize_raft_log_entries payload (ah_n_entries h) = Some es else es = []) ->
  wp tolerated (handle_append_entries_request k (append_req h es)) s Q ->
  wp tolerated (worker_append_entries k h payload) s Q.
Proof.
  intros E W. unfold worker_append_entries.
  cbn [ra_n_entries appnd_entr_header_to_msg_cpy]. apply wp_bind.
  destruct (truthy (ah_n_entries h)).
  - apply wp_bind, wp_alloc, wp_from_opt. by rewrite E.
  - apply wp_ret. by subst es.
Qed.

(** *** One turn of the worker *)

Lemma worker_step_ok msg s L C :
  server_ok s L C -> msg_ok s L C msg ->
  wp tolerated (worker_step k mem msg) s (fun _ s' => exists L' C', server_ok s' L' C').
Proof.
  intros [I Hk Hap] Hm.
  assert (forall s' L' C', inv s' L' C' -> locks s' = no_locks -> g_app s' = g_app s ->
    exists L'' C'', server_ok s' L'' C'') as Hsame.
  { intros s' L' C' I' Hk' Ea. exists L', C'. split; [done|done|by rewrite Ea]. }
  destruct msg; cbn [worker_step msg_ok] in *.
  - destruct Hm as (es & Hd & Hn & He & H1 & H2 & H3 & Hr). apply wp_bind.
    apply (worker_append_run _ _ es); [done|].
    eapply wp_mono; [by apply (handle_append_ok k _ s L C)|].
    intros r s' (L' & C' & I' & Hk' & Sp). apply wp_ret. eapply Hsame; [done|done|apply Sp].
  - destruct Hm as (H1 & H2 & [_ Hr]). apply wp_bind.
    eapply wp_mono; [apply (handle_append_reply_ok _ s L C); try done; lia|].
    intros [] s' (C' & I' & Hk' & Sp). apply wp_ret. eapply Hsame; [done|done|apply Sp].
  - destruct Hm as (H1 & H2). apply wp_bind, wp_gets. case_decide; [by apply wp_ret, (Hsame s L C)|].
    apply wp_bind. eapply wp_mono; [by apply (handle_vote_request_ok _ s L C)|].
    intros v s' (I' & Hk' & Sp). apply wp_ret. eapply Hsame; [done|done|apply Sp].
  - destruct Hm as (H1 & H2). apply wp_bind.
    eapply wp_mono; [by apply (handle_vote_reply_ok k mem _ s L C)|].
    intros [] s' (L' & C' & I' & Hk' & Sp). apply wp_ret. eapply Hsame; [done|done|apply Sp].
  - destruct Hm as (H1 & [_ Hr]). destruct src as [a|]; [|by apply wp_ret, (Hsame s L C)].
    apply wp_bind, never_wp. eapply wp_mono; [apply (handle_membership_ok _ a s L C); try done; lia|].
    intros [] s' (C' & I' & Hk' & Ea & _). apply wp_ret. by eapply Hsame.
  - destruct Hm as (es & Hd & Hn). apply wp_bind. unfold worker_replication.
    cbn [rr_n_entries repl_req_header_to_msg_cpy].
    apply wp_bind, wp_alloc, wp_bind, wp_from_opt. rewrite Hd.
    apply never_wp. eapply wp_mono; [by apply (handle_replication_ok k _ s L C)|].
    intros r s' (C' & A & _). apply wp_ret. exists L, C'. by eapply applying_ok.
  - apply wp_bind, never_wp. eapply wp_mono; [by apply (set_master_ok _ _ s L C)|].
    intros [] s' (C' & A & _). apply wp_ret. exists L, C'. by eapply applying_ok.
  - apply wp_bind. unfold worker_xapp_snapshot. apply wp_bind, wp_alloc, wp_bind, wp_from_opt.
    cbn [xs_dlen xq_snapshot xapp_snapshot_header_to_msg_cpy]. rewrite sub_bytes_all by done.
    apply never_wp. eapply wp_mono; [by apply (handle_xapp_snapshot_ok _ s L C)|].
    intros r s' (C' & A & _). apply wp_ret. exists L, C'. by eapply applying_ok.
  - apply wp_bind, never_wp. eapply wp_mono; [by apply (set_master_ok _ _ s L C)|].
    intros [] s' (C' & A & _). apply wp_ret. exists L, C'. by eapply applying_ok.
  - destruct Hm as (X & H1 & HX & Hl). apply wp_bind. unfold worker_raft_snapshot.
    apply wp_bind, wp_alloc, wp_bind, wp_from_opt. cbn [rs_dlen rq_snapshot raft_snapshot_header_to_msg_cpy].
    rewrite sub_bytes_all by done. apply (wp_fault_mono (oom (sys_alloc k))); [by intros f [_ ->]; left|].
    eapply wp_mono; [by apply (handle_snapshot_ok (sys_alloc k) (snapshot_req h payload) X s L C)|].
    intros r s' (L' & C' & I' & Hk' & Sp). apply wp_ret. eapply Hsame; [done|done|apply Sp].
  - destruct Hm as (H1 & H2 & [_ Hr]). apply wp_bind. unfold handle_raft_snapshot_reply.
    eapply wp_mono; [apply (handle_append_reply_ok _ s L C); try done; lia|].
    intros [] s' (C' & I' & Hk' & Sp). apply wp_ret. eapply Hsame; [done|done|apply Sp].
  - by apply wp_ret, (Hsame s L C).
Qed.

End Worker.
