(* ===== verification/Tasks.v ===== *)
(** * From the xApp to the worker (src/rft.c)

    [rft_enqueue_msg] puts a copy of a message into the task ring, and the
    worker's loop takes it out, handles it and frees the copy. *)

From S2P Require Import Prelude Monad Types RingBuf Fifo RingConc Mtl Config HashTable State.
From S2P Require Import Log Snapshot Server Invariant Worker.
Open Scope Z_scope.

(** The size and the flags of the ring of [rft_init]. *)
Definition TASKS_SIZE : Z := 32768.
Definition TASKS_FLAGS : Z := Z.lor RING_MP RING_EBLOCK.

(** The task ring, the number of message copies that are allocated, and the
    state of the server. *)
Record tasks := MkTasks { tk_ring : ringbuf rft_msg; tk_copies : Z; tk_st : St }.

Definition tk_ring_l : lens tasks (ringbuf rft_msg) :=
  Lens tk_ring (fun r t => MkTasks r (tk_copies t) (tk_st t)).
Definition tk_st_l : lens tasks St :=
  Lens tk_st (fun s t => MkTasks (tk_ring t) (tk_copies t) s).
Definition add_copies (n : Z) (t : tasks) : tasks :=
  MkTasks (tk_ring t) (tk_copies t + n) (tk_st t).

Section Tasks.
Context `{Rmr} `{Host} (k : sys) (mem : allocs).

(** [copy] is what [rmr_realloc_payload] returns: a copy, or NULL with the
    errno it sets. *)
Definition rft_enqueue_msg (copy : errno_t + unit) (msg : option rft_msg) : M tasks (Z * errno_t) :=
  match msg with
  | None => mret (0, EINVAL)
  | Some m =>
      match copy with
      | inl error => mret (0, error)
      | inr _ =>
          modify (add_copies 1);;
          inserted ← zoom tk_ring_l (ring_insert (Some m));
          if truthy inserted then mret (1, ENONE) else mret (0, ENOBUFS)
      end
  end.

(** The turn of the worker's loop: it sleeps, or it has handled a message and
    sent the reply. *)
Inductive worker_res := SLEEPS | HANDLED (reply : option rft_msg).

Definition worker_handle (msg : option rft_msg) : M tasks worker_res :=
  m ← from_opt Exit msg;
  reply ← zoom tk_st_l (worker_step k mem m);
  modify (add_copies (-1));;
  mret (HANDLED reply).

Definition worker : M tasks worker_res :=
  res ← zoom tk_ring_l ring_extract_timeout;
  match res with
  | Extracted msg => worker_handle msg
  | Waiting => mret SLEEPS
  end.

(** The turn that goes on when the wait is over; it has no time limit. *)
Definition worker_resume : M tasks worker_res :=
  msg ← zoom tk_ring_l (ring_extract_resume false);
  worker_handle msg.

(** ** Enqueuing *)

Lemma rft_enqueue_ok m t l : ringbuf_rep (tk_ring t) l ->
  let room := bool_decide (Z.of_nat (length l) < b_size (tk_ring t) - 1) in
  exists t', rft_enqueue_msg (inr tt) (Some m) t =
      Ok (if room then (1, ENONE) else (0, ENOBUFS)) t' /\
    ringbuf_rep (tk_ring t') (if room then l ++ [m] else l) /\
    b_size (tk_ring t') = b_size (tk_ring t) /\ b_cond (tk_ring t') = b_cond (tk_ring t) /\
    tk_copies t' = tk_copies t + 1 /\ tk_st t' = tk_st t.
Proof.
  intros R room. destruct (ring_insert_rep (tk_ring t) l m R) as (r' & E & Es & Ec & R').
  exists (MkTasks r' (tk_copies t + 1) (tk_st t)). split; [|by split; [exact R'|]].
  unfold rft_enqueue_msg. rewrite (bind_Ok _ _ t tt (add_copies 1 t)) by done.
  rewrite (bind_Ok _ _ _ _ _ (zoom_Ok tk_ring_l _ (add_copies 1 t) _ _ E)).
  fold room. by destruct room.
Qed.

(** ** Handling *)

Lemma worker_nonempty msg t L C rest :
  ringbuf_rep (tk_ring t) (msg :: rest) -> server_ok (tk_st t) L C -> msg_ok (tk_st t) L C msg ->
  wp tolerated worker t (fun res t' => exists reply L' C', res = HANDLED reply /\
    worker_step k mem msg (tk_st t) = Ok reply (tk_st t') /\
    ringbuf_rep (tk_ring t') rest /\ server_ok (tk_st t') L' C' /\
    tk_copies t' = tk_copies t - 1 /\ b_cond (tk_ring t') = b_cond (tk_ring t)).
Proof.
  intros R S Hm. destruct (ring_extract_rep (tk_ring t) _ R) as (r1 & E1 & _ & Ec & R1).
  rewrite bool_decide_eq_false_2 in E1, R1 by (by intros [_ ?]).
  unfold worker. eapply wp_bind, wp_eq; [exact (zoom_Ok tk_ring_l _ t _ _ E1)|].
  unfold worker_handle. cbn [head from_opt]. eapply wp_bind, wp_eq; [done|]. apply wp_bind, wp_zoom.
  change (lget tk_st_l (lput tk_ring_l r1 t)) with (tk_st t).
  pose proof (worker_step_ok k mem msg (tk_st t) L C S Hm) as W. unfold wp in *.
  destruct (worker_step k mem msg (tk_st t)) as [reply s'|f] eqn:Es; [|done].
  destruct W as (L' & C' & S'). mrun. exists reply, L', C'.
  split; [done|]. split; [done|]. split; [exact R1|]. split; [exact S'|]. split; [cbn; lia|exact Ec].
Qed.

(** On an empty blocking ring the worker sleeps, with the lock of the consumers
    taken. *)
Lemma worker_empty t : ringbuf_rep (tk_ring t) [] -> b_cond (tk_ring t) = Some true ->
  exists t', worker t = Ok SLEEPS t' /\ tk_copies t' = tk_copies t /\ tk_st t' = tk_st t /\
    b_cond_th (tk_ring t') = b_cond_th (tk_ring t) + 1.
Proof.
  intros R Hc. destruct (ring_extract_rep (tk_ring t) _ R) as (r1 & E1 & _ & Ec & R1).
  rewrite bool_decide_eq_true_2 in E1, R1 by done. exists (lput tk_ring_l r1 t).
  unfold worker. rewrite (bind_Ok _ _ _ _ _ (zoom_Ok tk_ring_l _ t _ _ E1)).
  split; [done|]. split; [done|]. split; [done|]. apply R1.
Qed.

(** A wake-up that finds the ring empty ends the process. *)
Lemma worker_resume_empty t w : ring_view (tk_ring t) 0 w -> b_cond_lock (tk_ring t) <> Some true ->
  worker_resume t = Fault Exit.
Proof.
  intros V Hk. destruct (resume_empty _ w V Hk) as [r' E]. unfold worker_resume.
  by rewrite (bind_Ok _ _ _ _ _ (zoom_Ok tk_ring_l _ t _ _ E)).
Qed.

End Tasks.
