(* ===== verification/Init.v ===== *)
(** * Starting and ending the library (src/rft.c)

    [rft_init] from the static values of the globals, and [rft_shutdown]. The
    environment variables, the name of the host and the results of the
    allocations are arguments; the threads that [rft_init] starts at its end
    are the definitions of Server.v and Tasks.v. *)

From S2P Require Import Prelude Monad Types LogRing RingBuf Fifo RingConc Mtl Config Quorum.
From S2P Require Import HashTable HashMap State Utils Log Snapshot Serialize RaftLog Raft XApp.
From S2P Require Import Server Invariant Commit Election Replication Install XRepl Worker Tasks.
Open Scope Z_scope.

Definition REPLICATION_INTERVAL : Z := 10.
Definition LOG_SIZE_THRESHOLD : Z := 10.
Definition RAFT_LOG_SIZE : Z := 128.
Definition SERVER_LOG_SIZE : Z := 131072.
Definition BOOTSTRAP_REDIS_HOST : string := "service-ricplt-dbaas-tcp.ricplt".
Definition BOOTSTRAP_REDIS_PORT : Z := 6379.
Definition BOOTSTRAP_REDIS_KEY : string := "rft.leader".
Definition sizeof_redis_host : nat := 128.
Definition sizeof_redis_key : nat := 256.

(** The globals that [rft_init] sets besides those of [St]: [tasks], [binfo],
    [rep_intvl], [max_msg_size] and [ok2run]. A NULL hash table of [St] has no
    buckets, a lookup in it would divide by zero. *)
Record library := Library {
  li_tasks : option (ringbuf rft_msg);
  li_binfo : option bootstrap_info_t;
  li_rep_intvl : Z;
  li_max_msg_size : Z;
  li_ok2run : bool;
  li_st : St }.

Definition null_table : hashtable_t := HashTable 0 [] STRING_KEY ∅.

(** The static values. *)
Definition init_st (now : timespec) (rands : list Z) : St :=
  MkSt (RaftState INIT_SERVER 0 0 "" "" "" 0 0) false init_log_st init_log_st init_config
    init_snap_st (ReplSt [] false GLOBAL 0) (ElecSt (Timespec 0 0) false 0 now rands)
    (AppSt null_table null_table false false [] [] false false).

Definition library0 (now : timespec) (rands : list Z) : library :=
  Library None None 0 0 true (init_st now rands).

Definition li_st_l : lens library St :=
  Lens li_st (fun s g => Library (li_tasks g) (li_binfo g) (li_rep_intvl g) (li_max_msg_size g)
                           (li_ok2run g) s).
Definition set_li_tasks (r : option (ringbuf rft_msg)) (g : library) : library :=
  Library r (li_binfo g) (li_rep_intvl g) (li_max_msg_size g) (li_ok2run g) (li_st g).
Definition set_li_binfo (b : option bootstrap_info_t) (g : library) : library :=
  Library (li_tasks g) b (li_rep_intvl g) (li_max_msg_size g) (li_ok2run g) (li_st g).
Definition set_li_rep_intvl (z : Z) (g : library) : library :=
  Library (li_tasks g) (li_binfo g) z (li_max_msg_size g) (li_ok2run g) (li_st g).
Definition set_li_max_msg_size (z : Z) (g : library) : library :=
  Library (li_tasks g) (li_binfo g) (li_rep_intvl g) z (li_ok2run g) (li_st g).
Definition set_li_ok2run (b : bool) (g : library) : library :=
  Library (li_tasks g) (li_binfo g) (li_rep_intvl g) (li_max_msg_size g) b (li_st g).

(** Which allocations succeed. *)
Record init_mem := InitMem {
  im_raft_log : bool * bool; im_server_log : bool * bool; im_binfo : bool;
  im_tasks : ring_mem; im_ctxtab : bool * bool; im_roletab : bool * bool }.
Definition init_mem_ok : init_mem :=
  InitMem (true, true) (true, true) true ring_mem_ok (true, true) (true, true).

Section Init.
Context `{Rmr} `{Host}.

(** [env] is [getenv], [hostname] the result of [gethostname]: an error or the
    name; [einval_empty] as in Utils.v. *)
Context (einval_empty : bool) (env : string -> option string) (hostname : option string).
Context (mem : init_mem).

(** The value of a variable or the default. *)
Definition env_value (name : string) (parse : string -> M library Z) (default : Z) : M library Z :=
  match env name with Some value => parse value | None => mret default end.

Definition set_replication (type : replication_type_e) (n : Z) : M library unit :=
  zoom li_st_l (modify (fun s =>
    set_repl (ReplSt (rp_servers (g_repl s)) (rp_lock (g_repl s)) type n) s)).

(** [RFT_REPLICA_SERVERS] *)
Definition init_replicas : M library unit :=
  match env "RFT_REPLICA_SERVERS" with
  | Some value =>
      if decide (value = "all")
      then num ← gets (fun g => rp_num_replicas (g_repl (li_st g))); set_replication GLOBAL num
      else n ← parse_uint einval_empty value; set_replication PARTIAL n
  | None => set_replication PARTIAL 1
  end.

(** [RFT_SELF_ID], or the name of the host. *)
Definition init_self_id : M library unit :=
  let rft_id := env "RFT_SELF_ID" in
  when (match rft_id with Some id => bool_decide (sizeof_server_id <= String.length id)%nat | None => false end) exit1;;
  rft_id ← (match rft_id with Some id => mret id | None => from_opt Exit hostname end);
  assert (0 <? Z.of_nat (String.length rft_id));;
  zoom li_st_l (modify (fun s =>
    let m := g_me s in
    set_me (RaftState (m_state m) (m_current_term m) (m_rcv_votes m)
      (str_cut (sizeof_server_id - 1) rft_id) (m_voted_for m) (m_current_leader m)
      (m_commit_index m) (m_last_applied m)) s)).

(** The logs of the raft server and of the xApp. *)
Definition init_logs (threshold : Z) : M library unit :=
  '(ok, _) ← zoom li_st_l (zoom raft_log_l
    (init_log (im_raft_log mem).1 (im_raft_log mem).2 RAFT_LOG RAFT_LOG_SIZE threshold));
  when (negb (truthy ok)) exit1;;
  '(ok, _) ← zoom li_st_l (zoom xapp_log_l
    (init_log (im_server_log mem).1 (im_server_log mem).2 SERVER_LOG SERVER_LOG_SIZE threshold));
  when (negb (truthy ok)) exit1.

(** The address of Redis and the key of the cluster. *)
Definition init_binfo (listen_port : string) : M library unit :=
  when (negb (im_binfo mem)) exit1;;
  let key := default BOOTSTRAP_REDIS_KEY (env "RFT_BOOTSTRAP_KEY") in
  when (bool_decide (sizeof_redis_key <= String.length key)%nat) exit1;;
  let host := str_cut (sizeof_redis_host - 1) (default BOOTSTRAP_REDIS_HOST (env "REDIS_HOST")) in
  port ← env_value "REDIS_PORT" (parse_int einval_empty) BOOTSTRAP_REDIS_PORT;
  rft_port ← parse_int einval_empty listen_port;
  modify (set_li_binfo (Some (BootstrapInfo rft_port port host key))).

(** The task ring and the role tables. *)
Definition init_tables : M library unit :=
  (match ring_create (im_tasks mem) TASKS_SIZE TASKS_FLAGS with
   | Ok (inr r) _ => modify (set_li_tasks (Some r))
   | Ok (inl _) _ => exit1
   | Fault f => fail f
   end);;
  ctxtab ← from_opt Exit (hashtable_new (im_ctxtab mem).1 (im_ctxtab mem).2 STRING_KEY 503);
  zoom li_st_l (modify (fun s => set_app (set_ctxtab ctxtab (g_app s)) s));;
  roletab ← from_opt Exit (hashtable_new (im_roletab mem).1 (im_roletab mem).2 STRING_KEY 503);
  zoom li_st_l (modify (fun s => set_app (set_roletab roletab (g_app s)) s)).

Definition rft_init (mrc : bool) (listen_port : option string) (rmr_max_msg_size : Z)
    (apply_state_cb install_snapshot_cb : bool) : M library unit :=
  when (ELECTION_TIMEOUT <? HEARTBEAT_TIMETOUT) exit1;;
  when (negb mrc) exit1;;
  listen_port ← from_opt Exit listen_port;
  max ← gets li_max_msg_size;
  let '(max, ok) := set_max_msg_size rmr_max_msg_size max in
  modify (set_li_max_msg_size max);;
  when (negb (truthy ok)) exit1;;
  zoom li_st_l (modify (fun s =>
    let a := g_app s in
    set_app (AppSt (ax_ctxtab a) (ax_roletab a) apply_state_cb install_snapshot_cb (ax_applied a)
      (ax_installed a) (ax_installing a) (ax_installing_lock a)) s));;
  rep_intvl ← env_value "RFT_REPLICATION_INTERVAL" (parse_int einval_empty) REPLICATION_INTERVAL;
  modify (set_li_rep_intvl rep_intvl);;
  init_replicas;;
  threshold ← env_value "RFT_LOG_SIZE_THRESHOLD" (parse_uint einval_empty) LOG_SIZE_THRESHOLD;
  init_self_id;;
  init_logs threshold;;
  init_binfo listen_port;;
  init_tables.

(** ** What it establishes *)

Lemma env_value_ok name parse d g (P : Z -> Prop) :
  P d -> (forall str, wp only_exit (parse str) g (fun v g' => P v /\ g' = g)) ->
  wp only_exit (env_value name parse d) g (fun v g' => P v /\ g' = g).
Proof. intros Hd Hp. unfold env_value. by destruct (env name). Qed.

Lemma parse_int_any str (g : library) :
  wp only_exit (parse_int einval_empty str) g (fun v g' => INT_MIN <= v <= INT_MAX /\ g' = g).
Proof. eapply wp_mono; [apply parse_int_sound|]. by intros v g' (? & ? & _). Qed.

Lemma init_replicas_ok g :
  is_u32 (rp_num_replicas (g_repl (li_st g))) ->
  wp only_exit init_replicas g (fun _ g' => exists type n, is_u32 n /\
    g' = lput li_st_l (set_repl (ReplSt (rp_servers (g_repl (li_st g))) (rp_lock (g_repl (li_st g))) type n)
           (li_st g)) g).
Proof.
  intros Hn. unfold init_replicas. destruct (env "RFT_REPLICA_SERVERS") as [value|].
  - case_decide.
    + apply wp_bind, wp_gets. by eexists _, _.
    + apply wp_bind. eapply wp_mono; [apply parse_uint_sound|]. intros n g' [Hu ->]. by exists PARTIAL, n.
  - by exists PARTIAL, 1.
Qed.

Definition with_self_id (id : string) (m : raft_state_t) : raft_state_t :=
  RaftState (m_state m) (m_current_term m) (m_rcv_votes m) id (m_voted_for m) (m_current_leader m)
    (m_commit_index m) (m_last_applied m).

Lemma init_self_id_ok g :
  env "RFT_SELF_ID" <> Some "" -> hostname <> Some "" ->
  wp only_exit init_self_id g (fun _ g' => exists id, id <> "" /\
    (env "RFT_SELF_ID" = Some id \/ env "RFT_SELF_ID" = None /\ hostname = Some id) /\
    g' = lput li_st_l (set_me (with_self_id (str_cut (sizeof_server_id - 1) id) (g_me (li_st g))) (li_st g)) g).
Proof.
  intros He Hh. unfold init_self_id. apply wp_bind.
  assert (forall id, id <> "" -> (0 <? Z.of_nat (String.length id)) = true) as Hpos
    by (intros [|c id] Hid; [done|]; apply Z.ltb_lt; cbn; lia).
  destruct (env "RFT_SELF_ID") as [id|] eqn:Ee.
  - case_bool_decide; [done|]. apply wp_ret, wp_bind, wp_ret, wp_bind.
    assert (id <> "") as Hid by congruence. apply wp_assert; [by apply Hpos|]. exists id. auto.
  - apply wp_ret, wp_bind, wp_from_opt. destruct hostname as [id|]; [|done].
    assert (id <> "") as Hid by congruence.
    apply wp_bind, wp_assert; [by apply Hpos|]. exists id. auto.
Qed.

Lemma init_binfo_ok port g : wp only_exit (init_binfo port) g (fun _ g' => exists b,
  g' = set_li_binfo (Some b) g /\ INT_MIN <= b_rft_port b <= INT_MAX /\
  INT_MIN <= b_redis_port b <= INT_MAX /\ (String.length (b_redis_key b) < sizeof_redis_key)%nat).
Proof.
  unfold init_binfo. apply wp_bind. destruct (im_binfo mem); [|done]. apply wp_ret, wp_bind.
  case_bool_decide as Hk; [done|]. apply wp_ret, wp_bind.
  eapply wp_mono; [apply (env_value_ok _ _ _ _ (fun v => INT_MIN <= v <= INT_MAX)); [done|]|].
  { intros str. apply parse_int_any. }
  intros p g' [Hp ->]. cbv beta. apply wp_bind. eapply wp_mono; [apply parse_int_any|].
  intros v g' [Hv ->]. apply wp_modify. eexists. split; [done|]. cbn. split; [lia|]. split; [lia|]. lia.
Qed.

Lemma init_logs_ok threshold g :
  im_raft_log mem = (true, true) -> im_server_log mem = (true, true) ->
  wp only_exit (init_logs threshold) g (fun _ g' => exists l1 l2,
    g' = lput li_st_l (set_xapp_log l2 (set_raft_log l1 (li_st g))) g /\
    log_rep l1 [] /\ l_index_offset (lg l1) = 0 /\ capacity l1 = RAFT_LOG_SIZE - 1 /\
    lg_lock l1 = lg_lock (g_raft_log (li_st g)) /\
    log_rep l2 [] /\ l_index_offset (lg l2) = 0 /\ capacity l2 = SERVER_LOG_SIZE - 1 /\
    lg_lock l2 = lg_lock (g_xapp_log (li_st g))).
Proof.
  intros Er Es. unfold init_logs. rewrite Er, Es. cbn [fst snd]. apply wp_bind, wp_zoom, wp_zoom.
  destruct (Z.eq_dec threshold 0) as [->|Hne]; [done|].
  destruct (init_log_rep RAFT_LOG RAFT_LOG_SIZE threshold (g_raft_log (li_st g)))
    as (l1 & E1 & R1 & O1 & C1 & _ & _ & K1); [by left|done|done|by exists 7|done|].
  eapply wp_eq; [exact E1|]. apply wp_bind, wp_ret, wp_bind, wp_zoom, wp_zoom.
  destruct (init_log_rep SERVER_LOG SERVER_LOG_SIZE threshold (g_xapp_log (li_st g)))
    as (l2 & E2 & R2 & O2 & C2 & _ & _ & K2); [by right|done|done|by exists 17|done|].
  eapply wp_eq; [exact E2|]. exists l1, l2. done.
Qed.

Lemma init_tables_ok g :
  im_tasks mem = ring_mem_ok -> im_ctxtab mem = (true, true) -> im_roletab mem = (true, true) ->
  wp only_exit init_tables g (fun _ g' => exists r t1 t2,
    g' = set_li_tasks (Some r) (lput li_st_l (set_app (set_roletab t2 (set_ctxtab t1 (g_app (li_st g)))) (li_st g)) g) /\
    ringbuf_rep r [] /\ b_size r = TASKS_SIZE /\ b_cond r = Some true /\ b_cond_th r = 0 /\
    ht_rep t1 ∅ /\ t_key_type t1 = STRING_KEY /\ ht_rep t2 ∅ /\ t_key_type t2 = STRING_KEY).
Proof.
  intros Et Ec Ero. unfold init_tables. rewrite Et, Ec, Ero. cbn [fst snd].
  assert (exists r, ring_create (D := rft_msg) ring_mem_ok TASKS_SIZE TASKS_FLAGS = Ok (inr r) tt) as [r Er]
    by (eexists; reflexivity).
  destruct (ring_create_rep _ TASKS_SIZE _ r ltac:(done) Er) as (Rr & Es & Eb & Eth & _). rewrite Er.
  destruct (hashtable_new_ok STRING_KEY 503) as (t & E & R & K & _); [done|]. rewrite E.
  apply wp_bind, wp_modify, wp_bind, wp_ret, wp_bind. exists r, t, t. done.
Qed.

(** Everything is empty and well formed, and no mutex is taken. *)
Lemma rft_init_established port rmr_max acb icb now rands :
  mem = init_mem_ok -> env "RFT_SELF_ID" <> Some "" -> hostname <> Some "" ->
  Forall (fun r => 0 <= r) rands -> timespec_wf now ->
  wp only_exit (rft_init true port rmr_max acb icb) (library0 now rands) (fun _ g => exists id r,
    li_tasks g = Some r /\ ringbuf_rep r [] /\ b_size r = TASKS_SIZE /\ b_cond r = Some true /\ b_cond_th r = 0 /\
    server_ok (li_st g) [] [] /\ m_state (g_me (li_st g)) = INIT_SERVER /\
    m_self_id (g_me (li_st g)) = str_cut (sizeof_server_id - 1) id /\ id <> "" /\
    (env "RFT_SELF_ID" = Some id \/ env "RFT_SELF_ID" = None /\ hostname = Some id) /\
    log_rep (g_xapp_log (li_st g)) [] /\ l_index_offset (lg (g_xapp_log (li_st g))) = 0 /\
    ax_applied (g_app (li_st g)) = [] /\ sn_xapp_pipe (g_snap (li_st g)) = None /\
    is_Some (li_binfo g) /\ 512 <= li_max_msg_size g /\
    m_commit_index (g_me (li_st g)) = 0 /\ l_last_log_index (lg (g_raft_log (li_st g))) = 0).
Proof.
  intros Em He Hh Hr Hn. unfold rft_init. apply wp_bind, wp_ret, wp_bind, wp_ret, wp_bind, wp_from_opt.
  destruct port as [port|]; [|done]. apply wp_bind, wp_gets.
  unfold set_max_msg_size. destruct (Z.ltb_spec rmr_max 512); [done|].
  apply wp_bind, wp_modify, wp_bind, wp_ret, wp_bind, wp_zoom, wp_modify, wp_bind.
  eapply wp_mono; [apply (env_value_ok _ _ _ _ (fun v => INT_MIN <= v <= INT_MAX)); [done|intros str; apply parse_int_any]|].
  intros intvl g1 [_ ->]. cbv beta. apply wp_bind, wp_modify, wp_bind.
  eapply wp_mono; [by apply init_replicas_ok|]. intros [] g2 (type & n & Hu & ->). cbv beta.
  apply wp_bind. eapply wp_mono; [apply (env_value_ok _ _ _ _ (fun v => is_u32 v)); [done|intros str; apply parse_uint_sound]|].
  intros threshold g3 [_ ->]. cbv beta. apply wp_bind.
  eapply wp_mono; [by apply init_self_id_ok|]. intros [] g4 (id & Hid & Hfrom & ->). cbv beta.
  apply wp_bind. eapply wp_mono; [apply init_logs_ok; by rewrite Em|].
  intros [] g5 (l1 & l2 & -> & R1 & O1 & _ & K1 & R2 & O2 & _ & K2). cbv beta.
  apply wp_bind. eapply wp_mono; [apply init_binfo_ok|]. intros [] g6 (b & -> & _). cbv beta.
  eapply wp_mono; [apply init_tables_ok; by rewrite Em|].
  intros [] g7 (r & t1 & t2 & -> & Rr & Es & Eb & Eth & T1 & Y1 & T2 & Y2).
  pose proof (lr_last l1 [] R1) as Hl. rewrite O1 in Hl. cbn in Hl.
  exists id, r. split; [done|]. split; [done|]. split; [done|]. split; [done|]. split; [done|].
  cbn in K1, K2 |- *. split; [|split; [done|]; split; [done|]; split; [done|];
    split; [exact Hfrom|]; split; [exact R2|]; split; [exact O2|];
    split; [done|]; split; [done|]; split; [by eexists|]; split; [lia|]; split; [done|exact Hl]].
  split; [split|by unfold locks; cbn; rewrite K1, K2|by exists ∅, ∅].
  - split; cbn; rewrite ?O1, ?Hl; try done. apply cfg_rep_init.
  - split; cbn; done.
  - done.
Qed.

End Init.
