(* ===== verification/Bootstrap.v ===== *)
(** * The first server of a cluster (proofs about src/rft.c)

    [bootstrap_rft_cluster] makes the server that has set the key in Redis the
    only member of a new configuration, by a committed entry of its own. *)

From S2P Require Import Prelude Monad Types LogRing Mtl Config Quorum HashTable HashMap State.
From S2P Require Import Utils Log Serialize Snapshot RaftLog Raft XApp Server Invariant Commit.
From S2P Require Import Election.
Open Scope Z_scope.

(** ** Names *)

Lemma no_nul_cut n s : no_nul s -> no_nul (str_cut n s).
Proof.
  unfold no_nul. revert n. induction s as [|c s IH]; intros [|n]; cbn; try constructor.
  - by apply Forall_cons_iff in H as [? _].
  - apply Forall_cons_iff in H as [_ H]. by apply IH.
Qed.

Lemma no_nul_app s t : no_nul s -> no_nul t -> no_nul (s ++ t)%string.
Proof. unfold no_nul. induction s as [|c s IH]; [done|]. intros [? ?]%Forall_cons_iff Ht. constructor; auto. Qed.

Lemma digit_not_nul n : byte_of (48 + n mod 10) <> NUL.
Proof.
  intros E. pose proof (f_equal byte_val E) as Ev. rewrite byte_val_of in Ev.
  change (byte_val NUL) with 0 in Ev. unfold u8 in Ev.
  pose proof (Z.mod_pos_bound n 10). rewrite Z.mod_small in Ev; lia.
Qed.

Lemma no_nul_digits fuel n acc : no_nul acc -> no_nul (dec_digits fuel n acc).
Proof.
  revert n acc. induction fuel as [|fuel IH]; intros n acc Ha; cbn [dec_digits];
    assert (no_nul (String (byte_of (48 + n mod 10)) acc)) as H
      by (constructor; [apply digit_not_nul|exact Ha]); [done|].
  destruct (n <? 10); [done|]. by apply IH.
Qed.

Lemma no_nul_dec n : no_nul (dec_string n).
Proof.
  unfold dec_string. destruct (n <? 0); [constructor; [done|]|]; apply no_nul_digits; constructor.
Qed.

Section Bootstrap.
Context `{Rmr} `{Host}.

(** The name a server gives itself fits the arrays of a configuration command. *)
Lemma my_target_fits self port : no_nul self -> fits sizeof_target (my_target self port).
Proof.
  intros Hn. split.
  - apply no_nul_cut, no_nul_app; [done|]. apply no_nul_app; [by constructor; [done|constructor]|apply no_nul_dec].
  - unfold my_target. pose proof (str_cut_length (sizeof_target - 1) (self ++ ":" ++ dec_string port)).
    unfold sizeof_target in *. lia.
Qed.

Definition self_member (self : server_id_t) (port : Z) : server_t :=
  upd_status VOTING_MEMBER (new_server self (my_target self port) 0).

(** The entry of the first server. *)
Definition first_entry (self : server_id_t) (port : Z) : log_entry_t :=
  LogEntry 1 1 (Z.of_nat sizeof_conf_cmd) 0 0 RAFT_CONFIG ADD_MEMBER None None
    (bytes_of_cmd (ConfCmd self (my_target self port))).

(** Applying the entry that adds this server makes it a follower. *)
Lemma apply_self s L C e cmd :
  core s L C -> env_ok s -> k_raft (locks s) = false -> k_cfg (locks s) = false ->
  m_commit_index (g_me s) = m_last_applied (g_me s) + 1 ->
  entry_at s L (m_commit_index (g_me s)) = Some e ->
  e_type e = RAFT_CONFIG -> e_command e = ADD_MEMBER -> cmd_of_bytes (e_data e) = Some cmd ->
  cc_server_id cmd = m_self_id (g_me s) -> m_self_id (g_me s) ∈ ids C ->
  wp never (apply_loop 1 false) s (fun _ s' => m_state (g_me s') = FOLLOWER).
Proof.
  intros Co En Hr Hc Hi He Ht Had Hcmd Hid Hin. cbn [apply_loop]. apply wp_bind, wp_gets.
  pose proof (co_applied _ _ _ Co). pose proof (lr_offset _ _ (co_log _ _ _ Co)).
  pose proof (co_last _ _ _ Co). pose proof (lr_max _ _ (co_log _ _ _ Co)).
  rewrite (proj2 (Z.ltb_lt _ _)) by lia. rewrite u64_small by lia. rewrite <- Hi.
  apply wp_bind. eapply wp_eq; [apply (get_raft_log_entry_ok s L C); [done|done|lia]|].
  apply wp_bind, wp_from_opt. fold (entry_at s L (m_commit_index (g_me s))). rewrite He, Ht. cbn [Z.eqb].
  apply wp_bind, wp_bind. unfold apply_member. rewrite Had. cbn [Z.eqb]. apply wp_bind, wp_from_opt. rewrite Hcmd. apply wp_bind, wp_zoom. cbn [lget config_l].
  pose proof (cfg_of_core s L C Co Hc) as R. rewrite Hid.
  destruct (get_server_ok _ C R (m_self_id (g_me s))) as [(p & i & x & E & _ & _ & _ & Hpx & Hx)|[_ Hn]]; [|done].
  eapply wp_eq; [exact E|]. assert (lput config_l (g_config s) s = s) as -> by (by destruct s).
  apply wp_bind, wp_zoom. cbn [lget config_l]. eapply wp_eq; [by apply deref_objs|].
  assert (lput config_l (g_config s) s = s) as -> by (by destruct s).
  apply wp_bind, wp_gets. rewrite Hx, bool_decide_eq_true_2 by done. cbn [when].
  destruct (become_follower_ok s L C Co En) as (s1 & E1 & _ & _ & Hf & Ha1 & Hc1 & _).
  eapply wp_eq; [exact E1|]. apply wp_ret, wp_bind, wp_modify, wp_bind, wp_gets.
  cbn. rewrite Ha1, Hc1, Hi, u64_small by lia. rewrite Z.ltb_irrefl. by apply wp_ret.
Qed.

Lemma commit_self s L C e cmd n :
  core s L C -> env_ok s -> locks s = no_locks -> Z.of_nat (length C) + 1 < 2 ^ 32 ->
  m_state (g_me s) <> LEADER -> m_last_applied (g_me s) = m_commit_index (g_me s) ->
  n = m_commit_index (g_me s) + 1 -> n = l_last_log_index (lg (g_raft_log s)) ->
  entry_at s L n = Some e ->
  e_type e = RAFT_CONFIG -> e_command e = ADD_MEMBER -> cmd_of_bytes (e_data e) = Some cmd ->
  cc_server_id cmd = m_self_id (g_me s) -> m_self_id (g_me s) ∈ ids C ->
  wp never (raft_commit_log_entries n) s (fun _ s' => m_state (g_me s') = FOLLOWER).
Proof.
  intros Co En Hk Hmax Hs Ha Hn Hlast He Ht Had Hcmd Hid Hin. unfold raft_commit_log_entries.
  assert (k_raft (locks s) = false /\ k_cfg (locks s) = false /\ k_repl (locks s) = false)
    as (Kr & Kc & Kp) by (by rewrite Hk).
  apply wp_bind, wp_gets. rewrite decide_False by done. apply wp_bind.
  eapply wp_eq; [by apply (get_raft_last_ok s L C)|]. rewrite <- Hlast, Z.ltb_irrefl.
  unfold set_commit_index. apply wp_bind, wp_gets. rewrite (proj2 (Z.ltb_lt _ _)) by lia.
  apply wp_bind, wp_modify. set (s1 := set_me _ s).
  pose proof (co_applied _ _ _ Co). pose proof (co_commit _ _ _ Co).
  assert (core s1 L C) as Co1 by (apply core_me; [done|apply Co|..]; cbn; lia).
  assert (env_ok s1) as En1 by (by destruct En).
  unfold raft_apply_log_entries. apply wp_bind, wp_gets, wp_bind.
  assert (Z.to_nat (m_commit_index (g_me s1) - m_last_applied (g_me s1)) = 1%nat) as -> by (cbn; lia).
  eapply wp_mono.
  { apply wp_conj; [apply (apply_loop_ok 1 s1 L C false); try done; cbn; lia|].
    apply (apply_self s1 L C e cmd); try done; cbn; lia. }
  intros chg s2 [(Co2 & F2 & _) Hf]. cbv beta. unfold when. destruct chg; [|by apply wp_ret].
  eapply wp_mono; [apply (update_replica_servers_ok s2 L C Co2); try done|].
  - by apply (cr_env _ _ F2).
  - by rewrite (cr_locks _ _ F2).
  - by rewrite (cr_locks _ _ F2).
  - intros [] s3 (_ & _ & Em & _). by rewrite Em.
Qed.

Lemma length_bytes_of_cmd cmd : Z.of_nat (length (bytes_of_cmd cmd)) = Z.of_nat sizeof_conf_cmd.
Proof.
  pose proof RMR_MAX_SRC_pos. unfold bytes_of_cmd, sizeof_conf_cmd, sizeof_target, sizeof_server_id.
  by rewrite length_app, !length_carray by lia.
Qed.

(** The only member votes. *)
Lemma first_effect self id tg e C' :
  cmd_of_bytes (e_data e) = Some (ConfCmd id tg) -> e_command e = ADD_MEMBER ->
  str_cut (sizeof_server_id - 1) id = id ->
  config_effect self e [new_server id tg 0] C' -> C' = [upd_status VOTING_MEMBER (new_server id tg 0)].
Proof.
  intros Hcmd Had Eid Heff. destruct Heff as [cmd E1 _ Hn|cmd i x E1 _ Hf|cmd _ E2|E2 _]; try congruence.
  - assert (cmd = ConfCmd id tg) as -> by congruence. destruct Hn. cbn. rewrite Eid. by left.
  - assert (cmd = ConfCmd id tg) as -> by congruence. cbn in Hf. rewrite Eid, decide_True in Hf by done.
    by injection Hf as <- <-.
  - rewrite E2 in Had. done.
Qed.

(** The server that has set the key. *)
Lemma bootstrap_ok k mem binfo s :
  inv s [] [] -> locks s = no_locks -> m_state (g_me s) = INIT_SERVER ->
  m_commit_index (g_me s) = 0 -> l_last_log_index (lg (g_raft_log s)) = 0 ->
  fits sizeof_server_id (m_self_id (g_me s)) ->
  wp tolerated (bootstrap_rft_cluster k mem true true binfo) s (fun r s' =>
    let e := first_entry (m_self_id (g_me s)) (b_rft_port binfo) in
    r = 1 /\ inv s' [e] [self_member (m_self_id (g_me s)) (b_rft_port binfo)] /\
    locks s' = no_locks /\ m_state (g_me s') = FOLLOWER /\ m_commit_index (g_me s') = 1 /\
    m_current_term (g_me s') = m_current_term (g_me s) /\ m_self_id (g_me s') = m_self_id (g_me s)).
Proof.
  intros I Hk Hst Hci Hlast Hfit. unfold bootstrap_rft_cluster. cbn [negb]. apply wp_bind, wp_gets.
  pose proof (my_target_fits (m_self_id (g_me s)) (b_rft_port binfo) (proj1 Hfit)) as Htf.
  set (self := m_self_id (g_me s)) in *. set (tg := my_target self (b_rft_port binfo)) in *.
  assert (str_cut (sizeof_server_id - 1) self = self) as Eself
    by (apply str_cut_id; destruct Hfit; lia).
  rewrite Eself. cbn [cc_server_id cc_target]. set (cmd := ConfCmd self tg).
  pose proof (inv_core _ _ _ I) as Co. pose proof (cfg_of_core s [] [] Co ltac:(by rewrite Hk)) as R.
  apply wp_bind, wp_zoom. cbn [lget config_l].
  destruct (add_server_ok self _ [] R self tg 0) as (c & E & Rc & _);
    [by intros ?%elem_of_nil|apply Hfit|done|].
  eapply wp_eq; [exact E|]. apply wp_bind. cbn [truthy Z.eqb negb when]. apply wp_ret, wp_bind, wp_from_opt.
  set (s1 := lput config_l c s). cbn [app] in Rc.
  assert (core s1 [] [new_server self tg 0]) as Co1 by (by eapply core_config).
  assert (locks s1 = no_locks) as Hk1.
  { rewrite <- Hk. unfold locks. cbn. rewrite (ok_free _ _ Rc). pose proof (f_equal k_cfg Hk) as Hc. cbn in Hc. by rewrite Hc. }
  rewrite new_raft_log_entry_spec by done. destruct (a_entry mem && a_data mem); [|by left].
  assert (cmd_of_bytes (bytes_of_cmd cmd) = Some cmd) as Hcmd by (by apply cmd_of_bytes_of_cmd).
  apply wp_bind. eapply wp_mono; [apply (append_raft_log_entry_ok k s1 [] _ _ Co1); rewrite ?Hk1; try done|].
  - change (l_last_log_index (lg (g_raft_log s1))) with (l_last_log_index (lg (g_raft_log s))). lia.
  - intros [] s2 (C2 & Co2 & F2 & _ & Heff). specialize (Heff eq_refl).
    change (l_last_log_index (lg (g_raft_log s1))) with (l_last_log_index (lg (g_raft_log s))) in Co2.
    rewrite Hlast in Co2. cbn [app set_index] in Co2.
    assert (C2 = [self_member self (b_rft_port binfo)]) as ->.
    { unfold self_member. fold tg. by eapply (first_effect _ self tg _ C2); [| | |exact Heff]. }
    set (e := set_index _ _) in Co2.
    assert (e = first_entry self (b_rft_port binfo)) as Ee
      by (unfold e, first_entry; rewrite <- length_bytes_of_cmd with (cmd := cmd); done).
    rewrite Ee in Co2. clear e Ee Heff.
    assert (locks s2 = no_locks) as Hk2 by (by rewrite (fr_locks _ _ F2)).
    assert (l_last_log_index (lg (g_raft_log s2)) = 1) as Hl2.
    { rewrite (core_last_length _ _ _ Co2), (fr_offset _ _ F2). cbn.
      pose proof (core_last_length _ _ _ Co) as H1. cbn in H1. lia. }
    assert (g_me s2 = g_me s) as Em by (by rewrite (fr_me _ _ F2)).
    assert (l_index_offset (lg (g_raft_log s2)) = 0) as Ho2.
    { pose proof (core_last_length _ _ _ Co2) as H1. cbn in H1. lia. }
    assert (env_ok s2) as En2 by (eapply frame_env; [exact F2|]; by destruct (inv_env _ _ _ I)).
    apply wp_bind. eapply wp_eq; [apply (get_raft_last_ok s2 _ _ Co2); by rewrite Hk2|]. rewrite Hl2.
    pose proof (inv_applied _ _ _ I) as Ha. rewrite Hci in Ha.
    apply wp_bind, never_wp. eapply wp_mono.
    { apply wp_conj; [apply (commit_ok s2 _ _ 1 Co2); rewrite ?Hk2, ?Em, ?Hci, ?Ha; done|].
      eapply (commit_self s2 _ _ (first_entry self (b_rft_port binfo)) cmd 1 Co2); rewrite ?Em, ?Hci, ?Hst, ?Ha; try done.
      - unfold entry_at, log_lookup. by rewrite Ho2.
      - cbn. rewrite Eself. by left. }
    intros [] s3 [(Co3 & F3 & Sp) Hf]. cbv beta. apply wp_ret. split; [done|].
    assert (m_commit_index (g_me s3) = 1) as Hc3.
    { rewrite (cs_follower _ _ _ _ _ Sp); rewrite Em, ?Hci, ?Hl2; [done|by rewrite Hst]. }
    split; [|split; [by rewrite (cr_locks _ _ F3)|split; [done|split; [done|]]]].
    + split; [done|by apply (cr_env _ _ F3)|]. by rewrite (cs_applied _ _ _ _ _ Sp).
    + by rewrite (cr_term _ _ F3), (cr_self _ _ F3), Em.
Qed.

End Bootstrap.
