(* ===== verification/Lifecycle.v ===== *)
(** * Joining and leaving through Redis (src/rft.c)

    The steps of the library that use Redis, on the pair of the library and
    the connection: the bootstrap of the cluster, the key of a new leader and
    [rft_shutdown]. *)

From S2P Require Import Prelude Monad Types LogRing RingBuf Redis Mtl Config Quorum.
From S2P Require Import HashTable HashMap State Utils Log Snapshot Serialize RaftLog Raft XApp.
From S2P Require Import Server Invariant Commit Election Worker Tasks Init Bootstrap.
Open Scope Z_scope.

Section Lifecycle.
Context `{Rmr} `{Host} {R : Type} `{Hiredis R}.

Definition lib_l : lens (library * R) library := Lens fst (fun g p => (g, snd p)).
Definition redis_l : lens (library * R) R := Lens snd (fun r p => (fst p, r)).
Definition st_l : lens (library * R) St := lens_comp lib_l li_st_l.

(** [binfo], which is NULL before [rft_init] and freed by [rft_shutdown]. *)
Definition get_binfo : M (library * R) bootstrap_info_t :=
  b ← gets (fun g => li_binfo (fst g)); from_opt NullDeref b.

(** [bootstrap_rft_cluster] with its use of Redis; [connected] tells whether
    [redis_sync_init] gave a context. *)
Definition bootstrap_cluster (k : sys) (mem : allocs) (connected : bool) : M (library * R) Z :=
  if negb connected then mret 0 else
  binfo ← get_binfo;
  self ← zoom st_l my_id;
  set ← zoom redis_l (redis_sync_set_if_no_key (b_redis_key binfo) (my_target self (b_rft_port binfo)));
  zoom st_l (bootstrap_rft_cluster k mem true (truthy set) binfo).

(** The turn of the election thread in which the server is the leader, up to
    its wait for the end of the leadership. *)
Definition announce_leader (connected : bool) : M (library * R) unit :=
  binfo ← get_binfo;
  self ← zoom st_l my_id;
  when (negb connected) exit1;;
  set ← zoom redis_l (redis_sync_set_key (b_redis_key binfo) (my_target self (b_rft_port binfo)));
  when (negb (truthy set)) exit1.

(** [rft_shutdown]: the loops are told to stop. A leader then waits for two
    election timeouts, with no lock, before it continues. *)
Definition rft_shutdown_start : M library bool :=
  modify (set_li_ok2run false);;
  m ← zoom li_st_l me;
  mret (bool_decide (m_state m = LEADER)).

Definition rft_shutdown_leader (connected : bool) : M (library * R) unit :=
  zoom st_l (lock raft_state_lock state_lock_l);;
  m ← zoom st_l me;
  when (bool_decide (m_state m = LEADER)) (
    server ← zoom st_l (zoom config_l (raft_config_get_server (m_self_id m)));
    match server with
    | Some p =>
        binfo ← get_binfo;
        when connected (
          x ← zoom st_l (zoom config_l (deref p));
          zoom redis_l (redis_sync_safe_ep_del (b_redis_key binfo) (s_target x));; mret tt)
    | None => mret tt
    end);;
  zoom st_l (unlock state_lock_l).

Definition rft_shutdown_end : M library unit := modify (set_li_binfo None).

End Lifecycle.

Section Proofs.
Context `{Rmr} `{Host} {R : Type} `{RedisServer R}.

(** The faults of the bootstrap: those of the server and of Redis. *)
Definition redis_fault (f : fault) : Prop := no_reply f \/ tolerated f.

Lemma wp_get_binfo E (g : library * R) b (Q : bootstrap_info_t -> library * R -> Prop) :
  li_binfo (fst g) = Some b -> Q b g -> wp E get_binfo g Q.
Proof. intros Hb HQ. unfold get_binfo. apply wp_bind, wp_gets, wp_from_opt. by rewrite Hb. Qed.

(** The server that finds the key free becomes the only member of its own
    configuration; the others leave the key and their state alone. *)
Definition bootstrapped (key : string) (binfo : bootstrap_info_t) (g g' : library) (r r' : R) (z : Z) : Prop :=
  let self := m_self_id (g_me (li_st g)) in
  let port := b_rft_port binfo in
  (z = 1 /\ rs_events r' = (rs_events r ++ [Wrote key None (Some (my_target self port))])%list /\
   inv (li_st g') [first_entry self port] [self_member self port] /\
   locks (li_st g') = no_locks /\ m_state (g_me (li_st g')) = FOLLOWER /\
   m_commit_index (g_me (li_st g')) = 1) \/
  (z = 0 /\ (exists v, rs_events r' = (rs_events r ++ [Read key (Some v)])%list) /\ g' = g).

Lemma bootstrap_cluster_ok k mem g r binfo :
  server_ok (li_st g) [] [] -> m_state (g_me (li_st g)) = INIT_SERVER ->
  m_commit_index (g_me (li_st g)) = 0 -> l_last_log_index (lg (g_raft_log (li_st g))) = 0 ->
  fits sizeof_server_id (m_self_id (g_me (li_st g))) ->
  li_binfo g = Some binfo -> rs_queue r = None ->
  wp redis_fault (bootstrap_cluster k mem true) (g, r) (fun z g' => rs_queue (snd g') = None /\
    bootstrapped (b_redis_key binfo) binfo g (fst g') r (snd g') z).
Proof.
  intros [I Hk _] Hst Hci Hl Hfit Hb Hq. unfold bootstrap_cluster, bootstrapped. cbn [negb].
  apply wp_bind. eapply wp_get_binfo; [exact Hb|]. apply wp_bind, wp_zoom, wp_gets.
  cbn [lget lput st_l lens_comp lib_l li_st_l fst snd].
  set (self := m_self_id (g_me (li_st g))). apply wp_bind, wp_zoom. cbn [lget lput redis_l fst snd].
  assert (Library (li_tasks g) (li_binfo g) (li_rep_intvl g) (li_max_msg_size g) (li_ok2run g) (li_st g) = g)
    as -> by (by destruct g).
  eapply (wp_fault_mono no_reply); [by left|]. eapply wp_mono; [by apply redis_set_nx_ok|].
  intros z r' (Hq' & Hz). apply wp_zoom. cbn [fst snd lget st_l lens_comp lib_l li_st_l].
  destruct Hz as [(-> & Hev)|(-> & v & Hev)]; cbn [truthy Z.eqb negb].
  - eapply (wp_fault_mono tolerated); [by right|]. eapply wp_mono; [by apply bootstrap_ok|].
    intros z s' (-> & I' & Hk' & Hs' & Hc' & _). cbn. split; [done|]. by left.
  - unfold bootstrap_rft_cluster. cbn [negb]. apply wp_bind, wp_gets, wp_ret. cbn. split; [done|].
    right. split; [done|]. split; [by exists v|]. by destruct g.
Qed.

Ltac red_l := cbn [lget lput st_l redis_l config_l state_lock_l lens_comp lib_l li_st_l fst snd
  set_state_lock set_config g_config g_me g_state_lock].

(** The shutdown of a leader removes the key only with its own target in it;
    it leaves the server as it is. *)
Lemma rft_shutdown_leader_ok connected g r L C binfo :
  server_ok (li_st g) L C -> li_binfo g = Some binfo -> rs_queue r = None ->
  wp no_reply (rft_shutdown_leader connected) (g, r) (fun _ g' => fst g' = g /\
    (snd g' = r \/ m_state (g_me (li_st g)) = LEADER /\ exists x l, x ∈ C /\
       s_server_id x = m_self_id (g_me (li_st g)) /\ rs_events (snd g') = (rs_events r ++ l)%list /\
       Forall (own_removal (b_redis_key binfo) (s_target x)) l)).
Proof.
  intros [I Hk _] Hb Hq. unfold rft_shutdown_leader.
  assert (g_state_lock (li_st g) = false) as Hs by (by pose proof (f_equal k_state Hk)).
  pose proof (cfg_of_core _ _ _ (inv_core _ _ _ I) ltac:(by rewrite Hk)) as Rc.
  destruct g as [tk b ri ms ok s], s as [m sl rl xl cf sn rp el ap]. cbn in *. subst sl b.
  apply wp_bind, wp_zoom, wp_lock; [done|]. apply wp_bind, wp_zoom, wp_gets, wp_bind. red_l.
  case_bool_decide as Hl; [|apply wp_ret, wp_zoom, wp_unlock; cbn; by auto].
  cbn [when]. apply wp_bind, wp_zoom, wp_zoom. red_l.
  destruct (get_server_ok _ C Rc (m_self_id m)) as [(p & i & x & E & _ & Hx & _ & Hpx & Hid)|[E _]];
    (eapply wp_eq; [exact E|]); [|apply wp_ret, wp_zoom, wp_unlock; cbn; by auto].
  apply wp_bind. eapply wp_get_binfo; [done|].
  destruct connected; [|apply wp_ret, wp_zoom, wp_unlock; cbn; by auto].
  cbn [when]. apply wp_bind, wp_zoom, wp_zoom. red_l. eapply wp_eq; [by apply deref_objs|].
  apply wp_bind, wp_zoom. red_l. eapply wp_mono; [by apply redis_del_ok|].
  intros z r' (l & Hev & Hown & _). apply wp_ret, wp_zoom, wp_unlock. cbn. split; [done|].
  right. split; [done|]. exists x, l. split; [by eapply list_elem_of_lookup_2|done].
Qed.

End Proofs.
