(* ===== verification/Delivery.v ===== *)
(** * The replication of the raft log between two servers (src/rft.c)

    One exchange of a leader's sending thread with a follower: the leader
    serializes what follows the previous index, the follower decodes and
    handles the request, the leader takes in the answer. Both servers are whole
    memories; the exchange is a program over the pair. *)

From S2P Require Import Prelude Monad Types LogRing Mtl Config Quorum HashTable State.
From S2P Require Import Utils Log Serialize Snapshot RaftLog Raft XApp Server Invariant.
From S2P Require Import Commit Election Replication Worker.
Open Scope Z_scope.

(** The two servers. *)
Definition leader_l : lens (St * St) St := Lens fst (fun s p => (s, snd p)).
Definition follower_l : lens (St * St) St := Lens snd (fun s p => (fst p, s)).

Section Sending.
Context `{Rmr} `{Host} (max_msg_size : Z).

(** ** What the leader sends *)

(** The raft snapshot of a server ends where its log begins. *)
Definition anchored (s : St) : Prop :=
  rs_last_index (sn_raft_snapshot (g_snap s)) = l_index_offset (lg (g_raft_log s)).

(** A log the sending thread can put on the wire with a buffer of [buf] bytes:
    every entry fits in the buffer and in a message. *)
Record sendable (s : St) (L : list log_entry_t) (buf : Z) : Prop := {
  sd_anchor : anchored s;
  sd_max : max_msg_size < 2 ^ 31 /\ APND_ENTR_HDR_LEN < max_msg_size;
  sd_wire : Forall raft_wire L;
  sd_plain : Forall (fun e => e_context e = None /\ e_key e = None) L;
  sd_buf : Forall (fun e => esize RAFT_LOG e <= buf) L;
  sd_fits : Forall (fun e => APND_ENTR_HDR_LEN + esize RAFT_LOG e <= max_msg_size) L }.

Lemma sendable_mono s L buf buf' : buf <= buf' -> sendable s L buf -> sendable s L buf'.
Proof.
  intros Hb []. split; try done. eapply Forall_impl; [exact sd_buf0|]. cbv beta. lia.
Qed.

(** The entries behind index [i]. *)
Definition beyond (s : St) (L : list log_entry_t) (i : index_t) : list log_entry_t :=
  drop (Z.to_nat (i - l_index_offset (lg (g_raft_log s)))) L.

(** The entries [c] of a message that starts behind [prev]: a run of the log,
    not empty when there is something to send, and complete when all fits. *)
Record batch (s : St) (L : list log_entry_t) (prev : index_t) (c : list log_entry_t) : Prop := {
  ba_prefix : c `prefix_of` beyond s L prev;
  ba_some : prev < l_last_log_index (lg (g_raft_log s)) -> c <> [];
  ba_all : APND_ENTR_HDR_LEN + wire_size RAFT_LOG (beyond s L prev) <= max_msg_size ->
    c = beyond s L prev }.

Lemma prev_of_anchored s L C i :
  core s L C -> anchored s ->
  l_index_offset (lg (g_raft_log s)) <= i <= l_last_log_index (lg (g_raft_log s)) ->
  snd (prev_of s L i) = i.
Proof.
  intros Co An Hi. pose proof (core_last_length _ _ _ Co). unfold prev_of.
  unfold log_lookup. destruct (Z.leb_spec (l_index_offset (lg (g_raft_log s)) + 1) i).
  2: { cbn. rewrite An. lia. }
  destruct (L !! _) as [e|] eqn:E; cbn.
  - rewrite (lr_index _ _ (co_log _ _ _ Co) _ _ E). lia.
  - apply lookup_ge_None in E. lia.
Qed.

(** A run of the log that stops only where the next entry does not fit. *)
Lemma batch_intro s L C buf prev c :
  core s L C -> sendable s L buf -> l_index_offset (lg (g_raft_log s)) <= prev ->
  c `prefix_of` beyond s L prev ->
  (forall e, beyond s L prev !! length c = Some e ->
     max_msg_size - APND_ENTR_HDR_LEN < wire_size RAFT_LOG c + esize RAFT_LOG e) ->
  batch s L prev c.
Proof.
  intros Co Sd Hp Hpre Hnext. pose proof (core_last_length _ _ _ Co) as Hl. split; [done|..].
  - intros Hlt. eapply fit_some; [exact Hpre| | |exact Hnext].
    + intros E. apply (f_equal length) in E. unfold beyond in E. rewrite length_drop in E. simpl in E. lia.
    + eapply Forall_impl; [apply Forall_drop, (sd_fits _ _ _ Sd)|]. cbv beta. lia.
  - intros Hall. apply (fit_all RAFT_LOG (max_msg_size - APND_ENTR_HDR_LEN)); [exact Hpre|exact (Forall_drop _ _ _ (sd_wire _ _ _ Sd))|lia|exact Hnext].
Qed.

(** The header of the request. *)
Definition append_hdr (s : St) (L : list log_entry_t) (prev : index_t) (n n_bytes : Z) : appnd_entr_hdr_t :=
  AppndEntrHdr (m_current_term (g_me s)) (m_self_id (g_me s)) prev (fst (prev_of s L prev))
    (m_commit_index (g_me s)) n n_bytes.

Lemma send_append_ok s L C prev n_entries buf n_bytes :
  core s L C -> locks s = no_locks -> anchored s -> m_state (g_me s) = LEADER ->
  l_index_offset (lg (g_raft_log s)) <= prev <= l_last_log_index (lg (g_raft_log s)) ->
  0 <= n_bytes -> APND_ENTR_HDR_LEN + n_bytes < 2 ^ 31 -> n_bytes <= Z.of_nat (length buf) ->
  send_append_entries prev n_entries buf n_bytes s =
    Ok (Some (append_hdr s L prev n_entries n_bytes,
              if truthy n_entries then take (Z.to_nat n_bytes) buf else [])) s.
Proof.
  intros Co Hk An Hs Hp H1 H2 H3.
  pose proof (lr_max _ _ (co_log _ _ _ Co)). pose proof (lr_offset _ _ (co_log _ _ _ Co)).
  pose proof (prev_of_anchored s L C prev Co An Hp) as Hsnd.
  enough (wp never (send_append_entries prev n_entries buf n_bytes) s (fun r s' =>
    r = Some (append_hdr s L prev n_entries n_bytes,
              if truthy n_entries then take (Z.to_nat n_bytes) buf else []) /\ s' = s)) as W.
  { destruct (wp_never _ _ _ W) as (r & s' & E & -> & ->). exact E. }
  assert (0 <= APND_ENTR_HDR_LEN) by (unfold APND_ENTR_HDR_LEN; lia).
  unfold send_append_entries, when. apply wp_bind.
  rewrite (proj2 (Z.ltb_ge (i32 _) 0)).
  2: { unfold i32. rewrite Z.mod_small; lia. }
  apply wp_ret, wp_bind. eapply wp_eq; [apply (get_raft_log_entry_ok s L C prev Co); [by rewrite Hk|lia]|].
  apply wp_bind. apply (wp_mono never _ _ (fun a s' => a = (prev, fst (prev_of s L prev)) /\ s' = s)).
  { unfold prev_of in *. destruct (log_lookup _ L prev) as [e|]; [apply wp_ret; cbn in *; by subst|].
    cbn in Hsnd. destruct s as [me sl rl xl cf [ip rs pipe rsl rpl xip xs xpi xsl xpl] rp el ax].
    cbn in *. pose proof (f_equal k_rsnap Hk) as Hl. cbn in Hl. subst rsl prev. by split. }
  intros a s' [-> ->]. apply wp_bind.
  apply (wp_mono never _ _ (fun a s' =>
    a = (if truthy n_entries then take (Z.to_nat n_bytes) buf else []) /\ s' = s)).
  { destruct (truthy n_entries); [|by apply wp_ret]. apply wp_from_opt.
    by rewrite sub_bytes_all by done. }
  intros a s' [-> ->]. apply wp_bind, wp_state_lock; [done|]. apply wp_bind, wp_gets, wp_bind, wp_unlock, wp_ret.
  cbn [g_me set_state_lock]. rewrite decide_True by done. split; [done|].
  pose proof (f_equal k_state Hk) as Hl. destruct s. cbn in Hl. by subst.
Qed.

(** ** What the follower makes of it

    The index up to which the follower keeps its log: the previous one of a
    request that agrees with its log, but never less than what it has
    committed. *)
Definition kept_index (req : request_append_entries_t) (s : St) (L : list log_entry_t) : index_t :=
  if decide (consistent req s L) then Z.max (m_commit_index (g_me s)) (ra_prev_log_index req)
  else m_commit_index (g_me s).

Definition upto (s : St) (L : list log_entry_t) (i : index_t) : list log_entry_t :=
  take (Z.to_nat (i - l_index_offset (lg (g_raft_log s)))) L.

(** The previous entry is looked up in the part that is kept. *)
Lemma prev_of_take s L C i n :
  core s L C -> i <= l_index_offset (lg (g_raft_log s)) + Z.of_nat n ->
  prev_of s (take n L) i = prev_of s L i.
Proof.
  intros Co Hi. unfold prev_of, log_lookup. destruct (Z.leb_spec (l_index_offset (lg (g_raft_log s)) + 1) i); [|done].
  by rewrite lookup_take_lt by lia.
Qed.

(** An anchored server finds only indices of its log, or the last one of its
    snapshot. *)
Lemma consistent_range req s L L1 C :
  core s L C -> anchored s -> L1 `prefix_of` L -> consistent req s L1 ->
  l_index_offset (lg (g_raft_log s)) <= ra_prev_log_index req <=
    l_index_offset (lg (g_raft_log s)) + Z.of_nat (length L1).
Proof.
  intros Co An Hp. unfold consistent, prev_of, log_lookup.
  destruct (Z.leb_spec (l_index_offset (lg (g_raft_log s)) + 1) (ra_prev_log_index req)).
  - destruct (L1 !! _) as [e|] eqn:E; [apply lookup_lt_Some in E; lia|].
    intros [= _ E']. rewrite An in E'. lia.
  - intros [= _ E']. rewrite An in E'. lia.
Qed.

(** An entry of the log that matches is the one that is looked up. *)
Lemma consistent_matches req s L C j e :
  core s L C -> L !! j = Some e -> e_index e = ra_prev_log_index req ->
  consistent req s L <-> matches_prev (ra_prev_log_index req) (ra_prev_log_term req) e = true.
Proof.
  intros Co Hj Hi. pose proof (lr_index _ _ (co_log _ _ _ Co) _ _ Hj) as He.
  unfold consistent, prev_of, log_lookup, matches_prev.
  rewrite (proj2 (Z.leb_le _ _)) by lia.
  replace (Z.to_nat _) with j by lia. rewrite Hj, Hi, Z.eqb_refl. cbn. rewrite Z.eqb_eq.
  split; [by intros [=]|by intros ->].
Qed.

(** The exact effect of the consistency check. *)
Lemma checked_exact req s L C L1 :
  core s L C -> anchored s -> checked req s L L1 ->
  (consistent req s L1 <-> consistent req s L) /\ L1 = upto s L (kept_index req s L).
Proof.
  intros Co An Hch. pose proof (core_last_length _ _ _ Co) as Hl. pose proof (co_commit _ _ _ Co).
  pose proof (co_applied _ _ _ Co). pose proof (co_last _ _ _ Co).
  pose proof (lr_index _ _ (co_log _ _ _ Co)) as Hc.
  pose proof (fun L1 Hp => consistent_range req s L L1 C Co An Hp) as Hrange.
  unfold kept_index, upto. destruct Hch as [[-> Hset]|[L0 e R E Hm Hno Hlen|L0 R E Hlen Hno]].
  - split; [done|]. destruct (last L) as [e|] eqn:El; [|apply last_None in El as ->; by rewrite take_nil].
    pose proof (Hset e El) as Hm. apply last_lookup in El. pose proof (Hc _ _ El).
    assert (e_index e = ra_prev_log_index req) as Hi.
    { unfold matches_prev in Hm. apply andb_true_iff in Hm as [Hm _]. by apply Z.eqb_eq in Hm. }
    rewrite decide_True by exact (proj2 (consistent_matches req s L C _ e Co El Hi) Hm).
    apply lookup_lt_Some in El. by rewrite take_ge by lia.
  - assert (L !! length L0 = Some e) as El by (rewrite E; by apply list_lookup_middle). pose proof (Hc _ _ El).
    assert (e_index e = ra_prev_log_index req) as Hi.
    { unfold matches_prev in Hm. apply andb_true_iff in Hm as [Hm _]. by apply Z.eqb_eq in Hm. }
    assert (consistent req s L) as Hcons
      by exact (proj2 (consistent_matches req s L C _ e Co El Hi) Hm).
    assert (L0 ++ [e] = take (S (length L0)) L) as Et.
    { rewrite E, app_assoc, take_app_le by (rewrite length_app; simpl; lia).
      by rewrite take_ge by (rewrite length_app; simpl; lia). }
    rewrite decide_True by done. split.
    + split; [done|]. intros _. unfold consistent. rewrite Et, (prev_of_take s L C) by (done || lia). done.
    + rewrite Et. f_equal. unfold committed in Hlen. lia.
  - assert (L0 = take (length L0) L) as Et by (by rewrite E, take_app_length).
    assert (consistent req s L0 <-> consistent req s L) as Hiff.
    { unfold committed in Hlen. split.
      - intros Hx. pose proof (Hrange L0 ltac:(by exists R) Hx).
        unfold consistent. rewrite <- (prev_of_take s L C _ (length L0)), <- Et by (done || lia). exact Hx.
      - intros Hx. pose proof (Hrange L ltac:(done) Hx).
        destruct (Z.leb_spec (ra_prev_log_index req) (m_commit_index (g_me s))) as [Hle|Hgt].
        + unfold consistent. rewrite Et, (prev_of_take s L C) by (done || lia). done.
        + exfalso. set (j := Z.to_nat (ra_prev_log_index req - l_index_offset (lg (g_raft_log s)) - 1)).
          destruct (L !! j) as [e|] eqn:Ej; [|apply lookup_ge_None in Ej; lia].
          pose proof (Hc _ _ Ej). apply (consistent_matches req s L C _ e Co Ej) in Hx; [|lia].
          rewrite E, lookup_app_r in Ej by lia.
          pose proof (Forall_lookup_1 _ _ _ _ Hno Ej). cbn in *. congruence. }
    split; [done|]. rewrite Et. f_equal. unfold committed in Hlen. rewrite Hlen.
    destruct (decide (consistent req s L)) as [Hcons|]; [|done].
    pose proof (Hrange L0 ltac:(by exists R) (proj2 Hiff Hcons)). lia.
Qed.

Lemma kept_bounds req s L C :
  core s L C -> anchored s ->
  l_index_offset (lg (g_raft_log s)) <= m_commit_index (g_me s) <= kept_index req s L /\
  kept_index req s L <= l_last_log_index (lg (g_raft_log s)).
Proof.
  intros Co An. pose proof (core_last_length _ _ _ Co). pose proof (co_commit _ _ _ Co).
  pose proof (co_applied _ _ _ Co). pose proof (co_last _ _ _ Co). unfold kept_index.
  case_decide as Hc; [|lia]. pose proof (consistent_range req s L L C Co An ltac:(done) Hc). lia.
Qed.

Lemma length_upto s L C i :
  core s L C -> l_index_offset (lg (g_raft_log s)) <= i <= l_last_log_index (lg (g_raft_log s)) ->
  Z.of_nat (length (upto s L i)) = i - l_index_offset (lg (g_raft_log s)).
Proof.
  intros Co Hi. pose proof (core_last_length _ _ _ Co). unfold upto. rewrite length_take. lia.
Qed.

(** AppendEntries as a function of the log: the answer, the new log and its
    last index. *)
Lemma append_effect req s s' L L' C C' r :
  core s L C -> core s' L' C' -> anchored s -> m_current_term (g_me s) <= ra_term req -> append_spec req s s' L L' r ->
  pa_success r = b2z (bool_decide (consistent req s L)) /\
  L' = upto s L (kept_index req s L) ++
       (if decide (consistent req s L) then renumber (kept_index req s L + 1) (ra_entries req) else []) /\
  pa_last_log_index r = kept_index req s L +
       (if decide (consistent req s L) then Z.of_nat (length (ra_entries req)) else 0).
Proof.
  intros Co Co' An Ht A. destruct (as_log _ _ _ _ _ _ A Ht) as (L1 & Hch & Ho).
  destruct (checked_exact req s L C L1 Co An Hch) as [Hiff ->].
  destruct (kept_bounds req s L C Co An) as [Hk1 Hk2].
  set (keep := kept_index req s L) in *.
  pose proof (length_upto s L C keep Co ltac:(lia)) as Hlen.
  destruct (as_reply _ _ _ _ _ _ A) as (_ & _ & _ & ->).
  rewrite (core_last_length _ _ _ Co'), (as_offset _ _ _ _ _ _ A).
  destruct Ho as [(-> & Hc & ->)|(-> & Hc & ->)]; destruct (decide (consistent req s L)); try tauto.
  - rewrite bool_decide_true by done. split; [done|].
    rewrite length_app, length_renumber. split; [do 2 f_equal; lia|lia].
  - rewrite bool_decide_false by done. split; [done|]. split; [by rewrite app_nil_r|lia].
Qed.

(** ** The exchange *)

(** The two logs hold the same entry at index [i], by its term. *)
Definition agree (sl sf : St) (Ll Lf : list log_entry_t) (i : index_t) : Prop :=
  prev_of sf Lf i = (fst (prev_of sl Ll i), i).
#[global] Instance agree_dec sl sf Ll Lf i : Decision (agree sl sf Ll Lf i).
Proof. unfold agree. apply _. Defined.

(** A leader and a follower between two exchanges: [x] is what the leader knows
    of the follower, at place [i] of its members and at [p] in its memory. *)
Record pairing (buf : Z) (sl sf : St) (Ll Lf : list log_entry_t) (Cl Cf : list server_t)
    (i : nat) (p : loc) (x : server_t) : Prop := {
  pr_leader : inv sl Ll Cl /\ locks sl = no_locks;
  pr_follower : inv sf Lf Cf /\ locks sf = no_locks;
  pr_anchor : anchored sf;
  pr_sendable : sendable sl Ll buf;
  pr_term : m_current_term (g_me sf) <= m_current_term (g_me sl);
  pr_role : m_state (g_me sf) <> LEADER \/ m_current_term (g_me sf) < m_current_term (g_me sl);
  pr_found : list_find (has_id (m_self_id (g_me sf))) Cl = Some (i, x);
  pr_obj : c_servers (cf (g_config sl)) !! i = Some p;
  pr_next : m_commit_index (g_me sf) <= s_next_index x - 1 <= l_last_log_index (lg (g_raft_log sl));
  pr_kept : l_index_offset (lg (g_raft_log sl)) <= m_commit_index (g_me sf) }.

(** What the exchange does to the follower's log and to what the leader knows
    of it; [c] are the entries of the message. *)
Definition exchanged_to (sl sf : St) (Ll Lf : list log_entry_t) (x : server_t) (c : list log_entry_t)
    (sf' : St) (Lf' : list log_entry_t) (x' : server_t) : Prop :=
  let prev := s_next_index x - 1 in
  if decide (agree sl sf Ll Lf prev) then
    Lf' = upto sf Lf prev ++ c /\
    s_match_index x' = prev + Z.of_nat (length c) /\ s_next_index x' = s_match_index x' + 1
  else
    Lf' = upto sf Lf (m_commit_index (g_me sf)) /\
    m_commit_index (g_me sf') = m_commit_index (g_me sf) /\
    s_match_index x' = s_match_index x /\ s_next_index x' = m_commit_index (g_me sf) + 1.

Lemma batch_length s L C prev c :
  core s L C -> l_index_offset (lg (g_raft_log s)) <= prev <= l_last_log_index (lg (g_raft_log s)) ->
  c `prefix_of` beyond s L prev ->
  prev + Z.of_nat (length c) <= l_last_log_index (lg (g_raft_log s)) /\ contiguous (prev + 1) c /\
  Forall entry_ok c.
Proof.
  intros Co Hp Hpre. pose proof (core_last_length _ _ _ Co) as Hl.
  pose proof (prefix_length _ _ Hpre) as Hlen. unfold beyond in *. rewrite length_drop in Hlen.
  split; [lia|]. destruct Hpre as [r Er]. split.
  - intros j e Hj. assert ((c ++ r) !! j = Some e) as Hj' by (by apply lookup_app_l_Some).
    rewrite <- Er, lookup_drop in Hj'. rewrite (lr_index _ _ (co_log _ _ _ Co) _ _ Hj'). lia.
  - assert (Forall entry_ok (c ++ r)) as F by (rewrite <- Er; apply Forall_drop, (co_entries _ _ _ Co)).
    by apply Forall_app in F as [? _].
Qed.

(** The request of a leader with the entries [c], as the follower decodes it. *)
Definition request_of (sl : St) (Ll : list log_entry_t) (prev : index_t) (c : list log_entry_t) (n : Z) :=
  append_req (append_hdr sl Ll prev (Z.of_nat (length c)) n) c.

(** The log of the follower after the request. *)
Lemma request_effect buf sl sf Ll Lf Cl Cf i p x c n sf' Lf' Cf' r :
  pairing buf sl sf Ll Lf Cl Cf i p x -> c `prefix_of` beyond sl Ll (s_next_index x - 1) ->
  inv sf' Lf' Cf' -> append_spec (request_of sl Ll (s_next_index x - 1) c n) sf sf' Lf Lf' r ->
  let prev := s_next_index x - 1 in
  if decide (agree sl sf Ll Lf prev)
  then pa_success r = 1 /\ Lf' = upto sf Lf prev ++ c /\ pa_last_log_index r = prev + Z.of_nat (length c)
  else pa_success r = 0 /\ Lf' = upto sf Lf (m_commit_index (g_me sf)) /\
    pa_last_log_index r = m_commit_index (g_me sf) /\
    m_commit_index (g_me sf') = m_commit_index (g_me sf).
Proof.
  intros P Hpre I' A prev. fold prev in Hpre, A. destruct (pr_leader _ _ _ _ _ _ _ _ _ _ P) as [Il _].
  pose proof (pr_next _ _ _ _ _ _ _ _ _ _ P) as Hn. pose proof (pr_kept _ _ _ _ _ _ _ _ _ _ P). fold prev in Hn.
  destruct (batch_length sl Ll Cl prev c (inv_core _ _ _ Il) ltac:(lia) Hpre) as (_ & Hcont & _).
  destruct (pr_follower _ _ _ _ _ _ _ _ _ _ P) as [If _].
  destruct (append_effect (request_of sl Ll prev c n) sf sf' Lf Lf' Cf Cf' r (inv_core _ _ _ If) (inv_core _ _ _ I')
    (pr_anchor _ _ _ _ _ _ _ _ _ _ P) (pr_term _ _ _ _ _ _ _ _ _ _ P) A) as (Hs & HL & Hlast).
  set (req := request_of sl Ll prev c n) in *.
  assert (kept_index req sf Lf = if decide (agree sl sf Ll Lf prev) then prev else m_commit_index (g_me sf)) as Hk.
  { unfold kept_index. change (consistent req sf Lf) with (agree sl sf Ll Lf prev).
    destruct (decide (agree _ _ _ _ _)); [|done]. change (ra_prev_log_index req) with prev. lia. }
  rewrite Hk in *. change (consistent req sf Lf) with (agree sl sf Ll Lf prev) in *.
  change (ra_entries req) with c in *.
  destruct (decide (agree sl sf Ll Lf prev)) as [Ha|Ha].
  - rewrite bool_decide_true in Hs by done. rewrite renumber_contiguous in HL by done. done.
  - rewrite bool_decide_false in Hs by done. rewrite app_nil_r in HL. rewrite Z.add_0_r in Hlast.
    split; [done|]. split; [done|]. split; [done|]. by apply (as_rejected _ _ _ _ _ _ A).
Qed.

Lemma follower_term buf sl sf Ll Lf Cl Cf i p x c n sf' Lf' r :
  pairing buf sl sf Ll Lf Cl Cf i p x ->
  append_spec (request_of sl Ll (s_next_index x - 1) c n) sf sf' Lf Lf' r ->
  m_current_term (g_me sf') = m_current_term (g_me sl) /\ pa_term r = m_current_term (g_me sl) /\
  m_state (g_me sf') <> LEADER /\ m_self_id (g_me sf') = m_self_id (g_me sf).
Proof.
  intros P A. pose proof (pr_term _ _ _ _ _ _ _ _ _ _ P). pose proof (pr_role _ _ _ _ _ _ _ _ _ _ P) as Hr.
  destruct (as_reply _ _ _ _ _ _ A) as (Ht & _ & Et & _).
  change (ra_term (request_of _ _ _ _ _)) with (m_current_term (g_me sl)) in Et.
  destruct (as_votes _ _ _ _ _ _ A) as [[_ _ Vs] R].
  split; [lia|]. split; [lia|]. split; [|done]. intros Hl. destruct (R (or_intror Hl)) as (Es & Et' & _).
  rewrite Es in Hl. destruct Hr; [done|lia].
Qed.

Lemma pairing_next buf sl sf Ll Lf Cl Cf i p x c n sf' Lf' Cf' r sl' Cl' :
  pairing buf sl sf Ll Lf Cl Cf i p x -> m_state (g_me sl) = LEADER ->
  c `prefix_of` beyond sl Ll (s_next_index x - 1) ->
  inv sf' Lf' Cf' -> locks sf' = no_locks ->
  append_spec (request_of sl Ll (s_next_index x - 1) c n) sf sf' Lf Lf' r ->
  inv sl' Ll Cl' -> locks sl' = no_locks -> reply_spec r sl sl' Ll Cl Cl' ->
  exists x', exchanged_to sl sf Ll Lf x c sf' Lf' x' /\
    (m_state (g_me sl') = LEADER -> pairing buf sl' sf' Ll Lf' Cl' Cf' i p x').
Proof.
  intros P Hlead Hpre If' Hkf A Il' Hkl V.
  pose proof (request_effect _ _ _ _ _ _ _ _ _ _ _ _ _ _ _ _ P Hpre If' A) as Hef. cbv zeta in Hef.
  destruct (follower_term _ _ _ _ _ _ _ _ _ _ _ _ _ _ _ P A) as (Et & Er & Hnl & Hid).
  destruct (pr_leader _ _ _ _ _ _ _ _ _ _ P) as [Il _], (pr_follower _ _ _ _ _ _ _ _ _ _ P) as [If _].
  pose proof (pr_next _ _ _ _ _ _ _ _ _ _ P) as Hn. pose proof (pr_kept _ _ _ _ _ _ _ _ _ _ P) as Hkept.
  pose proof (pr_found _ _ _ _ _ _ _ _ _ _ P) as Hf.
  destruct (as_reply _ _ _ _ _ _ A) as (_ & Hsid & _ & Hla).
  destruct (batch_length sl Ll Cl (s_next_index x - 1) c (inv_core _ _ _ Il) ltac:(lia) Hpre) as (Hlen & _ & _).
  pose proof (lr_max _ _ (co_log _ _ _ (inv_core _ _ _ Il))) as Hmax.
  pose proof (lr_offset _ _ (co_log _ _ _ (inv_core _ _ _ Il))) as Hoff.
  pose proof (co_last _ _ _ (inv_core _ _ _ If')) as Hcl. pose proof (as_commit _ _ _ _ _ _ A) as Hmono.
  set (prev := s_next_index x - 1) in *. set (x' := noted (el_now (g_elec sl)) r x).
  assert (Cl' = <[i := x']> Cl) as EC by (by apply (rp_found _ _ _ _ _ _ V); [rewrite Hsid| |]).
  assert (0 <= pa_last_log_index r /\
    m_commit_index (g_me sf') <= pa_last_log_index r <= l_last_log_index (lg (g_raft_log sl))) as Hlast.
  { split; [|split; [lia|]]; destruct (decide _) as [|]; destruct Hef as (_ & _ & ? & ?) || destruct Hef as (_ & _ & ?); lia. }
  assert (s_next_index x' = pa_last_log_index r + 1) as Enext.
  { unfold x', noted. destruct (truthy _); cbn; rewrite u64_small by lia; done. }
  exists x'. split.
  - unfold exchanged_to. fold prev. destruct (decide _).
    + destruct Hef as (Hs & HL & Hl). split; [done|].
      assert (s_match_index x' = pa_last_log_index r) as -> by (unfold x', noted; by rewrite Hs).
      by rewrite Enext.
    + destruct Hef as (Hs & HL & Hl & Hc). rewrite Enext, Hl.
      split; [done|]. split; [done|]. split; [|done]. unfold x', noted. by rewrite Hs.
  - intros Hlead'. destruct (sy_role _ _ (rp_votes _ _ _ _ _ _ V) (or_intror Hlead')) as (_ & Etl & _).
    destruct (pr_sendable _ _ _ _ _ _ _ _ _ _ P) as [An ? ? ? ? ?].
    split; [done|done| | |lia|by left| |by rewrite (rp_objs _ _ _ _ _ _ V); apply (pr_obj _ _ _ _ _ _ _ _ _ _ P)| |].
    + unfold anchored. rewrite (as_snap _ _ _ _ _ _ A), (as_offset _ _ _ _ _ _ A).
      apply (pr_anchor _ _ _ _ _ _ _ _ _ _ P).
    + split; try done. unfold anchored. by rewrite (rp_snap _ _ _ _ _ _ V), (rp_log _ _ _ _ _ _ V).
    + rewrite Hid, EC. apply (list_find_insert _ _ _ x); [done|]. apply list_find_Some in Hf as (_ & <- & _).
      unfold x', noted. by destruct (truthy _).
    + rewrite (rp_log _ _ _ _ _ _ V), Enext. lia.
    + rewrite (rp_log _ _ _ _ _ _ V). lia.
Qed.

End Sending.

Section Delivery.
Context `{Rmr} `{Host} (pad : bytes) (pad_len : length pad = 4%nat) (max_msg_size : Z).

(** The exchange: [rest] is what the buffer of the message holds behind the
    payload. A snapshot, or no message at all, ends it. *)
Definition exchange (kl kf : sys) (rmr_realloc_payload : bytes -> Z -> option bytes) (server : loc)
    (lbuf payload rest : bytes) : M (St * St) unit :=
  '(msg, _) ← zoom leader_l
    (raft_server_send kl pad max_msg_size rmr_realloc_payload server lbuf payload
       (Z.of_nat (length lbuf)));
  match msg with
  | Some (MsgAppend h data) =>
      reply ← zoom follower_l (worker_append_entries kf h (data ++ rest));
      zoom leader_l (handle_append_entries_reply reply)
  | _ => mret tt
  end.

(** The serializer, under the lock of the raft log. *)
Lemma serialize_raft_ok s L C buf lbuf prev :
  core s L C -> k_raft (locks s) = false -> sendable max_msg_size s L buf -> buf = Z.of_nat (length lbuf) ->
  l_index_offset (lg (g_raft_log s)) <= prev <= l_last_log_index (lg (g_raft_log s)) ->
  exists c z, zoom raft_log_l (serialize_raft_log_entries pad true (u64 (prev + 1))
      (l_last_log_index (lg (g_raft_log s)) - prev) lbuf buf max_msg_size) s =
      Ok (Z.of_nat (length c), z, None) s /\
    batch max_msg_size s L prev c /\ 0 <= z_bytes z <= max_msg_size - APND_ENTR_HDR_LEN /\
    z_bytes z <= Z.of_nat (length (z_buf z)) /\
    forall post, deserialize_raft_log_entries (take (Z.to_nat (z_bytes z)) (z_buf z) ++ post)
      (Z.of_nat (length c)) = Some c.
Proof using pad_len.
  intros Co Hk Sd -> Hp. set (gl := g_raft_log s) in *. set (last := l_last_log_index (lg gl)).
  set (m := log_range (set_lg (lg gl) (LogSt (lg gl) true)) L (prev + 1) (last - prev)).
  pose proof (core_last_length _ _ _ Co) as Hl. fold gl in Hl.
  pose proof (co_log _ _ _ Co) as R. fold gl in R. pose proof (lr_max _ _ R). pose proof (lr_offset _ _ R).
  assert (m = beyond s L prev) as Em.
  { unfold m, log_range, beyond. cbn [set_lg lg]. fold gl.
    rewrite take_ge by (rewrite length_drop; lia). f_equal. lia. }
  assert (forall P : log_entry_t -> Prop, Forall P L -> Forall P m) as Hall.
  { intros P HP. rewrite Em. by apply Forall_drop. }
  destruct (sd_max _ _ _ _ Sd) as [Hmax1 Hmax2].
  destruct (raft_transfer pad pad_len (max_msg_size - APND_ENTR_HDR_LEN) (prev + 1) (last - prev) lbuf
    (LogSt (lg gl) true) L) as (c & z & E & Hpre & Hnext & Hz & Hle & Hbuf & Hd);
    [by destruct R; split|unfold APND_ENTR_HDR_LEN in *; lia|lia|cbn; lia|cbn; lia|by apply Hall, Sd|
     by apply Hall, Sd| |].
  { apply Hall. apply Forall_and; split; [|by apply Sd].
    eapply Forall_impl; [apply Co|]. by intros e [? _]. }
  exists c, z. assert (0 <= z_bytes z).
  { rewrite Hz. apply wire_size_nonneg. destruct Hpre as [r Er].
    assert (Forall raft_wire (c ++ r)) as Hw by (rewrite <- Er; by apply (Hall raft_wire), Sd).
    by apply Forall_app in Hw as [? _]. }
  split; [|split; [|by split]].
  - rewrite u64_small by lia. unfold zoom, serialize_raft_log_entries. cbn [lget raft_log_l]. fold gl.
    mrun. cbn. unfold locks in Hk. cbn in Hk. fold gl in Hk. rewrite Hk. rewrite E. cbn.
    f_equal. unfold gl in *. by destruct s as [? ? [? ?] ? ? ? ? ? ?]; cbn in *; subst.
  - change (log_range _ _ _ _) with m in Hpre, Hnext. rewrite Em in Hpre, Hnext.
    eapply batch_intro; try done; [apply Hp|]. intros e He. rewrite <- Hz. by apply Hnext.
Qed.

Lemma find_deref s L C i x p :
  core s L C -> C !! i = Some x -> c_servers (cf (g_config s)) !! i = Some p ->
  zoom config_l (deref p) s = Ok x s.
Proof using Type.
  intros Co Hi Hp. destruct (objs_lookup _ _ (rep_objs _ _ (co_cfg _ _ _ Co)) i x Hi) as (p' & Hp' & Hx).
  rewrite Hp in Hp'. injection Hp' as <-. unfold zoom. cbn [lget config_l].
  rewrite (deref_objs _ p x Hx). by destruct s.
Qed.

(** One turn of the sending thread of a leader that still holds what the
    follower needs: entries only go out once the follower has confirmed the
    index before them. *)
Lemma raft_server_send_ok k rmr p lbuf payload s L C i x :
  inv s L C -> locks s = no_locks -> m_state (g_me s) = LEADER -> sys_alloc k = true ->
  sendable max_msg_size s L (Z.of_nat (length lbuf)) ->
  C !! i = Some x -> c_servers (cf (g_config s)) !! i = Some p ->
  let prev := s_next_index x - 1 in
  l_index_offset (lg (g_raft_log s)) <= prev <= l_last_log_index (lg (g_raft_log s)) ->
  exists c n data, raft_server_send k pad max_msg_size rmr p lbuf payload (Z.of_nat (length lbuf)) s =
      Ok (Some (MsgAppend (append_hdr s L prev (Z.of_nat (length c)) n) data), s_match_index x =? prev) s /\
    (if s_match_index x =? prev then batch max_msg_size s L prev c else c = []) /\
    forall post, if truthy (Z.of_nat (length c))
      then deserialize_raft_log_entries (data ++ post) (Z.of_nat (length c)) = Some c else c = [].
Proof using pad_len.
  intros I Hk Hs Hal Sd Hi Hp prev Hprev. pose proof (inv_core _ _ _ I) as Co.
  pose proof (lr_max _ _ (co_log _ _ _ Co)). pose proof (lr_offset _ _ (co_log _ _ _ Co)).
  pose proof (core_last_length _ _ _ Co) as Hl. set (last := l_last_log_index (lg (g_raft_log s))) in *.
  destruct (sd_max _ _ _ _ Sd) as [Hmax1 Hmax2].
  assert (k_raft (locks s) = false) as Hkr by (by rewrite Hk).
  unfold raft_server_send. rewrite (bind_Ok _ _ _ _ _ (find_deref s L C i x p Co Hi Hp)). cbv zeta.
  rewrite u64_small by lia. fold prev.
  assert (forall c z, z_bytes z <= max_msg_size - APND_ENTR_HDR_LEN -> 0 <= z_bytes z ->
    z_bytes z <= Z.of_nat (length (z_buf z)) ->
    (o ← send_append_entries prev (Z.of_nat (length (c : list log_entry_t))) (z_buf z) (z_bytes z);
     mret ((fun hp => MsgAppend (fst hp) (snd hp)) <$> o)) s =
    Ok (Some (MsgAppend (append_hdr s L prev (Z.of_nat (length c)) (z_bytes z))
      (if truthy (Z.of_nat (length c)) then take (Z.to_nat (z_bytes z)) (z_buf z) else []))) s) as Hend.
  { intros c z H3 H4 H5.
    rewrite (bind_Ok _ _ _ _ _ (send_append_ok s L C prev (Z.of_nat (length c)) (z_buf z) (z_bytes z)
      Co Hk (sd_anchor _ _ _ _ Sd) Hs Hprev H4 ltac:(lia) H5)). done. }
  destruct (Z.eqb_spec (s_match_index x) prev) as [Hm|Hm].
  2: { exists [], 0, []. split; [|by split].
       rewrite (bind_Ok _ _ s (0, Srlz 0 lbuf (Z.of_nat (length lbuf)), None) s) by done. cbv beta iota.
       rewrite decide_False by done.
       by rewrite (bind_Ok _ _ _ _ _ (Hend [] (Srlz 0 lbuf (Z.of_nat (length lbuf))) ltac:(cbn; lia) ltac:(done) ltac:(cbn; lia))). }
  assert (Z.of_nat (length L) < 2 ^ 32) as Hsmall.
  { destruct (lr_ring _ _ (co_log _ _ _ Co)) as (r & _ & R). pose proof (ring_rep_length _ _ R).
    pose proof (ring_size_bounds _ (rep_wf _ _ R)). lia. }
  assert (u32 (u32 last - prev) = last - prev) as Hn.
  { unfold u32. rewrite Zminus_mod_idemp_l. apply Z.mod_small. lia. }
  pose proof (get_raft_last_ok s L C Co Hkr) as El. fold last in El. rewrite Hal.
  destruct (Z.eq_dec last prev) as [Heq|Hne].
  { exists [], 0, []. split; [|split; [|done]].
    - rewrite (bind_Ok _ _ s (0, Srlz 0 lbuf (Z.of_nat (length lbuf)), None) s).
      2: { rewrite (bind_Ok _ _ _ _ _ El), Hn, Heq, Z.sub_diag. done. }
      rewrite decide_False by done.
      by rewrite (bind_Ok _ _ _ _ _ (Hend [] (Srlz 0 lbuf (Z.of_nat (length lbuf))) ltac:(cbn; lia) ltac:(done) ltac:(cbn; lia))).
    - assert (beyond s L prev = []) as Eb by (unfold beyond; apply drop_ge; lia).
      split; [apply prefix_nil|unfold last in *; lia|by rewrite Eb]. }
  destruct (serialize_raft_ok s L C _ lbuf prev Co Hkr Sd eq_refl Hprev)
    as (c & z & E & Hb & H3 & H4 & Hd). fold last in E. rewrite u64_small in E by lia.
  replace (s_next_index x) with (prev + 1) by (unfold prev; lia).
  rewrite (bind_Ok _ _ s (Z.of_nat (length c), z, None) s), decide_False; [|done|].
  2: { rewrite (bind_Ok _ _ _ _ _ El), Hn. unfold truthy. by rewrite (proj2 (Z.eqb_neq _ 0)) by lia. }
  rewrite (bind_Ok _ _ _ _ _ (Hend c z ltac:(lia) ltac:(lia) ltac:(lia))).
  exists c, (z_bytes z), (if truthy (Z.of_nat (length c)) then take (Z.to_nat (z_bytes z)) (z_buf z) else []).
  split; [done|]. split; [done|]. intros post. destruct c as [|e c]; [done|]. exact (Hd post).
Qed.

(** Room for what the leader may send, at both servers. *)
Definition pair_room (sl sf : St) : Prop :=
  room (l_last_log_index (lg (g_raft_log sl)) - l_index_offset (lg (g_raft_log sl))) sf /\ room 0 sl.

(** What an exchange leaves alone: where the logs begin, and the leader's log. *)
Definition same_base (s s' : St) : Prop :=
  l_index_offset (lg (g_raft_log s')) = l_index_offset (lg (g_raft_log s)) /\
  sn_raft_snapshot (g_snap s') = sn_raft_snapshot (g_snap s).

(** An exchange always comes to its end, and both servers keep their
    invariants. *)
Lemma exchange_ok buf kl kf rmr p lbuf payload rest sl sf Ll Lf Cl Cf i x :
  pairing max_msg_size buf sl sf Ll Lf Cl Cf i p x -> buf <= Z.of_nat (length lbuf) ->
  m_state (g_me sl) = LEADER -> sys_alloc kl = true -> pair_room sl sf ->
  wp tolerated (exchange kl kf rmr p lbuf payload rest) (sl, sf) (fun _ q =>
    exists Lf' Cl' Cf' c x',
      (if s_match_index x =? s_next_index x - 1
       then batch max_msg_size sl Ll (s_next_index x - 1) c else c = []) /\
      exchanged_to sl sf Ll Lf x c (snd q) Lf' x' /\
      (inv (fst q) Ll Cl' /\ locks (fst q) = no_locks) /\ (inv (snd q) Lf' Cf' /\ locks (snd q) = no_locks) /\
      same_base sl (fst q) /\ same_base sf (snd q) /\ g_raft_log (fst q) = g_raft_log sl /\
      (m_state (g_me (fst q)) = LEADER ->
       pairing max_msg_size buf (fst q) (snd q) Ll Lf' Cl' Cf' i p x')).
Proof using pad_len.
  intros P Hbuf Hlead Hal [Hroom Hmax].
  destruct (pr_leader _ _ _ _ _ _ _ _ _ _ _ P) as [Il Hkl], (pr_follower _ _ _ _ _ _ _ _ _ _ _ P) as [If Hkf].
  pose proof (pr_next _ _ _ _ _ _ _ _ _ _ _ P) as Hn. pose proof (pr_kept _ _ _ _ _ _ _ _ _ _ _ P) as Hkept.
  pose proof (pr_found _ _ _ _ _ _ _ _ _ _ _ P) as Hf. pose proof Hf as (Hi & _)%list_find_Some.
  destruct (raft_server_send_ok kl rmr p lbuf payload sl Ll Cl i x Il Hkl Hlead Hal
    (sendable_mono _ _ _ _ _ Hbuf (pr_sendable _ _ _ _ _ _ _ _ _ _ _ P)) Hi (pr_obj _ _ _ _ _ _ _ _ _ _ _ P) ltac:(lia))
    as (c & n & data & E & Hb & Hd).
  assert (c `prefix_of` beyond sl Ll (s_next_index x - 1)) as Hpre.
  { destruct (_ =? _); [apply Hb|]. subst c. apply prefix_nil. }
  destruct (batch_length sl Ll Cl (s_next_index x - 1) c (inv_core _ _ _ Il) ltac:(lia) Hpre)
    as (Hlen & _ & Hok).
  pose proof (lr_max _ _ (co_log _ _ _ (inv_core _ _ _ Il))).
  pose proof (lr_offset _ _ (co_log _ _ _ (inv_core _ _ _ Il))).
  pose proof (co_last _ _ _ (inv_core _ _ _ Il)). pose proof (co_commit _ _ _ (inv_core _ _ _ Il)).
  pose proof (co_applied _ _ _ (inv_core _ _ _ Il)).
  apply (room_roomy _ _ _ _ If) in Hroom. apply (room_roomy _ _ _ _ Il) in Hmax.
  unfold exchange. apply wp_bind, wp_zoom. cbn [lget leader_l fst].
  eapply wp_eq; [exact E|]. cbn [lput leader_l snd].
  apply wp_bind, wp_zoom. cbn [lget follower_l snd].
  eapply (worker_append_run kf _ _ c); [exact (Hd rest)|].
  eapply wp_mono; [apply (handle_append_ok kf _ sf Lf Cf If Hkf)|].
  all: cbn [append_req append_hdr ra_term ra_prev_log_index ra_leader_commit ra_entries ra_n_entries
    ah_term ah_prev_log_index ah_leader_commit ah_n_entries].
  - apply (co_term _ _ _ (inv_core _ _ _ Il)).
  - lia.
  - lia.
  - done.
  - done.
  - destruct Hroom. split; lia.
  - intros r sf' (Lf' & Cf' & If' & Hkf' & A). cbn [lput follower_l fst].
    destruct (follower_term _ _ _ _ _ _ _ _ _ _ _ _ _ _ _ _ P A) as (_ & Er & _).
    destruct (as_reply _ _ _ _ _ _ A) as (_ & _ & _ & Hla).
    pose proof (lr_max _ _ (co_log _ _ _ (inv_core _ _ _ If'))).
    pose proof (co_last _ _ _ (inv_core _ _ _ If')). pose proof (as_commit _ _ _ _ _ _ A).
    apply wp_zoom. cbn [lget leader_l fst].
    eapply wp_mono; [apply (handle_append_reply_ok r sl Ll Cl Il Hkl)|].
    + rewrite Er. apply (co_term _ _ _ (inv_core _ _ _ Il)).
    + lia.
    + destruct Hmax. lia.
    + intros [] sl' (Cl' & Il' & Hkl' & V). cbn [lput leader_l fst snd].
      destruct (pairing_next _ _ _ _ _ _ _ _ _ _ _ _ _ _ _ _ _ _ _ P Hlead Hpre If' Hkf' A Il' Hkl' V) as (x' & Hx & Hp').
      exists Lf', Cl', Cf', c, x'. repeat (split; [done|]). split; [|split; [|split; [|done]]].
      * split; [by rewrite (rp_log _ _ _ _ _ _ V)|apply (rp_snap _ _ _ _ _ _ V)].
      * split; [apply (as_offset _ _ _ _ _ _ A)|apply (as_snap _ _ _ _ _ _ A)].
      * apply (rp_log _ _ _ _ _ _ V).
Qed.

End Delivery.
