(* ===== verification/RaftSnap.v ===== *)
(** * The raft snapshot is stored (src/snapshot.c, src/log.c)

    The thread of the parent that reads the snapshot of the configuration from
    the pipe, stores it and cuts the raft log, on a server in the invariant. *)

From S2P Require Import Prelude Monad Types LogRing Mtl Config Quorum HashTable HashMap State Utils Log.
From S2P Require Import Serialize Snapshot RaftLog Raft XApp Server Invariant Commit Election.
From S2P Require Import Replication Install XRepl Worker Delivery.
Open Scope Z_scope.

Section RaftSnap.
Context `{Rmr} `{Host}.

(** The snapshot [meta], [data] is stored and the log begins behind it. *)
Definition snapshot_stored (s s' : St) (L L' : list log_entry_t) (meta : pipe_metabuf_t) (data : bytes) : Prop :=
  sn_raft_snapshot (g_snap s') =
    RaftSnapshot (pm_last_term meta) (pm_last_index meta) (pm_dlen meta) (pm_items meta) (Some data) /\
  l_index_offset (lg (g_raft_log s')) = pm_last_index meta /\
  L' = drop (Z.to_nat (pm_last_index meta - l_index_offset (lg (g_raft_log s)))) L.

(** What was read of it is in the block, and nothing else is changed. *)
Definition snapshot_kept (s s' : St) (L L' : list log_entry_t) : Prop :=
  rs_last_term (sn_raft_snapshot (g_snap s')) = rs_last_term (sn_raft_snapshot (g_snap s)) /\
  rs_last_index (sn_raft_snapshot (g_snap s')) = rs_last_index (sn_raft_snapshot (g_snap s)) /\
  g_raft_log s' = g_raft_log s /\ L' = L.

(** The snapshot in the pipe when the thread gets all of it. *)
Definition arrived (read_meta : bool) (got : option nat) (s : St) : option (pipe_metabuf_t * bytes) :=
  match sn_raft_pipe (g_snap s), got with
  | Some (meta, b :: data), None => if read_meta then Some (meta, b :: data) else None
  | _, _ => None
  end.

Definition snapshot_outcome (read_meta : bool) (got : option nat) (s s' : St) (L L' : list log_entry_t) : Prop :=
  match arrived read_meta got s with
  | Some (meta, data) => snapshot_stored s s' L L' meta data
  | None => snapshot_kept s s' L L'
  end.

(** The rest of the server, and the end of the snapshot in progress. *)
Definition snapshot_ended (s s' : St) : Prop :=
  g_me s' = g_me s /\ g_config s' = g_config s /\ g_xapp_log s' = g_xapp_log s /\ g_app s' = g_app s /\
  g_repl s' = g_repl s /\ g_elec s' = g_elec s /\ locks s' = no_locks /\
  sn_raft_pipe (g_snap s') = None /\ sn_raft_in_progress (g_snap s') = false.

Lemma core_without_pipe s L C b :
  core s L C -> core (set_snap (set_raft_in_progress b (set_raft_pipe None (g_snap s))) s) L C.
Proof. intros []. by split. Qed.

Lemma entries_compact L : Forall entry_ok L -> Forall (fun e => raft_compact_size e = entry_size e) L.
Proof. intros HL. eapply Forall_impl; [exact HL|]. intros e [He _]. by apply raft_compact_size_ok. Qed.

Lemma parent_raft_ok b1 b2 got s L C :
  core s L C -> locks s = no_locks ->
  wp only_exit (parent_raft_thread b1 b2 got) s (fun _ s' => exists L',
    core s' L' C /\ snapshot_ended s s' /\
    snapshot_outcome b2 got s s' L L').
Proof.
  intros Co Hk. pose proof (lr_offset _ _ (co_log _ _ _ Co)) as Ho.
  set (post := fun s' => exists L', core s' L' C /\ snapshot_ended s s' /\ snapshot_outcome b2 got s s' L L').
  unfold parent_raft_thread. apply wp_bind, wp_gets, wp_bind.
  assert (forall s1, (exists L', core s1 L' C /\ g_me s1 = g_me s /\ g_config s1 = g_config s /\
      g_xapp_log s1 = g_xapp_log s /\ g_app s1 = g_app s /\ g_repl s1 = g_repl s /\ g_elec s1 = g_elec s /\
      locks s1 = no_locks /\ snapshot_outcome b2 got s s1 L L') ->
    wp only_exit (zoom snap_l (modify (set_raft_pipe None));;
      end_progress raft_in_progress_lock raft_in_progress_lock_l raft_in_progress_l) s1 (fun _ => post)) as Hend.
  { intros s1 (L' & Co1 & Em & Ec & Ex & Ea & Er & Ee & Hk1 & Hs).
    apply (core_without_pipe _ _ _ false) in Co1. pose proof (f_equal k_rprog Hk1) as Hp.
    unfold locks, no_locks in Hk1. apply wp_bind, wp_zoom, wp_modify, wp_zoom.
    destruct s1 as [me sl rl xl cf [ip rs pipe rsl rpl xip xs xpi xsl xpl] rp el ax].
    cbn in Hp, Hk1. subst rpl. cbn in *. exists L'. split; [exact Co1|]. split; [by split_and!|]. exact Hs. }
  assert (forall s1, core s1 L C -> locks s1 = no_locks -> g_me s1 = g_me s -> g_config s1 = g_config s ->
    g_xapp_log s1 = g_xapp_log s -> g_app s1 = g_app s -> g_repl s1 = g_repl s -> g_elec s1 = g_elec s ->
    arrived b2 got s = None -> snapshot_kept s s1 L L -> wp only_exit (zoom snap_l (modify (set_raft_pipe None));;
      end_progress raft_in_progress_lock raft_in_progress_lock_l raft_in_progress_l) s1 (fun _ => post)) as Hkept.
  { intros s1 ? ? ? ? ? ? ? ? Hn ?. apply Hend. exists L. split_and!; try done. unfold snapshot_outcome. by rewrite Hn. }
  destruct (sn_raft_pipe (g_snap s)) as [[meta data]|] eqn:Hpipe; [|apply wp_ret, Hkept; try done; unfold arrived; by rewrite Hpipe].
  destruct b2; [|apply wp_ret, Hkept; try done; unfold arrived; rewrite Hpipe; by destruct data, got].
  destruct (co_pipe _ _ _ Co _ _ Hpipe) as [Hip Hi]. pose proof (co_commit _ _ _ Co). pose proof (co_last _ _ _ Co).
  pose proof (f_equal k_rsnap Hk) as Hls. pose proof (f_equal k_raft Hk) as Hlr. unfold locks, no_locks in Hk.
  destruct s as [me sl rl xl cf [ip rs pipe rsl rpl xip xs xpi xsl xpl] rp el ax]. cbn in *. subst rsl.
  unfold wp, lock, unlock. mrun. cbn. destruct b1; cbn; [|done].
  destruct (read_data data (rs_data rs) got) as [block ok] eqn:Eb. destruct ok; cbn.
  - destruct (compact_log_rep raft_log_lock raft_compact_size rl L (pm_last_index meta) (co_log _ _ _ Co) Hlr ltac:(lia))
      as (g & E & Rg & (Fk & _) & Hg); [by apply entries_compact, (co_entries _ _ _ Co)|].
    unfold compact_raft_log, zoom. mrun. cbn. rewrite E. cbn. apply Hend. cbn.
    exists (drop (Z.to_nat (pm_last_index meta - l_index_offset (lg rl))) L). split; [|split_and!; try done].
    + pose proof (lr_last _ _ Rg) as Hlast. rewrite Hg, length_drop in Hlast.
      pose proof (lr_last _ _ (co_log _ _ _ Co)) as Hlast0. cbn in Hlast0.
      destruct Co as [C1 C2 C3 C4 C5 C6 C7 C8 C9]. cbn in *.
      split; cbn; try done; [by apply Forall_drop|lia|lia|]. intros m d E1. rewrite Hpipe in E1.
      injection E1 as <- <-. split; [done|lia].
    + unfold locks. cbn. by rewrite Fk.
    + unfold read_data in Eb. unfold snapshot_outcome, arrived. cbn. rewrite Hpipe.
      destruct got, data; try done. injection Eb as <-. by split_and!.
  - apply Hkept; try done; [by eapply core_same; [..|exact Co]|].
    unfold read_data in Eb. unfold arrived. cbn. rewrite Hpipe. by destruct got, data.
Qed.

(** An anchored server stays anchored. *)
Lemma parent_raft_anchored b2 got s s' L L' :
  anchored s -> snapshot_outcome b2 got s s' L L' -> anchored s'.
Proof.
  unfold anchored, snapshot_outcome. intros An. destruct (arrived b2 got s) as [[meta data]|].
  - intros (Es & Eo & _). by rewrite Es, Eo.
  - intros (_ & Ei & El & _). by rewrite Ei, El.
Qed.

(** No entry is lost but those the snapshot replaces, and they are applied. *)
Lemma outcome_entries b2 got s s' L L' C i :
  core s L C -> snapshot_outcome b2 got s s' L L' -> m_last_applied (g_me s) < i ->
  entry_at s' L' i = entry_at s L i.
Proof.
  unfold snapshot_outcome, arrived, entry_at, log_lookup. intros Co. pose proof (co_pipe _ _ _ Co) as Hp.
  destruct (sn_raft_pipe (g_snap s)) as [[meta data]|]; [|intros (_ & _ & -> & ->); done].
  destruct (Hp _ _ eq_refl) as [_ Hi].
  destruct data as [|c data], got, b2; try (intros (_ & _ & -> & ->); done).
  intros (_ & -> & ->) Ha. rewrite !(proj2 (Z.leb_le _ _)) by lia. rewrite lookup_drop. f_equal. lia.
Qed.

End RaftSnap.
