(* ===== verification/CatchUp.v ===== *)
(** * A follower catches up (proofs about src/rft.c)

    A run of exchanges between a leader and a follower brings the log of the
    follower to that of the leader, whatever it held behind its committed
    entries, within a number of exchanges that is known in advance. *)

From S2P Require Import Prelude Monad Types LogRing Mtl Config Quorum HashTable State.
From S2P Require Import Utils Log Serialize Snapshot RaftLog Raft XApp Server Invariant.
From S2P Require Import Commit Election Replication Worker Delivery.
Open Scope Z_scope.

(** ** The phases of a follower

    [sl0], [sf0] and [L0] are the servers and the follower's log at the
    beginning: what the logs are compared with does not change. *)
Section Phases.
Context `{Rmr} `{Host}.
Context (sl0 sf0 : St) (Ll L0 : list log_entry_t) (Cl0 Cf0 : list server_t).
Context (I0 : inv sl0 Ll Cl0) (J0 : inv sf0 L0 Cf0) (An : anchored sf0).
Context (Hkept : l_index_offset (lg (g_raft_log sl0)) <= m_commit_index (g_me sf0)).

Let B (i : index_t) : list log_entry_t := beyond sl0 Ll i.
Let last : index_t := l_last_log_index (lg (g_raft_log sl0)).
Let c0 : index_t := m_commit_index (g_me sf0).

(** The follower keeps its log up to index [base], where the logs agree, and
    holds [m] of the leader's entries behind it. *)
Definition holds_to (base : index_t) (m : nat) (Lf : list log_entry_t) : Prop :=
  c0 <= base <= last /\ agree sl0 sf0 Ll L0 base /\ (m <= length (B base))%nat /\
  Lf = upto sf0 L0 base ++ take m (B base).

(** The leader knows it. *)
Definition synced (base : index_t) (m : nat) (Lf : list log_entry_t) (x : server_t) : Prop :=
  holds_to base m Lf /\
  s_next_index x - 1 = base + Z.of_nat m /\ s_match_index x = s_next_index x - 1.

(** The follower has gone back to its committed entries. *)
Definition confirmed (Lf : list log_entry_t) (x : server_t) : Prop :=
  Lf = upto sf0 L0 c0 /\ s_next_index x - 1 = c0.

Lemma length_B base : c0 <= base <= last -> Z.of_nat (length (B base)) = last - base.
Proof.
  intros Hb. pose proof (core_last_length _ _ _ (inv_core _ _ _ I0)). unfold B, beyond, last, c0 in *.
  rewrite length_drop. lia.
Qed.

Lemma B_drop base m : c0 <= base -> B (base + Z.of_nat m) = drop m (B base).
Proof. intros Hb. unfold B, beyond, c0 in *. rewrite drop_drop. f_equal. lia. Qed.

Lemma length_upto0 base : c0 <= base -> agree sl0 sf0 Ll L0 base ->
  Z.of_nat (length (upto sf0 L0 base)) = base - l_index_offset (lg (g_raft_log sf0)).
Proof.
  intros Hb Ha. pose proof (core_last_length _ _ _ (inv_core _ _ _ J0)).
  destruct (consistent_range (ReqAppend 0 "" base (fst (prev_of sl0 Ll base)) 0 0 []) sf0 L0 L0 Cf0
    (inv_core _ _ _ J0) An ltac:(done) Ha).
  apply (length_upto _ _ Cf0); [apply J0|]. cbn in *. lia.
Qed.

(** Where the leader's entries have been appended, the logs agree. *)
Lemma agree_holds base m Lf : holds_to base m Lf -> agree sl0 sf0 Ll Lf (base + Z.of_nat m).
Proof.
  intros (Hb & Ha & Hm & ->). pose proof (length_upto0 base ltac:(lia) Ha) as Hlen.
  pose proof (length_B base Hb) as HlB.
  pose proof (co_applied _ _ _ (inv_core _ _ _ J0)). pose proof (co_commit _ _ _ (inv_core _ _ _ J0)).
  destruct m as [|m].
  - rewrite take_0, app_nil_r, Z.add_0_r. unfold agree. unfold upto.
    rewrite (prev_of_take _ _ Cf0); [exact Ha|apply J0|]. unfold c0 in *. lia.
  - destruct (B base !! m) as [e|] eqn:Ee; [|apply lookup_ge_None in Ee; lia].
    assert (Ll !! (Z.to_nat (base - l_index_offset (lg (g_raft_log sl0))) + m)%nat = Some e) as El
      by (by rewrite <- lookup_drop).
    assert (e_index e = base + Z.of_nat (S m)) as Hi.
    { rewrite (lr_index _ _ (co_log _ _ _ (inv_core _ _ _ I0)) _ _ El). unfold c0 in *. lia. }
    assert (prev_of sl0 Ll (base + Z.of_nat (S m)) = (e_term e, e_index e)) as El'.
    { unfold prev_of, log_lookup. rewrite (proj2 (Z.leb_le _ _)) by (unfold c0 in *; lia).
      replace (Z.to_nat _) with (Z.to_nat (base - l_index_offset (lg (g_raft_log sl0))) + m)%nat
        by (unfold c0 in *; lia). by rewrite El. }
    unfold agree. rewrite El'. cbn [fst]. unfold prev_of, log_lookup.
    rewrite (proj2 (Z.leb_le _ _)) by (unfold c0 in *; lia).
    rewrite lookup_app_r by (unfold c0 in *; lia).
    replace (Z.to_nat _ - _)%nat with m by (unfold c0 in *; lia).
    rewrite lookup_take_lt by lia. by rewrite Ee, Hi.
Qed.

Lemma length_holds base m Lf : holds_to base m Lf ->
  Z.of_nat (length Lf) = base + Z.of_nat m - l_index_offset (lg (g_raft_log sf0)).
Proof.
  intros (Hb & Ha & Hm & ->). rewrite length_app, length_take.
  pose proof (length_upto0 base ltac:(lia) Ha). lia.
Qed.

Lemma holds_start base : c0 <= base <= last -> agree sl0 sf0 Ll L0 base ->
  holds_to base 0 (upto sf0 L0 base).
Proof. intros Hb Ha. split; [done|]. split; [done|]. split; [lia|]. by rewrite take_0, app_nil_r. Qed.

(** What is held grows by what is sent. *)
Lemma holds_more base m Lf c : holds_to base m Lf -> c `prefix_of` B (base + Z.of_nat m) ->
  holds_to base (m + length c) (Lf ++ c).
Proof.
  intros (Hb & Ha & Hm & ->) Hc. rewrite B_drop in Hc by lia.
  pose proof (prefix_length _ _ Hc) as Hl. rewrite length_drop in Hl.
  split; [done|]. split; [done|]. split; [lia|].
  rewrite <- app_assoc. f_equal. destruct Hc as [r Hr].
  rewrite <- (take_drop m (B base)) at 2. rewrite Hr.
  rewrite take_app_ge by (rewrite length_take; lia). f_equal.
  rewrite length_take. replace (m + length c - m `min` length (B base))%nat with (length c) by lia.
  by rewrite take_app_length.
Qed.

(** At most [n] exchanges are left. *)
Definition within (n : nat) (sf : St) (Lf : list log_entry_t) (x : server_t) : Prop :=
  (exists base m, synced base m Lf x /\ last - (base + Z.of_nat m) <= Z.of_nat n) \/
  (confirmed Lf x /\ m_commit_index (g_me sf) = c0 /\ 1 + (last - c0) <= Z.of_nat n) \/
  (Lf = L0 /\ m_commit_index (g_me sf) = c0 /\ 2 + (last - c0) <= Z.of_nat n).

(** The outcome of one exchange, in terms of the servers at the beginning. *)
Definition turn (sf : St) (Lf : list log_entry_t) (x : server_t) (sf' : St) (Lf' : list log_entry_t)
    (x' : server_t) (c : list log_entry_t) : Prop :=
  let prev := s_next_index x - 1 in
  c `prefix_of` B prev /\ (s_match_index x = prev -> prev < last -> c <> []) /\
  if decide (agree sl0 sf0 Ll Lf prev) then
    Lf' = upto sf0 Lf prev ++ c /\
    s_match_index x' = prev + Z.of_nat (length c) /\ s_next_index x' = s_match_index x' + 1
  else
    Lf' = upto sf0 Lf (m_commit_index (g_me sf)) /\
    m_commit_index (g_me sf') = m_commit_index (g_me sf) /\
    s_next_index x' = m_commit_index (g_me sf) + 1.

(** A turn that the follower accepts. *)
Lemma turn_accepted base m Lf0 x c Lf' x' :
  holds_to base m Lf0 -> s_next_index x - 1 = base + Z.of_nat m -> c `prefix_of` B (s_next_index x - 1) ->
  Lf' = Lf0 ++ c -> s_match_index x' = s_next_index x - 1 + Z.of_nat (length c) ->
  s_next_index x' = s_match_index x' + 1 -> synced base (m + length c) Lf' x'.
Proof.
  intros Hh Hx Hc -> Hm Hn. rewrite Hx in *. split; [by apply holds_more|]. lia.
Qed.

(** Every exchange counts. *)
Lemma turn_counts n sf Lf x sf' Lf' x' c :
  agree sl0 sf0 Ll L0 c0 -> within (S n) sf Lf x ->
  m_commit_index (g_me sf) <= s_next_index x - 1 <= last ->
  turn sf Lf x sf' Lf' x' c -> within n sf' Lf' x'.
Proof.
  intros Ha0 W Hp (Hc & Hsome & Ho). destruct W as [(base & m & (Hh & Hx & Hm) & Hn)|[([-> Hx] & Hcm & Hn)|(-> & Hcm & Hn)]].
  - left. exists base, (m + length c)%nat. rewrite decide_True in Ho by (rewrite Hx; by eapply agree_holds).
    destruct Ho as (HL & Hm' & Hx'). split.
    + eapply turn_accepted; [exact Hh|done|done| |done|done]. rewrite HL. f_equal.
      pose proof (length_holds _ _ _ Hh). unfold upto. rewrite take_ge by lia. done.
    + destruct (Z.ltb_spec (s_next_index x - 1) last) as [Hlt|Hge]; [|lia].
      specialize (Hsome Hm Hlt). destruct c; [done|]. simpl. lia.
  - assert (c0 <= c0 <= last) as Hb by lia. pose proof (holds_start c0 Hb Ha0) as Hh.
    left. exists c0, (0 + length c)%nat. pose proof (agree_holds _ _ _ Hh) as Ha. rewrite Z.add_0_r in Ha.
    rewrite decide_True in Ho by (by rewrite Hx).
    destruct Ho as (HL & Hm' & Hx'). split; [|lia].
    apply (turn_accepted c0 0 (upto sf0 L0 c0) x c); try done; [lia|]. rewrite HL, Hx. f_equal.
    unfold upto. rewrite take_take. f_equal. lia.
  - assert (c0 <= s_next_index x - 1 <= last) as Hb by lia. destruct (decide _) as [Ha|Ha].
    + destruct Ho as (HL & Hm' & Hx'). pose proof (holds_start _ Hb Ha) as Hh.
      left. exists (s_next_index x - 1), (0 + length c)%nat. split; [|lia].
      apply (turn_accepted _ 0 (upto sf0 L0 (s_next_index x - 1)) x c); try done. lia.
    + destruct Ho as (HL & Hc' & Hx'). right. left. rewrite Hcm in *.
      split; [split; [done|lia]|]. split; [done|lia].
Qed.

(** When nothing is left, the follower holds all the leader has. *)
Lemma within_done sf Lf x : c0 <= last -> within 0 sf Lf x ->
  s_match_index x = last /\ exists base, c0 <= base <= last /\ agree sl0 sf0 Ll L0 base /\
    Lf = upto sf0 L0 base ++ B base.
Proof.
  intros Hc [(base & m & ((Hb & Ha & Hm & ->) & Hx & Hmx) & Hn)|[(_ & _ & Hn)|(_ & _ & Hn)]]; [|lia..].
  pose proof (length_B base Hb). split; [lia|]. exists base. split; [done|]. split; [done|].
  by rewrite take_ge by lia.
Qed.

End Phases.

(** ** Runs of exchanges *)
Section Runs.
Context `{Rmr} `{Host} (pad : bytes) (pad_len : length pad = 4%nat) (max_msg_size : Z).

(** An exchange of a leader with a buffer of at least [buf] bytes; it may find
    any environment at the follower. *)
Inductive exchanged (buf : Z) (p : loc) : St * St -> St * St -> Prop :=
| exchanged_intro kl kf rmr lbuf payload rest sl sf q :
    m_state (g_me sl) = LEADER -> sys_alloc kl = true -> buf <= Z.of_nat (length lbuf) ->
    pair_room sl sf ->
    exchange pad max_msg_size kl kf rmr p lbuf payload rest (sl, sf) = Ok tt q ->
    exchanged buf p (sl, sf) q.

(** The servers of a run agree with those at its beginning about where the
    logs begin, and about the leader's log. *)
Record since (sl0 sf0 sl sf : St) : Prop := {
  si_leader : same_base sl0 sl;
  si_follower : same_base sf0 sf;
  si_log : g_raft_log sl = g_raft_log sl0 }.

Lemma agree_since sl0 sf0 sl sf Ll Lf i :
  since sl0 sf0 sl sf -> agree sl sf Ll Lf i <-> agree sl0 sf0 Ll Lf i.
Proof.
  intros [[E1 E2] [E3 E4] _]. unfold agree.
  by rewrite (prev_of_same sl0 sl), (prev_of_same sf0 sf).
Qed.

Lemma exchanged_turn buf p sl0 sf0 sl sf q Ll Lf Cl Cf i x :
  exchanged buf p (sl, sf) q -> pairing max_msg_size buf sl sf Ll Lf Cl Cf i p x ->
  since sl0 sf0 sl sf ->
  exists Lf' Cl' Cf' c x', turn sl0 sf0 Ll sf Lf x (snd q) Lf' x' c /\ since sl0 sf0 (fst q) (snd q) /\
    (m_state (g_me (fst q)) = LEADER ->
     pairing max_msg_size buf (fst q) (snd q) Ll Lf' Cl' Cf' i p x').
Proof using pad_len.
  intros Hx P Hs. inversion Hx as [kl kf rmr lbuf payload rest ? ? ? Hlead Hal Hbuf Hroom E]; subst.
  destruct (wp_eq_inv _ _ _ _ _ _ E (exchange_ok pad pad_len max_msg_size buf kl kf rmr p lbuf payload
    rest sl sf Ll Lf Cl Cf i x P Hbuf Hlead Hal Hroom))
    as (Lf' & Cl' & Cf' & c & x' & Hc & Ho & _ & _ & [B1 B2] & [B3 B4] & El & Hp).
  pose proof Hs as [[S1 S2] [S3 S4] S5].
  assert (beyond sl0 Ll (s_next_index x - 1) = beyond sl Ll (s_next_index x - 1)) as Eb
    by (unfold beyond; by rewrite S1).
  exists Lf', Cl', Cf', c, x'. split; [split; [|split]|].
  - rewrite Eb. destruct (_ =? _); [apply Hc|]. subst c. apply prefix_nil.
  - intros Hm Hlt. rewrite (proj2 (Z.eqb_eq _ _) Hm) in Hc. eapply ba_some; [exact Hc|]. by rewrite S5.
  - pose proof (agree_since sl0 sf0 sl sf Ll Lf (s_next_index x - 1) Hs) as Hag.
    unfold exchanged_to in Ho. unfold upto in *. rewrite S3 in Ho.
    destruct (decide (agree sl sf _ _ _)), (decide (agree sl0 sf0 _ _ _)); tauto.
  - split; [|done]. split; [by split; [rewrite B1|rewrite B2]|by split; [rewrite B3|rewrite B4]|by rewrite El].
Qed.

(** A run of [k] exchanges takes [k] from what is left. *)
Lemma run_within buf p k sl0 sf0 Ll L0 Cl0 Cf0 :
  inv sl0 Ll Cl0 -> inv sf0 L0 Cf0 -> anchored sf0 ->
  l_index_offset (lg (g_raft_log sl0)) <= m_commit_index (g_me sf0) ->
  agree sl0 sf0 Ll L0 (m_commit_index (g_me sf0)) ->
  forall n sl sf q Lf Cl Cf i x,
  nsteps (exchanged buf p) k (sl, sf) q -> m_state (g_me (fst q)) = LEADER ->
  pairing max_msg_size buf sl sf Ll Lf Cl Cf i p x -> since sl0 sf0 sl sf ->
  within sl0 sf0 Ll L0 (k + n) sf Lf x ->
  exists Lf' Cl' Cf' x', pairing max_msg_size buf (fst q) (snd q) Ll Lf' Cl' Cf' i p x' /\
    since sl0 sf0 (fst q) (snd q) /\ within sl0 sf0 Ll L0 n (snd q) Lf' x'.
Proof using pad_len.
  intros I0 J0 An Hk Ha. induction k as [|k IH]; intros n sl sf q Lf Cl Cf i x R Hl P S W.
  - inversion R; subst. by exists Lf, Cl, Cf, x.
  - inversion R as [|? ? [sl1 sf1] ? Hx Hr]; subst.
    destruct (exchanged_turn _ _ _ _ _ _ _ _ _ _ _ _ _ Hx P S) as (Lf1 & Cl1 & Cf1 & c & x1 & T & S1 & Hp1).
    assert (m_state (g_me sl1) = LEADER) as Hl1.
    { destruct k; inversion Hr as [|? ? ? ? Hx1]; subst; [done|]. by inversion Hx1. }
    pose proof (pr_next _ _ _ _ _ _ _ _ _ _ _ P) as Hn. rewrite (si_log _ _ _ _ S) in Hn.
    eapply IH; [exact Hr|done|by apply Hp1|exact S1|].
    by apply (turn_counts sl0 sf0 Ll L0 Cl0 Cf0 I0 J0 An Hk (k + n) sf Lf x sf1 Lf1 x1 c).
Qed.

Lemma catch_up buf p k sl sf q Ll Lf Cl Cf i x :
  pairing max_msg_size buf sl sf Ll Lf Cl Cf i p x ->
  agree sl sf Ll Lf (m_commit_index (g_me sf)) ->
  nsteps (exchanged buf p) k (sl, sf) q -> m_state (g_me (fst q)) = LEADER ->
  2 + (l_last_log_index (lg (g_raft_log sl)) - m_commit_index (g_me sf)) <= Z.of_nat k ->
  exists Lf' Cl' Cf' x' base, pairing max_msg_size buf (fst q) (snd q) Ll Lf' Cl' Cf' i p x' /\
    s_match_index x' = l_last_log_index (lg (g_raft_log sl)) /\
    m_commit_index (g_me sf) <= base <= l_last_log_index (lg (g_raft_log sl)) /\
    agree sl sf Ll Lf base /\ Lf' = upto sf Lf base ++ beyond sl Ll base.
Proof using pad_len.
  intros P Ha R Hl Hk.
  destruct (pr_leader _ _ _ _ _ _ _ _ _ _ _ P) as [Il _], (pr_follower _ _ _ _ _ _ _ _ _ _ _ P) as [If _].
  pose proof (pr_anchor _ _ _ _ _ _ _ _ _ _ _ P) as An. pose proof (pr_kept _ _ _ _ _ _ _ _ _ _ _ P) as Ho.
  pose proof (pr_next _ _ _ _ _ _ _ _ _ _ _ P) as Hn.
  destruct (run_within buf p k sl sf Ll Lf Cl Cf Il If An Ho Ha 0 sl sf q Lf Cl Cf i x R Hl P)
    as (Lf' & Cl' & Cf' & x' & P' & _ & W); [by repeat split| |].
  { right. right. rewrite Nat.add_0_r. repeat (split; [done|]). done. }
  destruct (within_done sl sf Ll Lf Cl Il Ho (snd q) Lf' x' ltac:(lia) W)
    as (Hm & base & Hb & Hab & HL). exists Lf', Cl', Cf', x', base. done.
Qed.

End Runs.
