(* ===== verification/Replicas.v ===== *)
(** * Raft servers that exchange AppendEntries

    Servers and a network that delivers every request and every answer once
    and in the order in which they were sent. An action is one stretch of code
    of a thread of rft.c: the sending thread of a leader up to its wait, the
    rest of its turn, or the worker with the oldest message. The network is
    perfect; the only thing a run decides is how far each thread has got. *)

From S2P Require Import Prelude Monad Types LogRing Mtl Config HashTable State Utils.
From S2P Require Import Log Serialize Snapshot RaftLog Raft XApp Server.
Open Scope Z_scope.

(** A request on its way, with its sender and its receiver. *)
Record request := Request {
  q_from : server_id_t; q_to : server_id_t; q_hdr : appnd_entr_hdr_t; q_data : bytes }.

Record rnet := RNet {
  nodes : gmap server_id_t St;
  requests : list request;
  answers : list (server_id_t * reply_append_entries_t) }.

Inductive action :=
| Send (i : server_id_t) (server : loc)
| Rest (i : server_id_t) (server : loc)
| Deliver
| Answered.

Section Replicas.
Context `{Rmr} `{Host} (k : sys) (mem : allocs) (pad lbuf : bytes) (max_msg_size : Z).

Definition set_node (i : server_id_t) (s : St) (c : rnet) : rnet :=
  RNet (<[i := s]> (nodes c)) (requests c) (answers c).

(** The sending thread of server [i] for its member at [server]. *)
Definition send_step (i : server_id_t) (server : loc) (c : rnet) : option rnet :=
  s ← nodes c !! i;
  x ← cf_heap (g_config s) !! server;
  match raft_server_send k pad max_msg_size (fun _ _ => None) server lbuf [] (Z.of_nat (length lbuf)) s with
  | Ok (Some (MsgAppend h data), _) s' =>
      Some (RNet (<[i := s']> (nodes c))
        (requests c ++ [Request i (s_server_id x) h data]) (answers c))
  | Ok _ s' => Some (set_node i s' c)
  | Fault _ => None
  end.

(** The rest of its turn, after the wait for the heartbeat. *)
Definition rest_step (i : server_id_t) (server : loc) (c : rnet) : option rnet :=
  s ← nodes c !! i;
  match raft_server_after k mem server (Timespec 0 0) true 0 0 s with
  | Ok _ s' => Some (set_node i s' c)
  | Fault _ => None
  end.

(** The worker of the receiver of the oldest request. *)
Definition deliver_step (c : rnet) : option rnet :=
  match requests c with
  | [] => None
  | q :: qs =>
      s ← nodes c !! q_to q;
      match worker_append_entries k (q_hdr q) (q_data q) s with
      | Ok r s' => Some (RNet (<[q_to q := s']> (nodes c)) qs (answers c ++ [(q_from q, r)]))
      | Fault _ => None
      end
  end.

(** The worker of the leader with the oldest answer. *)
Definition answered_step (c : rnet) : option rnet :=
  match answers c with
  | [] => None
  | (i, r) :: rs =>
      s ← nodes c !! i;
      match handle_append_entries_reply r s with
      | Ok _ s' => Some (RNet (<[i := s']> (nodes c)) (requests c) rs)
      | Fault _ => None
      end
  end.

Definition act (a : action) (c : rnet) : option rnet :=
  match a with
  | Send i p => send_step i p c
  | Rest i p => rest_step i p c
  | Deliver => deliver_step c
  | Answered => answered_step c
  end.

Fixpoint play (l : list action) (c : rnet) : option rnet :=
  match l with
  | [] => Some c
  | a :: l => c ← act a c; play l c
  end.

End Replicas.

(** The entry with an index that a server has committed. *)
Definition committed_entry (s : St) (i : index_t) : option log_entry_t :=
  if i <=? m_commit_index (g_me s) then
    match get_raft_log_entry i s with Ok e _ => e | Fault _ => None end
  else None.
