(* ===== verification/XStream.v ===== *)
(** * The stream of commands of a primary (proofs about src/rft.c and src/log.c)

    The log of the xApp of one server, related to the commands its xApp has
    replicated, and what [rft_replicate], the replication thread, the snapshot
    thread and the handlers of a backup do to it. *)

From S2P Require Import Prelude Monad Types LogRing Mtl Config Quorum HashTable.
From S2P Require Import HashMap State Utils Log Serialize Snapshot RaftLog Raft XApp Server.
From S2P Require Import Invariant Commit Election Replication XRepl Worker Delivery.
Open Scope Z_scope.

Section Stream.
Context `{Rmr} `{Host} (max_msg_size : Z).

(** ** The log of the xApp and the commands

    An entry records a command: it carries the arguments of the call. *)
Definition recorded (a : applied_t) (e : log_entry_t) : Prop :=
  e_command e = ap_command a /\ e_context e = ap_context a /\ e_key e = ap_key a /\
  e_dlen e = ap_len a /\ e_data e = ap_value a.

(** Two calls of the callback pass the same arguments; the bytes behind the
    length do not belong to them. *)
Definition same_call (a b : applied_t) : Prop :=
  ap_command b = ap_command a /\ ap_context b = ap_context a /\ ap_key b = ap_key a /\
  ap_len b = ap_len a /\ take (Z.to_nat (ap_len b)) (ap_value b) = take (Z.to_nat (ap_len a)) (ap_value a).

#[global] Instance same_call_equiv : Equivalence same_call.
Proof.
  split; unfold same_call; [by repeat split|intros ???; naive_solver|].
  intros ??? (?&?&?&?&?) (?&?&?&?&?). repeat split; congruence.
Qed.

(** The entries [X] of the log are those of the last commands [hist] of this
    server, from behind the offset on; entry [i] is command [i], from 1. *)
Record xside (s : St) (X : list log_entry_t) (hist : list applied_t) : Prop := {
  xd_log : log_rep (g_xapp_log s) X;
  xd_last : l_last_log_index (lg (g_xapp_log s)) = Z.of_nat (length hist);
  xd_calls : Forall2 recorded (drop (Z.to_nat (l_index_offset (lg (g_xapp_log s)))) hist) X;
  xd_wire : Forall (wire SERVER_LOG) X;
  xd_pipe : forall meta data, sn_xapp_pipe (g_snap s) = Some (meta, data) ->
    sn_xapp_in_progress (g_snap s) = true /\
    l_index_offset (lg (g_xapp_log s)) <= pm_last_index meta <= l_last_log_index (lg (g_xapp_log s)) }.

Lemma xside_offset s X hist : xside s X hist ->
  l_index_offset (lg (g_xapp_log s)) + Z.of_nat (length X) = Z.of_nat (length hist).
Proof. intros []. by rewrite <- (lr_last _ _ xd_log0). Qed.

(** What the xApp side consists of. *)
Lemma xside_same s s' X hist :
  lg (g_xapp_log s') = lg (g_xapp_log s) -> sn_xapp_pipe (g_snap s') = sn_xapp_pipe (g_snap s) ->
  sn_xapp_in_progress (g_snap s') = sn_xapp_in_progress (g_snap s) ->
  xside s X hist -> xside s' X hist.
Proof. intros E1 E2 E3 []. split; rewrite ?E1, ?E2, ?E3; try done. by eapply log_rep_lg. Qed.

(** ** Appending a command *)

(** The changes of [append_server_log_entry]: the log, and a snapshot in
    progress with its pipe. *)
Record appended (s s' : St) (X : list log_entry_t) (e : log_entry_t) : Prop := {
  ad_log : log_rep (g_xapp_log s') (X ++ [set_index (l_last_log_index (lg (g_xapp_log s)) + 1) e]);
  ad_offset : l_index_offset (lg (g_xapp_log s')) = l_index_offset (lg (g_xapp_log s));
  ad_pipe : sn_xapp_pipe (g_snap s') = sn_xapp_pipe (g_snap s) /\
      sn_xapp_in_progress (g_snap s') = sn_xapp_in_progress (g_snap s) \/
    sn_xapp_in_progress (g_snap s') = true /\
    forall meta data, sn_xapp_pipe (g_snap s') = Some (meta, data) ->
      pm_last_index meta = l_last_log_index (lg (g_xapp_log s));
  ad_rest : exists g b p, s' = set_snap (set_xapp_in_progress b (set_xapp_pipe p (g_snap s))) (set_xapp_log g s);
  ad_locks : locks s' = locks s }.

Lemma xapp_child_meta k cb s meta data s' :
  xapp_child k cb s = Ok (meta, data) s' -> pm_last_index meta = l_last_log_index (lg (g_xapp_log s)).
Proof.
  unfold xapp_child, unlock. mrun. cbn. unfold zoom. mrun. cbn.
  destruct (primary_contexts _ _) as [ctxs t|f]; cbn; [|done]. destruct (cb ctxs) as [items d].
  unfold get_last_log_index, lock, unlock. mrun. cbn. by intros [= <- _ _].
Qed.

Lemma take_xapp_snapshot_ok k cb s :
  k_xprog (locks s) = false ->
  wp only_exit (take_xapp_snapshot k cb) s (fun _ s' => exists b p,
    s' = set_snap (set_xapp_in_progress b (set_xapp_pipe p (g_snap s))) s /\
    (b = sn_xapp_in_progress (g_snap s) /\ p = sn_xapp_pipe (g_snap s) \/ b = true /\
     forall meta data, p = Some (meta, data) -> pm_last_index meta = l_last_log_index (lg (g_xapp_log s)))).
Proof.
  intros Hp. unfold take_xapp_snapshot.
  destruct s as [me sl rl xl cf [ip rs pipe rsl rpl xip xs xpi xsl xpl] rp el ax]. cbn in Hp. subst xpl.
  destruct cb as [cb|]; [|apply wp_ret; exists xip, xpi; split; [done|by left]].
  unfold start_progress, wp. unfold lock, unlock, fork. mrun. cbn.
  destruct xip; cbn; [exists true, xpi; split; [done|by left]|].
  destruct (sys_pipe k); cbn; [|done]. destruct (sys_fork k); cbn; [|done].
  destruct (xapp_child k cb _) as [[meta data] s1|f] eqn:E; cbn.
  - apply xapp_child_meta in E. cbn in E. destruct (sys_thread k); cbn; [|done].
    exists true, (Some (meta, data)). split; [done|]. right. split; [done|]. by intros ?? [= <- <-].
  - destruct (sys_thread k); cbn; [|done]. exists true, None. split; [done|]. right. by split.
Qed.

(** The log has room in its indices; its ring may be full, which ends the
    process. *)
Lemma append_server_ok k cb s X e :
  log_rep (g_xapp_log s) X -> k_xapp (locks s) = false -> k_xprog (locks s) = false ->
  l_last_log_index (lg (g_xapp_log s)) + 1 < 2 ^ 64 - 1 ->
  wp only_exit (append_server_log_entry k cb e) s (fun _ s' => appended s s' X e).
Proof.
  intros R Hk Hp Hm. unfold append_server_log_entry. cbn in Hk.
  apply wp_bind, wp_zoom, wp_lock; [done|]. cbn [lget lput xapp_log_l lg_lock_l].
  set (s1 := set_xapp_log _ s). assert (log_rep (g_xapp_log s1) X) as R1 by by apply (log_rep_lg (g_xapp_log s)).
  apply wp_bind, wp_zoom. eapply wp_eq; [apply (over_threshold_rep _ X R1)|]. set (over := _ || _).
  apply wp_bind, (wp_mono only_exit _ _ (fun _ s2 => exists b p,
    s2 = set_snap (set_xapp_in_progress b (set_xapp_pipe p (g_snap s1))) s1 /\
    (b = sn_xapp_in_progress (g_snap s1) /\ p = sn_xapp_pipe (g_snap s1) \/ b = true /\
     forall meta data, p = Some (meta, data) -> pm_last_index meta = l_last_log_index (lg (g_xapp_log s1))))).
  { unfold when. destruct over; [by apply take_xapp_snapshot_ok|]. apply wp_ret.
    exists (sn_xapp_in_progress (g_snap s1)), (sn_xapp_pipe (g_snap s1)). split; [|by left].
    by destruct s as [? ? ? ? ? [] ? ? ?]. }
  intros [] s2 (b & p & -> & Hbp). apply wp_bind, wp_zoom. cbn [lget xapp_log_l].
  set (g := g_xapp_log _). change g with (g_xapp_log s1).
  pose proof (length_le_capacity _ X R1). destruct (decide (Z.of_nat (length X) = capacity (g_xapp_log s1))).
  { eapply wp_eq; [by apply (append_full _ X)|]. done. }
  destruct (append_room _ X R1 e ltac:(lia) Hm) as (g' & E & R' & F & Ho).
  eapply wp_eq; [exact E|]. cbn [lput xapp_log_l]. apply wp_bind. cbn [truthy Z.eqb negb when].
  apply wp_ret, wp_zoom, wp_unlock. cbn [lget lput xapp_log_l lg_lock_l].
  split; cbn.
  - by apply (log_rep_lg g').
  - exact Ho.
  - destruct Hbp as [[-> ->]|[-> Hb]]; [by left|by right].
  - by exists (LogSt (lg g') false), b, p.
  - unfold locks. cbn. by rewrite Hk.
Qed.

(** The new entry, when the allocations succeed and the strings are not empty
    and shorter than [2^32]. *)
Lemma new_server_entry mem context key command value e :
  new_server_log_entry mem (Some context) (Some key) command value = Some e ->
  a_context mem = true -> a_key mem = true ->
  Z.of_nat (String.length context) < 2 ^ 32 -> Z.of_nat (String.length key) < 2 ^ 32 ->
  e = LogEntry 0 0 (Z.of_nat (length value)) (Z.of_nat (String.length context))
        (Z.of_nat (String.length key)) SERVER_COMMAND command (Some context) (Some key) value.
Proof.
  intros E Hc Hk Hlc Hlk. assert (mem = mem_ok) as ->.
  { destruct mem as [[] [] a b]; try done. cbn in Hc, Hk. by subst. }
  destruct (decide (0 < Z.of_nat (String.length context))).
  2: { unfold new_server_log_entry, new_log_entry in E. cbn in E. rewrite u32_small in E by lia.
       by rewrite (proj2 (Z.eqb_eq _ _)) in E by lia. }
  destruct (decide (0 < Z.of_nat (String.length key))).
  - rewrite new_server_log_entry_spec in E by lia. by injection E.
  - unfold new_server_log_entry, new_log_entry in E. cbn in E. rewrite !u32_small in E by lia.
    rewrite (proj2 (Z.eqb_eq (Z.of_nat (String.length key)) 0)) in E by lia. by case_match.
Qed.

(** A command that has a place on the wire. *)
Definition command_fits (command : Z) (context key : string) (value : bytes) : Prop :=
  INT_MIN <= command <= INT_MAX /\ no_nul context /\ no_nul key /\
  XAPP_LOG_ENTRY_HDR_SIZE + Z.of_nat (String.length context) + Z.of_nat (String.length key) +
    Z.of_nat (length value) < 2 ^ 31.

(** A call of [rft_replicate]. *)
Definition call_of (command : Z) (context key : string) (value : bytes) : applied_t :=
  Applied command (Some context) (Some key) value (Z.of_nat (length value)).

(** What the interface leaves alone: the state of the consensus. *)
Record aside (s s' : St) : Prop := {
  as_me : g_me s' = g_me s;
  as_raft : g_raft_log s' = g_raft_log s;
  as_config : g_config s' = g_config s;
  as_repl : g_repl s' = g_repl s;
  as_elec : g_elec s' = g_elec s;
  as_pipe : sn_raft_pipe (g_snap s') = sn_raft_pipe (g_snap s);
  as_progress : sn_raft_in_progress (g_snap s') = sn_raft_in_progress (g_snap s);
  as_rsnap : sn_raft_snapshot (g_snap s') = sn_raft_snapshot (g_snap s) }.

#[global] Instance aside_preorder : PreOrder aside.
Proof. split; [by intros s; split|]. intros s1 s2 s3 [] []. split; congruence. Qed.

Lemma aside_inv s s' L C : aside s s' -> inv s L C -> inv s' L C.
Proof.
  intros A [Co He Ha]. destruct A as [Am Ar Ac Ap Ae A1 A2 A3]. split.
  - apply (core_same s); rewrite ?Am, ?Ar, ?Ac, ?A1, ?A2; try done.
  - destruct He. split; by rewrite ?Am, ?Ae, ?Ap, ?Ac.
  - by rewrite ?Am, ?Ar, ?Ac, ?Ap, ?Ae.
Qed.

Lemma appended_aside s s' X e : appended s s' X e -> aside s s'.
Proof. intros []. destruct ad_rest0 as (g & b & p & ->). by split. Qed.

Lemma appended_xside s s' X hist command context key value :
  xside s X hist -> command_fits command context key value -> Z.of_nat (length hist) + 1 < 2 ^ 64 - 1 ->
  let e := LogEntry 0 0 (Z.of_nat (length value)) (Z.of_nat (String.length context))
        (Z.of_nat (String.length key)) SERVER_COMMAND command (Some context) (Some key) value in
  appended s s' X e ->
  xside s' (X ++ [set_index (Z.of_nat (length hist) + 1) e]) (hist ++ [call_of command context key value]).
Proof.
  intros D (Hc1 & Hc2 & Hc3 & Hc4) Hm e [Rg Ho Hp _ _]. pose proof (xside_offset s X hist D) as Hx.
  pose proof D as [R Hl Hc Hw Hpi]. rewrite Hl in Rg. pose proof (lr_offset _ _ R).
  assert (l_last_log_index (lg (g_xapp_log s')) = Z.of_nat (length hist) + 1) as Hl'.
  { rewrite (lr_last _ _ Rg), Ho, length_app. cbn [length]. lia. }
  split.
  - exact Rg.
  - rewrite Hl', length_app. cbn [length]. lia.
  - rewrite Ho, drop_app_le by lia. apply Forall2_app; [done|]. by repeat constructor.
  - apply Forall_app. split; [done|]. apply list.Forall_singleton. exists context, key.
    split; try done; cbn; lia.
  - rewrite Ho, Hl'. intros meta data. destruct Hp as [[E1 E2]|[E1 E2]].
    + rewrite E1, E2. intros Hq. destruct (Hpi meta data Hq) as [? ?]. split; [done|]. lia.
    + intros Hq. split; [done|]. rewrite (E2 meta data Hq). lia.
Qed.

(** *** The interface of the xApp *)

(** The marking of the context and of the user as primary. *)
Lemma set_primary_ok k meid context role s :
  app_ok (g_app s) ->
  exists r s', (if negb (role =? RFT_PRIMARY) then
      r1 ← set_role k on_roletab meid RFT_PRIMARY;
      if negb (truthy r1) then mret 0 else set_role k on_ctxtab (Some context) RFT_PRIMARY
    else mret 1) s = Ok r s' /\
    exists a, s' = set_app a s /\ app_ok a /\ same_calls (g_app s) a.
Proof.
  intros (mc & mr & R). destruct (role =? RFT_PRIMARY); cbn [negb].
  { exists 1, s. split; [done|]. exists (g_app s). split; [by destruct s|]. split; [by exists mc, mr|done]. }
  destruct (set_roletab_ok k meid RFT_PRIMARY s mc mr R) as (r1 & a1 & mr1 & E1 & R1 & _ & _ & S1).
  rewrite (bind_Ok _ _ _ _ _ E1). destruct (truthy r1); cbn [negb].
  2: { exists 0, (set_app a1 s). split; [done|]. exists a1. split; [done|]. split; [by exists mc, mr1|done]. }
  destruct (set_ctxtab_ok k (Some context) RFT_PRIMARY (set_app a1 s) mc mr1 R1)
    as (r2 & a2 & mc2 & E2 & R2 & _ & _ & S2).
  exists r2, (set_app a2 s). split; [exact E2|]. exists a2. split; [done|]. split; [by exists mc2, mr1|].
  destruct S1 as (?&?&?&?&?&?), S2 as (?&?&?&?&?&?). cbn in *. repeat split; congruence.
Qed.

Lemma apply_command_ok command context key value len s :
  ax_apply_cb (g_app s) = true ->
  apply_command_cb command context key value len s =
    Ok tt (set_app (add_applied (Applied command context key value len) (g_app s)) s).
Proof.
  intros Hcb. unfold apply_command_cb. rewrite (bind_Ok _ _ s true s); [done|]. unfold gets. by rewrite Hcb.
Qed.

(** The call ends the process, fails an assertion, or meets a NULL callback;
    otherwise it refuses the command, or appends and applies it. *)
Definition replicate_faults (f : fault) : Prop := f = Exit \/ f = AssertFail \/ f = NullDeref.

Lemma rft_replicate_ok k mem cb command context key value meid role s X hist :
  xside s X hist -> app_ok (g_app s) -> locks s = no_locks -> command_fits command context key value ->
  Z.of_nat (length hist) + 1 < 2 ^ 64 - 1 -> a_context mem = true -> a_key mem = true ->
  wp replicate_faults (rft_replicate k mem cb command (Some context) (Some key) (Some value) meid role) s
    (fun r s' => aside s s' /\ app_ok (g_app s') /\ locks s' = no_locks /\
      (fst r = 0 /\ xside s' X hist /\ ax_applied (g_app s') = ax_applied (g_app s) \/
       fst r = 1 /\ (exists X', xside s' X' (hist ++ [call_of command context key value])) /\
       ax_applied (g_app s') = ax_applied (g_app s) ++ [call_of command context key value])).
Proof.
  intros D Ha Hk (Hc1 & Hc2 & Hc3 & Hc4) Hm Hmc Hmk. cbn [rft_replicate].
  assert (0 <= XAPP_LOG_ENTRY_HDR_SIZE) by (unfold XAPP_LOG_ENTRY_HDR_SIZE; lia).
  destruct (set_primary_ok k meid context role s Ha) as (r1 & s1 & E1 & a & -> & Ha1 & Sc).
  apply wp_bind. eapply wp_eq; [exact E1|]. destruct Sc as (Sc1 & Sc2 & Sc3 & Sc4 & Sc5 & Sc6).
  assert (locks (set_app a s) = no_locks) as Hk1 by (by rewrite locks_app).
  assert (xside (set_app a s) X hist) as D1 by (by apply (xside_same s)).
  destruct (truthy r1); cbn [negb].
  2: { apply wp_ret. split; [by split|]. split; [done|]. split; [done|]. left. by split. }
  apply wp_bind, wp_from_opt. destruct (new_server_log_entry _ _ _ _ _) as [e|] eqn:Ee; [|by right; left].
  apply (new_server_entry _ _ _ _ _ _ Ee) in Hmk; [|done|lia|lia]. subst e. set (e := LogEntry _ _ _ _ _ _ _ _ _ _).
  pose proof (f_equal k_xapp Hk1). pose proof (f_equal k_xprog Hk1).
  apply wp_bind. eapply wp_fault_mono, wp_mono; [|apply (append_server_ok k cb _ X e (xd_log _ _ _ D1))|]; try done.
  { intros f Hf. by left. }
  { rewrite (xd_last _ _ _ D1). lia. }
  intros [] s2 A. pose proof (xd_last _ _ _ D1) as Hl.
  destruct (ax_apply_cb (g_app s)) eqn:Hcb.
  2: { apply wp_bind. unfold apply_command_cb. apply wp_bind, wp_gets.
       destruct (ad_rest _ _ _ _ A) as (g & b & p & ->). cbn. rewrite Sc1. by right; right. }
  assert (g_app s2 = a) as Ea by (by destruct (ad_rest _ _ _ _ A) as (g & b & p & ->)).
  apply wp_bind. eapply wp_eq; [apply apply_command_ok; by rewrite Ea, Sc1|]. apply wp_ret.
  pose proof (appended_aside _ _ _ _ A) as As. split; [|split; [|split]].
  - destruct As as [B1 B2 B3 B4 B5 B6 B7 B8]. by split.
  - rewrite Ea. destruct Ha1 as (mc & mr & []). by exists mc, mr.
  - rewrite locks_app by done. by rewrite (ad_locks _ _ _ _ A).
  - right. split; [done|]. cbn [g_app set_app add_applied ax_applied].
    rewrite Ea, Sc3. split; [|done]. exists (X ++ [set_index (Z.of_nat (length hist) + 1) e]).
    apply (xside_same s2); [done..|]. by apply (appended_xside (set_app a s)).
Qed.

(** ** The thread that stores a snapshot

    The log is compacted up to the index of the snapshot, if it is stored. *)
Lemma parent_xapp_ok b1 b2 got s X hist :
  xside s X hist -> locks s = no_locks ->
  wp only_exit (parent_xapp_thread b1 b2 got) s (fun _ s' =>
    aside s s' /\ g_app s' = g_app s /\ locks s' = no_locks /\ exists X', xside s' X' hist).
Proof.
  intros D Hk. pose proof D as [R Hl Hc Hw Hpi]. pose proof (xside_offset s X hist D) as Hx.
  pose proof (lr_offset _ _ R). set (rest := fun s1 s2 : St => aside s1 s2 /\ g_app s2 = g_app s1 /\
    locks s2 = no_locks /\ exists X', xside s2 X' hist).
  unfold parent_xapp_thread. apply wp_bind, wp_gets, wp_bind.
  assert (forall s1, rest s s1 -> wp only_exit (zoom snap_l (modify (set_xapp_pipe None));;
    end_progress xapp_in_progress_lock xapp_in_progress_lock_l xapp_in_progress_l) s1
    (fun _ s' => rest s s')) as Hend.
  { intros s1 ([] & E & Hk1 & X' & []). apply wp_bind, wp_zoom, wp_modify, wp_zoom.
    pose proof (f_equal k_xprog Hk1) as Hp. unfold locks, no_locks in Hk1.
    destruct s1 as [me sl rl xl cf [ip rs pipe rsl rpl xip xs xpi xsl xpl] rp el ax].
    cbn in Hp, Hk1. subst xpl. cbn in *. split; [by split|]. split; [done|]. split; [done|].
    exists X'. by split. }
  destruct (sn_xapp_pipe (g_snap s)) as [[meta data]|] eqn:Hpipe.
  2: { apply wp_ret, Hend. split; [done|]. split; [done|]. split; [done|]. by exists X. }
  destruct b2; [|apply wp_ret, Hend; split; [done|]; split; [done|]; split; [done|]; by exists X].
  destruct (Hpi meta data eq_refl) as [_ Hi].
  pose proof (f_equal k_xsnap Hk) as Hls. pose proof (f_equal k_xapp Hk) as Hlx. unfold locks, no_locks in Hk.
  destruct s as [me sl rl xl cf [ip rs pipe rsl rpl xip xs xpi xsl xpl] rp el ax]. cbn in *. subst xsl.
  unfold wp, lock, unlock. mrun. cbn. destruct b1; cbn; [|done].
  destruct (read_data data (xs_data xs) got) as [block ok]. destruct ok; cbn.
  - destruct (compact_log_rep server_log_lock entry_size xl X (pm_last_index meta) R Hlx ltac:(lia))
      as (g & E & Rg & (Fk & _) & Ho); [by apply Forall_true|].
    unfold compact_server_log, zoom. mrun. cbn. rewrite E. cbn. apply Hend. split; [by split|].
    split; [done|]. split; [unfold locks; cbn; by rewrite Fk|].
    eexists. split; cbn; [exact Rg| | | |].
    + rewrite (lr_last _ _ Rg), Ho, length_drop. lia.
    + rewrite Ho. replace (Z.to_nat (pm_last_index meta)) with (Z.to_nat (l_index_offset (lg xl)) +
        Z.to_nat (pm_last_index meta - l_index_offset (lg xl)))%nat by lia.
      rewrite <- drop_drop. by apply Forall2_drop.
    + by apply Forall_drop.
    + rewrite Hpipe. intros ? ? [= <- <-]. rewrite (lr_last _ _ Rg), Ho, length_drop.
      split; [by eapply Hpi|lia].
  - apply Hend. split; [by split|]. split; [done|]. split; [done|]. exists X. split; cbn; try done.
    by rewrite Hpipe.
Qed.

(** ** What the primary sends

    A message carries the commands behind [m]: whatever a receiver decodes
    from it, with any bytes behind, are these commands, in order. *)
Definition carries (hist : list applied_t) (m : Z) (n : Z) (data : bytes) : Prop :=
  0 <= m /\ 0 <= n /\ m + n <= Z.of_nat (length hist) /\
  forall rest es, deserialize_server_log_entries (data ++ rest) n = Some es ->
    Forall2 same_call (take (Z.to_nat n) (drop (Z.to_nat m) hist)) (applied_of <$> es).

Lemma carries_mono hist l m n data : carries hist m n data -> carries (hist ++ l) m n data.
Proof.
  intros (H1 & H2 & H3 & Hc). split; [done|]. split; [done|].
  split; [rewrite length_app; lia|]. intros rest es E.
  rewrite drop_app_le, take_app_le by (rewrite ?length_drop; lia). by eapply Hc.
Qed.

Lemma recorded_same_call a e e' : recorded a e -> server_echo e e' -> same_call a (applied_of e').
Proof.
  intros (? & ? & ? & ? & ?) (_ & ? & ? & ? & _ & _ & ? & _ & ?). unfold same_call, applied_of. cbn.
  repeat split; congruence.
Qed.

(** ** The replication thread *)

(** The number of entries the thread asks for. *)
Lemma wanted_range N m :
  0 <= m <= N -> N < 2 ^ 64 -> let n := u32 (u32 N - m) in 0 <= n <= N - m /\ (N - m < 2 ^ 32 -> n = N - m).
Proof.
  intros Hm HN n. unfold n. rewrite u32_sub_l. pose proof (u32_range (N - m)).
  split; [|intros; apply u32_small; lia]. split; [lia|]. apply Z.mod_le; lia.
Qed.

(** A part of the log, decoded, is the same part of the commands. *)
Lemma carries_range s X hist m n c data :
  xside s X hist -> l_index_offset (lg (g_xapp_log s)) <= m -> 0 <= n -> m + n <= Z.of_nat (length hist) ->
  c `prefix_of` log_range (g_xapp_log s) X (m + 1) n ->
  (forall post, Forall (fun e => e_clen e + e_klen e <= Z.of_nat (length post)) c ->
      exists es, deserialize_server_log_entries (data ++ post) (Z.of_nat (length c)) = Some es /\
        Forall2 server_echo c es) ->
  carries hist m (Z.of_nat (length c)) data.
Proof.
  intros D Ho Hn Hm Hpre Hd. pose proof D as [R Hl Hc Hw _]. pose proof (lr_offset _ _ R).
  pose proof (xside_offset s X hist D) as Hx.
  assert (Forall2 recorded (take (length c) (drop (Z.to_nat m) hist)) c) as Hrec.
  { destruct Hpre as [r Er]. assert (c = take (length c) (drop (Z.to_nat (m - l_index_offset (lg (g_xapp_log s)))) X)) as Ec.
    { apply (f_equal (take (length c))) in Er. rewrite take_app_length in Er. unfold log_range in Er.
      rewrite take_take in Er. rewrite <- Er at 1. f_equal; [|f_equal; lia].
      apply (f_equal length) in Er. rewrite length_take in Er. lia. }
    rewrite Ec at 2. apply Forall2_take.
    replace (Z.to_nat m) with (Z.to_nat (l_index_offset (lg (g_xapp_log s))) +
      Z.to_nat (m - l_index_offset (lg (g_xapp_log s))))%nat by lia.
    rewrite <- drop_drop. by apply Forall2_drop. }
  pose proof (Forall2_length _ _ _ Hrec) as Hlen. rewrite length_take, length_drop in Hlen.
  split; [lia|]. split; [lia|]. split; [lia|]. intros rest es E.
  set (post := replicate (Z.to_nat (foldr Z.max 0 ((fun e => e_clen e + e_klen e) <$> c))) NUL).
  destruct (Hd (rest ++ post)) as (es' & E' & Hecho).
  { apply list.Forall_forall. intros e He. rewrite length_app. unfold post. rewrite length_replicate.
    assert (e_clen e + e_klen e <= foldr Z.max 0 ((fun e => e_clen e + e_klen e) <$> c)); [|lia].
    clear -He. induction c as [|x c IH]; [by apply elem_of_nil in He|]. cbn.
    apply list.elem_of_cons in He as [->|He]; [lia|]. specialize (IH He). lia. }
  assert (es' = es) as ->.
  { unfold deserialize_server_log_entries in *.
    pose proof (deserialize_server_more _ post _ _ _ E) as [E2 _]. rewrite <- app_assoc in E2. congruence. }
  rewrite Nat2Z.id. revert Hrec Hecho. generalize (take (length c) (drop (Z.to_nat m) hist)). clear.
  intros l Hrec. revert es. induction Hrec as [|a e l c Ha Hrec IH]; intros es He.
  - inversion He. by constructor.
  - inversion He as [|? e' ? es' He1 He2]; subst. cbn. constructor; [by eapply recorded_same_call|].
    by apply IH.
Qed.

Section Sender.
Context (pad : bytes) (pad_len : length pad = 4%nat).

Definition with_repl (b : bool) (s : St) : St := set_repl (lput repl_lock_l b (g_repl s)) s.

Lemma with_repl_same s : rp_lock (g_repl s) = false -> with_repl false s = s.
Proof. intros E. destruct s as [? ? ? ? ? ? [? ? ? ?] ? ?]. cbn in E. by subst. Qed.

(** The replicas are members of the configuration. *)
Definition replicas_known (s : St) : Prop :=
  forall p, Some p ∈ rp_servers (g_repl s) -> p ∈ c_servers (cf (g_config s)).

(** The server keeps for its replicas an index of its own log. *)
Definition masters_ok (hist : list applied_t) (C : list server_t) : Prop :=
  Forall (fun x => 0 <= s_master_index x <= Z.of_nat (length hist)) C.

Definition message_ok (s : St) (hist : list applied_t) (m : replication_msg) : Prop :=
  match m with
  | MsgReplication h data => rh_server_id h = m_self_id (g_me s) /\
      carries hist (rh_master_index h) (rh_n_entries h) data
  | MsgXappSnapshot _ => True
  end.

Notation any := (fun _ : fault => True).

Lemma serialize_snapshot_same realloc payload id s :
  sn_xapp_snapshot_lock s = false ->
  wp any (serialize_xapp_snapshot realloc payload id) s (fun _ s' => s' = s).
Proof.
  intros Hl. unfold serialize_xapp_snapshot. apply wp_bind, wp_lock; [done|]. apply wp_bind, wp_gets, wp_bind.
  cbn [lput xapp_snapshot_lock_l]. set (s1 := set_xapp_snapshot_lock true s).
  apply (wp_mono any _ _ (fun _ s' => s' = s1)).
  - destruct (xs_data _) as [d|]; [|by apply wp_ret]. cbv zeta. apply wp_bind.
    destruct (i32 _ <? 0); [done|]. apply wp_ret.
    assert (forall {A} (o : option A) f (k : A -> M snap_st (Z * bytes)),
      (forall a, wp any (k a) s1 (fun _ s' => s' = s1)) -> wp any (from_opt f o ≫= k) s1 (fun _ s' => s' = s1)) as Hb.
    { intros A o f k Hk. apply wp_bind. destruct o; [by apply wp_ret|done]. }
    unfold ensure_payload, put_at, snapshot_data. apply wp_bind.
    apply (wp_mono any _ _ (fun _ s' => s' = s1)).
    { destruct (_ <? _); [|by apply wp_ret]. by destruct (realloc _ _). }
    intros p s' ->. do 4 (apply Hb; intros ?). apply wp_bind, wp_bind, wp_from_opt, wp_from_opt.
    destruct (sub_bytes _ _ _); [|done]. apply Hb. intros ?. by apply wp_ret.
  - intros r s' ->. apply wp_bind, wp_unlock, wp_ret. destruct s. cbn in Hl. by subst.
Qed.

(** The serialization takes the lock of the log. *)
Lemma serialize_server_locked from n lbuf s r :
  lg_lock (g_xapp_log s) = false ->
  (let g := LogSt (lg (g_xapp_log s)) true in
   serialize_log_entries pad true from n lbuf (Z.of_nat (length lbuf)) (max_msg_size - REPL_REQ_HDR_LEN)
     SERVER_LOG g = Ok r g) ->
  zoom xapp_log_l (serialize_server_log_entries pad true from n lbuf (Z.of_nat (length lbuf))
    max_msg_size) s = Ok r s.
Proof using Type.
  intros Hk E. unfold zoom, serialize_server_log_entries, lock. mrun. cbn [lget xapp_log_l lg_lock_l].
  rewrite Hk. mrun. cbn [lput lg_lock_l]. rewrite E. unfold unlock. mrun. cbn.
  destruct s as [? ? ? [gg kk] ? ? ? ? ?]. cbn in *. by subst.
Qed.

(** What the primary serializes for a replica whose index is [m]. *)
Lemma serialize_stream_ok s X hist m lbuf :
  xside s X hist -> lg_lock (g_xapp_log s) = false -> 0 < max_msg_size - REPL_REQ_HDR_LEN < 2 ^ 31 ->
  0 <= m <= Z.of_nat (length hist) -> Forall (fun e => esize SERVER_LOG e <= Z.of_nat (length lbuf)) X ->
  let n := u32 (u32 (Z.of_nat (length hist)) - m) in n <> 0 ->
  exists n' z err, zoom xapp_log_l (serialize_server_log_entries pad true (u64 (m + 1)) n lbuf
      (Z.of_nat (length lbuf)) max_msg_size) s = Ok (n', z, err) s /\
    0 <= z_bytes z <= max_msg_size - REPL_REQ_HDR_LEN /\ z_bytes z <= Z.of_nat (length (z_buf z)) /\
    (z_bytes z <> 0 -> carries hist m n' (take (Z.to_nat (z_bytes z)) (z_buf z))).
Proof using pad_len.
  intros D Hk Hmax Hm Hsz n Hn. pose proof D as [R Hl Hc Hw _]. pose proof (lr_max _ _ R). pose proof (lr_offset _ _ R).
  pose proof (xside_offset s X hist D) as Hx.
  destruct (wanted_range (Z.of_nat (length hist)) m Hm ltac:(lia)) as [Hnr _]. fold n in Hnr.
  rewrite u64_small by lia. set (g := LogSt (lg (g_xapp_log s)) true).
  assert (log_rep g X) as Rg by (by apply (log_rep_lg (g_xapp_log s))).
  destruct (Z.ltb_spec (l_index_offset (lg (g_xapp_log s))) (m + 1)) as [Hin|Hout].
  - destruct (server_transfer pad pad_len (max_msg_size - REPL_REQ_HDR_LEN) (m + 1) n lbuf g X Rg Hmax)
      as (c & z & E & Hpre & _ & Hb & Hmx & Hbf & Hd); try lia; try (cbn; lia).
    { by apply Forall_take, Forall_drop. }
    { by apply Forall_take, Forall_drop. }
    exists (Z.of_nat (length c)), z, None. split; [by apply serialize_server_locked|].
    split; [split; [|lia]|].
    + rewrite Hb. apply wire_size_nonneg. destruct Hpre as [r Er].
      assert (Forall (wire SERVER_LOG) (c ++ r)) as Hwr by (rewrite <- Er; by apply Forall_take, Forall_drop).
      by apply Forall_app in Hwr as [? _].
    + split; [done|]. intros _. apply (carries_range s X hist m n c); try done; lia.
  - exists 0, (Srlz 0 lbuf (Z.of_nat (length lbuf))), (Some ENODATA).
    split; [|split; [cbn; lia|split; [cbn; lia|done]]].
    apply serialize_server_locked; [done|]. apply serialize_compacted with (l := X); try done; try lia; cbn; lia.
Qed.

(** The state the replication thread of [s] works on. *)
Record streaming (s : St) (C : list server_t) (X : list log_entry_t) (hist : list applied_t) : Prop := {
  sm_core : exists L, core s L C;
  sm_locks : locks s = no_locks;
  sm_side : xside s X hist;
  sm_masters : masters_ok hist C;
  sm_replicas : replicas_known s }.

Lemma core_repl s L C r : core s L C -> core (set_repl r s) L C.
Proof. by apply core_same. Qed.

Lemma replica_found s C X hist p :
  streaming s C X hist -> Some p ∈ rp_servers (g_repl s) ->
  exists x, (forall r, zoom config_l (deref p) (set_repl r s) = Ok x (set_repl r s)) /\
    0 <= s_master_index x <= Z.of_nat (length hist).
Proof.
  intros [[L Co] _ _ Hm Hr] Hp%Hr. apply list_elem_of_lookup in Hp as [i Hi].
  pose proof (objs_heap _ _ (rep_objs _ _ (co_cfg _ _ _ Co))) as Hh.
  destruct (Forall2_lookup_l _ _ _ _ _ Hh Hi) as (x & Hx & _). exists x. split.
  - intros r. by apply (find_deref (set_repl r s) L C i x p); [apply core_repl| |].
  - by eapply (Forall_lookup_1 _ _ _ _ Hm).
Qed.

Lemma send_locked_ok s i p msg :
  locks s = no_locks -> rp_servers (g_repl s) !! i = Some (Some p) ->
  send_locked i msg (with_repl false s) = Ok (Some msg, false) (with_repl true s).
Proof.
  intros Hk Hi. enough (wp never (send_locked i msg) (with_repl false s) (fun r s' =>
    r = (Some msg, false) /\ s' = with_repl true s)) as W.
  { destruct (wp_never _ _ _ W) as (r & s' & E & -> & ->). exact E. }
  unfold send_locked. apply wp_bind, wp_zoom, wp_lock; [done|]. apply wp_bind, wp_gets, wp_ret.
  cbn [lget lput repl_l set_repl g_repl with_repl repl_lock_l rp_servers]. by rewrite Hi.
Qed.

(** A turn up to the serialization. *)
Lemma turn_head E k realloc i lbuf payload buf_len ml s C X hist p x Q :
  streaming s C X hist -> rp_servers (g_repl s) !! i = Some (Some p) ->
  (forall r, zoom config_l (deref p) (set_repl r s) = Ok x (set_repl r s)) ->
  (let n := u32 (u32 (Z.of_nat (length hist)) - s_master_index x) in
   wp E (if truthy n then state_replication_send k pad max_msg_size realloc i lbuf payload buf_len
       (s_master_index x) n else mret (None, true)) (with_repl false s) Q) ->
  wp E (state_replication_turn k pad max_msg_size realloc i lbuf payload buf_len ml)
    (with_repl (negb ml) s) Q.
Proof.
  intros Sm Hi Ed HQ. pose proof Sm as [_ Hk D _ _]. pose proof D as [R Hl _ _ _].
  unfold state_replication_turn. apply wp_bind, wp_gets, wp_bind, wp_from_opt.
  cbn [g_repl with_repl set_repl lput repl_lock_l rp_servers]. rewrite Hi.
  apply wp_bind. eapply wp_eq; [apply Ed|]. cbv zeta.
  apply wp_bind, wp_zoom, wp_unlock. cbn [lget lput repl_l repl_lock_l].
  change (set_repl _ _) with (with_repl false s).
  assert (lg_lock (g_xapp_log s) = false) as Hkx by (by pose proof (f_equal k_xapp Hk)).
  apply wp_bind. eapply (wp_eq _ _ _ (Z.of_nat (length hist)) (with_repl false s)); [|exact HQ].
  unfold get_server_last_log_index, zoom. cbn [lget xapp_log_l with_repl set_repl g_xapp_log].
  rewrite (get_last_log_index_rep _ _ R _ Hkx), <- (lr_last _ _ R), Hl. by destruct s.
Qed.

Lemma turn_ok k realloc i lbuf payload ml s C X hist :
  streaming s C X hist -> sys_alloc k = true -> 0 < max_msg_size - REPL_REQ_HDR_LEN < 2 ^ 31 ->
  Forall (fun e => esize SERVER_LOG e <= Z.of_nat (length lbuf)) X ->
  wp any (state_replication_turn k pad max_msg_size realloc i lbuf payload (Z.of_nat (length lbuf)) ml)
    (with_repl (negb ml) s) (fun r s' => s' = with_repl (negb (snd r)) s /\
      forall m, fst r = Some m -> message_ok s hist m).
Proof using pad_len.
  intros Sm Hal Hmax Hsz. pose proof Sm as [_ Hk D _ _].
  destruct (rp_servers (g_repl s) !! i) as [[p|]|] eqn:Ei.
  2, 3: unfold state_replication_turn; apply wp_bind, wp_gets, wp_bind, wp_from_opt;
    cbn [g_repl with_repl set_repl lput repl_lock_l rp_servers]; rewrite Ei; first [by apply wp_ret|done].
  destruct (replica_found s C X hist p Sm) as (x & Ed & Hm); [by eapply list_elem_of_lookup_2|].
  eapply turn_head; [done..|]. cbv zeta. set (n := u32 _). set (s1 := with_repl false s).
  destruct (truthy n) eqn:En; [|by apply wp_ret].
  assert (n <> 0) as Hn by (intros E; by rewrite E in En).
  unfold state_replication_send. apply wp_bind, wp_gets.
  assert (lg_lock (g_xapp_log s) = false) as Hkx by (by pose proof (f_equal k_xapp Hk)).
  destruct (serialize_stream_ok s1 X hist (s_master_index x) lbuf (xside_same s s1 X hist eq_refl eq_refl eq_refl D)
    Hkx Hmax Hm Hsz Hn) as (n' & z & err & Ez & Hz1 & Hz2 & Hz3).
  apply wp_bind. rewrite Hal. eapply wp_eq; [exact Ez|]. cbv beta iota.
  destruct (truthy (z_bytes z)) eqn:Eb.
  - apply wp_bind. unfold when. destruct (i32 _ <? 0); [done|]. apply wp_ret, wp_bind, wp_from_opt.
    rewrite sub_bytes_all by lia. eapply wp_eq; [by eapply send_locked_ok|].
    split; [done|]. intros m [= <-]. split; [done|]. apply Hz3. intros E. by rewrite E in Eb.
  - destruct (decide (err = Some ENODATA)); [|by apply wp_ret].
    apply wp_bind, wp_zoom. eapply wp_mono; [apply serialize_snapshot_same; by pose proof (f_equal k_xsnap Hk)|].
    intros [mlen p'] s' ->. assert (lput snap_l (lget snap_l s1) s1 = s1) as -> by done.
    destruct (truthy mlen); [|by apply wp_ret].
    eapply wp_eq; [by eapply send_locked_ok|]. split; [done|]. by intros m [= <-].
Qed.

Definition all_ok (s : St) (hist : list applied_t) (l : list (nat * replication_msg)) : Prop :=
  Forall (fun im => message_ok s hist im.2) l.

Lemma loop_ok k realloc bufs n i ml s C X hist :
  streaming s C X hist -> sys_alloc k = true -> 0 < max_msg_size - REPL_REQ_HDR_LEN < 2 ^ 31 ->
  (forall j, Forall (fun e => esize SERVER_LOG e <= Z.of_nat (length (fst (bufs j)))) X) ->
  wp any (state_replication_loop k pad max_msg_size realloc bufs n i ml) (with_repl (negb ml) s)
    (fun r s' => s' = with_repl (negb (snd r)) s /\ all_ok s hist (fst r)).
Proof using pad_len.
  intros Sm Hal Hmax Hb. revert i ml. induction n as [|n IH]; intros i ml; cbn [state_replication_loop].
  { apply wp_ret. split; [done|]. by constructor. }
  specialize (Hb i) as Hbi. destruct (bufs i) as [lbuf payload]. apply wp_bind.
  eapply wp_mono; [by apply (turn_ok k realloc i lbuf payload ml s C X hist)|].
  intros [msg ml'] s' [-> Hm]. apply wp_bind. eapply wp_mono; [apply (IH (S i) ml')|].
  intros [msgs ml2] s' [-> Hms]. apply wp_ret. split; [done|].
  destruct msg as [m|]; [|done]. constructor; [by apply Hm|done].
Qed.

(** A turn of the thread only sends: the state is as before. Without another
    member it sends nothing. *)
Lemma pass_run E k realloc bufs s C X hist (Q : list (nat * replication_msg) -> Prop) :
  streaming s C X hist -> (rp_servers (g_repl s) = [] \/ length C = 1%nat -> Q []) ->
  wp E (state_replication_loop k pad max_msg_size realloc bufs (length (rp_servers (g_repl s))) 0 false)
    (with_repl true s) (fun r s' => s' = with_repl (negb (snd r)) s /\ Q (fst r)) ->
  wp E (state_replication_pass k pad max_msg_size realloc bufs) s (fun r s' => s' = s /\ Q r).
Proof using Type.
  intros Sm HQ Hloop. pose proof (f_equal k_repl (sm_locks _ _ _ _ Sm)) as Hk. cbn in Hk.
  unfold state_replication_pass. apply wp_bind, wp_zoom, wp_lock; [done|].
  cbn [lget lput repl_l]. change (set_repl _ s) with (with_repl true s).
  apply wp_bind, wp_gets, wp_bind. set (n := length _).
  assert (forall r, Q r -> wp E (zoom repl_l (unlock repl_lock_l);; mret r) (with_repl true s)
    (fun r s' => s' = s /\ Q r)) as Hend.
  { intros r Hr. apply wp_bind, wp_zoom, wp_unlock, wp_ret. cbn [lget lput repl_l].
    change (set_repl _ _) with (with_repl false s). by rewrite with_repl_same. }
  apply (wp_mono E _ _ (fun w s' => s' = with_repl true s /\
    (w = true -> rp_servers (g_repl s) = [] \/ length C = 1%nat))).
  { destruct (n =? 0)%nat eqn:En.
    { apply wp_ret. split; [done|]. intros _. left. apply nil_length_inv. by apply Nat.eqb_eq in En. }
    apply wp_bind, wp_zoom. destruct (sm_core _ _ _ _ Sm) as [L Co].
    eapply (wp_eq _ _ _ (Z.of_nat (length C)) (g_config s)).
    - apply locked_read; [by pose proof (f_equal k_cfg (sm_locks _ _ _ _ Sm))|]. mrun. cbn.
      by rewrite (objs_size _ _ (rep_objs _ _ (co_cfg _ _ _ Co))).
    - apply wp_ret. split; [by destruct s|]. intros Hw%Z.eqb_eq. right. clear -Hw. lia. }
  intros waits s' [-> Hw]. destruct waits; [by apply Hend, HQ, Hw|].
  apply wp_bind. eapply wp_mono; [exact Hloop|].
  intros [msgs ml] s' [-> Hm]. apply wp_bind. unfold state_replication_sleep, when.
  destruct ml; [apply wp_zoom, wp_lock; [done|]|apply wp_ret]; by apply Hend.
Qed.

Lemma pass_ok k realloc bufs s C X hist :
  streaming s C X hist -> sys_alloc k = true -> 0 < max_msg_size - REPL_REQ_HDR_LEN < 2 ^ 31 ->
  (forall j, Forall (fun e => esize SERVER_LOG e <= Z.of_nat (length (fst (bufs j)))) X) ->
  wp any (state_replication_pass k pad max_msg_size realloc bufs) s (fun r s' => s' = s /\ all_ok s hist r).
Proof using pad_len.
  intros Sm Hal Hmax Hb. eapply pass_run; [done|by constructor|].
  by apply (loop_ok k realloc bufs _ 0 false s C X hist).
Qed.
End Sender.

End Stream.
