(* ===== verification/Streams.v ===== *)
(** * The streams of commands between servers

    Several servers, each primary of its own commands and backup of the others',
    over a network that loses, repeats and reorders messages and delivers them
    to anyone. Every server calls the callback of its xApp with its own commands
    and, for each other server, with a prefix of the commands of that one. *)

From S2P Require Import Prelude Monad Types LogRing Mtl Config Quorum HashTable.
From S2P Require Import HashMap State Utils Log Serialize Snapshot RaftLog Raft XApp Server.
From S2P Require Import Invariant Commit Election Replication XRepl Worker Delivery XStream.
Open Scope Z_scope.

(** ** The network *)

(** What is on its way: a replication request, and an answer to a primary. *)
Inductive xpacket :=
| Stream (h : repl_req_hdr_t) (data : bytes)
| Ack (to : server_id_t) (reply : replication_reply_t).

(** [issued]: the commands the xApps have had replicated, with their server. *)
Record xnet := XNet {
  xservers : gmap server_id_t St;
  xsent : list xpacket;
  issued : list (server_id_t * applied_t) }.

Definition by_server (i : server_id_t) (l : list (server_id_t * applied_t)) : list applied_t :=
  (filter (fun p => p.1 = i) l).*2.

Definition commands (i : server_id_t) (c : xnet) : list applied_t := by_server i (issued c).

Definition streams_of (msgs : list (nat * replication_msg)) : list xpacket :=
  omap (fun im => match im.2 with MsgReplication h data => Some (Stream h data) | _ => None end) msgs.

(** What the replication knows of a member. *)
Definition progress_of (x : server_t) : server_id_t * index_t * index_t :=
  (s_server_id x, s_master_index x, s_replica_index x).

Section Streams.
Context `{Rmr} `{Host} (pad : bytes) (max_msg_size : Z).

(** A step of the other threads, between two changes of the membership. *)
Record elsewhere (s s' : St) : Prop := {
  el_log : g_xapp_log s' = g_xapp_log s;
  el_app : g_app s' = g_app s;
  el_pipe : sn_xapp_pipe (g_snap s') = sn_xapp_pipe (g_snap s);
  el_progress : sn_xapp_in_progress (g_snap s') = sn_xapp_in_progress (g_snap s);
  el_self : m_self_id (g_me s') = m_self_id (g_me s);
  el_locks : locks s = no_locks -> locks s' = no_locks;
  el_replicas : replicas_known s -> replicas_known s';
  el_inv : forall L C, inv s L C -> exists L' C', inv s' L' C' /\ progress_of <$> C' = progress_of <$> C }.

(** The buffers are large enough for every entry of the log: the growth of the
    buffer is not to be trusted. *)
Definition buffers_fit (s : St) (bufs : nat -> bytes * bytes) : Prop :=
  forall X, log_rep (g_xapp_log s) X ->
  forall j, Forall (fun e => esize SERVER_LOG e <= Z.of_nat (length (fst (bufs j)))) X.

Definition advance_to (i : server_id_t) (s' : St) (out : list xpacket)
    (new : list (server_id_t * applied_t)) (c : xnet) : xnet :=
  XNet (<[i := s']> (xservers c)) (out ++ xsent c) (issued c ++ new).

Inductive xstep (c : xnet) : xnet -> Prop :=
| xs_replicate i s k mem cb command context key value meid role r s' :
    xservers c !! i = Some s -> command_fits command context key value ->
    Z.of_nat (length (commands i c)) + 1 < 2 ^ 64 - 1 -> a_context mem = true -> a_key mem = true ->
    rft_replicate k mem cb command (Some context) (Some key) (Some value) meid role s = Ok r s' ->
    xstep c (advance_to i s' [] (if fst r =? 1 then [(i, call_of command context key value)] else []) c)
| xs_send i s k realloc bufs msgs s' :
    xservers c !! i = Some s -> sys_alloc k = true -> buffers_fit s bufs ->
    state_replication_pass k pad max_msg_size realloc bufs s = Ok msgs s' ->
    xstep c (advance_to i s' (streams_of msgs) [] c)
| xs_deliver i s k h data rest r s' :
    xservers c !! i = Some s -> Stream h data ∈ xsent c -> rh_server_id h <> i ->
    worker_replication k h (data ++ rest) s = Ok r s' ->
    xstep c (advance_to i s' [Ack (rh_server_id h) r] [] c)
| xs_ack i s r s' :
    xservers c !! i = Some s -> Ack i r ∈ xsent c -> handle_replication_reply r s = Ok tt s' ->
    xstep c (advance_to i s' [] [] c)
| xs_store i s alloc meta got s' :
    xservers c !! i = Some s -> parent_xapp_thread alloc meta got s = Ok tt s' ->
    xstep c (advance_to i s' [] [] c)
| xs_other i s s' :
    xservers c !! i = Some s -> elsewhere s s' -> xstep c (advance_to i s' [] [] c).

Definition xrun : xnet -> xnet -> Prop := rtc xstep.

(** No command yet. *)
Definition xinitial (c : xnet) : Prop :=
  xsent c = [] /\ issued c = [] /\ forall i s, xservers c !! i = Some s ->
    m_self_id (g_me s) = i /\ locks s = no_locks /\ app_ok (g_app s) /\ ax_applied (g_app s) = [] /\
    xside s [] [] /\ replicas_known s /\
    exists L C, inv s L C /\ Forall (fun x => s_master_index x = 0 /\ s_replica_index x = 0) C.

(** ** The invariant *)

(** How many commands of server [j] a server has applied. *)
Definition replica_of (j : server_id_t) (C : list server_t) : Z :=
  match list_find (has_id j) C with Some (_, x) => s_replica_index x | None => 0 end.

(** [tr]: the calls of the callback, with the server the command is from. *)
Record xknown (c : xnet) (i : server_id_t) (s : St) (C : list server_t)
    (tr : list (server_id_t * applied_t)) : Prop := {
  xk_inv : exists L, inv s L C;
  xk_locks : locks s = no_locks;
  xk_self : m_self_id (g_me s) = i;
  xk_app : app_ok (g_app s);
  xk_side : exists X, xside s X (commands i c);
  xk_masters : masters_ok (commands i c) C;
  xk_replicas : replicas_known s;
  xk_calls : tr.*2 = ax_applied (g_app s);
  xk_own : Forall2 same_call (commands i c) (by_server i tr);
  xk_others : forall j, j <> i -> 0 <= replica_of j C <= Z.of_nat (length (commands j c)) /\
    Forall2 same_call (take (Z.to_nat (replica_of j C)) (commands j c)) (by_server j tr) }.

Definition xpacket_ok (c : xnet) (p : xpacket) : Prop :=
  match p with
  | Stream h data => carries (commands (rh_server_id h) c) (rh_master_index h) (rh_n_entries h) data
  | Ack to r => 0 <= pr_replica_index r <= Z.of_nat (length (commands to c))
  end.

Record xinv (c : xnet) : Prop := {
  xi_servers : forall i s, xservers c !! i = Some s -> exists C tr, xknown c i s C tr;
  xi_sent : Forall (xpacket_ok c) (xsent c);
  xi_count : forall i, Z.of_nat (length (commands i c)) < 2 ^ 64 - 1 }.

(** *** Commands and progress *)

Lemma by_server_app i l1 l2 : by_server i (l1 ++ l2) = by_server i l1 ++ by_server i l2.
Proof. unfold by_server. by rewrite filter_app, fmap_app. Qed.

Lemma by_server_cons i p l :
  by_server i (p :: l) = if decide (p.1 = i) then p.2 :: by_server i l else by_server i l.
Proof. unfold by_server. rewrite filter_cons. by case_decide. Qed.

Lemma by_server_same i (l : list applied_t) : by_server i ((i,.) <$> l) = l.
Proof. induction l as [|a l IH]; [done|]. by rewrite fmap_cons, by_server_cons, decide_True, IH by done. Qed.

Lemma by_server_none j l : (forall p, p ∈ l -> p.1 <> j) -> by_server j l = [].
Proof.
  induction l as [|p l IH]; intros Hl; [done|]. rewrite by_server_cons, decide_False.
  - apply IH. intros q Hq. apply Hl. by right.
  - apply Hl. by left.
Qed.

Lemma by_server_other i j (l : list applied_t) : j <> i -> by_server j ((i,.) <$> l) = [].
Proof. intros Hne. apply by_server_none. intros p (a & -> & _)%list_elem_of_fmap. by apply not_eq_sym. Qed.

(** All calls are those of one server. *)
Lemma by_server_all j l : (forall i, i <> j -> by_server i l = []) -> by_server j l = l.*2.
Proof.
  induction l as [|p l IH]; intros Hl; [done|]. rewrite by_server_cons, fmap_cons. case_decide as E.
  - f_equal. apply IH. intros i Hi. specialize (Hl i Hi). by rewrite by_server_cons, decide_False in Hl by congruence.
  - specialize (Hl _ E). by rewrite by_server_cons, decide_True in Hl.
Qed.

Lemma tagged_calls (i : server_id_t) (l : list applied_t) : ((i,.) <$> l).*2 = l.
Proof. rewrite <- list_fmap_compose. induction l as [|a l IH]; [done|]. cbn. by rewrite IH. Qed.

Lemma replica_of_cons j x C :
  replica_of j (x :: C) = if decide (s_server_id x = j) then s_replica_index x else replica_of j C.
Proof.
  unfold replica_of. cbn. destruct (decide (s_server_id x = j)); [done|].
  by destruct (list_find _ C) as [[? ?]|].
Qed.

Lemma replica_of_found j C i x : list_find (has_id j) C = Some (i, x) -> replica_of j C = s_replica_index x.
Proof. unfold replica_of. by intros ->. Qed.

(** Only the entry of [j] counts, and only its replica index. *)
Lemma replica_of_insert j C i x y :
  C !! i = Some x -> s_server_id y = s_server_id x ->
  (s_server_id x = j -> s_replica_index y = s_replica_index x) ->
  replica_of j (<[i := y]> C) = replica_of j C.
Proof.
  revert i. induction C as [|z C IH]; intros [|i] Hi Hid Hr; [done..| |].
  - injection Hi as ->. change (<[0%nat := y]> (x :: C)) with (y :: C). rewrite !replica_of_cons, Hid.
    case_decide; [by apply Hr|done].
  - change (<[S i := y]> (z :: C)) with (z :: <[i := y]> C). by rewrite !replica_of_cons, (IH i).
Qed.

Lemma progress_same C C' hist :
  progress_of <$> C' = progress_of <$> C ->
  (forall j, replica_of j C' = replica_of j C) /\ (masters_ok hist C -> masters_ok hist C').
Proof.
  revert C'. induction C as [|x C IH]; intros [|x' C']; cbn; try done.
  unfold progress_of at 1 3. intros [= E1 E2 E3 E4]. destruct (IH C' E4) as [IH1 IH2]. split.
  - intros j. rewrite !replica_of_cons. by rewrite E1, E3, IH1.
  - unfold masters_ok. rewrite !Forall_cons_iff, E2. intros [? ?]. split; [done|]. by apply IH2.
Qed.

(** *** More commands of another server *)

Lemma commands_advance i s' out new c j :
  commands j (advance_to i s' out new c) = commands j c ++ by_server j new.
Proof. apply by_server_app. Qed.

Lemma xpacket_mono i s' out new c p : xpacket_ok c p -> xpacket_ok (advance_to i s' out new c) p.
Proof.
  destruct p as [h data|to r]; cbn [xpacket_ok]; rewrite commands_advance; [apply carries_mono|].
  rewrite length_app. lia.
Qed.

Lemma xknown_mono c i s C tr j s' out new :
  xknown c i s C tr -> by_server i new = [] -> xknown (advance_to j s' out new c) i s C tr.
Proof.
  intros [] Hnew. split; rewrite ?commands_advance, ?Hnew, ?app_nil_r; try done.
  intros j' Hj. destruct (xk_others0 j' Hj) as [Hr Hf]. rewrite commands_advance, length_app.
  split; [lia|]. by rewrite take_app_le by lia.
Qed.

(** The network after a step of server [i]. *)
Lemma xinv_step c i s' out new C' tr' :
  xinv c -> (forall p, p ∈ new -> p.1 = i) ->
  xknown (advance_to i s' out new c) i s' C' tr' ->
  Forall (xpacket_ok (advance_to i s' out new c)) out ->
  (forall j, Z.of_nat (length (commands j c ++ by_server j new)) < 2 ^ 64 - 1) ->
  xinv (advance_to i s' out new c).
Proof.
  intros [S P N] Hnew K Ho Hc. split; cbn [xservers xsent advance_to].
  - intros j sj. destruct (decide (i = j)) as [<-|Hne].
    + rewrite lookup_insert_eq. intros [= <-]. by exists C', tr'.
    + rewrite lookup_insert_ne by done. intros Hj. destruct (S j sj Hj) as (Cj & trj & Kj).
      exists Cj, trj. apply xknown_mono; [done|]. apply by_server_none.
      intros p Hp Ep. apply Hnew in Hp. congruence.
  - apply Forall_app. split; [done|]. eapply Forall_impl; [exact P|]. intros p. apply xpacket_mono.
  - intros j. by rewrite commands_advance.
Qed.

(** *** The steps of a server *)

(** A step that adds its own commands [l] and calls the callback with them. *)
Lemma xknown_own c i s C tr s' out l :
  xknown c i s C tr -> aside s s' -> locks s' = no_locks -> app_ok (g_app s') ->
  (exists X, xside s' X (commands i c ++ l)) -> ax_applied (g_app s') = ax_applied (g_app s) ++ l ->
  xknown (advance_to i s' out ((i,.) <$> l) c) i s' C (tr ++ ((i,.) <$> l)).
Proof.
  intros [] A Hk Ha Hx Hl. pose proof A as []. split.
  - destruct xk_inv0 as [L I]. exists L. by eapply aside_inv.
  - done.
  - by rewrite as_me.
  - done.
  - by rewrite commands_advance, by_server_same.
  - rewrite commands_advance. eapply Forall_impl; [exact xk_masters0|]. cbv beta. intros x.
    rewrite length_app. lia.
  - unfold replicas_known. by rewrite as_repl, as_config.
  - by rewrite fmap_app, tagged_calls, Hl, xk_calls0.
  - rewrite commands_advance, by_server_app, by_server_same. apply Forall2_app; [done|].
    induction l; by constructor.
  - intros j Hj. rewrite commands_advance, by_server_app, by_server_other, !app_nil_r by done. by apply xk_others0.
Qed.

Lemma xinv_own c i s s' C tr C' tr' out l :
  xinv c -> xservers c !! i = Some s -> xknown c i s C tr ->
  xknown (advance_to i s' out ((i,.) <$> l) c) i s' C' tr' ->
  Forall (xpacket_ok (advance_to i s' out ((i,.) <$> l) c)) out ->
  Z.of_nat (length (commands i c ++ l)) < 2 ^ 64 - 1 ->
  xinv (advance_to i s' out ((i,.) <$> l) c).
Proof.
  intros I Hi K K' Ho Hc. eapply xinv_step; [done| |exact K'|done|].
  - by intros p (a & -> & _)%list_elem_of_fmap.
  - intros j. destruct (decide (j = i)) as [->|Hne]; [by rewrite by_server_same|].
    rewrite by_server_other, app_nil_r by done. apply (xi_count _ I).
Qed.

(** The answer to a request, which need not be new, nor from a member. *)
Lemma deliver_known c i s C tr k h data rest r s' :
  xinv c -> xknown c i s C tr -> carries (commands (rh_server_id h) c) (rh_master_index h) (rh_n_entries h) data ->
  rh_server_id h <> i -> worker_replication k h (data ++ rest) s = Ok r s' ->
  exists C' tr', xknown c i s' C' tr' /\
    0 <= pr_replica_index r <= Z.of_nat (length (commands (rh_server_id h) c)).
Proof.
  intros I K (Hm1 & Hm2 & Hm3 & Hd) Hne E. pose proof K as []. destruct xk_inv0 as [L Iv].
  unfold worker_replication in E. set (j := rh_server_id h) in *.
  destruct (sys_alloc k); cbn [negb when] in E; [|done].
  rewrite (bind_Ok _ _ s tt s) in E by done.
  cbn [repl_req_header_to_msg_cpy rr_n_entries rr_master_index rr_server_id] in E.
  destruct (deserialize_server_log_entries (data ++ rest) (rh_n_entries h)) as [es|] eqn:Ed; [|done].
  change (handle_replication_request k
    (ReqRepl (rh_master_index h) j (rh_n_entries h) es) s = Ok r s') in E.
  pose proof (deserialize_server_more _ [] _ _ _ Ed) as [_ Hlen].
  pose proof (Hd rest es Ed) as Hcalls.
  set (req := ReqRepl _ _ _ _) in E.
  destruct (wp_eq_inv never _ _ _ _ _ E (handle_replication_ok k req s L C Iv xk_locks0 xk_app0
    ltac:(cbn; lia))) as (C' & A & Sp).
  destruct (xk_others0 j Hne) as [Hr Hf].
  destruct (list_find (has_id j) C) as [[n x]|] eqn:Efind.
  2: { destruct (rs_unknown _ _ _ _ _ _ Sp) as (_ & E2 & -> & ->); [by apply ids_find_None|].
       exists C, tr. split; [done|]. rewrite E2. lia. }
  pose proof (rs_known _ _ _ _ _ _ Sp n x Efind) as Hs. pose proof (replica_of_found _ _ _ _ Efind) as Ex.
  destruct (bool_decide _) eqn:Eb.
  2: { destruct Hs as (_ & E2 & -> & ->). exists C, tr. split; [done|]. rewrite E2, <- Ex. lia. }
  apply bool_decide_eq_true in Eb as [Em _]. cbn [rr_master_index req rr_entries] in Em, Hs.
  destruct Hs as (_ & Ha & -> & Ei). pose proof (xi_count _ I j).
  assert (advance (length es) (s_replica_index x) = s_replica_index x + rh_n_entries h) as Ead.
  { rewrite advance_eq by lia. rewrite u64_small; lia. }
  exists (<[n := advanced (length es) x]> C), (tr ++ ((j,.) <$> (applied_of <$> es))).
  split; [|rewrite Ei, Ead; lia].
  apply list_find_Some in Efind as Efs. destruct Efs as (Hn & Hid & _).
  destruct A as [A1 A2 A3 A4 A5 A6 [A7 A8] A9 A10]. split.
  - by exists L.
  - by rewrite A2.
  - by rewrite A6.
  - done.
  - destruct xk_side0 as [X D]. exists X. by apply (xside_same s); rewrite ?A8, ?A9.
  - apply Forall_insert; [done|]. by apply (Forall_lookup_1 _ _ _ _ xk_masters0 Hn).
  - unfold replicas_known. by rewrite A10, A5.
  - by rewrite fmap_app, tagged_calls, Ha, xk_calls0.
  - rewrite by_server_app, by_server_other, app_nil_r by done. done.
  - intros j' Hj'. destruct (xk_others0 j' Hj') as [Hr' Hf'].
    destruct (decide (j' = j)) as [->|Hjj].
    + rewrite (replica_of_found _ _ n (advanced (length es) x))
        by (apply (list_find_insert _ _ _ x); [done|exact Hid]).
      cbn [advanced upd_replica_index s_replica_index]. rewrite Ead. split; [lia|].
      rewrite by_server_app, by_server_same.
      replace (Z.to_nat (s_replica_index x + rh_n_entries h))
        with (Z.to_nat (s_replica_index x) + Z.to_nat (rh_n_entries h))%nat by lia.
      rewrite <- take_take_drop. rewrite Ex in Hf. apply Forall2_app; [done|]. by rewrite <- Em.
    + rewrite by_server_app, by_server_other, app_nil_r by done.
      rewrite (replica_of_insert j' C n x) by (done || intros; congruence). done.
Qed.

(** An answer moves the index of its sender. *)
Lemma ack_known c i s C tr r s' :
  xknown c i s C tr -> 0 <= pr_replica_index r <= Z.of_nat (length (commands i c)) ->
  handle_replication_reply r s = Ok tt s' -> exists C', xknown c i s' C' tr.
Proof.
  intros K Hr E. pose proof K as []. destruct xk_inv0 as [L Iv].
  destruct (wp_eq_inv never _ _ _ _ _ E (set_master_ok (pr_server_id r) (pr_replica_index r) s L C Iv
    xk_locks0 xk_app0)) as (C' & A & Ea & EC).
  destruct A as [A1 A2 A3 A4 A5 A6 [A7 A8] A9 A10].
  assert ((forall j, replica_of j C' = replica_of j C) /\ masters_ok (commands i c) C') as [Hrep Hmas].
  { rewrite EC. destruct (list_find _ C) as [[n x]|] eqn:Ef; [|done].
    apply list_find_Some in Ef as (Hn & Hid & _). split.
    - intros j. by apply (replica_of_insert j C n x).
    - by apply Forall_insert. }
  exists C'. split; rewrite ?Ea; try done.
  - by exists L.
  - by rewrite A2.
  - by rewrite A6.
  - destruct xk_side0 as [X D]. exists X. by apply (xside_same s); rewrite ?A8, ?A9.
  - unfold replicas_known. by rewrite A10, A5.
  - intros j Hj. rewrite Hrep. by apply xk_others0.
Qed.

Lemma elsewhere_known c i s C tr s' :
  xknown c i s C tr -> elsewhere s s' -> exists C', xknown c i s' C' tr.
Proof.
  intros [] []. destruct xk_inv0 as [L Iv]. destruct (el_inv0 L C Iv) as (L' & C' & I' & Ep).
  destruct (progress_same C C' (commands i c) Ep) as [Hrep Hmas].
  exists C'. split; rewrite ?el_app0; try done.
  - by exists L'.
  - by apply el_locks0.
  - by rewrite el_self0.
  - destruct xk_side0 as [X D]. exists X. by apply (xside_same s); rewrite ?el_log0.
  - by apply Hmas.
  - by apply el_replicas0.
  - intros j Hj. rewrite Hrep. by apply xk_others0.
Qed.

(** A step without a command. *)
Lemma xinv_quiet c i s s' C' tr' out :
  xinv c -> xservers c !! i = Some s -> xknown c i s' C' tr' -> Forall (xpacket_ok c) out ->
  xinv (advance_to i s' out [] c).
Proof.
  intros I Hi K Ho. eapply xinv_step; [done|by intros p ?%elem_of_nil|by apply xknown_mono| |].
  - eapply Forall_impl; [exact Ho|]. intros p. apply xpacket_mono.
  - intros j. rewrite app_nil_r. apply (xi_count _ I).
Qed.

Context (pad_len : length pad = 4%nat) (size_ok : 0 < max_msg_size - REPL_REQ_HDR_LEN < 2 ^ 31).

Lemma streaming_of c i s C tr : xknown c i s C tr -> exists X, streaming s C X (commands i c).
Proof.
  intros []. destruct xk_side0 as [X D], xk_inv0 as [L Iv]. exists X. split; try done. exists L. apply Iv.
Qed.

Lemma streams_of_ok c i s msgs :
  m_self_id (g_me s) = i -> all_ok s (commands i c) msgs -> Forall (xpacket_ok c) (streams_of msgs).
Proof.
  intros Hs Hm. unfold streams_of. induction Hm as [|[n m] msgs Hm Hms IH]; [constructor|].
  destruct m as [h data|p]; cbn; [|done]. constructor; [|done]. destruct Hm as [Eh Hc]. cbn.
  by rewrite Eh, Hs.
Qed.

Lemma xstep_inv c c' : xinv c -> xstep c c' -> xinv c'.
Proof using pad_len size_ok.
  intros I St. destruct St as [i s k mem cb command context key value meid role r s' Hi Hfit Hlen Hmc Hmk E
    |i s k realloc bufs msgs s' Hi Hal Hbf E|i s k h data rest r s' Hi Hp Hne E|i s r s' Hi Hp E
    |i s b1 b2 got s' Hi E|i s s' Hi E]; destruct (xi_servers _ I i s Hi) as (C & tr & K).
  - destruct (xk_side _ _ _ _ _ K) as [X D].
    destruct (wp_eq_inv _ _ _ _ _ _ E (rft_replicate_ok k mem cb command context key value meid role s X _
      D (xk_app _ _ _ _ _ K) (xk_locks _ _ _ _ _ K) Hfit Hlen Hmc Hmk))
      as (A & Ha & Hk & [(-> & D' & Hap)|(-> & D' & Hap)]).
    + eapply (xinv_own c i s s' C tr C _ [] []); try done.
      * eapply xknown_own; try done; [exists X; by rewrite app_nil_r|by rewrite app_nil_r].
      * rewrite app_nil_r. apply (xi_count _ I).
    + eapply (xinv_own c i s s' C tr C _ [] [call_of command context key value]); try done.
      * by eapply xknown_own.
      * rewrite length_app. cbn [length]. lia.
  - destruct (streaming_of c i s C tr K) as [X Sm].
    destruct (wp_eq_inv _ _ _ _ _ _ E (pass_ok max_msg_size pad pad_len k realloc bufs s C X _ Sm Hal size_ok
      (Hbf X (xd_log _ _ _ (sm_side _ _ _ _ Sm))))) as [-> Hm].
    eapply xinv_quiet; [done|done|exact K|]. by apply (streams_of_ok c i s); [apply K|].
  - apply (proj1 (list.Forall_forall _ _) (xi_sent _ I)) in Hp.
    destruct (deliver_known c i s C tr k h data rest r s' I K Hp Hne E) as (C' & tr' & K' & Hr).
    eapply xinv_quiet; [done|done|exact K'|]. by apply list.Forall_singleton.
  - apply (proj1 (list.Forall_forall _ _) (xi_sent _ I)) in Hp.
    destruct (ack_known c i s C tr r s' K Hp E) as (C' & K'). by eapply xinv_quiet.
  - destruct (xk_side _ _ _ _ _ K) as [X D].
    destruct (wp_eq_inv _ _ _ _ _ _ E (parent_xapp_ok b1 b2 got s X _ D (xk_locks _ _ _ _ _ K)))
      as (A & Ea & Hk & X' & D').
    eapply (xinv_own c i s s' C tr C _ [] []); try done.
    + eapply xknown_own; try done; [rewrite Ea; apply K|exists X'; by rewrite app_nil_r|by rewrite Ea, app_nil_r].
    + rewrite app_nil_r. apply (xi_count _ I).
  - destruct (elsewhere_known c i s C tr s' K E) as (C' & K'). by eapply xinv_quiet.
Qed.

Lemma xinitial_inv c : xinitial c -> xinv c.
Proof.
  intros (Hs & Hi & Hall). assert (forall j, commands j c = []) as Hc by (intros j; unfold commands; by rewrite Hi).
  split.
  - intros i s Hi'. destruct (Hall i s Hi') as (H1 & H2 & H3 & H4 & H5 & H6 & L & C & Iv & HC).
    exists C, []. split; rewrite ?Hc; try done.
    + by exists L.
    + by exists [].
    + eapply Forall_impl; [exact HC|]. intros x [-> _]. cbn. lia.
    + intros j Hj. rewrite Hc. assert (replica_of j C = 0) as ->; [|split; [cbn; lia|by constructor]].
      unfold replica_of. destruct (list_find _ C) as [[n x]|] eqn:Ef; [|done].
      apply list_find_Some in Ef as (Hn & _). by apply (Forall_lookup_1 _ _ _ _ HC Hn).
  - by rewrite Hs.
  - intros i. by rewrite Hc.
Qed.

Lemma xrun_inv c c' : xinitial c -> xrun c c' -> xinv c'.
Proof using pad_len size_ok.
  intros Hi Hr. assert (xinv c) as I by by apply xinitial_inv. clear Hi.
  induction Hr as [|c1 c2 c3 Hst _ IH]; [done|]. apply IH. by eapply xstep_inv.
Qed.

End Streams.
