(* ===== verification/StateTypes.v ===== *)
(** * The memory of a server is typed

    The C types of the structures of include/types.h and of the globals, and
    the operations of every component of the library under the typing rules:
    whatever values the memory and a message hold, they stay within the widths
    of their fields. Lengths of blocks are bounded by the memory of the machine
    and not by a field, and [hb_timeouts] is an [int] that only counts up: they
    are left out. *)

From S2P Require Import Prelude Monad Typing Types LogRing Mtl Config HashTable State.
From S2P Require Import Utils Log Serialize Snapshot RaftLog Raft XApp Server.
Open Scope Z_scope.

Section Types.
Context `{Rmr} `{Host}.

(** ** The structures *)

Definition is_bit (z : Z) : Prop := z = 0 \/ z = 1.
Definition is_int (z : Z) : Prop := INT_MIN <= z <= INT_MAX.
Definition is_id (s : server_id_t) : Prop := (String.length s < sizeof_server_id)%nat.
Definition is_target (s : target_t) : Prop := (String.length s < sizeof_target)%nat.

Definition entry_typed (e : log_entry_t) : Prop :=
  is_u64 (e_term e) /\ is_u64 (e_index e) /\ is_u64 (e_dlen e) /\ is_u32 (e_clen e) /\
  is_u32 (e_klen e) /\ is_u32 (e_type e) /\ is_int (e_command e).
#[export] Instance typed_entry : Typed log_entry_t := entry_typed.

Definition server_typed (x : server_t) : Prop :=
  is_id (s_server_id x) /\ is_target (s_target x) /\ is_bit (s_status x) /\ is_bit (s_voted_for_me x) /\
  is_u64 (s_next_index x) /\ is_u64 (s_match_index x) /\ is_u64 (s_replica_index x) /\
  is_u64 (s_master_index x).
#[export] Instance typed_server : Typed server_t := server_typed.

Definition ring_typed (r : logring) : Prop :=
  is_u32 (r_head r) /\ is_u32 (r_tail r) /\ is_u32 (r_mask r) /\ typed (r_data r).
#[export] Instance typed_ring : Typed logring := ring_typed.

Definition log_typed (s : log_st) : Prop :=
  is_u64 (l_memsize (lg s)) /\ is_u64 (l_index_offset (lg s)) /\ is_u64 (l_last_log_index (lg s)) /\
  typed (l_entries (lg s)).
#[export] Instance typed_log : Typed log_st := log_typed.

Definition config_typed (s : config_st) : Prop :=
  is_u32 (c_size (cf s)) /\ is_u32 (c_voting_members (cf s)) /\ is_bit (c_is_changing (cf s)) /\
  map_Forall (fun _ x => server_typed x) (cf_heap s).
#[export] Instance typed_config : Typed config_st := config_typed.

Definition meta_typed (m : pipe_metabuf_t) : Prop :=
  is_u64 (pm_last_term m) /\ is_u64 (pm_last_index m) /\ is_u32 (pm_items m).
#[export] Instance typed_meta : Typed pipe_metabuf_t := meta_typed.
#[export] Instance typed_bytes : Typed (list ascii) | 0 := fun _ => True.

Definition raft_snapshot_typed (x : raft_snapshot_t) : Prop :=
  is_u64 (rs_last_term x) /\ is_u64 (rs_last_index x) /\ is_u32 (rs_items x).
#[export] Instance typed_raft_snapshot : Typed raft_snapshot_t := raft_snapshot_typed.
Definition xapp_snapshot_typed (x : xapp_snapshot_t) : Prop :=
  is_u64 (xs_last_index x) /\ is_u32 (xs_items x).
#[export] Instance typed_xapp_snapshot : Typed xapp_snapshot_t := xapp_snapshot_typed.

Definition snap_typed (s : snap_st) : Prop :=
  typed (sn_raft_snapshot s) /\ typed (sn_raft_pipe s) /\ typed (sn_xapp_snapshot s) /\ typed (sn_xapp_pipe s).
#[export] Instance typed_snap : Typed snap_st := snap_typed.

Definition me_typed (m : raft_state_t) : Prop :=
  is_u64 (m_current_term m) /\ is_u32 (m_rcv_votes m) /\ is_id (m_self_id m) /\ is_id (m_voted_for m) /\
  is_id (m_current_leader m) /\ is_u64 (m_commit_index m) /\ is_u64 (m_last_applied m).
#[export] Instance typed_me : Typed raft_state_t := me_typed.

(** The tables, the timers and the calls of the xApp hold no integers of the
    library. *)
#[export] Instance typed_hashtable : Typed hashtable_t := fun _ => True.
#[export] Instance typed_elec : Typed elec_st := fun _ => True.
#[export] Instance typed_app : Typed app_st := fun _ => True.

Definition repl_typed (s : repl_st) : Prop := is_u32 (rp_num_replicas s).
#[export] Instance typed_repl : Typed repl_st := repl_typed.

Definition st_typed (s : St) : Prop :=
  typed (g_me s) /\ typed (g_raft_log s) /\ typed (g_xapp_log s) /\ typed (g_config s) /\
  typed (g_snap s) /\ typed (g_repl s).
#[export] Instance typed_st : Typed St := st_typed.

(** ** Parts of the memory *)

Ltac types := repeat progress (unfold typed, typed_st, typed_log, typed_config, typed_snap, typed_repl, typed_me,
  typed_bool, typed_unit, typed_hashtable, typed_elec, typed_app, st_typed, log_typed, config_typed,
  snap_typed, repl_typed, me_typed in *; cbn in *).
Ltac lens := split; intros; types; tauto.

#[export] Instance raft_log_typed : TypedLens raft_log_l. Proof. lens. Qed.
#[export] Instance xapp_log_typed : TypedLens xapp_log_l. Proof. lens. Qed.
#[export] Instance config_l_typed : TypedLens config_l. Proof. lens. Qed.
#[export] Instance snap_l_typed : TypedLens snap_l. Proof. lens. Qed.
#[export] Instance repl_l_typed : TypedLens repl_l. Proof. lens. Qed.
#[export] Instance elec_l_typed : TypedLens elec_l. Proof. lens. Qed.
#[export] Instance app_l_typed : TypedLens app_l. Proof. lens. Qed.
#[export] Instance ctxtab_typed : TypedLens (lens_comp app_l ctxtab_l). Proof. lens. Qed.
#[export] Instance roletab_typed : TypedLens (lens_comp app_l roletab_l). Proof. lens. Qed.
#[export] Instance state_lock_typed : TypedLens state_lock_l. Proof. lens. Qed.
#[export] Instance lg_lock_typed : TypedLens lg_lock_l. Proof. lens. Qed.
#[export] Instance cf_lock_typed : TypedLens cf_lock_l. Proof. lens. Qed.
#[export] Instance repl_lock_typed : TypedLens repl_lock_l. Proof. lens. Qed.
#[export] Instance el_lock_typed : TypedLens el_lock_l. Proof. lens. Qed.
#[export] Instance installing_lock_typed : TypedLens installing_lock_l. Proof. lens. Qed.
#[export] Instance raft_snapshot_lock_typed : TypedLens raft_snapshot_lock_l. Proof. lens. Qed.
#[export] Instance raft_in_progress_lock_typed : TypedLens raft_in_progress_lock_l. Proof. lens. Qed.
#[export] Instance xapp_snapshot_lock_typed : TypedLens xapp_snapshot_lock_l. Proof. lens. Qed.
#[export] Instance xapp_in_progress_lock_typed : TypedLens xapp_in_progress_lock_l. Proof. lens. Qed.
#[export] Instance raft_in_progress_typed : TypedLens raft_in_progress_l. Proof. lens. Qed.
#[export] Instance xapp_in_progress_typed : TypedLens xapp_in_progress_l. Proof. lens. Qed.

(** ** The ring and the logs *)

Lemma land_range a b : is_u32 a -> is_u32 (Z.land a b).
Proof.
  intros Ha. rewrite <- (Z.mod_small a (2 ^ 32) Ha), <- land_mask by lia.
  rewrite <- Z.land_assoc, (Z.land_comm _ b), Z.land_assoc, land_mask by lia. by apply Z.mod_pos_bound.
Qed.

Lemma data_rd_ty i : ty (data_rd i) typed.
Proof.
  unfold data_rd. eapply ty_bind; [apply ty_gets|]. intros d (r & (_ & _ & _ & Hd) & ->).
  apply ty_from_opt. intros a Ha. by eapply (Forall_lookup_1 _ _ _ _ Hd).
Qed.

Lemma data_wr_ty i p : typed p -> ty (data_wr i p) anything.
Proof.
  intros Hp r (H1 & H2 & H3 & Hd). unfold data_wr. destruct (decide _); [|done]. split; [done|].
  split; [done|]. split; [done|]. split; [done|]. apply Forall_insert; [exact Hd|exact Hp].
Qed.

Lemma set_head_ty h : is_u32 h -> ty (set_head h) anything.
Proof. intros Hh. apply ty_modify. intros r Hr. hnf in *. cbn. tauto. Qed.

Lemma set_tail_ty h : is_u32 h -> ty (set_tail h) anything.
Proof. intros Hh. apply ty_modify. intros r Hr. hnf in *. cbn. tauto. Qed.

#[local] Hint Resolve data_rd_ty data_wr_ty set_head_ty set_tail_ty land_range u32_range u64_range : typing.

Lemma ring_insert_ty e : typed e -> ty (log_ring_insert e) anything.
Proof.
  intros He. unfold log_ring_insert. ty_step. ty_step; [|by apply ty_ret].
  ty_step. ty_step. by apply ty_ret.
Qed.

Lemma ring_extract_ty : ty log_ring_extract typed.
Proof.
  unfold log_ring_extract. ty_step. ty_step; [|by apply ty_ret]. ty_step. ty_step. ty_step. by apply ty_ret.
Qed.

Lemma ring_extract_r_ty : ty log_ring_extract_r typed.
Proof.
  unfold log_ring_extract_r. ty_step. ty_step; [|by apply ty_ret]. ty_step. ty_step. ty_step. by apply ty_ret.
Qed.

Lemma ring_get_ty idx : ty (log_ring_get idx) typed.
Proof.
  unfold log_ring_get. ty_step. ty_step. ty_step; [|by apply ty_ret]. ty_step. ty_step.
  ty_step; [auto with typing|by apply ty_ret].
Qed.

#[local] Hint Resolve ring_insert_ty ring_extract_ty ring_extract_r_ty ring_get_ty : typing.

(** The updates of a field: the other fields are as before. *)
Ltac fields := intros; types; unfold typed_entry, entry_typed, typed_server, server_typed in *; cbn in *; tauto.

Lemma on_ring_ty {A} (m : M logring A) R : ty m R -> ty (on_ring m) R.
Proof.
  intros Hm s Hs. unfold on_ring. destruct (l_entries (lg s)) as [r|] eqn:Er; [|done].
  assert (typed r) as Hr by (destruct Hs as (_ & _ & _ & Hr); by rewrite Er in Hr).
  specialize (Hm r Hr). destruct (m r) as [a r'|]; [|done]. destruct Hm as [Ha Hr']. split; [done|].
  destruct Hs as (? & ? & ? & _). by split.
Qed.

Lemma mod_lg_ty f :
  (forall g k, typed (LogSt g k) -> typed (LogSt (f g) k)) -> ty (mod_lg f) anything.
Proof. intros Hf. apply ty_modify. intros [g k] Hs. by apply Hf. Qed.

Lemma typed_index i e : is_u64 i -> typed e -> typed (set_index i e).
Proof. fields. Qed.

Lemma set_last_ty i g k : is_u64 i -> typed (LogSt g k) -> typed (LogSt (set_last i g) k).
Proof. fields. Qed.
Lemma set_offset_ty i g k : is_u64 i -> typed (LogSt g k) -> typed (LogSt (set_offset i g) k).
Proof. fields. Qed.
Lemma set_memsize_ty i g k : is_u64 i -> typed (LogSt g k) -> typed (LogSt (set_memsize i g) k).
Proof. fields. Qed.

#[local] Hint Resolve on_ring_ty typed_index set_last_ty set_offset_ty set_memsize_ty : typing.

Lemma append_log_ty e : typed e -> ty (append_log_entry e) anything.
Proof.
  intros He. unfold append_log_entry. ty_step. cbv zeta. ty_step. ty_step; [|by apply ty_ret].
  eapply ty_bind; [apply mod_lg_ty; auto with typing|]. intros _ _.
  eapply ty_bind; [apply mod_lg_ty; auto with typing|]. intros _ _. by apply ty_ret.
Qed.

Lemma over_threshold_ty : ty over_threshold anything.
Proof.
  unfold over_threshold. ty_step. ty_step; [by apply ty_ret|].
  eapply ty_bind; [apply on_ring_ty, ty_gets|]. intros ? ?. by apply ty_ret.
Qed.

Lemma get_log_entry_ty m i : ty (get_log_entry m i) typed.
Proof. unfold get_log_entry. ty_step. ty_step. ty_step. by apply ty_ret. Qed.

Lemma get_last_log_index_ty m : ty (get_last_log_index m) (fun i => is_u64 i).
Proof.
  unfold get_last_log_index. ty_step. ty_step. ty_step. apply ty_ret.
  destruct H2 as (s & Hs & ->). apply Hs.
Qed.

Lemma free_entries_ty n : ty (free_entries n) anything.
Proof.
  induction n as [|n IH]; cbn; [apply ty_fail|]. ty_step. ty_step; [done|by apply ty_ret].
Qed.

Lemma free_all_ty i : is_u64 i -> ty (free_all_log_entries i) anything.
Proof.
  intros Hi. unfold free_all_log_entries. ty_step. eapply ty_bind; [apply free_entries_ty|]. intros _ _.
  apply mod_lg_ty. intros g k Hg. by apply set_last_ty, set_offset_ty, set_memsize_ty.
Qed.

(** *** Entries read from a message *)

Lemma mem_val_range bs : 0 <= mem_val bs < 2 ^ (8 * Z.of_nat (length bs)).
Proof.
  unfold mem_val. destruct big_endian; [|apply le_val_range]. rewrite <- length_rev. apply le_val_range.
Qed.

Lemma NTOHLL_range x : is_u64 x -> is_u64 (NTOHLL x).
Proof.
  intros Hx. unfold NTOHLL, ntohl. rewrite host_test. destruct big_endian; [done|].
  pose proof (htonl_range (Z.land x 0xFFFFFFFF)) as H1.
  pose proof (htonl_range (u32 (Z.shiftr x 32))) as H2.
  rewrite u64_small; [|rewrite Z.shiftl_mul_pow2; lia]. rewrite lor_disjoint by lia. lia.
Qed.

Lemma rd_length bs off n r : rd bs off n = Some r -> length r = Z.to_nat n.
Proof. unfold rd. apply sub_bytes_length. Qed.

Lemma rd64_range bs off v : rd64 bs off = Some v -> is_u64 v.
Proof.
  unfold rd64. destruct (rd bs off 8) as [r|] eqn:E; [|done]. intros [= <-].
  apply rd_length in E. apply NTOHLL_range. pose proof (mem_val_range r) as Hr. by rewrite E in Hr.
Qed.

Lemma rd32_range bs off v : rd32 bs off = Some v -> is_u32 v.
Proof. unfold rd32. destruct (rd bs off 4) as [r|] eqn:E; [|done]. intros [= <-]. apply htonl_range. Qed.

Lemma deserialize_raft_ty bs p e q : deserialize_raft_entry bs p = Some (e, q) -> typed e.
Proof.
  unfold deserialize_raft_entry. intros E.
  repeat match type of E with
  | (?o ≫= _) = Some _ => let v := fresh "v" in destruct o as [v|] eqn:?; [|done]; cbn in E
  end.
  injection E as <- _. unfold typed, typed_entry, entry_typed. cbn.
  repeat first [apply i32_range | refine (conj _ _);
    [first [by eapply rd64_range | by eapply rd32_range | unfold SERVER_COMMAND; lia]|]].
Qed.

Lemma deserialize_server_ty bs p e q : deserialize_server_entry bs p = Some (e, q) -> typed e.
Proof.
  unfold deserialize_server_entry. intros E.
  repeat match type of E with
  | (?o ≫= _) = Some _ => let v := fresh "v" in destruct o as [v|] eqn:?; [|done]; cbn in E
  end.
  injection E as <- _. unfold typed, typed_entry, entry_typed. cbn.
  repeat first [apply i32_range | refine (conj _ _);
    [first [by eapply rd64_range | by eapply rd32_range | unfold SERVER_COMMAND; lia]|]].
Qed.

Lemma deserialize_ty bs n p type es : deserialize_log_entries bs n p type = Some es -> typed es.
Proof.
  revert p es. induction n as [|n IH]; intros p es; cbn; [by intros [= <-]; constructor|].
  destruct (if type =? SERVER_LOG then _ else _) as [[e q]|] eqn:Ee; [|done]. cbn.
  destruct (deserialize_log_entries bs n q type) as [es'|] eqn:E; [|done]. intros [= <-].
  constructor; [|by eapply IH]. destruct (type =? SERVER_LOG).
  - by eapply deserialize_server_ty.
  - by eapply deserialize_raft_ty.
Qed.

#[local] Hint Resolve append_log_ty over_threshold_ty get_log_entry_ty get_last_log_index_ty free_all_ty : typing.

(** ** The configuration *)

Lemma new_server_typed id target last : is_u64 last -> typed (new_server id target last).
Proof.
  intros Hl. pose proof RMR_MAX_SRC_pos. unfold sizeof_server_id, sizeof_target, typed, typed_server, server_typed, new_server. cbn.
  pose proof (str_cut_length (RMR_MAX_SRC - 1) id). pose proof (str_cut_length (RMR_MAX_SRC + 6 - 1) target).
  split; [unfold is_id, sizeof_server_id; lia|]. split; [unfold is_target, sizeof_target; lia|]. split; [by left|]. split; [by left|].
  split; [apply u64_range|]. split; [done|]. by split.
Qed.

Lemma deref_ty p : ty (deref p) typed.
Proof.
  intros s Hs. pose proof Hs as (_ & _ & _ & Hh). unfold deref. mrun. cbn.
  destruct (cf_heap s !! p) as [x|] eqn:E; [|done]. split; [by eapply (map_Forall_lookup_1 _ _ _ _ Hh)|done].
Qed.

Lemma set_heap_typed h s : typed s -> map_Forall (fun _ x => server_typed x) h -> typed (set_heap h s).
Proof. intros (? & ? & ? & _) Hh. by repeat (split; [done|]). Qed.

Lemma upd_ty p f : (forall x, typed x -> typed (f x)) -> ty (upd p f) anything.
Proof.
  intros Hf. unfold upd. eapply ty_bind; [apply deref_ty|]. intros x Hx. apply ty_modify. intros s Hs.
  apply set_heap_typed; [done|]. apply map_Forall_insert_2; [by apply Hf|apply Hs].
Qed.

Lemma server_at_ty i : ty (server_at i) anything.
Proof. unfold server_at. ty_step. by apply ty_from_opt. Qed.

Lemma config_size_ty : ty config_size anything.
Proof. unfold config_size. ty_step. by apply ty_ret. Qed.

#[local] Hint Resolve deref_ty server_at_ty config_size_ty : typing.

Lemma get_server_ty id : ty (get_server id) anything.
Proof.
  unfold get_server. ty_step. apply ty_for_find; [done|]. intros j. ty_step. ty_step. ty_step; by apply ty_ret.
Qed.

Lemma index_of_ty p : ty (index_of p) anything.
Proof.
  unfold index_of. ty_step. eapply ty_bind.
  - apply (ty_for_find _ _ _ anything); [done|]. intros j. ty_step. ty_step; by apply ty_ret.
  - intros ? _. by apply ty_ret.
Qed.

Lemma locked_ty {A} (m : M config_st A) R : ty m R -> ty (locked m) R.
Proof.
  intros Hm. unfold locked. ty_step. eapply ty_bind; [exact Hm|]. intros r Hr. ty_step. by apply ty_ret.
Qed.

#[local] Hint Resolve get_server_ty index_of_ty locked_ty : typing.

(** The counters of the configuration. *)
Lemma gets_cf_ty : ty (gets cf) (fun c => is_u32 (c_size c) /\ is_u32 (c_voting_members c) /\ is_bit (c_is_changing c)).
Proof. eapply ty_mono; [apply ty_gets|]. intros c (s & (? & ? & ? & _) & ->). by split. Qed.

Lemma mod_cf_ty f :
  (forall c, is_u32 (c_size c) -> is_u32 (c_voting_members c) -> is_bit (c_is_changing c) ->
     is_u32 (c_size (f c)) /\ is_u32 (c_voting_members (f c)) /\ is_bit (c_is_changing (f c))) ->
  ty (mod_cf f) anything.
Proof.
  intros Hf. apply ty_modify. intros s (H1 & H2 & H3 & H4). destruct (Hf _ H1 H2 H3) as (? & ? & ?).
  by repeat (split; [done|]).
Qed.

Lemma set_voting_ty v : is_u32 v -> ty (set_voting v) anything.
Proof. intros Hv. apply mod_cf_ty. intros c H1 H2 H3. split; [exact H1|]. by split. Qed.

#[local] Hint Resolve gets_cf_ty set_voting_ty u32_range u64_range : typing.

Lemma upd_active_ty p v : ty (upd p (upd_active v)) anything.
Proof. apply upd_ty. fields. Qed.
Lemma upd_status_ty p v : is_bit v -> ty (upd p (upd_status v)) anything.
Proof. intros Hv. apply upd_ty. fields. Qed.
Lemma upd_voted_ty p v : is_bit v -> ty (upd p (upd_voted_for_me v)) anything.
Proof. intros Hv. apply upd_ty. fields. Qed.
Lemma upd_next_ty p v : is_u64 v -> ty (upd p (upd_next_index v)) anything.
Proof. intros Hv. apply upd_ty. fields. Qed.
Lemma upd_match_ty p v : is_u64 v -> ty (upd p (upd_match_index v)) anything.
Proof. intros Hv. apply upd_ty. fields. Qed.
Lemma upd_replica_ty p v : is_u64 v -> ty (upd p (upd_replica_index v)) anything.
Proof. intros Hv. apply upd_ty. fields. Qed.
Lemma upd_replica_next_ty p : ty (upd p (fun x => upd_replica_index (u64 (s_replica_index x + 1)) x)) anything.
Proof. apply upd_ty. intros x Hx. pose proof (u64_range (s_replica_index x + 1)). revert x Hx H1. fields. Qed.
Lemma upd_master_ty p v : is_u64 v -> ty (upd p (upd_master_index v)) anything.
Proof. intros Hv. apply upd_ty. fields. Qed.
Lemma upd_ts_ty p v : ty (upd p (upd_replied_ts v)) anything.
Proof. apply upd_ty. fields. Qed.
Lemma upd_hb_ty p v : ty (upd p (upd_hb_timeouts v)) anything.
Proof. apply upd_ty. fields. Qed.
Lemma restart_ty p v : is_u64 v -> ty (upd p (restart_indexes v)) anything.
Proof. intros Hv. apply upd_ty. pose proof (u64_range (v + 1)). unfold restart_indexes. fields. Qed.

#[local] Hint Resolve upd_active_ty upd_status_ty upd_voted_ty upd_next_ty upd_match_ty upd_replica_ty
  upd_replica_next_ty upd_master_ty upd_ts_ty upd_hb_ty restart_ty : typing.

Lemma remove_server_ty self id : ty (remove_server self id) anything.
Proof.
  unfold remove_server. ty_step. ty_step; [|by apply ty_ret]. ty_step.
  eapply ty_bind.
  { apply ty_when. intros _. ty_step. eapply ty_mono; [apply set_voting_ty, u32_range|done]. }
  intros _ _. ty_step; [apply upd_active_ty|]. ty_step. apply mod_cf_ty. intros c _ ? ?.
  split; [apply u32_range|by split].
Qed.

#[local] Hint Resolve remove_server_ty : typing.

Lemma raft_config_remove_server_ty self id : ty (raft_config_remove_server self id) anything.
Proof. unfold raft_config_remove_server. auto with typing. Qed.

Lemma raft_config_get_server_ty id : ty (raft_config_get_server id) anything.
Proof. unfold raft_config_get_server. auto with typing. Qed.

Lemma pthread_create_ty : ty pthread_create anything.
Proof. intros s Hs. unfold pthread_create. by destruct (cf_threads s). Qed.

#[local] Hint Resolve raft_config_remove_server_ty raft_config_get_server_ty pthread_create_ty : typing.

Lemma alloc_ty x : typed x -> ty (alloc x) anything.
Proof.
  intros Hx s Hs. unfold alloc. split; [done|]. apply set_heap_typed; [done|].
  apply map_Forall_insert_2; [done|apply Hs].
Qed.

Lemma add_server_ty self id target last : is_u64 last -> ty (add_server self id target last) anything.
Proof.
  intros Hl. unfold add_server. ty_step. destruct a as [p|].
  { ty_step. by apply ty_ret. }
  eapply ty_bind; [by apply alloc_ty, new_server_typed|]. intros p _.
  eapply ty_bind.
  { apply mod_cf_ty. intros c ? ? ?. split; [apply u32_range|by split]. }
  intros _ _. ty_step; [by apply ty_ret|]. ty_step. ty_step; [ty_step|]; by apply ty_ret.
Qed.

Lemma raft_config_add_server_ty self id target last :
  is_u64 last -> ty (raft_config_add_server self id target last) anything.
Proof.
  intros Hl. unfold raft_config_add_server. destruct target; [|by apply ty_ret]. by apply locked_ty, add_server_ty.
Qed.

Lemma set_server_voting_status_ty id status : ty (set_server_voting_status id status) anything.
Proof.
  unfold set_server_voting_status. destruct (negb (status =? VOTING_MEMBER) && _) eqn:E; [by apply ty_ret|].
  assert (is_bit status) as Hs.
  { unfold is_bit, VOTING_MEMBER, NON_VOTING_MEMBER in *.
    destruct (Z.eqb_spec status 1); [by right|]. destruct (Z.eqb_spec status 0); [by left|done]. }
  ty_step. destruct a as [p|]; [|by apply ty_ret]. ty_step. ty_step; [|by apply ty_ret]. ty_step.
  eapply ty_bind; [|intros _ _; by apply upd_status_ty].
  ty_step; (eapply ty_bind; [apply ty_assert|intros _ _; apply set_voting_ty, u32_range]).
Qed.

Lemma set_server_status_ty id status : ty (raft_config_set_server_status id status) anything.
Proof. apply locked_ty, set_server_voting_status_ty. Qed.

Lemma set_new_vote_ty id : ty (raft_config_set_new_vote id) anything.
Proof.
  apply locked_ty. ty_step. destruct a as [p|]; [|by apply ty_ret]. ty_step. ty_step; [|by apply ty_ret].
  eapply ty_bind; [apply upd_voted_ty; by right|]. intros _ _. by apply ty_ret.
Qed.

Lemma has_majority_of_votes_ty n : ty (has_majority_of_votes n) anything.
Proof. apply locked_ty. ty_step. ty_step; [apply ty_fail|]. by apply ty_ret. Qed.

Lemma count_match_ty n i count idx : ty (count_match n i count idx) anything.
Proof.
  revert i count. induction n as [|n IH]; intros i count; cbn; [by apply ty_ret|]. ty_step. ty_step. apply IH.
Qed.

Lemma has_majority_of_match_index_ty idx : ty (has_majority_of_match_index idx) anything.
Proof.
  apply locked_ty. ty_step. eapply ty_bind; [apply count_match_ty|]. intros c _. ty_step. by apply ty_ret.
Qed.

Lemma reset_votes_ty : ty raft_config_reset_votes anything.
Proof.
  apply locked_ty. ty_step. apply ty_for. intros i. ty_step. apply upd_voted_ty. by left.
Qed.

Lemma set_all_indexes_ty last : ty (raft_config_set_all_server_indexes last) anything.
Proof.
  apply locked_ty. ty_step. apply ty_for. intros i. ty_step. apply upd_ty.
  pose proof (u64_range (last + 1)). assert (is_u64 0) by lia. fields.
Qed.

Lemma set_configuration_changing_ty b : is_bit b -> ty (set_configuration_changing b) anything.
Proof.
  intros Hb. apply locked_ty. ty_step. ty_step; [by apply ty_ret|].
  eapply ty_bind; [apply mod_cf_ty; by intros ???|]. intros _ _. by apply ty_ret.
Qed.

Lemma raft_get_num_servers_ty : ty raft_get_num_servers (fun n => is_u32 n).
Proof. apply locked_ty. eapply ty_bind; [apply gets_cf_ty|]. intros c (Hc & _). by apply ty_ret. Qed.

Lemma pick_replicas_ty fuel i me n chosen : ty (pick_replicas fuel i me n chosen) anything.
Proof.
  revert i chosen. induction fuel as [|fuel IH]; intros i chosen; cbn.
  - ty_step; [apply ty_fail|by apply ty_ret].
  - ty_step; [|by apply ty_ret]. ty_step. ty_step. ty_step. apply IH.
Qed.

Lemma get_replica_servers_ty self n : ty (get_replica_servers self n) anything.
Proof.
  apply locked_ty. ty_step. cbv zeta. ty_step; [|by apply ty_ret]. eapply ty_bind.
  - apply (ty_for_find _ _ _ anything); [done|]. intros j. ty_step. ty_step. ty_step; by apply ty_ret.
  - intros r _. apply pick_replicas_ty.
Qed.

#[local] Hint Resolve raft_config_add_server_ty add_server_ty set_server_voting_status_ty set_server_status_ty
  set_new_vote_ty has_majority_of_votes_ty has_majority_of_match_index_ty reset_votes_ty set_all_indexes_ty
  set_configuration_changing_ty raft_get_num_servers_ty get_replica_servers_ty : typing.

End Types.

#[export] Hint Resolve data_rd_ty data_wr_ty set_head_ty set_tail_ty land_range u32_range u64_range
  ring_insert_ty ring_extract_ty ring_extract_r_ty ring_get_ty on_ring_ty typed_index set_last_ty set_offset_ty
  set_memsize_ty append_log_ty over_threshold_ty get_log_entry_ty get_last_log_index_ty free_all_ty : typing.
#[export] Hint Resolve deref_ty server_at_ty config_size_ty get_server_ty index_of_ty locked_ty gets_cf_ty
  set_voting_ty upd_active_ty upd_status_ty upd_voted_ty upd_next_ty upd_match_ty upd_replica_ty
  upd_replica_next_ty upd_master_ty upd_ts_ty upd_hb_ty restart_ty remove_server_ty
  raft_config_remove_server_ty raft_config_get_server_ty pthread_create_ty : typing.
#[export] Hint Resolve raft_config_add_server_ty add_server_ty set_server_voting_status_ty set_server_status_ty
  set_new_vote_ty has_majority_of_votes_ty has_majority_of_match_index_ty reset_votes_ty set_all_indexes_ty
  set_configuration_changing_ty raft_get_num_servers_ty get_replica_servers_ty : typing.
#[export] Hint Resolve raft_log_typed xapp_log_typed config_l_typed snap_l_typed repl_l_typed elec_l_typed
  app_l_typed ctxtab_typed roletab_typed : typing.
