(* ===== verification/ServerTypes.v ===== *)
(** * A turn of the worker keeps the memory typed

    The handlers of rft.c and what they call of log.c, snapshot.c and config.c,
    under the typing rules. *)

From S2P Require Import Prelude Monad Typing Types LogRing Mtl Config HashTable State.
From S2P Require Import Utils Log Serialize Snapshot RaftLog Raft XApp Server StateTypes.
Open Scope Z_scope.

(** ** Messages

    The structures the worker casts a payload to. The entries and the snapshot
    data of a request are bytes. *)

Section Messages.
Context `{Rmr} `{Host}.

Definition msg_typed (msg : rft_msg) : Prop :=
  match msg with
  | APPEND_ENTRIES_REQ h _ =>
      is_u64 (ah_term h) /\ is_id (ah_leader_id h) /\ is_u64 (ah_prev_log_index h) /\
      is_u64 (ah_prev_log_term h) /\ is_u64 (ah_leader_commit h) /\ is_u32 (ah_n_entries h) /\
      is_u32 (ah_slen h)
  | APPEND_ENTRIES_REPLY r =>
      is_u64 (pa_term r) /\ is_u64 (pa_last_log_index r) /\ is_int (pa_success r) /\ is_id (pa_server_id r)
  | VOTE_REQ r =>
      is_u64 (rv_term r) /\ is_u64 (rv_last_log_index r) /\ is_u64 (rv_last_log_term r) /\
      is_id (rv_candidate_id r)
  | VOTE_REPLY r => is_u64 (pv_term r) /\ is_int (pv_granted r) /\ is_id (pv_voter r)
  | MEMBERSHIP_REQ r _ => is_u64 (mr_last_log_index r) /\ is_id (mr_server_id r)
  | REPLICATION_REQ h _ =>
      is_u64 (rh_master_index h) /\ is_id (rh_server_id h) /\ is_u32 (rh_n_entries h) /\ is_u32 (rh_slen h)
  | REPLICATION_REPLY r => is_int (pr_success r) /\ is_u64 (pr_replica_index r) /\ is_id (pr_server_id r)
  | XAPP_SNAPSHOT_REQ h _ =>
      is_u64 (xh_last_index h) /\ is_u64 (xh_dlen h) /\ is_id (xh_server_id h) /\ is_u32 (xh_items h)
  | XAPP_SNAPSHOT_REPLY r => is_int (xp_success r) /\ is_u64 (xp_last_index r) /\ is_id (xp_server_id r)
  | RAFT_SNAPSHOT_REQ h _ =>
      is_u64 (sh_term h) /\ is_u64 (sh_last_index h) /\ is_u64 (sh_last_term h) /\ is_u64 (sh_dlen h) /\
      is_id (sh_leader_id h) /\ is_u32 (sh_items h)
  | RAFT_SNAPSHOT_REPLY r =>
      is_int (rp_success r) /\ is_u64 (Types.rp_term r) /\ is_u64 (rp_last_index r) /\ is_id (rp_server_id r)
  | UNRECOGNIZED _ => True
  end.
#[export] Instance typed_msg : Typed rft_msg := msg_typed.

End Messages.

Ltac ty_go := repeat (ty_step; try (lazymatch goal with |- ty _ _ => fail | _ => done end); auto with typing).

Section Worker.
Context `{Rmr} `{Host} (k : sys) (mem : allocs).

(** ** The two logs (log.c) *)

Lemma me_ty : ty me typed.
Proof. unfold me. eapply ty_mono; [apply ty_gets|]. intros m (s & Hs & ->). apply Hs. Qed.

Lemma my_id_ty : ty my_id is_id.
Proof. unfold my_id. eapply ty_mono; [apply ty_gets|]. intros m (s & Hs & ->). apply Hs. Qed.

Lemma last_of_raft_log_ty : ty (gets (fun s => l_last_log_index (lg (g_raft_log s)))) (fun i => is_u64 i).
Proof. eapply ty_mono; [apply ty_gets|]. intros i (s & (_ & Hl & _) & ->). apply Hl. Qed.

Lemma term_of_me_ty : ty (gets (fun s => m_current_term (g_me s))) (fun i => is_u64 i).
Proof. eapply ty_mono; [apply ty_gets|]. intros i (s & (Hm & _) & ->). apply Hm. Qed.

(** What is known of a copy of [me]. *)
Section Me.
Context (m : raft_state_t) (Hm : typed m).
Lemma me_term_is : is_u64 (m_current_term m). Proof using Hm. apply Hm. Qed.
Lemma me_self_is : is_id (m_self_id m). Proof using Hm. apply Hm. Qed.
Lemma me_commit_is : is_u64 (m_commit_index m). Proof using Hm. apply Hm. Qed.
Lemma me_applied_is : is_u64 (m_last_applied m). Proof using Hm. apply Hm. Qed.
End Me.

Lemma entry_term_is e : typed (Some e) -> is_u64 (e_term e).
Proof. intros He. apply He. Qed.

#[local] Hint Resolve last_of_raft_log_ty term_of_me_ty me_term_is me_self_is me_commit_is me_applied_is
  entry_term_is : typing.

Lemma upd_me_ty f : (forall m, typed m -> typed (f m)) -> ty (upd_me f) anything.
Proof. intros Hf. apply ty_modify. intros s (? & ?). split; [by apply Hf|done]. Qed.

Lemma get_raft_log_entry_ty i : ty (get_raft_log_entry i) typed.
Proof. unfold get_raft_log_entry. apply ty_zoom; [apply _|]. auto with typing. Qed.

Lemma get_raft_last_log_index_ty : ty get_raft_last_log_index (fun i => is_u64 i).
Proof. unfold get_raft_last_log_index. apply ty_zoom; [apply _|]. auto with typing. Qed.

#[local] Hint Extern 3 (is_u64 _) => lia : typing.
#[local] Hint Extern 3 (is_bit _) => (unfold is_bit; lia) : typing.
#[local] Hint Extern 1 (ty (fail _) _) => (apply ty_fail) : typing.
#[local] Hint Resolve me_ty my_id_ty get_raft_log_entry_ty get_raft_last_log_index_ty : typing.

Lemma apply_config_entry_ty e : ty (apply_config_entry e) anything.
Proof.
  unfold apply_config_entry. ty_go.
Qed.

Ltac field := intros ? (? & ? & ? & ? & ? & ? & ?); unfold typed, typed_me, me_typed; cbn; tauto.

Lemma me_state_typed v m : typed m -> typed (me_state v m). Proof. revert m. field. Qed.
Lemma me_term_typed v m : is_u64 v -> typed m -> typed (me_term v m). Proof. intros ?. revert m. field. Qed.
Lemma me_applied_typed v m : is_u64 v -> typed m -> typed (me_applied v m). Proof. intros ?. revert m. field. Qed.
Lemma me_commit_typed v m : is_u64 v -> typed m -> typed (me_commit v m). Proof. intros ?. revert m. field. Qed.
Lemma me_votes_typed v m : is_u32 v -> typed m -> typed (me_rcv_votes v m). Proof. intros ?. revert m. field. Qed.
Lemma me_leader_typed v m : is_id v -> typed m -> typed (me_leader v m). Proof. intros ?. revert m. field. Qed.
Lemma me_voted_typed v m : is_id v -> typed m -> typed (me_voted_for v m). Proof. intros ?. revert m. field. Qed.

#[local] Hint Resolve me_state_typed me_term_typed me_applied_typed me_commit_typed me_votes_typed
  me_leader_typed me_voted_typed : typing.
#[local] Hint Resolve apply_config_entry_ty upd_me_ty mod_lg_ty : typing.

Lemma revert_config_entry_ty e : ty (revert_config_entry e) anything.
Proof. unfold revert_config_entry. ty_go. Qed.

#[local] Hint Resolve revert_config_entry_ty : typing.

Lemma remove_conflicting_ty fuel pi pt c : ty (remove_raft_conflicting_loop fuel pi pt c) anything.
Proof.
  induction fuel as [|fuel IH]; cbn [remove_raft_conflicting_loop]; ty_go.
Qed.

Lemma check_consistency_ty pi pt c : ty (check_raft_log_consistency pi pt c) anything.
Proof.
  unfold check_raft_log_consistency, remove_raft_conflicting_entries.
  pose proof remove_conflicting_ty. ty_go.
Qed.

(** ** Snapshots (snapshot.c) *)

Lemma fork_ty {A} (m : M St A) R :
  ty m R -> ty (fork m) (fun o => match o with Some a => R a | None => True end).
Proof. intros Hm s Hs. unfold fork. specialize (Hm s Hs). by destruct (m s) as [a s'|]; [destruct Hm|]. Qed.

Lemma start_progress_ty mx (L flag : lens snap_st bool) `{!TypedLens L} `{!TypedLens flag} :
  ty (start_progress mx L flag) anything.
Proof.
  unfold start_progress. apply ty_zoom; [apply _|]. ty_go. by apply typed_put.
Qed.

Lemma serialize_servers_ty n i data : ty (serialize_servers n i data) anything.
Proof. revert i data. induction n as [|n IH]; intros i data; cbn; ty_go. Qed.

#[local] Hint Resolve check_consistency_ty fork_ty serialize_servers_ty : typing.

Lemma create_raft_config_snapshot_ty b : ty (create_raft_config_snapshot b) typed.
Proof.
  unfold create_raft_config_snapshot. ty_go. destruct H4 as (Hm & _ & _ & Hc & _).
  split; [|done]. split; [apply Hm|]. split; [apply Hm|apply Hc].
Qed.

#[local] Hint Resolve create_raft_config_snapshot_ty start_progress_ty : typing.

Lemma set_raft_pipe_typed o s : typed o -> typed s -> typed (set_raft_pipe o s).
Proof. intros Ho (? & ? & ?). by split. Qed.

Lemma set_raft_snapshot_typed x s : typed x -> typed s -> typed (set_raft_snapshot x s).
Proof. intros Hx (? & ? & ?). by split. Qed.

Lemma take_raft_snapshot_ty : ty (take_raft_snapshot k) anything.
Proof.
  assert (ty (fork (zoom config_l (unlock cf_lock_l);; create_raft_config_snapshot (sys_alloc k)) : M St pipe_t)
    typed) by (apply (fork_ty _ typed); ty_go).
  unfold take_raft_snapshot. ty_go. by apply set_raft_pipe_typed.
Qed.

#[local] Hint Resolve take_raft_snapshot_ty : typing.

Lemma append_raft_log_entry_ty e : typed e -> ty (append_raft_log_entry k e) anything.
Proof. intros He. unfold append_raft_log_entry. ty_go. Qed.

Lemma update_replica_servers_ty : ty update_replica_servers anything.
Proof. unfold update_replica_servers. ty_go. Qed.

Lemma remove_all_ty self fuel : ty (remove_all self fuel) anything.
Proof. induction fuel as [|fuel IH]; cbn [remove_all]; ty_go. Qed.

Lemma install_servers_ty self n off data last :
  is_u64 last -> ty (install_servers self n off data last) anything.
Proof.
  intros Hl. revert off. induction n as [|n IH]; intros off; cbn [install_servers]; ty_go.
Qed.

#[local] Hint Resolve append_raft_log_entry_ty update_replica_servers_ty remove_all_ty install_servers_ty : typing.

Lemma commit_snapshot_ty x : typed x -> ty (commit_raft_config_snapshot x) anything.
Proof.
  intros (? & ? & ?). unfold commit_raft_config_snapshot. ty_go.
Qed.

#[local] Hint Resolve commit_snapshot_ty : typing.

Lemma install_raft_snapshot_ty b x : typed x -> ty (install_raft_snapshot b x) anything.
Proof.
  intros Hx. unfold install_raft_snapshot. ty_go. all: by apply set_raft_snapshot_typed.
Qed.

#[local] Hint Resolve install_raft_snapshot_ty : typing.

(** ** Elections (rft.c) *)

Lemma empty_is_id : is_id "".
Proof. pose proof RMR_MAX_SRC_pos. unfold is_id, sizeof_server_id. cbn. lia. Qed.

Lemma c_rand_ty : ty c_rand anything.
Proof. intros s _. unfold c_rand. by destruct (el_rands s). Qed.

#[local] Hint Resolve empty_is_id c_rand_ty : typing.

Lemma new_rand_timeout_ty : ty new_rand_timeout anything.
Proof. unfold new_rand_timeout, randomize_election_timeout. ty_go. Qed.

Lemma restart_election_timer_ty : ty restart_election_timer anything.
Proof. unfold restart_election_timer, set_election_timeout. ty_go. Qed.

#[local] Hint Resolve new_rand_timeout_ty restart_election_timer_ty : typing.

Lemma become_follower_ty : ty become_follower anything.
Proof. unfold become_follower. ty_go. Qed.

Lemma new_raft_log_entry_typed term type command data e :
  is_u64 term -> is_u32 type -> is_int command -> is_u64 (Z.of_nat (length data)) -> type <> SERVER_COMMAND ->
  new_raft_log_entry mem term type command data = Some e -> typed e.
Proof.
  intros ? ? ? ? Hn. unfold new_raft_log_entry, new_log_entry. destruct (a_entry mem), (a_data mem); cbn; try done.
  destruct (Z.eqb_spec type SERVER_COMMAND); [done|]. intros [= <-]. unfold typed, typed_entry, entry_typed. cbn.
  assert (is_u64 0) by lia. assert (is_u32 0) by lia. tauto.
Qed.

Lemma noop_typed m e : typed m -> new_raft_log_entry mem (m_current_term m) RAFT_NOOP 0 [] = Some e -> typed e.
Proof.
  intros Hm. apply new_raft_log_entry_typed; [apply Hm|unfold RAFT_NOOP; lia|unfold is_int, INT_MIN, INT_MAX; lia| |done].
  cbn. lia.
Qed.

#[local] Hint Resolve become_follower_ty noop_typed : typing.

Lemma become_leader_ty : ty (become_leader k mem) anything.
Proof. unfold become_leader. ty_go. Qed.

Lemma match_terms_ty term : is_u64 term -> ty (match_terms term) anything.
Proof. intros Ht. unfold match_terms. ty_go. Qed.

Lemma get_raft_last_log_term_ty : ty get_raft_last_log_term (fun t => is_u64 t).
Proof. unfold get_raft_last_log_term. ty_go. Qed.


#[local] Hint Resolve become_leader_ty match_terms_ty get_raft_last_log_term_ty : typing.

Lemma candidate_log_ok_ty req : ty (candidate_log_ok req) anything.
Proof. unfold candidate_log_ok. ty_go. Qed.

(** Flags of type [int]. *)
Lemma b2z_is_int b : is_int (b2z b).
Proof. unfold is_int, INT_MIN, INT_MAX. destruct b; cbn; lia. Qed.
Lemma flag0 : is_int 0. Proof. exact (b2z_is_int false). Qed.
Lemma flag1 : is_int 1. Proof. exact (b2z_is_int true). Qed.

#[local] Hint Resolve candidate_log_ok_ty b2z_is_int flag0 flag1 : typing.

Lemma handle_vote_request_ty req :
  msg_typed (VOTE_REQ req) -> ty (handle_vote_request req) (fun r => msg_typed (VOTE_REPLY r)).
Proof.
  intros (? & ? & ? & ?). unfold handle_vote_request. do 5 (ty_step; try done; auto with typing).
  eapply ty_bind with (R := is_int); [ty_go|intros ? ?; ty_go].
  cbn. auto with typing.
Qed.

Lemma handle_vote_reply_ty r : msg_typed (VOTE_REPLY r) -> ty (handle_vote_reply k mem r) anything.
Proof. intros (? & ? & ?). unfold handle_vote_reply. ty_go. Qed.

Lemma handle_membership_request_ty r a :
  msg_typed (MEMBERSHIP_REQ r (Some a)) -> ty (handle_membership_request r a) anything.
Proof. intros (? & ?). unfold handle_membership_request. ty_go. Qed.

(** ** Commitment (rft.c) *)

Lemma apply_member_ty e : ty (apply_member e) anything.
Proof. unfold apply_member. ty_go. Qed.

#[local] Hint Resolve apply_member_ty : typing.

Lemma apply_loop_ty fuel c : ty (apply_loop fuel c) anything.
Proof. revert c. induction fuel as [|fuel IH]; intros c; cbn [apply_loop]; ty_go. Qed.

Lemma find_commit_ty fuel n :
  is_u64 n -> ty (find_commit fuel n) (fun o => match o with Some i => is_u64 i | None => True end).
Proof.
  revert n. induction fuel as [|fuel IH]; intros n Hn; cbn [find_commit]; ty_go.
  apply IH. pose proof (me_commit_is a H1). lia.
Qed.

#[local] Hint Resolve apply_loop_ty find_commit_ty : typing.

Lemma release_config_ty fuel c n : ty (release_config fuel c n) anything.
Proof. revert c. induction fuel as [|fuel IH]; intros c; cbn [release_config]; ty_go. Qed.

#[local] Hint Resolve release_config_ty : typing.

Lemma raft_apply_log_entries_ty : ty raft_apply_log_entries anything.
Proof. unfold raft_apply_log_entries. ty_go. Qed.

#[local] Hint Resolve raft_apply_log_entries_ty : typing.

Lemma set_commit_index_ty n : is_u64 n -> ty (set_commit_index n) anything.
Proof. intros Hn. unfold set_commit_index. ty_go. Qed.

#[local] Hint Resolve set_commit_index_ty : typing.

Lemma raft_commit_log_entries_ty n : is_u64 n -> ty (raft_commit_log_entries n) anything.
Proof.
  intros Hn. unfold raft_commit_log_entries. ty_go.
  apply set_commit_index_ty. by destruct (n <? a0).
Qed.

#[local] Hint Resolve raft_commit_log_entries_ty : typing.

(** ** Log replication and snapshots (rft.c) *)

Lemma entry_of_message (es : list log_entry_t) i e : typed es -> es !! i = Some e -> typed e.
Proof. intros Hes He. by eapply (Forall_lookup_1 _ _ _ _ Hes). Qed.

Lemma handle_append_entries_request_ty req :
  is_u64 (ra_term req) -> is_id (ra_leader_id req) -> is_u64 (ra_leader_commit req) -> typed (ra_entries req) ->
  ty (handle_append_entries_request k req) (fun r => msg_typed (APPEND_ENTRIES_REPLY r)).
Proof.
  intros Ht Hi Hc Hes. unfold handle_append_entries_request. do 3 (ty_step; try done; auto with typing).
  eapply ty_bind with (R := is_int).
  - ty_step; [by auto with typing|]. do 2 (ty_step; try done; auto with typing).
    eapply ty_bind with (R := is_int); [|intros ? ?; ty_go].
    ty_go. apply append_raft_log_entry_ty. exact (entry_of_message _ _ _ Hes H6).
  - intros success Hs. ty_go. cbn. auto with typing.
Qed.

Lemma handle_append_entries_reply_ty r :
  msg_typed (APPEND_ENTRIES_REPLY r) -> ty (handle_append_entries_reply r) anything.
Proof. intros (? & ? & ? & ?). unfold handle_append_entries_reply. ty_go. Qed.

#[local] Hint Resolve install_raft_snapshot_ty handle_vote_request_ty handle_vote_reply_ty
  handle_membership_request_ty handle_append_entries_request_ty handle_append_entries_reply_ty : typing.

Lemma handle_raft_snapshot_request_ty b req :
  is_u64 (rq_term req) -> is_id (rq_leader_id req) -> typed (rq_snapshot req) ->
  ty (handle_raft_snapshot_request b req) (fun r => msg_typed (RAFT_SNAPSHOT_REPLY r)).
Proof.
  intros. unfold handle_raft_snapshot_request. do 3 (ty_step; try done; auto with typing).
  eapply ty_bind with (R := is_int); [ty_go|]. intros success Hs.
  eapply ty_bind with (R := fun i => is_u64 i); [ty_go|]. intros last Hl. ty_go. cbn. auto with typing.
Qed.

Lemma handle_raft_snapshot_reply_ty r :
  msg_typed (RAFT_SNAPSHOT_REPLY r) -> ty (handle_raft_snapshot_reply r) anything.
Proof.
  intros (? & ? & ? & ?). unfold handle_raft_snapshot_reply. apply handle_append_entries_reply_ty. by cbn.
Qed.

(** ** The xApp's state (rft.c) *)

Lemma on_roletab_ty {A} (m : M hashtable_t A) : ty (on_roletab m) anything.
Proof. unfold on_roletab. apply ty_zoom; [apply _|]. intros s _. by destruct (m s). Qed.

Lemma on_ctxtab_ty {A} (m : M hashtable_t A) : ty (on_ctxtab m) anything.
Proof. unfold on_ctxtab. apply ty_zoom; [apply _|]. intros s _. by destruct (m s). Qed.

Lemma set_role_ty (m : M hashtable_t (Z * errno_t) -> M St (Z * errno_t)) key role :
  (forall x, ty (m x) anything) -> ty (set_role k m key role) anything.
Proof. intros Hm. unfold set_role. eapply ty_bind; [apply Hm|]. intros [ok e] _. by apply ty_ret. Qed.

Lemma on_app_ty {A} (m : M app_st A) : ty (zoom app_l m) anything.
Proof. apply ty_zoom; [apply _|]. intros s _. by destruct (m s). Qed.

Lemma apply_command_cb_ty c x y v n : ty (apply_command_cb c x y v n) anything.
Proof. unfold apply_command_cb. pose proof @on_app_ty. ty_go. Qed.

#[local] Hint Resolve @on_roletab_ty @on_ctxtab_ty set_role_ty @on_app_ty apply_command_cb_ty : typing.

Lemma replicate_entry_ty p e : ty (replicate_entry k p e) anything.
Proof. unfold replicate_entry. ty_go. Qed.

#[local] Hint Resolve replicate_entry_ty : typing.

Lemma replica_index_is x : typed x -> is_u64 (s_replica_index x).
Proof. intros Hx. apply Hx. Qed.

#[local] Hint Resolve replica_index_is : typing.

Lemma handle_replication_request_ty req :
  ty (handle_replication_request k req) (fun r => msg_typed (REPLICATION_REPLY r)).
Proof.
  unfold handle_replication_request. do 2 ty_step. assert (is_u64 0) by lia.
  destruct a0 as [p|]; [|ty_go; cbn; auto with typing]. ty_step.
  eapply ty_bind with (R := is_int); [ty_go|]. intros success Hs. ty_go. cbn. auto with typing.
Qed.

Lemma handle_replication_reply_ty r : msg_typed (REPLICATION_REPLY r) -> ty (handle_replication_reply r) anything.
Proof. intros (? & ? & ?). unfold handle_replication_reply. ty_go. Qed.

Lemma handle_xapp_snapshot_request_ty req :
  is_u64 (xs_last_index (xq_snapshot req)) ->
  ty (handle_xapp_snapshot_request req) (fun r => msg_typed (XAPP_SNAPSHOT_REPLY r)).
Proof.
  intros Hl. unfold handle_xapp_snapshot_request. do 2 ty_step. assert (is_u64 0) by lia.
  destruct a0 as [p|]; [|ty_go; cbn; auto with typing]. ty_step.
  eapply ty_bind with (R := is_int); [ty_go|]. intros success Hs. ty_go. cbn. auto with typing.
Qed.

Lemma handle_xapp_snapshot_reply_ty r : msg_typed (XAPP_SNAPSHOT_REPLY r) -> ty (handle_xapp_snapshot_reply r) anything.
Proof. intros (? & ? & ?). unfold handle_xapp_snapshot_reply. ty_go. Qed.

#[local] Hint Resolve handle_raft_snapshot_request_ty handle_raft_snapshot_reply_ty handle_replication_request_ty
  handle_replication_reply_ty handle_xapp_snapshot_request_ty handle_xapp_snapshot_reply_ty : typing.

(** ** The worker (rft.c) *)

Lemma raft_entries_typed bs n es : deserialize_raft_log_entries bs n = Some es -> typed es.
Proof. apply deserialize_ty. Qed.

Lemma worker_append_entries_ty h bs :
  msg_typed (APPEND_ENTRIES_REQ h bs) ->
  ty (worker_append_entries k h bs) (fun r => msg_typed (APPEND_ENTRIES_REPLY r)).
Proof.
  intros (? & ? & ? & ? & ? & ? & ?). unfold worker_append_entries. cbn.
  eapply ty_bind with (R := fun es : list log_entry_t => typed es).
  - ty_step; [ty_go|by apply ty_ret; constructor].
    by eapply raft_entries_typed.
  - intros es Hes. by apply handle_append_entries_request_ty.
Qed.

Lemma worker_replication_ty h bs :
  ty (worker_replication k h bs) (fun r => msg_typed (REPLICATION_REPLY r)).
Proof. unfold worker_replication. ty_go. Qed.

Lemma worker_xapp_snapshot_ty h bs :
  msg_typed (XAPP_SNAPSHOT_REQ h bs) ->
  ty (worker_xapp_snapshot k h bs) (fun r => msg_typed (XAPP_SNAPSHOT_REPLY r)).
Proof.
  intros (? & ? & ? & ?). unfold worker_xapp_snapshot. ty_go.
  apply handle_xapp_snapshot_request_ty. by apply NTOHLL_range.
Qed.

Lemma worker_raft_snapshot_ty h bs :
  msg_typed (RAFT_SNAPSHOT_REQ h bs) ->
  ty (worker_raft_snapshot k h bs) (fun r => msg_typed (RAFT_SNAPSHOT_REPLY r)).
Proof.
  intros (? & ? & ? & ? & ? & ?). unfold worker_raft_snapshot. ty_go.
  apply handle_raft_snapshot_request_ty; [by apply NTOHLL_range|done|].
  split; [by apply NTOHLL_range|]. split; [by apply NTOHLL_range|apply htonl_range].
Qed.

#[local] Hint Resolve worker_append_entries_ty worker_replication_ty worker_xapp_snapshot_ty
  worker_raft_snapshot_ty : typing.

Lemma worker_step_ty msg : typed msg -> ty (worker_step k mem msg) typed.
Proof.
  intros Hm. destruct msg; cbn [worker_step]; ty_go.
Qed.

End Worker.

#[export] Hint Extern 3 (is_u64 _) => lia : typing.
#[export] Hint Extern 3 (is_bit _) => (unfold is_bit; lia) : typing.
#[export] Hint Extern 1 (ty (fail _) _) => (apply ty_fail) : typing.
#[export] Hint Resolve last_of_raft_log_ty term_of_me_ty me_term_is me_self_is me_commit_is me_applied_is
  entry_term_is me_ty my_id_ty get_raft_log_entry_ty get_raft_last_log_index_ty me_state_typed me_term_typed
  me_applied_typed me_commit_typed me_votes_typed me_leader_typed me_voted_typed apply_config_entry_ty
  upd_me_ty mod_lg_ty revert_config_entry_ty check_consistency_ty fork_ty serialize_servers_ty
  create_raft_config_snapshot_ty start_progress_ty take_raft_snapshot_ty append_raft_log_entry_ty
  update_replica_servers_ty remove_all_ty install_servers_ty commit_snapshot_ty install_raft_snapshot_ty
  empty_is_id c_rand_ty new_rand_timeout_ty restart_election_timer_ty become_follower_ty noop_typed
  become_leader_ty match_terms_ty get_raft_last_log_term_ty candidate_log_ok_ty b2z_is_int flag0 flag1
  apply_loop_ty find_commit_ty release_config_ty raft_apply_log_entries_ty set_commit_index_ty
  raft_commit_log_entries_ty handle_vote_request_ty handle_vote_reply_ty handle_membership_request_ty
  handle_append_entries_request_ty handle_append_entries_reply_ty @on_roletab_ty @on_ctxtab_ty set_role_ty
  @on_app_ty apply_command_cb_ty replicate_entry_ty replica_index_is handle_raft_snapshot_request_ty
  handle_raft_snapshot_reply_ty handle_replication_request_ty handle_replication_reply_ty
  handle_xapp_snapshot_request_ty handle_xapp_snapshot_reply_ty worker_append_entries_ty
  worker_replication_ty worker_xapp_snapshot_ty worker_raft_snapshot_ty : typing.
