(* ===== verification/ThreadTypes.v ===== *)
(** * The other threads keep the memory typed

    The turns of the threads of rft.c and snapshot.c beside the worker, and the
    calls of the xApp, under the typing rules; the headers they send are typed
    as well. *)

From S2P Require Import Prelude Monad Typing Types LogRing Mtl Config HashTable State.
From S2P Require Import Utils Log Serialize Snapshot RaftLog Raft XApp Server RaftServer StateTypes ServerTypes.
Open Scope Z_scope.

Section Threads.
Context `{Rmr} `{Host} (k : sys) (mem : allocs) (pad : bytes) (max_msg_size : Z).

(** ** The serialization of a range of a log (log.c) *)

Definition srlz_typed (r : Z * srlz * option errno_t) : Prop :=
  is_u32 r.1.1 /\ is_u32 (z_bytes r.1.2).

Lemma reserve_ty b size z : ty (reserve b size z) (fun z' => z_bytes z' = z_bytes z).
Proof. unfold reserve. ty_go. Qed.

Lemma put_entry_ty type e z : ty (put_entry pad type e z) (fun z' => is_u32 (z_bytes z')).
Proof. unfold put_entry. ty_go. all: apply u32_range. Qed.

Lemma serialize_loop_ty fuel b type mx n from count z :
  is_u32 n -> 0 <= count -> count <= n -> is_u32 (z_bytes z) ->
  ty (serialize_loop pad fuel b type mx n from count z) srlz_typed.
Proof.
  intros Hn. revert from count z. induction fuel as [|fuel IH]; intros from count z H1 H2 Hz; cbn [serialize_loop].
  - ty_go. split; cbn; [lia|done].
  - ty_step; [|apply ty_ret; split; cbn; [lia|done]]. ty_step.
    destruct a as [e|]; [|apply ty_ret; split; cbn; [lia|done]].
    ty_step; [apply ty_ret; split; cbn; [lia|done]|].
    eapply ty_bind; [apply reserve_ty|]. intros z1 _.
    eapply ty_bind; [apply put_entry_ty|]. intros z2 Hz2. apply IH; [lia|lia|done].
Qed.

Lemma serialize_entries_ty b from n lbuf len mx type :
  is_u32 n -> ty (serialize_log_entries pad b from n lbuf len mx type) srlz_typed.
Proof.
  intros Hn. unfold serialize_log_entries. ty_go. apply serialize_loop_ty; cbn; lia.
Qed.

#[local] Hint Resolve serialize_entries_ty : typing.

Lemma serialize_raft_ty b from n lbuf len mx :
  is_u32 n -> ty (serialize_raft_log_entries pad b from n lbuf len mx) srlz_typed.
Proof. intros Hn. unfold serialize_raft_log_entries. ty_go. Qed.

Lemma serialize_server_ty b from n lbuf len mx :
  is_u32 n -> ty (serialize_server_log_entries pad b from n lbuf len mx) srlz_typed.
Proof. intros Hn. unfold serialize_server_log_entries. ty_go. Qed.

#[local] Hint Resolve serialize_raft_ty serialize_server_ty : typing.

Lemma put_at_ty off bs p : ty (put_at off bs p) anything.
Proof. unfold put_at. by apply ty_from_opt. Qed.

#[local] Hint Resolve put_at_ty : typing.

Lemma serialize_raft_snapshot_ty f p : ty (serialize_raft_snapshot f p) anything.
Proof. unfold serialize_raft_snapshot, ensure_payload, snapshot_data. cbv zeta. ty_go. Qed.

Lemma serialize_xapp_snapshot_ty f p id : ty (serialize_xapp_snapshot f p id) anything.
Proof. unfold serialize_xapp_snapshot, ensure_payload, snapshot_data. cbv zeta. ty_go. Qed.

#[local] Hint Resolve serialize_raft_snapshot_ty serialize_xapp_snapshot_ty : typing.

(** ** The thread of a raft server (rft.c) *)

Definition leader_msg_typed (m : leader_msg) : Prop :=
  match m with MsgAppend h p => msg_typed (APPEND_ENTRIES_REQ h p) | MsgSnapshot _ => True end.
#[local] Instance typed_leader_msg : Typed leader_msg := leader_msg_typed.

Lemma next_index_is x : typed x -> is_u64 (s_next_index x).
Proof. intros Hx. apply Hx. Qed.

Definition hdr_typed (o : option (appnd_entr_hdr_t * bytes)) : Prop :=
  match o with Some (h, p) => msg_typed (APPEND_ENTRIES_REQ h p) | None => True end.

Lemma snapshot_of_ty :
  ty (gets (fun s => sn_raft_snapshot (g_snap s))) typed.
Proof. eapply ty_mono; [apply ty_gets|]. intros x (s & (_ & _ & _ & _ & Hs & _) & ->). apply Hs. Qed.

#[local] Hint Resolve next_index_is snapshot_of_ty : typing.

Lemma send_append_entries_ty prev n buf nb :
  is_u32 n -> is_u32 nb -> ty (send_append_entries prev n buf nb) hdr_typed.
Proof.
  intros Hn Hb. unfold send_append_entries. do 2 (ty_step; try done; auto with typing).
  eapply ty_bind with (R := fun p => is_u64 p.1 /\ is_u64 p.2).
  - ty_go. all: match goal with Hx : typed _ |- is_u64 _ /\ _ => split; apply Hx end.
  - intros [pidx pterm] [Hi Ht]. cbn in Hi, Ht. ty_go. case_decide; [|done].
    refine (conj _ (conj _ (conj Hi (conj Ht (conj _ (conj Hn Hb)))))); apply H4.
Qed.

#[local] Hint Resolve send_append_entries_ty : typing.

Lemma send_raft_snapshot_msg_ty f p : ty (send_raft_snapshot f p) typed.
Proof. unfold send_raft_snapshot. ty_go. Qed.

#[local] Hint Resolve send_raft_snapshot_msg_ty : typing.

Lemma raft_server_send_ty f server lbuf payload len :
  ty (raft_server_send k pad max_msg_size f server lbuf payload len)
     (fun r => match r.1 with Some m => leader_msg_typed m | None => True end).
Proof.
  unfold raft_server_send. ty_step. cbv zeta.
  eapply ty_bind with (R := srlz_typed).
  - assert (srlz_typed (0, Srlz 0 lbuf len, None)) by (split; cbn; lia). ty_go.
  - intros [[n z] err] [Hn Hz].
    eapply ty_bind with (R := fun m => match m with Some m => leader_msg_typed m | None => True end); [|intros ? ?; by ty_go].
    ty_go. by destruct a0 as [[h p]|].
Qed.

(** The data of a configuration entry: two arrays of characters. *)
Context (names : Z.of_nat (sizeof_server_id + sizeof_target) < 2 ^ 64).

Lemma cmd_entry_typed term command c e :
  is_u64 term -> is_int command ->
  new_raft_log_entry mem term RAFT_CONFIG command (bytes_of_cmd c) = Some e -> typed e.
Proof using names.
  intros Ht Hc. apply new_raft_log_entry_typed; [done|unfold RAFT_CONFIG; lia|done| |done].
  pose proof RMR_MAX_SRC_pos. unfold bytes_of_cmd, sizeof_server_id, sizeof_target in *.
  rewrite length_app, !length_carray by lia. lia.
Qed.

Lemma commands_int : is_int ADD_MEMBER /\ is_int DEL_MEMBER.
Proof. unfold is_int, INT_MIN, INT_MAX, ADD_MEMBER, DEL_MEMBER. lia. Qed.

Lemma append_config_entry_ty command x : is_int command -> ty (append_config_entry k mem command x) anything.
Proof using names.
  intros Hc. unfold append_config_entry. ty_go. apply append_raft_log_entry_ty.
  eapply cmd_entry_typed; [|exact Hc|done]. by apply me_term_is.
Qed.

Lemma raft_server_give_up_ty server : ty (raft_server_give_up k mem server) anything.
Proof using names.
  unfold raft_server_give_up. ty_go. apply append_raft_log_entry_ty.
  eapply cmd_entry_typed; [|apply commands_int|done]. by apply me_term_is.
Qed.

Lemma add_entry_ty x : ty (append_config_entry k mem ADD_MEMBER x) anything.
Proof using names. apply append_config_entry_ty, commands_int. Qed.
Lemma del_entry_ty x : ty (append_config_entry k mem DEL_MEMBER x) anything.
Proof using names. apply append_config_entry_ty, commands_int. Qed.

Lemma caught_up_ty self p rounds hb progress : ty (is_server_caught_up self p rounds hb progress) anything.
Proof. unfold is_server_caught_up. cbv zeta. ty_go. Qed.

#[local] Hint Resolve add_entry_ty del_entry_ty caught_up_ty : typing.

Lemma upd_hb_next_ty p : ty (upd p (fun x => upd_hb_timeouts (s_hb_timeouts x + 1) x)) anything.
Proof. apply upd_ty. intros x Hx. exact Hx. Qed.

#[local] Hint Resolve upd_hb_next_ty : typing.

Lemma raft_server_after_ty server hb lm rounds progress :
  ty (raft_server_after k mem server hb lm rounds progress) anything.
Proof using names. unfold raft_server_after. ty_go. Qed.

Lemma raft_server_exit_ty server : ty (raft_server_exit server) anything.
Proof.
  unfold raft_server_exit. ty_go. apply set_heap_typed; [done|]. apply map_Forall_delete, H2.
Qed.

(** Every turn of the thread *)
Definition rs_typed (r : option leader_msg * rs_local * rs_phase) : Prop :=
  match r.1.1 with Some m => leader_msg_typed m | None => True end.

Lemma raft_server_turn_ty server i l ph :
  ty (raft_server_turn k mem pad max_msg_size server i l ph) rs_typed.
Proof using names.
  assert (forall l ph, ty (mret (None, l, ph) : M St _) rs_typed) as Hret by (intros l' ph'; by apply ty_ret).
  destruct ph as [| |[|n]| | | |b| | |]; cbn [raft_server_turn]; try apply Hret.
  - eapply ty_bind; [apply ty_zoom; [apply _|apply upd_active_ty]|intros _ _]. ty_go.
  - ty_go.
  - eapply ty_bind with (R := anything); [ty_go|intros x _].
    eapply ty_bind; [apply raft_server_give_up_ty|]. intros waits _. apply Hret.
  - ty_go.
  - ty_go.
  - eapply ty_bind with (R := anything); [ty_go|intros m _].
    eapply ty_bind with (R := anything); [ty_go|intros x _].
    case_match; [|apply Hret]. eapply ty_bind; [apply raft_server_send_ty|].
    intros [msg lm] Hm. by apply ty_ret.
  - eapply ty_bind; [apply raft_server_after_ty|]. intros [rounds progress] _. apply Hret.
  - eapply ty_bind; [apply raft_server_exit_ty|]. intros _ _. apply Hret.
Qed.

(** ** The thread of the xApp replication (rft.c) *)

Definition replication_typed (m : replication_msg) : Prop :=
  match m with MsgReplication h p => msg_typed (REPLICATION_REQ h p) | MsgXappSnapshot _ => True end.

Definition sent_typed (r : option replication_msg * bool) : Prop :=
  match r.1 with Some m => replication_typed m | None => True end.

Lemma send_locked_ty i m : replication_typed m -> ty (send_locked i m) sent_typed.
Proof.
  intros Hm. unfold send_locked. ty_go. unfold sent_typed. cbn. by destruct (_ !! i) as [[p|]|].
Qed.

Lemma state_replication_send_ty f i lbuf payload len master n :
  is_u64 master -> is_u32 n ->
  ty (state_replication_send k pad max_msg_size f i lbuf payload len master n) sent_typed.
Proof.
  intros Hm Hn. unfold state_replication_send. ty_step.
  eapply ty_bind with (R := srlz_typed); [by apply ty_zoom, serialize_server_ty; [apply _|]|].
  intros [[n' z] err] [Hn' Hz]. cbn in Hn', Hz. ty_go.
  all: by apply send_locked_ty.
Qed.

#[local] Hint Resolve send_locked_ty state_replication_send_ty : typing.

Lemma master_index_is x : typed x -> is_u64 (s_master_index x).
Proof. intros Hx. apply Hx. Qed.

Lemma get_server_last_log_index_ty : ty get_server_last_log_index anything.
Proof. unfold get_server_last_log_index. ty_go. Qed.

#[local] Hint Resolve master_index_is get_server_last_log_index_ty : typing.

Lemma state_replication_turn_ty f i lbuf payload len b :
  ty (state_replication_turn k pad max_msg_size f i lbuf payload len b) sent_typed.
Proof. unfold state_replication_turn. cbv zeta. ty_go. Qed.

Lemma state_replication_loop_ty f bufs n i b :
  ty (state_replication_loop k pad max_msg_size f bufs n i b) (fun r => Forall (fun m => replication_typed m.2) r.1).
Proof.
  revert i b. induction n as [|n IH]; intros i b; cbn [state_replication_loop]; [by apply ty_ret; constructor|].
  destruct (bufs i) as [lbuf payload]. eapply ty_bind; [apply state_replication_turn_ty|].
  intros [msg b1] Hm. eapply ty_bind; [apply IH|]. intros [msgs b2] Hms. apply ty_ret.
  destruct msg; [by constructor|done].
Qed.

Lemma state_replication_pass_ty f bufs :
  ty (state_replication_pass k pad max_msg_size f bufs) (Forall (fun m => replication_typed m.2)).
Proof.
  unfold state_replication_pass, state_replication_sleep. ty_step. ty_step.
  eapply ty_bind with (R := anything); [ty_go|]. intros waits _. ty_step.
  - ty_step. by apply ty_ret; constructor.
  - eapply ty_bind; [apply state_replication_loop_ty|]. intros [msgs b] Hms. ty_go.
Qed.

(** ** Snapshots of both kinds (snapshot.c) *)

Lemma on_snap_modify_ty f : (forall s, typed s -> typed (f s)) -> ty (zoom snap_l (modify f)) anything.
Proof. intros Hf. apply ty_zoom; [apply _|]. by apply ty_modify. Qed.

Lemma set_xapp_pipe_typed o s : typed o -> typed s -> typed (set_xapp_pipe o s).
Proof. intros Ho (? & ? & ? & ?). by split. Qed.
Lemma set_xapp_snapshot_typed x s : typed x -> typed s -> typed (set_xapp_snapshot x s).
Proof. intros Hx (? & ? & ? & ?). by split. Qed.
Lemma set_in_progress_typed b s : typed s -> typed (set_raft_in_progress b s).
Proof. by intros (? & ? & ? & ?). Qed.
Lemma set_xin_progress_typed b s : typed s -> typed (set_xapp_in_progress b s).
Proof. by intros (? & ? & ? & ?). Qed.

Lemma compact_loop_ty m size fuel count : ty (compact_loop m size fuel count) anything.
Proof.
  revert count. induction fuel as [|fuel IH]; intros count; cbn [compact_loop]; ty_go.
Qed.

#[local] Hint Resolve compact_loop_ty : typing.

Lemma compact_ty m size i : is_u64 i -> ty (compact_log m size i) anything.
Proof. intros Hi. unfold compact_log. cbv zeta. ty_go. Qed.

Lemma end_progress_ty mx (L flag : lens snap_st bool) `{!TypedLens L} `{!TypedLens flag} :
  ty (end_progress mx L flag) anything.
Proof. unfold end_progress. apply ty_zoom; [apply _|]. ty_go. by apply typed_put. Qed.

#[local] Hint Resolve compact_ty end_progress_ty : typing.

Lemma parent_raft_thread_ty b1 b2 got : ty (parent_raft_thread b1 b2 got) anything.
Proof.
  unfold parent_raft_thread, compact_raft_log.
  eapply ty_bind; [apply ty_gets|]. intros pipe (s & Hs & ->).
  assert (typed (sn_raft_pipe (g_snap s))) as Hp by apply Hs.
  eapply ty_bind with (R := anything).
  - destruct (sn_raft_pipe (g_snap s)) as [[meta data]|]; [|by apply ty_ret].
    destruct Hp as [(? & ? & ?) _]. ty_step; [|by apply ty_ret]. ty_go.
    all: by apply set_raft_snapshot_typed.
  - intros _ _. ty_go. by apply set_raft_pipe_typed.
Qed.

Lemma xsnapshot_of_ty : ty (gets (fun s => sn_xapp_snapshot (g_snap s))) typed.
Proof. eapply ty_mono; [apply ty_gets|]. intros x (s & (_ & _ & _ & _ & Hs & _) & ->). apply Hs. Qed.

#[local] Hint Resolve xsnapshot_of_ty : typing.

Lemma parent_xapp_thread_ty b1 b2 got : ty (parent_xapp_thread b1 b2 got) anything.
Proof.
  unfold parent_xapp_thread, compact_server_log.
  eapply ty_bind; [apply ty_gets|]. intros pipe (s & Hs & ->).
  assert (typed (sn_xapp_pipe (g_snap s))) as Hp by apply Hs.
  eapply ty_bind with (R := anything).
  - destruct (sn_xapp_pipe (g_snap s)) as [[meta data]|]; [|by apply ty_ret].
    destruct Hp as [(? & ? & ?) _]. ty_step; [|by apply ty_ret]. ty_go.
    all: by apply set_xapp_snapshot_typed.
  - intros _ _. ty_go. by apply set_xapp_pipe_typed.
Qed.

(** The callback counts what it wrote in an [int] that is kept in an unsigned
    field: it must not be negative. *)
Definition cb_typed (cb : option take_snapshot_cb_t) : Prop :=
  match cb with Some f => forall l, is_u32 (f l).1 | None => True end.

Lemma primary_contexts_ty b : ty (zoom (lens_comp app_l ctxtab_l) (primary_contexts b)) anything.
Proof. apply on_ctxtab_ty. Qed.

#[local] Hint Resolve primary_contexts_ty : typing.

Lemma xapp_child_ty f : (forall l, is_u32 (f l).1) -> ty (xapp_child k f) typed.
Proof.
  intros Hf. unfold xapp_child. do 2 ty_step. specialize (Hf a0).
  destruct (f a0) as [items data].
  eapply ty_bind; [apply ty_zoom, get_last_log_index_ty; apply _|]. intros last Hl. apply ty_ret.
  split; [|done]. cbn in Hf. split; cbn; [lia|by split].
Qed.

Lemma take_xapp_snapshot_ty cb : cb_typed cb -> ty (take_xapp_snapshot k cb) anything.
Proof.
  intros Hcb. unfold take_xapp_snapshot. destruct cb as [f|]; [|by apply ty_ret].
  assert (ty (fork (xapp_child k f) : M St pipe_t) typed) by by apply (fork_ty _ typed), xapp_child_ty.
  ty_go. by apply set_xapp_pipe_typed.
Qed.

(** ** The calls of the xApp (rft.c) *)

Lemma server_entry_typed context key command data e :
  is_int command -> is_u64 (Z.of_nat (length data)) ->
  new_server_log_entry mem context key command data = Some e -> typed e.
Proof.
  intros Hc Hd. unfold new_server_log_entry, new_log_entry. cbn.
  destruct (a_entry mem), (a_data mem), context, key; cbn; try done.
  do 2 (destruct (_ =? 0); [done|]). intros [= <-]. unfold typed, typed_entry, entry_typed, SERVER_COMMAND. cbn.
  assert (is_u64 0) by lia. assert (is_u32 2) by lia.
  pose proof (u32_range (Z.of_nat (String.length s))). pose proof (u32_range (Z.of_nat (String.length s0))). tauto.
Qed.

Lemma append_server_log_entry_ty cb e :
  cb_typed cb -> typed e -> ty (append_server_log_entry k cb e) anything.
Proof.
  intros Hcb He. pose proof (take_xapp_snapshot_ty cb Hcb). unfold append_server_log_entry. ty_go.
Qed.

Lemma rft_replicate_ty cb command context key value meid role :
  cb_typed cb -> is_int command -> (forall v, value = Some v -> is_u64 (Z.of_nat (length v))) ->
  ty (rft_replicate k mem cb command context key value meid role) (fun r => is_int r.1).
Proof.
  intros Hcb Hc Hv. unfold rft_replicate. destruct context as [c|], key as [key|], value as [v|]; ty_go.
  apply append_server_log_entry_ty; [done|]. eapply server_entry_typed; [exact Hc|by apply Hv|eassumption].
Qed.

(** ** Elections and joining the cluster (rft.c) *)

Lemma become_candidate_ty : ty become_candidate anything.
Proof. unfold become_candidate. ty_go. Qed.

#[local] Hint Resolve become_candidate_ty : typing.

Lemma candidate_round_ty :
  ty (candidate_round k mem) (fun o => match o with Some r => msg_typed (VOTE_REQ r) | None => True end).
Proof.
  unfold candidate_round, set_election_timeout. ty_go.
  - apply upd_me_ty. intros m Hm. apply me_votes_typed; [lia|done].
  - refine (conj _ (conj _ (conj _ _))); cbn; eauto with typing.
Qed.

Lemma trigger_election_timeout_ty : ty trigger_election_timeout anything.
Proof. unfold trigger_election_timeout. ty_go. Qed.

Lemma bootstrap_ty connected key_set binfo : ty (bootstrap_rft_cluster k mem connected key_set binfo) anything.
Proof using names.
  unfold bootstrap_rft_cluster. cbv zeta. ty_go.
  apply append_raft_log_entry_ty. eapply (cmd_entry_typed 1); [lia|apply (proj1 commands_int)|eassumption].
Qed.

Lemma membership_start_ty : ty membership_start anything.
Proof. unfold membership_start. ty_go. Qed.

Lemma membership_turn_ty value wh conn :
  ty (membership_turn value wh conn)
    (fun r => match r.2 with WAIT_STATE (Some q) => is_u64 (mr_last_log_index q) /\ is_id (mr_server_id q) | _ => True end).
Proof. unfold membership_turn. cbv zeta. ty_go. cbn. split; [done|by apply me_self_is]. Qed.

Lemma membership_deadline_ty stop : ty (membership_deadline stop) anything.
Proof. unfold membership_deadline. ty_go. Qed.

End Threads.
