(* ===== verification/Backup.v ===== *)
(** * A backup keeps up with its primary (proofs about src/rft.c)

    One turn of the replication thread of a primary with one replica, the
    worker of the backup and the answer: a program over the two memories. Each
    such exchange hands over the next commands, so that as many exchanges as
    commands are outstanding suffice. *)

From S2P Require Import Prelude Monad Types LogRing Mtl Config Quorum HashTable.
From S2P Require Import HashMap State Utils Log Serialize Snapshot RaftLog Raft XApp Server.
From S2P Require Import Invariant Commit Election Replication XRepl Worker Delivery XStream.
Open Scope Z_scope.

Section Backup.
Context `{Rmr} `{Host} (pad : bytes) (max_msg_size : Z).

(** The message to the only replica; [rest] is what its buffer holds behind
    the payload. *)
Definition stream_exchange (kp kb : sys) (rmr_realloc_payload : bytes -> Z -> option bytes)
    (bufs : nat -> bytes * bytes) (rest : bytes) : M (St * St) unit :=
  msgs ← zoom leader_l (state_replication_pass kp pad max_msg_size rmr_realloc_payload bufs);
  match msgs with
  | (_, MsgReplication h data) :: _ =>
      reply ← zoom follower_l (worker_replication kb h (data ++ rest));
      zoom leader_l (handle_replication_reply reply)
  | _ => mret tt
  end.

Fixpoint stream_exchanges (n : nat) (kp kb : sys) (rmr_realloc_payload : bytes -> Z -> option bytes)
    (bufs : nat -> bytes * bytes) (rest : bytes) : M (St * St) unit :=
  match n with
  | O => mret tt
  | S n => stream_exchange kp kb rmr_realloc_payload bufs rest;;
           stream_exchanges n kp kb rmr_realloc_payload bufs rest
  end.

(** A primary and its backup, which has applied the first [m] commands, and
    the primary knows it; the log still holds the commands behind them, and
    each of them fits in a message. *)
Record flow (sp sb : St) (X : list log_entry_t) (Cp Cb : list server_t) (hist : list applied_t)
    (m : Z) (p : loc) : Prop := {
  fl_primary : exists L, inv sp L Cp;
  fl_backup : exists L, inv sb L Cb;
  fl_locks : locks sp = no_locks /\ locks sb = no_locks;
  fl_app : app_ok (g_app sp) /\ app_ok (g_app sb) /\ ax_apply_cb (g_app sb) = true;
  fl_side : xside sp X hist;
  fl_sole : rp_servers (g_repl sp) = [Some p] /\ length Cp <> 1%nat;
  fl_master : exists i x, list_find (has_id (m_self_id (g_me sb))) Cp = Some (i, x) /\
    c_servers (cf (g_config sp)) !! i = Some p /\ s_master_index x = m;
  fl_replica : exists j y, list_find (has_id (m_self_id (g_me sp))) Cb = Some (j, y) /\
    s_replica_index y = m;
  fl_range : l_index_offset (lg (g_xapp_log sp)) <= m <= Z.of_nat (length hist) /\
    Z.of_nat (length hist) - m < 2 ^ 32;
  fl_masters : masters_ok hist Cp;
  fl_fits : Forall (fun e => REPL_REQ_HDR_LEN + esize SERVER_LOG e <= max_msg_size) X }.

(** The buffers of the thread and of the message are large enough. *)
Definition roomy_buffers (X : list log_entry_t) (bufs : nat -> bytes * bytes) (rest : bytes) : Prop :=
  Forall (fun e => esize SERVER_LOG e <= Z.of_nat (length (fst (bufs 0%nat))) /\
    e_clen e + e_klen e <= Z.of_nat (length rest)) X.

Context (pad_len : length pad = 4%nat) (size_ok : 0 < max_msg_size - REPL_REQ_HDR_LEN < 2 ^ 31)
  (size_int : max_msg_size < 2 ^ 31).

(** A message with [n] commands, at least one, that a receiver can decode. *)
Definition delivers (X : list log_entry_t) (hist : list applied_t) (m n : Z) (data rest : bytes) : Prop :=
  0 < n /\ carries hist m n data /\ exists es, deserialize_server_log_entries (data ++ rest) n = Some es.

Lemma serialize_some s X hist m bufs rest :
  xside s X hist -> lg_lock (g_xapp_log s) = false ->
  l_index_offset (lg (g_xapp_log s)) <= m < Z.of_nat (length hist) -> Z.of_nat (length hist) - m < 2 ^ 32 ->
  Forall (fun e => REPL_REQ_HDR_LEN + esize SERVER_LOG e <= max_msg_size) X -> roomy_buffers X bufs rest ->
  let lbuf := fst (bufs 0%nat) in
  exists n z, zoom xapp_log_l (serialize_server_log_entries pad true (u64 (m + 1))
      (Z.of_nat (length hist) - m) lbuf (Z.of_nat (length lbuf)) max_msg_size) s = Ok (n, z, None) s /\
    0 < z_bytes z <= max_msg_size - REPL_REQ_HDR_LEN /\ z_bytes z <= Z.of_nat (length (z_buf z)) /\
    delivers X hist m n (take (Z.to_nat (z_bytes z)) (z_buf z)) rest.
Proof using pad_len size_ok size_int.
  intros D Hk Hm Hw32 Hfit Hroom lbuf. pose proof D as [R Hl Hc Hw _]. pose proof (lr_max _ _ R).
  pose proof (lr_offset _ _ R). pose proof (xside_offset s X hist D) as Hx.
  rewrite u64_small by lia. set (n := Z.of_nat (length hist) - m).
  set (g := LogSt (lg (g_xapp_log s)) true).
  assert (log_rep g X) as Rg by (by apply (log_rep_lg (g_xapp_log s))).
  apply Forall_and in Hroom as [Hbuf Hrest].
  assert (log_range g X (m + 1) n = drop (Z.to_nat (m - l_index_offset (lg (g_xapp_log s)))) X) as El.
  { unfold log_range. rewrite take_ge by (rewrite length_drop; cbn; lia). f_equal. cbn. lia. }
  destruct (server_transfer pad pad_len (max_msg_size - REPL_REQ_HDR_LEN) (m + 1) n lbuf g X Rg size_ok)
    as (c & z & E & Hpre & Hnext & Hb & Hmx & Hbf & Hd); try lia; try (cbn; lia).
  { by apply Forall_take, Forall_drop. }
  { by apply Forall_take, Forall_drop. }
  assert (forall P : log_entry_t -> Prop, Forall P X -> Forall P c) as Hall.
  { intros P HP. destruct Hpre as [r Er]. assert (Forall P (c ++ r)) as Hcr
      by (rewrite <- Er; by apply Forall_take, Forall_drop). by apply Forall_app in Hcr as [? _]. }
  assert (c <> []) as Hne.
  { eapply (fit_some SERVER_LOG (max_msg_size - REPL_REQ_HDR_LEN) _ c Hpre).
    - rewrite El. intros E0%(f_equal length). rewrite length_drop in E0. cbn in E0. lia.
    - rewrite El. apply Forall_drop. eapply Forall_impl; [exact Hfit|]. cbv beta. lia.
    - intros e He. rewrite <- Hb. by apply Hnext. }
  exists (Z.of_nat (length c)), z. split; [by apply serialize_server_locked|].
  assert (0 < z_bytes z).
  { rewrite Hb. destruct c as [|e c]; [done|]. rewrite wire_size_cons.
    pose proof (Hall _ Hw) as Hwc. apply Forall_cons_iff in Hwc as [He Hwc].
    pose proof (wire_size_nonneg SERVER_LOG c Hwc). pose proof (esize_bounds SERVER_LOG e He). lia. }
  split; [lia|]. split; [done|]. split; [destruct c; [done|cbn; lia]|]. split.
  - apply (carries_range s X hist m n c); try done; lia.
  - destruct (Hd rest (Hall _ Hrest)) as (es & Ed & _). by exists es.
Qed.

Lemma flow_streaming sp sb X Cp Cb hist m p :
  flow sp sb X Cp Cb hist m p -> streaming sp Cp X hist.
Proof.
  intros []. destruct fl_primary0 as [L [Co _ _]], fl_locks0, fl_sole0 as [Er _],
    fl_master0 as (i & x & _ & Hi & _). split; try done; [by exists L|].
  intros q Hq. rewrite Er in Hq. apply list_elem_of_singleton in Hq as [= ->]. by eapply list_elem_of_lookup_2.
Qed.

(** The turn of the thread sends the message, if there is anything to send. *)
Definition sends (sp : St) (X : list log_entry_t) (hist : list applied_t) (m : Z) (rest : bytes)
    (msgs : list (nat * replication_msg)) : Prop :=
  if decide (m < Z.of_nat (length hist)) then
    exists n nb data, msgs = [(0%nat, MsgReplication (ReplReqHdr m (m_self_id (g_me sp)) n nb) data)] /\
      delivers X hist m n data rest
  else msgs = [].

Lemma sole_pass k realloc bufs rest sp sb X Cp Cb hist m p :
  flow sp sb X Cp Cb hist m p -> sys_alloc k = true -> roomy_buffers X bufs rest ->
  wp never (state_replication_pass k pad max_msg_size realloc bufs) sp
    (fun r s' => s' = sp /\ sends sp X hist m rest r).
Proof using pad_len size_ok size_int.
  intros F Hal Hroom. pose proof (flow_streaming _ _ _ _ _ _ _ _ F) as Sm.
  destruct F as [_ _ [Hk _] _ D [Hsole Hsz] (i & x & Hf & Hp & Hx) _ [Hm Hw] _ Hfit].
  eapply pass_run; [done|by rewrite Hsole; intros [?|?]|].
  rewrite Hsole. cbn [length state_replication_loop]. destruct (bufs 0%nat) as [lbuf payload] eqn:Eb.
  apply wp_bind. assert (rp_servers (g_repl sp) !! 0%nat = Some (Some p)) as Hrp by (by rewrite Hsole).
  change (with_repl true sp) with (with_repl (negb false) sp).
  eapply (turn_head max_msg_size pad never k realloc 0 lbuf payload _ false sp Cp X hist p x); [done|done| |].
  { intros r. destruct (sm_core _ _ _ _ Sm) as [L Co].
    apply (find_deref (set_repl r sp) L Cp i x p); [by apply core_repl| |done]. by apply list_find_Some in Hf as (? & _). }
  pose proof (lr_max _ _ (xd_log _ _ _ D)). pose proof (lr_offset _ _ (xd_log _ _ _ D)).
  pose proof (xd_last _ _ _ D). rewrite Hx.
  destruct (wanted_range (Z.of_nat (length hist)) m ltac:(lia) ltac:(lia)) as [_ Hn]. cbv zeta.
  rewrite (Hn Hw). unfold sends. destruct (decide (m < Z.of_nat (length hist))) as [Hlt|Hge].
  2: { replace (Z.of_nat (length hist) - m) with 0 by lia. cbn [truthy Z.eqb negb].
       apply wp_ret, wp_bind, wp_ret, wp_ret. done. }
  destruct (serialize_some (with_repl false sp) X hist m bufs rest) as (n & z & Ez & Hz1 & Hz2 & Hd); try done.
  { by apply (xside_same sp). }
  { by pose proof (f_equal k_xapp Hk). }
  { cbn. lia. }
  rewrite Eb in Ez. cbn [fst] in Ez.
  assert (truthy (Z.of_nat (length hist) - m) = true) as -> by (apply negb_true_iff, Z.eqb_neq; lia).
  unfold state_replication_send. apply wp_bind, wp_gets, wp_bind. rewrite Hal.
  eapply wp_eq; [exact Ez|]. cbv beta iota.
  assert (truthy (z_bytes z) = true) as -> by (apply negb_true_iff, Z.eqb_neq; lia).
  apply wp_bind. unfold when. rewrite (proj2 (Z.ltb_ge (i32 _) 0)).
  2: { unfold i32. rewrite Z.mod_small; unfold REPL_REQ_HDR_LEN in *; lia. }
  apply wp_ret, wp_bind, wp_from_opt. rewrite sub_bytes_all by lia.
  eapply wp_eq; [by eapply send_locked_ok|]. apply wp_bind, wp_ret, wp_ret. split; [done|].
  by exists n, (z_bytes z), (take (Z.to_nat (z_bytes z)) (z_buf z)).
Qed.

(** The backup applies what it is sent. *)
Lemma backup_applies k sp sb X Cp Cb hist m p n nb data rest :
  flow sp sb X Cp Cb hist m p -> sys_alloc k = true -> delivers X hist m n data rest ->
  wp never (worker_replication k (ReplReqHdr m (m_self_id (g_me sp)) n nb) (data ++ rest)) sb (fun r sb' =>
    exists Cb' calls, (exists L, applying sb sb' L Cb') /\
      (exists j y, list_find (has_id (m_self_id (g_me sp))) Cb' = Some (j, y) /\ s_replica_index y = m + n) /\
      ax_applied (g_app sb') = ax_applied (g_app sb) ++ calls /\
      Forall2 same_call (take (Z.to_nat n) (drop (Z.to_nat m) hist)) calls /\
      pr_server_id r = m_self_id (g_me sb) /\ pr_replica_index r = m + n).
Proof.
  intros F Hal (Hn & (_ & _ & Hmn & Hd) & es & Ed). pose proof (Hd rest es Ed) as Hcalls.
  destruct F as [_ [L I] [_ Hk] (_ & Ha & Hcb) D _ _ (j & y & Hf & Hy) [Hm Hw] _ _].
  pose proof (lr_offset _ _ (xd_log _ _ _ D)). pose proof (lr_max _ _ (xd_log _ _ _ D)).
  pose proof (xd_last _ _ _ D).
  pose proof (deserialize_server_more _ [] _ _ _ Ed) as [_ Hlen].
  unfold worker_replication. rewrite Hal. cbn [negb when]. apply wp_bind, wp_ret, wp_bind, wp_from_opt.
  cbn [repl_req_header_to_msg_cpy rr_n_entries rr_master_index rr_server_id rh_n_entries
    rh_master_index rh_server_id]. rewrite Ed. set (req := ReqRepl _ _ _ _).
  eapply wp_mono; [apply (handle_replication_ok k req sb L Cb I Hk Ha); cbn; lia|].
  intros r sb' (Cb' & A & Sp). pose proof (rs_known _ _ _ _ _ _ Sp j y Hf) as Hs.
  rewrite bool_decide_true in Hs by done. cbn [rr_entries req] in Hs. destruct Hs as (_ & Hap & -> & Hi).
  assert (advance (length es) (s_replica_index y) = m + n) as Ead.
  { rewrite advance_eq by lia. rewrite u64_small; lia. }
  exists (<[j := advanced (length es) y]> Cb), (applied_of <$> es). split; [by exists L|].
  split; [|split; [done|split; [done|split; [by apply Sp|by rewrite Hi]]]].
  exists j, (advanced (length es) y). split; [|done]. apply (list_find_insert _ _ _ y); [done|].
  by apply list_find_Some in Hf as (_ & ? & _).
Qed.

(** What an exchange, or several, do to the pair. *)
Definition handed_over (sp sb : St) (X : list log_entry_t) (hist : list applied_t) (m : Z) (p : loc)
    (q : St * St) (m' : Z) : Prop :=
  m <= m' /\ exists Cp Cb calls, flow (fst q) (snd q) X Cp Cb hist m' p /\
    g_xapp_log (fst q) = g_xapp_log sp /\
    ax_applied (g_app (snd q)) = ax_applied (g_app sb) ++ calls /\
    Forall2 same_call (take (Z.to_nat (m' - m)) (drop (Z.to_nat m) hist)) calls.

Lemma handed_over_trans sp sb X hist m p q m1 q' m2 :
  0 <= m -> handed_over sp sb X hist m p q m1 -> handed_over (fst q) (snd q) X hist m1 p q' m2 ->
  handed_over sp sb X hist m p q' m2.
Proof.
  intros Hm (Hle1 & ? & ? & c1 & _ & E1 & A1 & S1) (Hle2 & Cp & Cb & c2 & F & E2 & A2 & S2). split; [lia|].
  exists Cp, Cb, (c1 ++ c2). split; [done|]. split; [congruence|].
  split; [by rewrite A2, A1, app_assoc|].
  replace (Z.to_nat (m2 - m)) with (Z.to_nat (m1 - m) + Z.to_nat (m2 - m1))%nat by lia.
  rewrite <- take_take_drop, drop_drop. apply Forall2_app; [done|].
  by replace (Z.to_nat m + Z.to_nat (m1 - m))%nat with (Z.to_nat m1) by lia.
Qed.

Lemma stream_exchange_ok kp kb realloc bufs rest sp sb X Cp Cb hist m p :
  flow sp sb X Cp Cb hist m p -> sys_alloc kp = true -> sys_alloc kb = true -> roomy_buffers X bufs rest ->
  wp never (stream_exchange kp kb realloc bufs rest) (sp, sb) (fun _ q => exists m',
    handed_over sp sb X hist m p q m' /\ (m < Z.of_nat (length hist) -> m < m')).
Proof using pad_len size_ok size_int.
  intros F Hap Hab Hroom. unfold stream_exchange. apply wp_bind, wp_zoom.
  eapply wp_mono; [by apply (sole_pass kp realloc bufs rest sp sb X Cp Cb hist m p)|].
  intros msgs s' [-> Hs]. cbn [lput leader_l snd]. unfold sends in Hs. destruct (decide _) as [Hlt|Hge].
  2: { subst msgs. apply wp_ret. exists m. split; [|done]. split; [lia|]. exists Cp, Cb, [].
       split; [done|]. split; [done|]. rewrite app_nil_r, Z.sub_diag. by split; [|constructor]. }
  destruct Hs as (n & nb & data & -> & Hd). apply wp_bind, wp_zoom. cbn [lget follower_l snd].
  eapply wp_mono; [by apply (backup_applies kb sp sb X Cp Cb hist m p)|].
  intros r sb' (Cb' & calls & [L A] & Hrep & Happ & Hcalls & Hself & Hidx). cbn [lput follower_l fst].
  pose proof Hd as (Hn & (Hm0 & _ & Hmn & _) & _).
  destruct F as [[Lp Ip] _ [Hkp Hkb] (Hap1 & _ & Hcb) D Hsole (i & x & Hf & Hp & Hx) _ [Hm Hw] Hmas Hfit].
  apply wp_zoom. cbn [lget leader_l fst].
  eapply wp_mono; [by apply (set_master_ok (pr_server_id r) (pr_replica_index r) sp Lp Cp)|].
  intros [] sp' (Cp' & Ap & Ea & EC). rewrite Hself, Hf in EC. rewrite Hidx in EC.
  cbn [lput leader_l snd]. exists (m + n). split; [|lia]. split; [lia|]. cbn [fst snd].
  destruct A as [A1 A2 A3 A4 A5 A6 [A7 A8] A9 A10]. destruct Ap as [B1 B2 B3 B4 B5 B6 [B7 B8] B9 B10].
  exists Cp', Cb', calls. split; [|split; [done|split; [done|]]].
  2: { by replace (m + n - m) with n by lia. }
  apply list_find_Some in Hf as Hfs. destruct Hfs as (Hi & Hid & _). split.
  - by exists Lp.
  - by exists L.
  - by rewrite B2, A2.
  - rewrite A4. by split.
  - by apply (xside_same sp); rewrite ?B8, ?B9.
  - rewrite B10. destruct Hsole as [Hr Hl]. split; [done|]. by rewrite EC, length_insert.
  - rewrite A6, B5. exists i, (upd_master_index (m + n) x). split; [|by split].
    rewrite EC. by apply (list_find_insert _ _ _ x); [done|].
  - by rewrite B6.
  - rewrite B8. lia.
  - rewrite EC. apply Forall_insert; [done|]. cbn. lia.
  - done.
Qed.

Lemma stream_exchanges_ok n kp kb realloc bufs rest sp sb X Cp Cb hist m p :
  flow sp sb X Cp Cb hist m p -> sys_alloc kp = true -> sys_alloc kb = true -> roomy_buffers X bufs rest ->
  wp never (stream_exchanges n kp kb realloc bufs rest) (sp, sb) (fun _ q => exists m',
    handed_over sp sb X hist m p q m' /\ Z.min (m + Z.of_nat n) (Z.of_nat (length hist)) <= m').
Proof using pad_len size_ok size_int.
  intros F Hap Hab Hroom. revert sp sb Cp Cb m F. induction n as [|n IH]; intros sp sb Cp Cb m F.
  { apply wp_ret. exists m. split; [|lia]. split; [lia|]. exists Cp, Cb, [].
    split; [done|]. split; [done|]. rewrite app_nil_r, Z.sub_diag. by split; [|constructor]. }
  cbn [stream_exchanges]. apply wp_bind.
  eapply wp_mono; [by apply (stream_exchange_ok kp kb realloc bufs rest sp sb X Cp Cb hist m p)|].
  intros [] [sp1 sb1] (m1 & H1 & Hlt). pose proof H1 as (Hle & Cp1 & Cb1 & c1 & F1 & _). cbn [fst snd] in F1.
  eapply wp_mono; [by apply (IH sp1 sb1 Cp1 Cb1 m1)|]. intros [] q (m2 & H2 & Hmin).
  exists m2. pose proof (fl_range _ _ _ _ _ _ _ _ F) as [Hr _].
  pose proof (lr_offset _ _ (xd_log _ _ _ (fl_side _ _ _ _ _ _ _ _ F))).
  split; [|lia]. by eapply handed_over_trans; [lia| |].
Qed.

End Backup.
