(* ===== verification/Examples.v ===== *)
(** * What the sample programs share (src/examples/)

    The message of the samples (examples.h), the states of RMR's buffers they
    tell apart, the numbers of their command lines, the wait for RMR and the
    calls of the library, which -DNORFT leaves out. *)

From S2P Require Import Prelude Monad Types RingBuf Mtl Config HashTable State Utils Log Snapshot.
From S2P Require Import XApp Server Worker Tasks Init.
Open Scope Z_scope.

(** ** examples.h *)

Definition RAN1_MSG : Z := 100.
Definition RAN2_MSG : Z := 101.
Definition RAN3_MSG : Z := 102.

Record mpl_t := Mpl { pl_num_msgs : Z; pl_seq : Z; pl_out_ts : timespec }.

(** [timespec_add_ns( a, ns )] for the unsigned intervals it is used with. *)
Definition timespec_add_ns (a : timespec) (ns : Z) : timespec :=
  let sec := tv_sec a + ns / 1000000000 in
  let nsec := tv_nsec a + ns mod 1000000000 in
  if 1000000000 <=? nsec then Timespec (sec + 1) (nsec - 1000000000) else Timespec sec nsec.

Lemma timespec_add_ns_nanos t ns : timespec_wf t -> 0 <= ns ->
  timespec_wf (timespec_add_ns t ns) /\ nanos (timespec_add_ns t ns) = nanos t + ns.
Proof.
  unfold timespec_wf, timespec_add_ns, nanos. intros Ht Hns.
  pose proof (Z.div_mod ns 1000000000 ltac:(lia)). pose proof (Z.mod_pos_bound ns 1000000000 ltac:(lia)).
  zcases; cbn [tv_sec tv_nsec]; lia.
Qed.

(** A signed 64-bit integer; a signed overflow is taken to wrap, as it does in
    the code that is generated for it. *)
Definition i64 (z : Z) : Z := (z + 2 ^ 63) mod 2 ^ 64 - 2 ^ 63.

Lemma i64_small z : LONG_MIN <= z <= LONG_MAX -> i64 z = z.
Proof. unfold i64, LONG_MIN, LONG_MAX. intros Hz. rewrite Z.mod_small by lia. lia. Qed.

Lemma i64_u64 z : i64 (u64 z) = i64 z.
Proof. unfold i64, u64. by rewrite Z.add_mod_idemp_l by lia. Qed.

Lemma i64_range z : LONG_MIN <= i64 z <= LONG_MAX.
Proof.
  unfold i64, LONG_MIN, LONG_MAX. pose proof (Z.mod_pos_bound (z + 2 ^ 63) (2 ^ 64) ltac:(lia)). lia.
Qed.

Lemma i64_add_l a b : i64 (i64 a + b) = i64 (a + b).
Proof.
  unfold i64. replace ((a + 2 ^ 63) mod 2 ^ 64 - 2 ^ 63 + b + 2 ^ 63)
    with ((a + 2 ^ 63) mod 2 ^ 64 + b) by lia.
  rewrite Z.add_mod_idemp_l by lia. do 2 f_equal. lia.
Qed.

Lemma i64_add_r a b : i64 (a + i64 b) = i64 (a + b).
Proof. by rewrite Z.add_comm, i64_add_l, Z.add_comm. Qed.

(** ** RMR *)

(** The states of a buffer that the samples tell apart. *)
Inductive mbuf_state := MB_OK | MB_ERR_RETRY | MB_ERR_TIMEOUT | MB_ERR_SENDFAILED | MB_ERR_OTHER.
#[export] Instance mbuf_state_eq_dec : EqDecision mbuf_state.
Proof. solve_decision. Defined.

(** A message that arrives at an xApp: of the library, or of the samples. *)
Inductive xapp_msg :=
| RFT (m : rft_msg)
| RAN (mtype : Z) (payload : mpl_t).

(** The types that the samples serve. *)
Definition is_ran (mtype : Z) : bool :=
  (mtype =? RAN1_MSG) || (mtype =? RAN2_MSG) || (mtype =? RAN3_MSG).

(** What the samples see of RMR and of the clock: whether [rmr_init] succeeds,
    when the routing table has come, and [time( NULL )]. The result of
    [rmr_set_stimeout] is only logged. *)
Record rmr_env := RmrEnv { re_init : bool; re_ready : nat -> bool; re_clock : nat -> Z }.

Section Waiting.
Context {S : Type} (env : rmr_env).

(** [while( ! rmr_ready( mrc ) )] with a limit; [i] counts its turns. *)
Fixpoint wait_ready (fuel i : nat) (timeout : Z) : M S unit :=
  if re_ready env i then mret tt
  else if timeout <? re_clock env (Datatypes.S i) then exit1
  else match fuel with
       | Datatypes.S fuel => wait_ready fuel (Datatypes.S i) timeout
       | O => fail OutOfFuel
       end.

(** Each turn sleeps for a second at least; 21 turns reach the limit. *)
Definition READY_FUEL : nat := 21.
Definition rmr_start : M S unit :=
  when (negb (re_init env)) exit1;;
  wait_ready READY_FUEL 0 (re_clock env 0 + 20).

Lemma wait_ready_ok fuel i timeout s :
  (forall j, re_clock env j + 1 <= re_clock env (Datatypes.S j)) ->
  timeout < re_clock env i + Z.of_nat fuel + 1 ->
  wp only_exit (wait_ready fuel i timeout) s (fun _ s' =>
    s' = s /\ exists j, (i <= j <= i + fuel)%nat /\ re_ready env j = true).
Proof.
  intros Hc. revert i. induction fuel as [|fuel IH]; intros i Hi; cbn [wait_ready];
    destruct (re_ready env i) eqn:Er; try (apply wp_ret; split; [done|]; exists i; split; [lia|done]).
  - pose proof (Hc i). by rewrite (proj2 (Z.ltb_lt _ _)) by lia.
  - case_match; [done|]. eapply wp_mono; [apply IH; specialize (Hc i); lia|].
    cbn. intros [] s' (-> & j & ? & ?). split; [done|]. exists j. split; [lia|done].
Qed.

Lemma rmr_start_ok s :
  (forall j, re_clock env j + 1 <= re_clock env (Datatypes.S j)) ->
  wp only_exit rmr_start s (fun _ s' => s' = s /\ re_init env = true /\
    exists j, (j <= READY_FUEL)%nat /\ re_ready env j = true).
Proof.
  intros Hc. unfold rmr_start. apply wp_bind. destruct (re_init env); cbn [negb when]; [|done].
  apply wp_ret. eapply wp_mono; [apply (wait_ready_ok _ _ _ _ Hc); unfold READY_FUEL; lia|].
  cbn. intros [] s' (-> & j & ? & ?). split; [done|]. split; [done|]. exists j. split; [lia|done].
Qed.

End Waiting.

(** ** Returning a message

    [rts i] is the result of the [i]-th call of [rmr_rts_msg]: the state of the
    buffer, or NULL. The loop goes on while the state is not RMR_OK and
    [rts_count] is not 0; it returns the last result and the number of calls. *)
Fixpoint rts_loop {S} (fuel calls : nat) (rts : nat -> option mbuf_state) (state : option mbuf_state)
    (rts_count : Z) : M S (option mbuf_state * nat) :=
  match state with
  | None => mret (state, calls)
  | Some st =>
      if decide (st = MB_OK) then mret (state, calls)
      else if negb (truthy rts_count) then mret (state, calls)
      else match fuel with
           | Datatypes.S fuel =>
               rts_loop fuel (Datatypes.S calls) rts (rts calls) (i32 (rts_count - 1))
           | O => fail OutOfFuel
           end
  end.

Definition rts_message {S} (rts_retries : Z) (rts : nat -> option mbuf_state)
  : M S (option mbuf_state * nat) :=
  rts_loop (Z.to_nat rts_retries) 1 rts (rts 0%nat) rts_retries.

(** Is this result the last one? *)
Definition rts_ends (state : option mbuf_state) : Prop :=
  match state with Some st => st = MB_OK | None => True end.

Lemma i32_pred z : 0 < z <= INT_MAX -> i32 (z - 1) = z - 1.
Proof. unfold i32, INT_MAX. intros Hz. rewrite Z.mod_small by lia. lia. Qed.

Lemma rts_loop_ok {S} fuel calls rts state count (s : S) :
  Z.of_nat fuel = count -> count <= INT_MAX ->
  exists st n, rts_loop fuel calls rts state count s = Ok (st, n) s /\
    (calls <= n <= calls + fuel)%nat /\ (n = calls -> st = state) /\
    ((calls < n)%nat -> st = rts (n - 1)%nat) /\ (rts_ends st \/ n = (calls + fuel)%nat).
Proof.
  revert calls state count. induction fuel as [|fuel IH]; intros calls state count Hf Hc;
    (destruct state as [st|]; cbn [rts_loop]; [|exists None, calls; split_and!; try done; [lia|lia|by left]]);
    (case_decide; [subst; exists (Some MB_OK), calls; split_and!; try done; [lia|lia|by left]|]).
  - subst count. cbn. exists (Some st), calls. split_and!; try done; [lia|lia|right; lia].
  - unfold truthy. rewrite (proj2 (Z.eqb_neq count 0)) by lia. cbn [negb].
    rewrite i32_pred by lia.
    destruct (IH (Datatypes.S calls) (rts calls) (count - 1)) as (st' & n & E & Hn & H1 & H2 & H3); [lia..|].
    exists st', n. split; [done|]. split_and!; [lia|lia|lia| |].
    + intros _. destruct (decide (n = Datatypes.S calls)) as [->|]; [|apply H2; lia].
      rewrite H1 by done. f_equal. lia.
    + destruct H3; [by left|right; lia].
Qed.

(** With a non-negative option the loop ends: the result is that of the last
    call; it is NULL or RMR_OK, or all the retries are spent. *)
Lemma rts_message_ok {S} rts_retries rts (s : S) : 0 <= rts_retries <= INT_MAX ->
  exists n, rts_message rts_retries rts s = Ok (rts n, Datatypes.S n) s /\
    Z.of_nat n <= rts_retries /\ (rts_ends (rts n) \/ Z.of_nat n = rts_retries).
Proof.
  intros Hr. destruct (rts_loop_ok (Z.to_nat rts_retries) 1 rts (rts 0%nat) rts_retries s)
    as (st & n & E & Hn & H1 & H2 & H3); [lia..|].
  exists (n - 1)%nat. assert (st = rts (n - 1)%nat) as ->.
  { destruct (decide (n = 1%nat)) as [->|]; [by apply H1|]. apply H2. lia. }
  replace (Datatypes.S (n - 1)) with n by lia. split; [done|]. split; [lia|].
  destruct H3; [by left|right; lia].
Qed.

(** With a negative option and a peer that is gone no number of turns below
    2^31 is enough. *)
Lemma rts_negative {S} fuel calls rts st count (s : S) :
  (forall i, exists st, rts i = Some st /\ st <> MB_OK) -> st <> MB_OK ->
  count < 0 -> INT_MIN <= count - Z.of_nat fuel ->
  rts_loop fuel calls rts (Some st) count s = Fault OutOfFuel.
Proof.
  intros Hr. revert calls st count. induction fuel as [|fuel IH]; intros calls st count Hst Hc Hm;
    cbn [rts_loop]; rewrite decide_False by done; unfold truthy;
    rewrite (proj2 (Z.eqb_neq count 0)) by lia; cbn [negb]; [done|].
  destruct (Hr calls) as (st' & -> & Hst'). unfold i32, INT_MIN in *.
  rewrite Z.mod_small by lia. apply IH; [done|lia|lia].
Qed.

(** ** The command line *)

(** [atoi], [atol], and [strtoul] without an end pointer. *)
Definition atol (s : string) : Z := (strtol false s).1.1.
Definition atoi (s : string) : Z := i32 (atol s).
Definition to_ulong (s : string) : Z := (strtoul false s).1.1.

(** An argument that is not there is NULL. *)
Definition arg {S} (a : option string) : M S string := from_opt NullDeref a.

(** ** The calls of the library *)

(** The three functions of the library that a sample calls; -DNORFT removes
    the calls. *)
Record rft_calls := RftCalls {
  call_enqueue : rft_msg -> M tasks unit;
  call_replicate : Z -> string -> string -> bytes -> M tasks unit;
  call_init : string -> Z -> M library unit }.

Definition norft : rft_calls :=
  RftCalls (fun _ => mret tt) (fun _ _ _ _ => mret tt) (fun _ _ => mret tt).

Section WithLibrary.
Context `{Rmr} `{Host} (k : sys) (mem : allocs).
Context (einval_empty : bool) (env : string -> option string) (hostname : option string) (imem : init_mem).

(** The samples call [rft_replicate] without its last two arguments and
    [rft_init] without its last two callbacks: the header of the library has
    gained them since. [meid], [role], [cb] and [icb] stand for what a call
    that fits the header passes. [copy] is as for [rft_enqueue_msg]; the result
    of the functions is not looked at. *)
Definition with_rft (copy : errno_t + unit) (cb : option take_snapshot_cb_t) (icb : bool)
    (meid : option string) (role : Z) : rft_calls :=
  RftCalls
    (fun m => rft_enqueue_msg copy (Some m);; mret tt)
    (fun command context key value =>
       zoom tk_st_l (rft_replicate k mem cb command (Some context) (Some key) (Some value) meid role);;
       mret tt)
    (fun listen_port max_msg_size =>
       rft_init einval_empty env hostname imem true (Some listen_port) max_msg_size true icb).
End WithLibrary.
