(* ===== verification/Xapp.v ===== *)
(** * The first sample xApp (src/examples/xapp.c)

    One thread receives every message: those of the library go to its task
    ring, a request is counted, the counter is replicated with the library, and
    the request is returned to its sender. *)

From S2P Require Import Prelude Monad Types RingBuf Fifo RingConc Mtl Config HashTable HashMap State.
From S2P Require Import Utils Log Snapshot XApp Server Invariant Worker Tasks Init Examples.
Open Scope Z_scope.

(** ** The state machine

    [rep_state] is a variable of the xApp; the callback of the library reads a
    long from the data of the command, whatever its length. *)
Definition SET_RSTATE : Z := 0.
Definition ADD_RSTATE : Z := 1.
Definition SUB_RSTATE : Z := 2.

Section StateMachine.
Context `{Host}.

Definition apply_rstate (cmd : Z) (context key : option string) (data : bytes) (dlen : Z) : M Z unit :=
  mem ← from_opt OutOfBounds (sub_bytes 0 8 data);
  let value := i64 (mem_val mem) in
  if cmd =? SET_RSTATE then modify (fun _ => value)
  else if cmd =? ADD_RSTATE then modify (fun rep_state => i64 (rep_state + value))
  else if cmd =? SUB_RSTATE then modify (fun rep_state => i64 (rep_state - value))
  else mret tt.

(** The calls of the library in their order, which the model of the library
    records in [ax_applied]. *)
Fixpoint apply_calls (calls : list applied_t) : M Z unit :=
  match calls with
  | [] => mret tt
  | a :: calls =>
      apply_rstate (ap_command a) (ap_context a) (ap_key a) (ap_value a) (ap_len a);;
      apply_calls calls
  end.
End StateMachine.

(** ** The listener *)

(** The counters of [main], and the library. *)
Record xapp_st := XappSt {
  xa_count : Z; xa_replied : Z; xa_retries : Z; xa_errors : Z; xa_timeouts : Z;
  xa_num_msgs : Z;
  xa_tasks : tasks }.

Definition xa_tasks_l : lens xapp_st tasks :=
  Lens xa_tasks (fun t x => XappSt (xa_count x) (xa_replied x) (xa_retries x) (xa_errors x)
                              (xa_timeouts x) (xa_num_msgs x) t).

(** A new experiment *)
Definition reset_counters (num_msgs : Z) (x : xapp_st) : xapp_st :=
  XappSt 0 0 0 0 0 num_msgs (xa_tasks x).
Definition inc_count (x : xapp_st) : xapp_st :=
  XappSt (i64 (xa_count x + 1)) (xa_replied x) (xa_retries x) (xa_errors x) (xa_timeouts x)
    (xa_num_msgs x) (xa_tasks x).

(** The counter of the state of the returned message *)
Definition inc_outcome (st : mbuf_state) (x : xapp_st) : xapp_st :=
  let 'XappSt count replied retries errors timeouts num_msgs tasks := x in
  match st with
  | MB_OK => XappSt count (i64 (replied + 1)) retries errors timeouts num_msgs tasks
  | MB_ERR_RETRY => XappSt count replied (i64 (retries + 1)) errors timeouts num_msgs tasks
  | MB_ERR_TIMEOUT => XappSt count replied retries errors (i64 (timeouts + 1)) num_msgs tasks
  | _ => XappSt count replied retries (i64 (errors + 1)) timeouts num_msgs tasks
  end.

(** The types of the library that the listener hands on: those of the snapshots
    are not among them. *)
Definition listens_to (m : rft_msg) : bool :=
  match m with
  | APPEND_ENTRIES_REQ _ _ | APPEND_ENTRIES_REPLY _ | VOTE_REQ _ | VOTE_REPLY _
  | MEMBERSHIP_REQ _ _ | REPLICATION_REQ _ _ | REPLICATION_REPLY _ => true
  | _ => false
  end.

(** [stats]: is the logger compiled in at level LOGGER_WARN? *)
Section Listener.
Context `{Host} (rft : rft_calls) (stats : bool) (rts_retries : Z).

Definition serve_ran (payload : mpl_t) (rts : nat -> option mbuf_state) : M xapp_st unit :=
  when (stats && (pl_seq payload =? 1)) (modify (reset_counters (pl_num_msgs payload)));;
  modify inc_count;;
  count ← gets xa_count;
  zoom xa_tasks_l (call_replicate rft SET_RSTATE "REL1" "counter" (mem_bytes 8 count));;
  '(state, _) ← rts_message rts_retries rts;
  st ← from_opt Exit state;
  modify (inc_outcome st).

(** What [rmr_rcv_msg] returns: NULL, or a buffer with its state. *)
Definition listener_turn (msg : option (mbuf_state * xapp_msg)) (rts : nat -> option mbuf_state)
  : M xapp_st unit :=
  match msg with
  | Some (MB_OK, RFT m) => when (listens_to m) (zoom xa_tasks_l (call_enqueue rft m))
  | Some (MB_OK, RAN mtype payload) => when (is_ran mtype) (serve_ran payload rts)
  | _ => mret tt
  end.

Fixpoint listener (msgs : list (option (mbuf_state * xapp_msg) * (nat -> option mbuf_state)))
  : M xapp_st unit :=
  match msgs with
  | [] => mret tt
  | (msg, rts) :: msgs => listener_turn msg rts;; listener msgs
  end.
End Listener.

(** ** The start *)

Record xapp_opts := XappOpts { xo_listen_port : option string; xo_max_retries : Z; xo_rts_retries : Z }.
Definition xapp_defaults : xapp_opts := XappOpts None 1 0.

(** The options of [argv], behind the name of the program. An option without
    its value reads [argv[argc]], which is NULL. *)
Fixpoint xapp_options {S} (args : list string) (o : xapp_opts) : M S xapp_opts :=
  let '(XappOpts port max rts) := o in
  match args with
  | String "-" (String c _) :: args' =>
      if decide (c = "p"%char) then
        match args' with
        | v :: args'' => xapp_options args'' (XappOpts (Some v) max rts)
        | [] => mret (XappOpts None max rts)
        end
      else if decide (c = "r"%char) then
        match args' with
        | v :: args'' => xapp_options args'' (XappOpts port (atoi v) rts)
        | [] => fail NullDeref
        end
      else if decide (c = "l"%char) then
        match args' with
        | v :: args'' => xapp_options args'' (XappOpts port max (atoi v))
        | [] => fail NullDeref
        end
      else exit1
  | "-"%string :: _ => exit1
  | _ => mret o
  end.

(** [main] up to its listener: the state it starts from and [rts_retries].
    [max_rcv_bytes] is RMR's constant RMR_MAX_RCV_BYTES. *)
Definition xapp_main (rft : rft_calls) (rmr : rmr_env) (max_rcv_bytes : Z) (args : list string)
  : M library Z :=
  o ← xapp_options args xapp_defaults;
  rmr_start rmr;;
  call_init rft (default "4560" (xo_listen_port o)) max_rcv_bytes;;
  mret (xo_rts_retries o).

Definition xapp_start (ring : ringbuf rft_msg) (s : St) : xapp_st :=
  XappSt 0 0 0 0 0 0 (MkTasks ring 0 s).

(** The whole program with the library, up to the message behind [msgs]. *)
Definition xapp_program `{Host} (rft : rft_calls) (stats : bool) (rmr : rmr_env) (max_rcv_bytes : Z)
    (args : list string) (msgs : list (option (mbuf_state * xapp_msg) * (nat -> option mbuf_state)))
  : M library xapp_st :=
  rts_retries ← xapp_main rft rmr max_rcv_bytes args;
  g ← get;
  ring ← from_opt NullDeref (li_tasks g);
  match listener rft stats rts_retries msgs (xapp_start ring (li_st g)) with
  | Ok _ x => mret x
  | Fault f => fail f
  end.
