(* ===== verification/Xapp2.v ===== *)
(** * The second sample xApp (src/examples/xapp2.c)

    Several threads receive messages; each replicates the counter, returns the
    request, and counts it. *)

From S2P Require Import Prelude Monad Types RingBuf Fifo RingConc Mtl Config HashTable HashMap State.
From S2P Require Import Utils Log Snapshot XApp Server Invariant Worker Tasks Init Examples Xapp.
Open Scope Z_scope.

Definition MAX_RCV_BYTES : Z := 65000.

(** The state machine, a copy of that of the first sample *)
Definition apply_rstate `{Host} (cmd : Z) (context key : option string) (data : bytes) (dlen : Z)
  : M Z unit :=
  mem ← from_opt OutOfBounds (sub_bytes 0 8 data);
  let value := i64 (mem_val mem) in
  if cmd =? SET_RSTATE then modify (fun _ => value)
  else if cmd =? ADD_RSTATE then modify (fun rep_state => i64 (rep_state + value))
  else if cmd =? SUB_RSTATE then modify (fun rep_state => i64 (rep_state - value))
  else mret tt.

(** ** The listener

    The counters are variables of the program, shared by its threads; the locks
    around two of them are held for one increment. *)
Record xapp2_st := Xapp2St {
  xb_count : Z; xb_replied : Z; xb_retries : Z; xb_errors : Z; xb_sfailed : Z;
  xb_tasks : tasks }.

Definition xb_tasks_l : lens xapp2_st tasks :=
  Lens xb_tasks (fun t x => Xapp2St (xb_count x) (xb_replied x) (xb_retries x) (xb_errors x)
                              (xb_sfailed x) t).

Definition inc_count2 (x : xapp2_st) : xapp2_st :=
  Xapp2St (i64 (xb_count x + 1)) (xb_replied x) (xb_retries x) (xb_errors x) (xb_sfailed x) (xb_tasks x).

Definition inc_outcome2 (st : mbuf_state) (x : xapp2_st) : xapp2_st :=
  let 'Xapp2St count replied retries errors sfailed tasks := x in
  match st with
  | MB_OK => Xapp2St count (i64 (replied + 1)) retries errors sfailed tasks
  | MB_ERR_SENDFAILED => Xapp2St count replied retries errors (i64 (sfailed + 1)) tasks
  | MB_ERR_RETRY => Xapp2St count replied (i64 (retries + 1)) errors sfailed tasks
  | _ => Xapp2St count replied retries (i64 (errors + 1)) sfailed tasks
  end.

Section Listener.
Context `{Host} (rft : rft_calls) (rts_retries : Z).

(** The stretches of a thread that serves a request: [count] is read when the
    library copies it, and counted after the answer. *)
Definition replicate_count : M xapp2_st unit :=
  count ← gets xb_count;
  zoom xb_tasks_l (call_replicate rft SET_RSTATE "UE_RAN_Element" "UE_Counter" (mem_bytes 8 count)).

Definition return_ran (rts : nat -> option mbuf_state) : M xapp2_st unit :=
  '(state, _) ← rts_message rts_retries rts;
  st ← from_opt Exit state;
  modify (inc_outcome2 st).

Definition serve_ran2 (rts : nat -> option mbuf_state) : M xapp2_st unit :=
  replicate_count;;
  return_ran rts;;
  modify inc_count2.

(** What [rmr_rcv_msg] returns. [log_errors]: is the logger compiled in at level
    LOGGER_ERROR? Then its message reads the buffer, which may be NULL. *)
Definition listener_turn2 (log_errors : bool) (msg : option (mbuf_state * xapp_msg))
    (rts : nat -> option mbuf_state) : M xapp2_st unit :=
  match msg with
  | Some (MB_OK, RFT m) =>
      match m with
      | APPEND_ENTRIES_REQ _ _ | APPEND_ENTRIES_REPLY _ | VOTE_REQ _ | VOTE_REPLY _
      | MEMBERSHIP_REQ _ _ | REPLICATION_REQ _ _ | REPLICATION_REPLY _ =>
          zoom xb_tasks_l (call_enqueue rft m)
      | _ => mret tt
      end
  | Some (MB_OK, RAN mtype payload) => when (is_ran mtype) (serve_ran2 rts)
  | Some _ => mret tt
  | None => if log_errors then fail NullDeref else mret tt
  end.

Fixpoint listener2 (log_errors : bool)
    (msgs : list (option (mbuf_state * xapp_msg) * (nat -> option mbuf_state))) : M xapp2_st unit :=
  match msgs with
  | [] => mret tt
  | (msg, rts) :: msgs => listener_turn2 log_errors msg rts;; listener2 log_errors msgs
  end.

(** ** Two threads and the counter

    Where a listener thread stands while it serves a request. *)
Inductive serving2 := Idle2 | Replicated2 | Returned2.

(** A stretch of one thread between two accesses to the counter. *)
Definition serve_step (rts : nat -> option mbuf_state) (at_ : serving2) : M xapp2_st serving2 :=
  match at_ with
  | Idle2 => replicate_count;; mret Replicated2
  | Replicated2 => return_ran rts;; mret Returned2
  | Returned2 => modify inc_count2;; mret Idle2
  end.

(** A schedule names the thread of each step. *)
Fixpoint serve_steps (rts : nat -> option mbuf_state) (schedule : list nat) (threads : list serving2)
  : M xapp2_st (list serving2) :=
  match schedule with
  | [] => mret threads
  | t :: schedule =>
      at_ ← from_opt OutOfBounds (threads !! t);
      at_ ← serve_step rts at_;
      serve_steps rts schedule (<[t := at_]> threads)
  end.
End Listener.

(** ** The start *)

Record xapp2_opts := Xapp2Opts {
  xo2_listen_port : option string; xo2_max_retries : Z; xo2_rts_retries : Z; xo2_nthreads : Z }.
Definition xapp2_defaults : xapp2_opts := Xapp2Opts None 1 0 1.

Fixpoint xapp2_options {S} (args : list string) (o : xapp2_opts) : M S xapp2_opts :=
  let '(Xapp2Opts port max rts nthreads) := o in
  match args with
  | String "-" (String c _) :: args' =>
      if decide (c = "p"%char) then
        match args' with
        | v :: args'' => xapp2_options args'' (Xapp2Opts (Some v) max rts nthreads)
        | [] => mret (Xapp2Opts None max rts nthreads)
        end
      else if decide (c = "r"%char) then
        match args' with
        | v :: args'' => xapp2_options args'' (Xapp2Opts port (atoi v) rts nthreads)
        | [] => fail NullDeref
        end
      else if decide (c = "l"%char) then
        match args' with
        | v :: args'' => xapp2_options args'' (Xapp2Opts port max (atoi v) nthreads)
        | [] => fail NullDeref
        end
      else if decide (c = "n"%char) then
        match args' with
        | v :: args'' =>
            let n := atoi v in
            xapp2_options args'' (Xapp2Opts port max rts (if n <? 1 then 1 else n))
        | [] => fail NullDeref
        end
      else exit1
  | "-"%string :: _ => exit1
  | _ => mret o
  end.

(** [main] up to its statistics: how many listeners it starts, and
    [rts_retries]. [alloc] is the result of [malloc], [create i] whether the
    [i]-th thread is created. *)
Definition xapp2_main (rft : rft_calls) (rmr : rmr_env) (alloc : bool) (create : nat -> bool)
    (args : list string) : M library (Z * Z) :=
  o ← xapp2_options args xapp2_defaults;
  when (negb alloc) exit1;;
  rmr_start rmr;;
  call_init rft (default "4560" (xo2_listen_port o)) MAX_RCV_BYTES;;
  for_ (Z.to_nat (xo2_nthreads o)) 0 (fun i => when (negb (create i)) exit1);;
  mret (xo2_nthreads o, xo2_rts_retries o).

(** One turn of the statistics: the new value of [last_count], and whether a
    line is written. *)
Definition stats_turn (last_count : Z) (x : xapp2_st) : Z * bool :=
  if last_count =? xb_count x then (last_count, false) else (xb_count x, true).
