(* ===== verification/XappRuns.v ===== *)
(** * Runs of the sample xApps (proofs about src/examples/xapp.c and xapp2.c)

    What a listener replicates while it serves requests, with the library
    behind it, and what the callback of a replica makes of it. *)

From S2P Require Import Prelude Monad Types LogRing RingBuf Fifo RingConc Mtl Config Quorum HashTable.
From S2P Require Import HashMap State Utils Log Serialize Snapshot RaftLog Raft XApp Server.
From S2P Require Import Invariant Commit Election Replication XRepl Worker Tasks Init Delivery XStream.
From S2P Require Import Examples Xapp Xapp2.
Open Scope Z_scope.

(** ** The callback *)

Section Callback.
Context `{Host}.

(** The command that sets the counter to [c]. *)
Definition set_call (context key : string) (c : Z) : applied_t :=
  call_of SET_RSTATE context key (mem_bytes 8 c).

Lemma apply_rstate_set context key data dlen c rep :
  take 8 data = mem_bytes 8 c ->
  apply_rstate SET_RSTATE context key data dlen rep = Ok tt (i64 c).
Proof.
  intros Hd. unfold apply_rstate.
  assert (sub_bytes 0 8 data = Some (mem_bytes 8 c)) as ->.
  { rewrite <- (take_drop 8 data), Hd. apply sub_bytes_app_l. by rewrite length_mem_bytes. }
  rewrite (bind_Ok _ _ rep (mem_bytes 8 c) rep) by done. cbv zeta. rewrite Z.eqb_refl, mem_val_bytes.
  unfold modify. f_equal. apply i64_u64.
Qed.

(** A call with the same arguments has the same effect. *)
Lemma apply_rstate_same context key c a rep : same_call (set_call context key c) a ->
  apply_rstate (ap_command a) (ap_context a) (ap_key a) (ap_value a) (ap_len a) rep = Ok tt (i64 c).
Proof.
  intros (Ec & Ex & Ek & El & Ev). rewrite Ec, Ex, Ek. apply apply_rstate_set. revert Ev. rewrite El.
  cbn [set_call call_of ap_value ap_len]. rewrite length_mem_bytes.
  change (Z.to_nat (Z.of_nat 8)) with 8%nat. intros ->. by rewrite take_ge by (rewrite length_mem_bytes; lia).
Qed.

(** Whatever was there before, the last command decides. *)
Lemma apply_sets context key cs calls rep :
  Forall2 same_call (set_call context key <$> cs) calls ->
  apply_calls calls rep = Ok tt (default rep (i64 <$> last cs)).
Proof.
  intros HF. revert calls rep HF. induction cs as [|c cs IH]; intros calls rep HF.
  - by apply Forall2_nil_inv_l in HF as ->.
  - apply Forall2_cons_inv_l in HF as (a & calls' & Ha & HF & ->). cbn [apply_calls].
    rewrite (bind_Ok _ _ _ _ _ (apply_rstate_same _ _ _ _ rep Ha)), (IH _ _ HF).
    rewrite last_cons. by destruct (last cs).
Qed.
End Callback.

(** The second sample has the same callback. *)
Lemma apply_rstate_copy `{Host} : Xapp2.apply_rstate = Xapp.apply_rstate.
Proof. done. Qed.

(** ** The library behind the listener *)

Section Runs.
Context `{Rmr} `{Host} (k : sys) (mem : allocs).
Context (einval_empty : bool) (env : string -> option string) (hostname : option string) (imem : init_mem).
Context (copy : errno_t + unit) (cb : option take_snapshot_cb_t) (icb : bool) (meid : option string).
Context (mem_context : a_context mem = true) (mem_key : a_key mem = true).

(** The xApp is the primary of its context. *)
Let rft : rft_calls := with_rft k mem einval_empty env hostname imem copy cb icb meid RFT_PRIMARY.

(** The commands [hist] are in the log, and the ring holds some messages. *)
Definition feeding (t : tasks) (hist : list applied_t) : Prop :=
  (exists X, xside (tk_st t) X hist) /\ app_ok (g_app (tk_st t)) /\ locks (tk_st t) = no_locks /\
  exists l, ringbuf_rep (tk_ring t) l.

Lemma rft_replicate_primary command context key value s r s' :
  rft_replicate k mem cb command (Some context) (Some key) (Some value) meid RFT_PRIMARY s = Ok r s' ->
  fst r = 1.
Proof.
  unfold rft_replicate. rewrite Z.eqb_refl. cbn [negb]. rewrite (bind_Ok _ _ s 1 s) by done.
  cbn [truthy Z.eqb negb]. destruct (new_server_log_entry _ _ _ _ _) as [e|]; [|done].
  unfold mbind, M_bind. cbn. destruct (append_server_log_entry _ _ _ _) as [? s1|]; [|done].
  case_match; [|done]. by intros [= <- _].
Qed.

Lemma replicate_set context key c t hist :
  feeding t hist -> command_fits SET_RSTATE context key (mem_bytes 8 c) ->
  Z.of_nat (length hist) + 1 < 2 ^ 64 - 1 ->
  wp replicate_faults (call_replicate rft SET_RSTATE context key (mem_bytes 8 c)) t (fun _ t' =>
    feeding t' (hist ++ [set_call context key c]) /\
    ax_applied (g_app (tk_st t')) = ax_applied (g_app (tk_st t)) ++ [set_call context key c] /\
    tk_ring t' = tk_ring t /\ tk_copies t' = tk_copies t).
Proof using mem_context mem_key.
  intros ((X & D) & Ha & Hk & l & Hl) Hfit Hm. cbn [rft with_rft call_replicate].
  apply wp_bind, wp_zoom. cbn [lget tk_st_l]. pose proof (rft_replicate_ok k mem cb SET_RSTATE context key
    (mem_bytes 8 c) meid RFT_PRIMARY (tk_st t) X hist D Ha Hk Hfit Hm mem_context mem_key) as W.
  unfold wp in *. destruct (rft_replicate _ _ _ _ _ _ _ _ _ _) as [r s'|f] eqn:E; [|done].
  apply rft_replicate_primary in E. destruct W as (_ & Ha' & Hk' & [[E0 _]|(_ & D' & Ea)]); [lia|].
  cbn. split_and!; try done. split; [done|]. split; [done|]. split; [done|]. by exists l.
Qed.

Lemma enqueue_feeding m t hist : feeding t hist ->
  wp never (call_enqueue rft m) t (fun _ t' => feeding t' hist /\
    tk_st t' = tk_st t).
Proof using.
  intros (D & Ha & Hk & l & Hl). cbn [rft with_rft call_enqueue]. apply wp_bind. destruct copy as [e|[]].
  { apply wp_ret, wp_ret. split; [|done]. split; [done|]. split; [done|]. split; [done|]. by exists l. }
  destruct (rft_enqueue_ok m t l Hl) as (t' & E & Hl' & _ & _ & _ & Es).
  eapply wp_eq; [exact E|]. apply wp_ret. split; [|done].
  split; [by rewrite Es|]. split; [by rewrite Es|]. split; [by rewrite Es|]. by eexists.
Qed.

(** ** The first sample *)

Section First.
Context (stats : bool) (rts_retries : Z) (rts_range : 0 <= rts_retries <= INT_MAX).

(** The values that the counter takes, one for each request served. *)
Fixpoint served (c : Z) (msgs : list (option (mbuf_state * xapp_msg) * (nat -> option mbuf_state)))
  : list Z :=
  match msgs with
  | [] => []
  | (Some (MB_OK, RAN mtype p), _) :: msgs =>
      if is_ran mtype then
        let c' := i64 ((if stats && (pl_seq p =? 1) then 0 else c) + 1) in c' :: served c' msgs
      else served c msgs
  | _ :: msgs => served c msgs
  end.

(** Every request has one outcome. *)
Definition accounted (x : xapp_st) : Prop :=
  xa_count x = i64 (xa_replied x + xa_retries x + xa_errors x + xa_timeouts x).

Lemma inc_outcome_accounted st x :
  xa_count x = i64 (xa_replied x + xa_retries x + xa_errors x + xa_timeouts x + 1) ->
  accounted (inc_outcome st x) /\ xa_count (inc_outcome st x) = xa_count x /\
  xa_tasks (inc_outcome st x) = xa_tasks x.
Proof using.
  destruct x as [c r rt e tm n t]. unfold accounted.
  destruct st; cbn [inc_outcome xa_count xa_replied xa_retries xa_errors xa_timeouts xa_tasks]; intros ->;
    (split; [|done]).
  - replace (i64 (r + 1) + rt + e + tm) with (i64 (r + 1) + (rt + e + tm)) by lia.
    rewrite i64_add_l. f_equal. lia.
  - replace (r + i64 (rt + 1) + e + tm) with (i64 (rt + 1) + (r + e + tm)) by lia.
    rewrite i64_add_l. f_equal. lia.
  - rewrite i64_add_r. f_equal. lia.
  - replace (r + rt + i64 (e + 1) + tm) with (i64 (e + 1) + (r + rt + tm)) by lia.
    rewrite i64_add_l. f_equal. lia.
  - replace (r + rt + i64 (e + 1) + tm) with (i64 (e + 1) + (r + rt + tm)) by lia.
    rewrite i64_add_l. f_equal. lia.
Qed.

Lemma rts_outcome {A} rts (x : A) (Q : option mbuf_state * nat -> A -> Prop) :
  (forall st n, Q (st, n) x) -> wp never (rts_message rts_retries rts) x Q.
Proof using rts_range.
  intros HQ. destruct (rts_message_ok rts_retries rts x rts_range) as (n & E & _). by eapply wp_eq.
Qed.

(** The calls of the callback that serve the requests [msgs]. *)
Definition set_counter (c : Z) : applied_t := set_call "REL1" "counter" c.

Lemma counter_fits c : command_fits SET_RSTATE "REL1" "counter" (mem_bytes 8 c).
Proof using.
  split; [done|]. split; [by repeat constructor|]. split; [by repeat constructor|].
  by rewrite length_mem_bytes.
Qed.

(** [x'] has served the requests with the counters [cs]. *)
Record has_served (x x' : xapp_st) (hist : list applied_t) (cs : list Z) : Prop := {
  hs_count : xa_count x' = default (xa_count x) (last cs);
  hs_accounted : accounted x';
  hs_feeding : feeding (xa_tasks x') (hist ++ (set_counter <$> cs));
  hs_applied : ax_applied (g_app (tk_st (xa_tasks x'))) =
    ax_applied (g_app (tk_st (xa_tasks x))) ++ (set_counter <$> cs) }.

Lemma has_served_nil x hist : accounted x -> feeding (xa_tasks x) hist -> has_served x x hist [].
Proof using. intros A F. by split; rewrite ?fmap_nil, ?app_nil_r. Qed.

Lemma has_served_app x x1 x2 hist cs1 cs2 :
  has_served x x1 hist cs1 -> has_served x1 x2 (hist ++ (set_counter <$> cs1)) cs2 ->
  has_served x x2 hist (cs1 ++ cs2).
Proof using.
  intros [C1 A1 F1 P1] [C2 A2 F2 P2]. split; rewrite ?fmap_app, ?app_assoc; try done.
  - rewrite C2, C1, last_app. by destruct (last cs2).
  - by rewrite P2, P1.
Qed.

Lemma serve_ran_ok p rts x hist :
  accounted x -> feeding (xa_tasks x) hist -> Z.of_nat (length hist) + 1 < 2 ^ 64 - 1 ->
  let c := i64 ((if stats && (pl_seq p =? 1) then 0 else xa_count x) + 1) in
  wp replicate_faults (serve_ran rft stats rts_retries p rts) x (fun _ x' => has_served x x' hist [c]).
Proof using mem_context mem_key rts_range.
  intros A F Hm c. unfold serve_ran. set (new := stats && _) in *.
  set (x1 := inc_count (if new then reset_counters (pl_num_msgs p) x else x)).
  apply wp_bind, (wp_eq _ _ _ tt (if new then reset_counters (pl_num_msgs p) x else x)); [by destruct new|].
  apply wp_bind, wp_modify. fold x1. apply wp_bind, wp_gets.
  assert (xa_count x1 = c) as Ec by (by unfold x1, c; destruct new).
  assert (xa_tasks x1 = xa_tasks x) as Et by (by unfold x1; destruct new).
  assert (xa_count x1 = i64 (xa_replied x1 + xa_retries x1 + xa_errors x1 + xa_timeouts x1 + 1)) as Ea.
  { unfold x1. destruct new; [done|]. cbn. by rewrite A, i64_add_l. }
  rewrite Ec. apply wp_bind, wp_zoom. cbn [lget xa_tasks_l]. rewrite Et.
  eapply wp_mono; [apply (replicate_set "REL1" "counter" c _ hist F (counter_fits c) Hm)|].
  intros [] t' (F' & Ep & _). apply wp_bind, never_wp, rts_outcome. intros st n.
  apply wp_bind, wp_from_opt. destruct st as [st|]; [|by left].
  apply wp_modify. set (x2 := lput xa_tasks_l t' x1).
  destruct (inc_outcome_accounted st x2 Ea) as (A' & Ec' & Et'). split; [|done| |].
  - by rewrite Ec'.
  - by rewrite Et'.
  - by rewrite Et'.
Qed.

Lemma listener_turn_ok msg rts x hist :
  accounted x -> feeding (xa_tasks x) hist -> Z.of_nat (length hist) + 1 < 2 ^ 64 - 1 ->
  wp replicate_faults (listener_turn rft stats rts_retries msg rts) x (fun _ x' =>
    has_served x x' hist (served (xa_count x) [(msg, rts)])).
Proof using mem_context mem_key rts_range.
  intros A F Hm. assert (forall E, wp E (mret tt : M xapp_st unit) x (fun _ x' => has_served x x' hist []))
    as Hskip by (intros E; by apply wp_ret, has_served_nil).
  destruct msg as [[[] [m|mtype p]]|]; try apply Hskip; cbn [listener_turn served].
  - unfold when. destruct (listens_to m); [|apply Hskip]. apply wp_zoom, never_wp.
    eapply wp_mono; [apply (enqueue_feeding m _ hist F)|]. intros [] t' (F' & Es).
    split; cbn; rewrite ?app_nil_r, ?Es; done.
  - destruct (is_ran mtype); [|apply Hskip]. by apply serve_ran_ok.
Qed.

Lemma served_app c l1 l2 : served c (l1 ++ l2) = served c l1 ++ served (default c (last (served c l1))) l2.
Proof using.
  revert c. induction l1 as [|[msg rts] l1 IH]; intros c; [done|].
  cbn [app served]. destruct msg as [[[] [m|mtype p]]|]; try apply IH.
  destruct (is_ran mtype); [|apply IH]. rewrite IH. cbn [app]. f_equal. f_equal. f_equal.
  rewrite last_cons. by destruct (last _).
Qed.

Lemma served_length c msgs : (length (served c msgs) <= length msgs)%nat.
Proof using.
  revert c. induction msgs as [|[msg rts] msgs IH]; intros c; [done|]. cbn [served length].
  destruct msg as [[[] [m|mtype p]]|]; try (specialize (IH c); lia).
  destruct (is_ran mtype); [|specialize (IH c); lia]. cbn [length]. specialize (IH (i64 ((if stats && (pl_seq p =? 1) then 0 else c) + 1))). lia.
Qed.

Lemma listener_ok msgs x hist :
  accounted x -> feeding (xa_tasks x) hist ->
  Z.of_nat (length hist) + Z.of_nat (length msgs) < 2 ^ 64 - 1 ->
  wp replicate_faults (listener rft stats rts_retries msgs) x (fun _ x' =>
    has_served x x' hist (served (xa_count x) msgs)).
Proof using mem_context mem_key rts_range.
  revert x hist. induction msgs as [|[msg rts] msgs IH]; intros x hist A F Hm; cbn [listener].
  - by apply wp_ret, has_served_nil.
  - cbn [length] in Hm. apply wp_bind. eapply wp_mono; [apply (listener_turn_ok msg rts x hist A F); lia|].
    intros [] x1 S1. pose proof S1 as [C1 A1 F1 _].
    eapply wp_mono; [apply (IH x1 _ A1 F1)|].
    { rewrite length_app, length_fmap. pose proof (served_length (xa_count x) [(msg, rts)]). cbn [length] in *. lia. }
    intros [] x2 S2. change ((msg, rts) :: msgs) with ([(msg, rts)] ++ msgs). rewrite served_app, <- C1.
    by eapply has_served_app.
Qed.

End First.

(** ** The start of the first sample *)

(** The command line is read to its end, refused, or ends too early. *)
Lemma xapp_options_ok {S} args o (s : S) : INT_MIN <= xo_rts_retries o <= INT_MAX ->
  wp replicate_faults (xapp_options args o) s (fun o' s' => s' = s /\ INT_MIN <= xo_rts_retries o' <= INT_MAX).
Proof using.
  assert (wp replicate_faults (exit1 : M S xapp_opts) s (fun o' s' => s' = s /\
    INT_MIN <= xo_rts_retries o' <= INT_MAX)) as Hx by by left.
  assert (wp replicate_faults (fail NullDeref : M S xapp_opts) s (fun o' s' => s' = s /\
    INT_MIN <= xo_rts_retries o' <= INT_MAX)) as Hnull by by right; right.
  remember (length args) as n eqn:Hl. revert args o Hl.
  induction (lt_wf n) as [n _ IH]. intros args [port max rts] Hl Ho. cbn [xo_rts_retries] in Ho.
  destruct args as [|a args]; [by apply wp_ret|]. cbn [length] in Hl.
  destruct a as [|c1 a]; [by apply wp_ret|].
  destruct (decide (c1 = "-"%char)) as [->|Hc]; [|by destruct c1 as [[] [] [] [] [] [] [] []]; try (by apply wp_ret)].
  destruct a as [|c a]; [exact Hx|]. cbn [xapp_options].
  repeat case_decide; try exact Hx; destruct args as [|v args]; try exact Hnull; try (by apply wp_ret);
    (eapply (IH (length args)); [cbn [length] in Hl; lia|done|]; cbn [xo_rts_retries]; try done; apply i32_range).
Qed.

Lemma xapp_main_ok rmr max_rcv_bytes args now rands :
  imem = init_mem_ok -> env "RFT_SELF_ID" <> Some "" -> hostname <> Some "" ->
  Forall (fun r => 0 <= r) rands -> timespec_wf now ->
  (forall j, re_clock rmr j + 1 <= re_clock rmr (S j)) ->
  wp replicate_faults (xapp_main rft rmr max_rcv_bytes args) (library0 now rands) (fun rts g =>
    INT_MIN <= rts <= INT_MAX /\ exists ring, li_tasks g = Some ring /\
      accounted (xapp_start ring (li_st g)) /\ feeding (xa_tasks (xapp_start ring (li_st g))) [] /\
      ax_applied (g_app (li_st g)) = []).
Proof using.
  intros Em He Hh Hr Hn Hc. unfold xapp_main. apply wp_bind.
  eapply wp_mono; [by apply xapp_options_ok|]. intros o g [-> Ho].
  assert (forall f, only_exit f -> replicate_faults f) as Hx by (intros f ->; by left).
  apply wp_bind. eapply wp_fault_mono, wp_mono; [exact Hx|by apply rmr_start_ok|]. intros [] g (-> & _).
  apply wp_bind. cbn [rft with_rft call_init].
  eapply wp_fault_mono, wp_mono; [exact Hx|by apply rft_init_established|].
  intros [] g (id & r & Ht & Rr & _ & _ & _ & Ok & _ & _ & _ & _ & Rx & Hoff & Hap & Hp & _).
  apply wp_ret. split; [done|]. exists r. split; [done|]. split; [done|]. split; [|done].
  split; [|split; [apply Ok|split; [apply Ok|by exists []]]].
  exists []. cbn [xapp_start xa_tasks tk_st]. split; try done.
  - by rewrite (lr_last _ _ Rx), Hoff.
  - by rewrite drop_nil.
  - cbn. by rewrite Hp.
Qed.

(** ** The second sample *)

(** The value that every other server gets is the count without the request. *)
Definition set_ue_counter (c : Z) : applied_t := set_call "UE_RAN_Element" "UE_Counter" c.

Lemma replicate_count_ok x hist :
  feeding (xb_tasks x) hist -> Z.of_nat (length hist) + 1 < 2 ^ 64 - 1 ->
  wp replicate_faults (replicate_count rft) x (fun _ x' => xb_count x' = xb_count x /\
    feeding (xb_tasks x') (hist ++ [set_ue_counter (xb_count x)])).
Proof using mem_context mem_key.
  intros F Hm. unfold replicate_count. apply wp_bind, wp_gets, wp_zoom.
  eapply wp_mono; [apply (replicate_set _ _ (xb_count x) _ hist F); [|done]|].
  { split; [done|]. split; [by repeat constructor|]. split; [by repeat constructor|].
    by rewrite length_mem_bytes. }
  by intros [] t' (F' & _).
Qed.

Lemma serve_ran2_ok rts_retries rts x hist :
  0 <= rts_retries <= INT_MAX ->
  feeding (xb_tasks x) hist -> Z.of_nat (length hist) + 1 < 2 ^ 64 - 1 ->
  wp replicate_faults (serve_ran2 rft rts_retries rts) x (fun _ x' =>
    xb_count x' = i64 (xb_count x + 1) /\
    feeding (xb_tasks x') (hist ++ [set_ue_counter (xb_count x)])).
Proof using mem_context mem_key.
  intros Hr F Hm. unfold serve_ran2, return_ran. apply wp_bind.
  eapply wp_mono; [by apply replicate_count_ok|]. intros [] x1 (E1 & F1).
  apply wp_bind, wp_bind, never_wp, rts_outcome; [done|]. intros st n.
  apply wp_bind, wp_from_opt. destruct st as [st|]; [|by left]. apply wp_modify, wp_modify.
  rewrite <- E1. rewrite <- E1 in F1. destruct x1 as [c r rt e sf t], st; by split.
Qed.

(** Two listeners that have a request each replicate the same value. *)
Lemma two_listeners rts_retries rts x hist :
  feeding (xb_tasks x) hist -> Z.of_nat (length hist) + 2 < 2 ^ 64 - 1 ->
  wp replicate_faults (serve_steps rft rts_retries rts [0%nat; 1%nat] [Idle2; Idle2]) x (fun threads x' =>
    threads = [Replicated2; Replicated2] /\ xb_count x' = xb_count x /\
    feeding (xb_tasks x') ((hist ++ [set_ue_counter (xb_count x)]) ++ [set_ue_counter (xb_count x)])).
Proof using mem_context mem_key.
  intros F Hm. cbn [serve_steps]. apply wp_bind, wp_ret, wp_bind, wp_bind.
  eapply wp_mono; [apply (replicate_count_ok x hist F); lia|]. intros [] x1 (E1 & F1).
  apply wp_ret, wp_bind, wp_ret, wp_bind, wp_bind.
  eapply wp_mono; [apply (replicate_count_ok x1 _ F1); rewrite length_app; cbn [length]; lia|].
  intros [] x2 (E2 & F2). apply wp_ret, wp_ret. split; [done|]. split; [congruence|]. by rewrite E1 in F2.
Qed.

End Runs.
