(* ===== verification/Sender.v ===== *)
(** * The first sample sender (src/examples/sender.c)

    One thread sends numbered messages and another one stores the time each
    reply took; [main] runs both before the measurement to warm up, and reports
    when the receiver has ended. The double and float arithmetic of the report
    is that of IEEE 754, rounding to nearest. *)

From S2P Require Import Prelude Monad Types State Utils Examples.
From Stdlib Require Import SpecFloat.
Open Scope Z_scope.

(** [elapsed( start_ts, end_ts )]: microseconds; C's division truncates. *)
Definition elapsed (start_ts end_ts : timespec) : Z :=
  let start := i64 (i64 (tv_sec start_ts * 1000000000) + tv_nsec start_ts) in
  let end_ := i64 (i64 (tv_sec end_ts * 1000000000) + tv_nsec end_ts) in
  i64 (end_ - start) ÷ 1000.

(** ** The arrays

    [msg_rtt] and [msg_seq] have the size [main] asks for; [malloc] leaves their
    cells unwritten. *)
Notation rtt_array := (list (option Z)).

Definition put_cell (i v : Z) (a : rtt_array) : option rtt_array :=
  if (0 <=? i) && (i <? Z.of_nat (length a)) then Some (<[Z.to_nat i := Some v]> a) else None.

(** The two ways to read outside what was written. *)
Definition get_cell {S} (i : Z) (a : rtt_array) : M S Z :=
  if (0 <=? i) && (i <? Z.of_nat (length a))
  then from_opt Uninitialised (mjoin (a !! Z.to_nat i)) else fail OutOfBounds.

(** The variables of the program *)
Record sender_st := SenderSt {
  se_num2send : Z; se_begin_ts : timespec; se_end_ts : timespec;
  se_replies : Z; se_retries : Z; se_msg_rtt : rtt_array; se_msg_seq : rtt_array }.

Definition set_num2send (n : Z) (x : sender_st) : sender_st :=
  SenderSt n (se_begin_ts x) (se_end_ts x) (se_replies x) (se_retries x) (se_msg_rtt x) (se_msg_seq x).
Definition set_begin_ts (t : timespec) (x : sender_st) : sender_st :=
  SenderSt (se_num2send x) t (se_end_ts x) (se_replies x) (se_retries x) (se_msg_rtt x) (se_msg_seq x).
Definition set_end_ts (t : timespec) (x : sender_st) : sender_st :=
  SenderSt (se_num2send x) (se_begin_ts x) t (se_replies x) (se_retries x) (se_msg_rtt x) (se_msg_seq x).
Definition set_replies (n : Z) (x : sender_st) : sender_st :=
  SenderSt (se_num2send x) (se_begin_ts x) (se_end_ts x) n (se_retries x) (se_msg_rtt x) (se_msg_seq x).
Definition set_retries (n : Z) (x : sender_st) : sender_st :=
  SenderSt (se_num2send x) (se_begin_ts x) (se_end_ts x) (se_replies x) n (se_msg_rtt x) (se_msg_seq x).
Definition set_arrays (r q : rtt_array) (x : sender_st) : sender_st :=
  SenderSt (se_num2send x) (se_begin_ts x) (se_end_ts x) (se_replies x) (se_retries x) r q.

(** ** Sending

    [send i] is the state of the buffer that the [i]-th call of [rmr_send_msg]
    returns, if it returns one, and [clock i] the time before it. *)
Definition send_msg (send : nat -> option mbuf_state) (clock : nat -> timespec) (i : nat)
  : M sender_st mpl_t :=
  num2send ← gets se_num2send;
  let payload := Mpl num2send (Z.of_nat i + 1) (clock i) in
  state ← from_opt NullDeref (send i);
  match state with
  | MB_OK => mret payload
  | MB_ERR_RETRY | MB_ERR_TIMEOUT =>
      modify (fun x => set_retries (i64 (se_retries x + 1)) x);; mret payload
  | _ => exit1
  end.

(** [n] messages, from the [i]-th on, and their payloads *)
Fixpoint send_loop (n i : nat) (send : nat -> option mbuf_state) (clock : nat -> timespec)
  : M sender_st (list mpl_t) :=
  match n with
  | O => mret []
  | S n =>
      payload ← send_msg send clock i;
      rest ← send_loop n (S i) send clock;
      mret (payload :: rest)
  end.

(** [mbuf] is tested for NULL in every turn, but a NULL that [rmr_send_msg]
    returns is dereferenced before. *)
Definition send_msgs (mbuf : bool) (now : timespec) (send : nat -> option mbuf_state)
    (clock : nat -> timespec) : M sender_st (list mpl_t) :=
  modify (set_begin_ts now);;
  num2send ← gets se_num2send;
  when ((0 <? num2send) && negb mbuf) exit1;;
  send_loop (Z.to_nat num2send) 0 send clock.

(** ** Receiving

    A reply as [rmr_torcv_msg] returns it, with the time it is looked at. *)
Record reply_t := Reply {
  re_state : mbuf_state; re_mtype : Z; re_payload : mpl_t; re_time : timespec }.

Definition store_reply (r : reply_t) : M sender_st unit :=
  modify (set_end_ts (re_time r));;
  x ← get;
  rtt ← from_opt OutOfBounds
    (put_cell (se_replies x) (elapsed (pl_out_ts (re_payload r)) (re_time r)) (se_msg_rtt x));
  seq ← from_opt OutOfBounds (put_cell (se_replies x) (pl_seq (re_payload r)) (se_msg_seq x));
  modify (set_arrays rtt seq);;
  modify (set_replies (i64 (se_replies x + 1))).

(** Each turn stores a reply or leaves the loop, so that the number of missing
    replies bounds its turns. *)
Fixpoint recv_loop (n i : nat) (mtype : Z) (recv : nat -> option reply_t) : M sender_st unit :=
  match n with
  | O => mret tt
  | S n =>
      r ← from_opt Exit (recv i);
      if decide (re_state r = MB_OK) then
        if re_mtype r =? mtype then store_reply r;; recv_loop n (S i) mtype recv
        else mret tt
      else mret tt
  end.

Definition recv_msgs (msg : bool) (targets mtype : Z) (recv : nat -> option reply_t)
    (now : timespec) : M sender_st unit :=
  modify (set_replies 0);;
  num2send ← gets se_num2send;
  let n_replies := i64 (num2send * targets) in
  when ((0 <? n_replies) && negb msg) exit1;;
  recv_loop (Z.to_nat n_replies) 0 mtype recv;;
  replies ← gets se_replies;
  when (replies =? 0) (modify (set_end_ts now)).

(** ** The report *)

(** double and float *)
Definition double : Type := spec_float.
Definition to_double (z : Z) : double := binary_normalize 53 1024 z 0 false.
Definition d_add : double -> double -> double := SFadd 53 1024.
Definition d_sub : double -> double -> double := SFsub 53 1024.
Definition d_mul : double -> double -> double := SFmul 53 1024.
Definition d_div : double -> double -> double := SFdiv 53 1024.
Definition d_sqrt : double -> double := SFsqrt 53 1024.
Definition to_float (d : double) : double :=
  match d with
  | S754_finite s m e => binary_normalize 24 128 (cond_Zopp s (Zpos m)) e s
  | _ => d
  end.

(** [pow( value, 2.0 )] is the rounded square. *)
Fixpoint sum_squares (rtts : list Z) (mean acc : double) : double :=
  match rtts with
  | [] => acc
  | rtt :: rtts =>
      let value := d_sub (to_double rtt) mean in
      sum_squares rtts mean (d_add acc (d_mul value value))
  end.

(** The first [n] cells *)
Fixpoint cells {S} (n : nat) (i : Z) (a : rtt_array) : M S (list Z) :=
  match n with
  | O => mret []
  | Datatypes.S n => v ← get_cell i a; rest ← cells n (i + 1) a; mret (v :: rest)
  end.

Definition calculate_stddev (mean : double) : M sender_st double :=
  x ← get;
  rtts ← cells (Z.to_nat (se_replies x)) 0 (se_msg_rtt x);
  mret (d_sqrt (d_div (sum_squares rtts mean (to_double 0)) (to_double (i64 (se_replies x - 1))))).

(** The sum of the latencies is exact; the largest and the smallest are floats,
    with which an integer is compared as a float. *)
Definition to_float32 (z : Z) : double := binary_normalize 24 128 z 0 false.
Fixpoint latencies (rtts : list Z) (sum : Z) (max min : double) : Z * double * double :=
  match rtts with
  | [] => (sum, max, min)
  | rtt :: rtts =>
      let f := to_float32 rtt in
      latencies rtts (i64 (sum + rtt)) (if SFltb max f then f else max) (if SFltb f min then f else min)
  end.

Record report_t := Report {
  rp_requests : Z; rp_replies_ : Z; rp_retries : Z; rp_unreplied : Z;
  rp_rate : double; rp_avg : option double; rp_stddev : double;
  rp_max : double; rp_min : double; rp_elapsed : double }.

(** [num2send] is the number of requests times that of the targets here. The
    report reads [msg_rtt[0]] also when there was no reply; the average is
    not set then. *)
Definition report : M sender_st report_t :=
  x ← get;
  let running_time := to_float (d_div (to_double (elapsed (se_begin_ts x) (se_end_ts x))) (to_double 1000000)) in
  first ← get_cell 0 (se_msg_rtt x);
  rest ← cells (Z.to_nat (se_replies x - 1)) 1 (se_msg_rtt x);
  let '(sum, max, min) := latencies rest first (to_float32 first) (to_float32 first) in
  let max := to_float (d_div max (to_double 1000)) in
  let min := to_float (d_div min (to_double 1000)) in
  let lost := i64 (se_num2send x - se_replies x - se_retries x) in
  if truthy (se_replies x) then
    let avg := d_div (d_div (d_mul (to_double sum) (to_double 1)) (to_double (se_replies x))) (to_double 1000) in
    stddev ← calculate_stddev avg;
    mret (Report (se_num2send x) (se_replies x) (se_retries x) lost
      (to_float (SFdiv 24 128 (to_float32 (se_replies x)) running_time))
      (Some avg) (d_div stddev (to_double 1000)) max min running_time)
  else
    mret (Report (se_num2send x) (se_replies x) (se_retries x) lost
      (to_double 0) None (to_double 0) (to_double 0) (to_double 0) running_time).

(** ** The start *)

Record sender_opts := SenderOpts {
  so_listen_port : Z; so_msgs : Z; so_mtype : Z; so_interval : Z; so_max_timeout : Z;
  so_warmup : Z; so_max_retries : Z; so_targets : Z; so_filename : option string;
  so_rand_port : bool; so_rtt : bool }.
Definition sender_defaults : sender_opts := SenderOpts 0 10 RAN1_MSG 0 2000 0 1 1 None false false.

(** An option with a value; the last two have none. *)
Definition sender_option (c : ascii) (v : string) (o : sender_opts) : option sender_opts :=
  let '(SenderOpts p n m i t w r g f l s) := o in
  if decide (c = "p"%char) then Some (SenderOpts (atoi v) n m i t w r g f l s)
  else if decide (c = "n"%char) then Some (SenderOpts p (atol v) m i t w r g f l s)
  else if decide (c = "m"%char) then Some (SenderOpts p n (atoi v) i t w r g f l s)
  else if decide (c = "i"%char) then Some (SenderOpts p n m (to_ulong v) t w r g f l s)
  else if decide (c = "t"%char) then Some (SenderOpts p n m i (atoi v) w r g f l s)
  else if decide (c = "w"%char) then Some (SenderOpts p n m i t (atoi v) r g f l s)
  else if decide (c = "r"%char) then Some (SenderOpts p n m i t w (Z.max 0 (atoi v)) g f l s)
  else if decide (c = "g"%char) then Some (SenderOpts p n m i t w r (atoi v) f l s)
  else if decide (c = "o"%char) then Some (SenderOpts p n m i t w r g (Some v) l s)
  else None.

Definition sender_flag (c : ascii) (o : sender_opts) : option sender_opts :=
  let '(SenderOpts p n m i t w r g f l s) := o in
  if decide (c = "l"%char) then Some (SenderOpts p n m i t w r g f true s)
  else if decide (c = "s"%char) then Some (SenderOpts p n m i t w r g f l true)
  else None.

(** A NULL file name is no file name; a NULL number is read. *)
Definition sender_no_value (c : ascii) (o : sender_opts) : option sender_opts :=
  let '(SenderOpts p n m i t w r g _ l s) := o in
  if decide (c = "o"%char) then Some (SenderOpts p n m i t w r g None l s) else None.

Fixpoint sender_options {S} (args : list string) (o : sender_opts) : M S sender_opts :=
  match args with
  | String "-" (String c _) :: args' =>
      match sender_flag c o with
      | Some o' => sender_options args' o'
      | None =>
          match args' with
          | v :: args'' =>
              match sender_option c v o with
              | Some o' => sender_options args'' o'
              | None => exit1
              end
          | [] =>
              match sender_no_value c o, sender_option c "" o with
              | Some o', _ => mret o'
              | None, Some _ => fail NullDeref
              | None, None => exit1
              end
          end
      end
  | "-"%string :: _ => exit1
  | _ => mret o
  end.

(** The array that [malloc( msgs * targets * sizeof(long) )] returns. *)
Definition new_array (alloc : Z -> bool) (msgs targets : Z) : M sender_st rtt_array :=
  let size := u64 (u64 (i64 (msgs * targets)) * 8) in
  if alloc size then mret (replicate (Z.to_nat (size / 8)) None) else exit1.

(** The port, as a number; [rand] is what [rand( )] returns. *)
Definition sender_port (o : sender_opts) (rand : Z) : Z :=
  if truthy (so_listen_port o) then so_listen_port o
  else if so_rand_port o then 43000 + rand `rem` 1000
  else 4560.

(** What RMR and the clock do during one phase *)
Record phase := Phase {
  ph_mbuf : bool; ph_begin : timespec; ph_send : nat -> option mbuf_state; ph_clock : nat -> timespec;
  ph_msg : bool; ph_recv : nat -> option reply_t; ph_end : timespec }.

(** The two threads write different variables; they are run one after the
    other. *)
Definition run_phase (targets mtype num2send : Z) (ph : phase) : M sender_st (list mpl_t) :=
  modify (set_num2send num2send);;
  sent ← send_msgs (ph_mbuf ph) (ph_begin ph) (ph_send ph) (ph_clock ph);
  recv_msgs (ph_msg ph) targets mtype (ph_recv ph) (ph_end ph);;
  mret sent.

(** [main], from the time RMR is ready: there is no limit to that wait. *)
Definition sender_main (alloc : Z -> bool) (init : bool) (create : bool) (warm main : phase)
    (args : list string) : M sender_st report_t :=
  o ← sender_options args sender_defaults;
  rtt ← new_array alloc (so_msgs o) (so_targets o);
  seq ← new_array alloc (so_msgs o) (so_targets o);
  modify (set_arrays rtt seq);;
  when (negb init) exit1;;
  when (truthy (so_warmup o))
    (run_phase (so_targets o) (so_mtype o) (so_warmup o) warm;; mret tt);;
  when (negb create) exit1;;
  run_phase (so_targets o) (so_mtype o) (so_msgs o) main;;
  modify (fun x => set_num2send (i64 (se_num2send x * so_targets o)) x);;
  report.

Definition sender0 : sender_st := SenderSt 0 (Timespec 0 0) (Timespec 0 0) 0 0 [] [].

(** The lines of the results file *)
Definition rtt_lines : M sender_st (list (Z * double)) :=
  x ← get;
  seqs ← cells (Z.to_nat (se_replies x)) 0 (se_msg_seq x);
  rtts ← cells (Z.to_nat (se_replies x)) 0 (se_msg_rtt x);
  mret (zip seqs ((fun rtt => d_div (to_double rtt) (to_double 1000)) <$> rtts)).

(** ** The environment and the files

    The variables of the environment and the files by their names, as far as
    the program touches them. *)
Record surroundings := Surroundings { en_vars : gmap string string; en_files : gmap string string }.

Definition getenv (name : string) (e : surroundings) : option string := en_vars e !! name.
Definition setenv (name value : string) (e : surroundings) : surroundings :=
  Surroundings (<[name := value]> (en_vars e)) (en_files e).

(** A file that is opened without O_TRUNC keeps what is behind the new contents. *)
Definition overwrite (new old : string) : string :=
  new +:+ String.substring (String.length new) (String.length old - String.length new) old.

Definition newline : string := String "010" EmptyString.
Definition route_table : string :=
  "newrt|start" +:+ newline +:+ "mse | 100 | -1 | localhost:4560" +:+ newline +:+ "newrt|end" +:+ newline.
Definition route_table_file : string := "/tmp/sender.rt".

(** [opens] and [closes] are the results of [open] and [close]. *)
Definition mk_rt (opens closes : bool) (e : surroundings) : surroundings :=
  if negb opens then e else
  let old := default EmptyString (en_files e !! route_table_file) in
  let e := Surroundings (en_vars e) (<[route_table_file := overwrite route_table old]> (en_files e)) in
  if negb closes then e else setenv "RMR_SEED_RT" route_table_file e.

(** The variables RMR reads, set where they are not set; [rand] is what
    [rand( )] returns. *)
Definition sender_environment (rand : Z) (opens closes : bool) (e : surroundings) : surroundings :=
  let e := match getenv "RMR_RTG_SVC" e with
           | None => setenv "RMR_RTG_SVC" (dec_string (19000 + rand `rem` 1000)) e
           | Some _ => e
           end in
  match getenv "RMR_SEED_RT" e with None => mk_rt opens closes e | Some _ => e end.

(** The lines of a file of results; what the numbers look like is left out. *)
Inductive result_line :=
| ResultHeader
| ResultSummary (interval : Z) (r : report_t)
| RttHeader
| RttLine (seq : Z) (latency : double).

(** The contents of the file after the report; [file] are its lines before, if
    it can be opened, and [regular] tells whether it is a regular file. *)
Definition write_results (o : sender_opts) (rep : report_t) (file : option (list result_line))
    (regular : bool) : M sender_st (option (list result_line)) :=
  match so_filename o with
  | None => mret file
  | Some _ =>
      old ← from_opt Exit file;
      let old := if so_rtt o then [] else old in
      when (negb regular) exit1;;
      rtts ← (if so_rtt o
              then lines ← rtt_lines; mret (RttHeader :: ((fun l => RttLine l.1 l.2) <$> lines))
              else mret []);
      mret (Some (old ++ (match old with [] => [ResultHeader] | _ => [] end) ++
                  ResultSummary (so_interval o) rep :: rtts))
  end.
