(* ===== verification/Sender2.v ===== *)
(** * The second sample sender (src/examples/sender2.c)

    One thread sends the messages, takes what has arrived after each of them,
    and waits for the rest at the end. What the program copies from sender.c is
    the definition of Sender.v. *)

From S2P Require Import Prelude Monad Types State Utils Examples Sender.
Open Scope Z_scope.

Definition elapsed2 : timespec -> timespec -> Z := elapsed.
Definition calculate_stddev2 : double -> M sender_st double := calculate_stddev.
Definition report2 : M sender_st report_t := report.

(** A buffer that RMR has signalled: [rmr_rcv_msg] may return NULL; a reply of
    another type or in another state is dropped. *)
Definition receive2 (mtype : Z) (r : option reply_t) : M sender_st unit :=
  match r with
  | Some r =>
      when (bool_decide (re_state r = MB_OK) && (re_mtype r =? mtype)) (
        modify (set_end_ts (re_time r));;
        x ← get;
        rtt ← from_opt OutOfBounds
          (put_cell (se_replies x) (elapsed2 (pl_out_ts (re_payload r)) (re_time r)) (se_msg_rtt x));
        seq ← from_opt OutOfBounds (put_cell (se_replies x) (pl_seq (re_payload r)) (se_msg_seq x));
        modify (set_arrays rtt seq);;
        modify (set_replies (i64 (se_replies x + 1))))
  | None => mret tt
  end.

(** The receiver between two messages: everything that is ready. *)
Fixpoint receive_ready (mtype : Z) (ready : list (option reply_t)) : M sender_st unit :=
  match ready with
  | [] => mret tt
  | r :: ready => receive2 mtype r;; receive_ready mtype ready
  end.

Definition send_msg2 (send : nat -> option mbuf_state) (clock : nat -> timespec) (i : nat)
  : M sender_st mpl_t :=
  num2send ← gets se_num2send;
  let payload := Mpl num2send (Z.of_nat i + 1) (clock i) in
  state ← from_opt NullDeref (send i);
  match state with
  | MB_OK => mret payload
  | MB_ERR_RETRY | MB_ERR_TIMEOUT =>
      modify (fun x => set_retries (i64 (se_retries x + 1)) x);; mret payload
  | _ => exit1
  end.

(** [ready i]: what is ready after message [i]. *)
Fixpoint send_receive (n i : nat) (mtype : Z) (send : nat -> option mbuf_state)
    (clock : nat -> timespec) (ready : nat -> list (option reply_t)) : M sender_st (list mpl_t) :=
  match n with
  | O => mret []
  | S n =>
      payload ← send_msg2 send clock i;
      receive_ready mtype (ready i);;
      rest ← send_receive n (S i) mtype send clock ready;
      mret (payload :: rest)
  end.

(** The receiver after the last message, until [num2send] replies have come or
    nothing comes before the timeout: the end of the list. *)
Fixpoint receive_rest (mtype : Z) (waits : list (option reply_t)) : M sender_st unit :=
  x ← get;
  if se_replies x <? se_num2send x then
    match waits with
    | [] => mret tt
    | r :: waits => receive2 mtype r;; receive_rest mtype waits
    end
  else mret tt.

(** ** The start *)

(** The options are those of sender.c without the warm-up. *)
Definition sender2_option (c : ascii) (v : string) (o : sender_opts) : option sender_opts :=
  if decide (c = "w"%char) then None else sender_option c v o.

Fixpoint sender2_options {S} (args : list string) (o : sender_opts) : M S sender_opts :=
  match args with
  | String "-" (String c _) :: args' =>
      match sender_flag c o with
      | Some o' => sender2_options args' o'
      | None =>
          match args' with
          | v :: args'' =>
              match sender2_option c v o with
              | Some o' => sender2_options args'' o'
              | None => exit1
              end
          | [] =>
              match sender_no_value c o, sender2_option c "" o with
              | Some o', _ => mret o'
              | None, Some _ => fail NullDeref
              | None, None => exit1
              end
          end
      end
  | "-"%string :: _ => exit1
  | _ => mret o
  end.

(** The sending and the receiving. [sbuf]: is the buffer to send allocated? *)
Definition exchange2 (targets mtype : Z) (sbuf : bool) (begin_ts end_ts : timespec)
    (send : nat -> option mbuf_state) (clock : nat -> timespec)
    (ready : nat -> list (option reply_t)) (waits : list (option reply_t)) : M sender_st (list mpl_t) :=
  modify (set_replies 0);;
  modify (set_begin_ts begin_ts);;
  num2send ← gets se_num2send;
  when ((0 <? num2send) && negb sbuf) exit1;;
  sent ← send_receive (Z.to_nat num2send) 0 mtype send clock ready;
  modify (fun x => set_num2send (i64 (se_num2send x * targets)) x);;
  receive_rest mtype waits;;
  replies ← gets se_replies;
  when (replies =? 0) (modify (set_end_ts end_ts));;
  mret sent.

(** [main]; [init] tells whether RMR and epoll are set up. *)
Definition sender2_main (alloc : Z -> bool) (init sbuf : bool) (begin_ts end_ts : timespec)
    (send : nat -> option mbuf_state) (clock : nat -> timespec)
    (ready : nat -> list (option reply_t)) (waits : list (option reply_t)) (args : list string)
  : M sender_st report_t :=
  o ← sender2_options args sender_defaults;
  modify (set_num2send (so_msgs o));;
  rtt ← new_array alloc (so_msgs o) (so_targets o);
  seq ← new_array alloc (so_msgs o) (so_targets o);
  modify (set_arrays rtt seq);;
  when (negb init) exit1;;
  exchange2 (so_targets o) (so_mtype o) sbuf begin_ts end_ts send clock ready waits;;
  report2.

(** The environment and the file of results are those of sender.c; a missing
    route table is only reported. *)
Definition sender2_environment (rand : Z) (e : surroundings) : surroundings :=
  match getenv "RMR_RTG_SVC" e with
  | None => setenv "RMR_RTG_SVC" (dec_string (19000 + rand `rem` 1000)) e
  | Some _ => e
  end.

Definition write_results2 : sender_opts -> report_t -> option (list result_line) -> bool ->
  M sender_st (option (list result_line)) := write_results.
