(* ===== verification/SenderRuns.v ===== *)
(** * Runs of the sample senders (proofs about src/examples/sender.c and sender2.c)

    Which cells of the arrays the receivers write, when they stay inside, and
    what the report reads. *)

From S2P Require Import Prelude Monad Types State Utils Examples Sender Sender2.
Open Scope Z_scope.

(** A reply that counts *)
Definition good (mtype : Z) (r : reply_t) : Prop := re_state r = MB_OK /\ re_mtype r = mtype.
Definition rtt_of (r : reply_t) : Z := elapsed (pl_out_ts (re_payload r)) (re_time r).
Definition seq_of (r : reply_t) : Z := pl_seq (re_payload r).

(** The first cells of the arrays of [N] cells hold the replies [rs], in the
    order they came. *)
Record filled (N : nat) (x : sender_st) (rs : list reply_t) : Prop := {
  fi_rtt : length (se_msg_rtt x) = N;
  fi_seq : length (se_msg_seq x) = N;
  fi_replies : se_replies x = Z.of_nat (length rs);
  fi_rtts : take (length rs) (se_msg_rtt x) = Some ∘ rtt_of <$> rs;
  fi_seqs : take (length rs) (se_msg_seq x) = Some ∘ seq_of <$> rs }.

(** What a receiver leaves alone *)
Definition same_sending (x x' : sender_st) : Prop :=
  se_num2send x' = se_num2send x /\ se_begin_ts x' = se_begin_ts x /\ se_retries x' = se_retries x.

#[export] Instance same_sending_preorder : PreOrder same_sending.
Proof. split; [by intros x|]. intros x y z (?&?&?) (?&?&?). repeat split; congruence. Qed.

Lemma put_cell_next v (a : rtt_array) (vs : list Z) :
  take (length vs) a = Some <$> vs -> (length vs < length a)%nat ->
  exists a', put_cell (Z.of_nat (length vs)) v a = Some a' /\ length a' = length a /\
    take (length (vs ++ [v])) a' = Some <$> (vs ++ [v]).
Proof.
  intros Ht Hl. exists (<[length vs := Some v]> a). split; [|split].
  - unfold put_cell. rewrite (proj2 (Z.leb_le _ _)), (proj2 (Z.ltb_lt _ _)), Nat2Z.id by lia. done.
  - apply length_insert.
  - rewrite length_app. cbn [length]. rewrite Nat.add_1_r.
    erewrite take_S_r by (apply list_lookup_insert_eq; lia).
    by rewrite take_insert_ge, Ht, fmap_app by lia.
Qed.

Lemma put_cell_end v (a : rtt_array) : put_cell (Z.of_nat (length a)) v a = None.
Proof. unfold put_cell. by rewrite Z.ltb_irrefl, andb_false_r. Qed.

Lemma cells_filled {S} (vs : list Z) (a : rtt_array) (s : S) j n :
  take (length vs) a = Some <$> vs -> (j + n = length vs)%nat ->
  cells n (Z.of_nat j) a s = Ok (drop j vs) s.
Proof.
  intros Ht. revert j. induction n as [|n IH]; intros j Hn; cbn [cells].
  { rewrite drop_ge by lia. done. }
  destruct (lookup_lt_is_Some_2 vs j) as [v Hv]; [lia|].
  assert (a !! j = Some (Some v)) as Ha.
  { rewrite <- (lookup_take_lt _ (length vs)) by lia. by rewrite Ht, list_lookup_fmap, Hv. }
  rewrite (bind_Ok _ _ s v s).
  2: { unfold get_cell. pose proof (lookup_lt_Some _ _ _ Ha).
       rewrite (proj2 (Z.leb_le _ _)), (proj2 (Z.ltb_lt _ _)), Nat2Z.id by lia. cbn [andb]. by rewrite Ha. }
  replace (Z.of_nat j + 1) with (Z.of_nat (Datatypes.S j)) by lia.
  rewrite (bind_Ok _ _ s (drop (Datatypes.S j) vs) s) by (apply IH; lia).
  by rewrite (drop_S _ _ _ Hv).
Qed.

(** ** One reply *)

Lemma store_reply_ok N r x rs :
  filled N x rs -> Z.of_nat N <= LONG_MAX -> (length rs < N)%nat ->
  exists x', store_reply r x = Ok tt x' /\ filled N x' (rs ++ [r]) /\ same_sending x x' /\
    se_end_ts x' = re_time r.
Proof.
  intros [H1 H2 H3 H4 H5] HN Hl. rewrite list_fmap_compose in H4, H5.
  destruct (put_cell_next (rtt_of r) (se_msg_rtt x) (rtt_of <$> rs)) as (a & Ea & La & Ta);
    [by rewrite length_fmap|rewrite length_fmap; lia|].
  destruct (put_cell_next (seq_of r) (se_msg_seq x) (seq_of <$> rs)) as (b & Eb & Lb & Tb);
    [by rewrite length_fmap|rewrite length_fmap; lia|].
  rewrite length_fmap in Ea, Eb. rewrite <- H3 in Ea, Eb.
  exists (set_replies (i64 (se_replies x + 1)) (set_arrays a b (set_end_ts (re_time r) x))).
  split; [|split; [|by split]].
  - unfold store_reply. rewrite (bind_Ok _ _ x tt (set_end_ts (re_time r) x)) by done.
    rewrite (bind_Ok _ _ _ _ _ (eq_refl : get (set_end_ts (re_time r) x) = Ok _ _)).
    cbn [se_replies se_msg_rtt se_msg_seq set_end_ts]. fold (rtt_of r) (seq_of r). rewrite Ea, Eb. done.
  - split; cbn [se_replies se_msg_rtt se_msg_seq set_end_ts set_replies set_arrays]; try congruence.
    + rewrite H3, i64_small, length_app; [cbn [length]; lia|]. unfold LONG_MIN. lia.
    + rewrite list_fmap_compose, fmap_app. rewrite length_app, length_fmap in Ta. by rewrite length_app.
    + rewrite list_fmap_compose, fmap_app. rewrite length_app, length_fmap in Tb. by rewrite length_app.
Qed.

Lemma store_reply_full N r x rs : filled N x rs -> length rs = N -> store_reply r x = Fault OutOfBounds.
Proof.
  intros [H1 H2 H3 H4 H5] Hl. unfold store_reply.
  rewrite (bind_Ok _ _ x tt (set_end_ts (re_time r) x)) by done.
  rewrite (bind_Ok _ _ _ _ _ (eq_refl : get (set_end_ts (re_time r) x) = Ok _ _)).
  cbn [se_replies se_msg_rtt se_msg_seq set_end_ts]. rewrite H3, Hl, <- H1, put_cell_end. done.
Qed.

(** ** The receiver of the first sender *)

(** The replies of [recv] from the [i]-th on that are taken: all of them count,
    and the last one is the one awaited or is followed by one that does not. *)
Definition received (mtype : Z) (recv : nat -> option reply_t) (i n : nat) (got : list reply_t) : Prop :=
  (length got <= n)%nat /\
  (forall j r, got !! j = Some r -> recv (i + j)%nat = Some r /\ good mtype r) /\
  (length got = n \/ exists r, recv (i + length got)%nat = Some r /\ ~ good mtype r).

Lemma received_cons mtype recv i n r got :
  recv i = Some r -> good mtype r -> received mtype recv (S i) n got ->
  received mtype recv i (S n) (r :: got).
Proof.
  intros Hr Hg (Hl & Hs & He). split; [cbn [length]; lia|]. split.
  - intros [|j] r'; cbn [lookup list_lookup].
    + intros [= <-]. by rewrite Nat.add_0_r.
    + intros Hj. replace (i + S j)%nat with (S i + j)%nat by lia. by apply Hs.
  - destruct He as [He|He]; [left; cbn [length]; lia|right]. cbn [length].
    by replace (i + S (length got))%nat with (S i + length got)%nat by lia.
Qed.

Lemma recv_loop_ok N n i mtype recv x rs :
  filled N x rs -> Z.of_nat N <= LONG_MAX -> (length rs + n <= N)%nat ->
  wp only_exit (recv_loop n i mtype recv) x (fun _ x' => exists got,
    filled N x' (rs ++ got) /\ received mtype recv i n got /\ same_sending x x').
Proof.
  revert i x rs. induction n as [|n IH]; intros i x rs F HN Hn; cbn [recv_loop].
  - apply wp_ret. exists []. rewrite app_nil_r. split; [done|]. split; [|done].
    split; [done|]. split; [by intros j r|by left].
  - apply wp_bind, wp_from_opt. destruct (recv i) as [r|] eqn:Er; [|done].
    assert (~ good mtype r -> wp only_exit (mret tt : M sender_st unit) x (fun _ x' => exists got,
      filled N x' (rs ++ got) /\ received mtype recv i (S n) got /\ same_sending x x')) as Hbad.
    { intros Hg. apply wp_ret. exists []. rewrite app_nil_r. split; [done|]. split; [|done].
      split; [cbn [length]; lia|]. split; [by intros j r'|]. right. exists r. by rewrite Nat.add_0_r. }
    case_decide as Hst; [|by apply Hbad; intros []].
    destruct (Z.eqb_spec (re_mtype r) mtype) as [Ht|Ht]; [|by apply Hbad; intros []].
    destruct (store_reply_ok N r x rs F HN ltac:(lia)) as (x1 & E & F1 & S1 & _).
    apply wp_bind. eapply wp_eq; [exact E|].
    eapply wp_mono; [apply (IH (S i) x1 (rs ++ [r]) F1 HN); rewrite length_app; cbn [length]; lia|].
    intros [] x' (got & F' & Hgot & S'). exists (r :: got). split; [by rewrite <- app_assoc in F'|].
    split; [by apply received_cons|]. by etrans.
Qed.

(** More replies are awaited than there are cells, and all come. *)
Lemma recv_loop_overflow N n i mtype recv x rs :
  filled N x rs -> Z.of_nat N <= LONG_MAX -> (length rs <= N)%nat -> (N < length rs + n)%nat ->
  (forall j, exists r, recv j = Some r /\ good mtype r) ->
  recv_loop n i mtype recv x = Fault OutOfBounds.
Proof.
  revert i x rs. induction n as [|n IH]; intros i x rs F HN Hle Hn Hall; [lia|]. cbn [recv_loop].
  destruct (Hall i) as (r & Er & Hst & Ht).
  rewrite (bind_Ok _ _ x r x) by (by rewrite Er). rewrite decide_True, Ht, Z.eqb_refl by done.
  destruct (decide (length rs = N)) as [He|].
  - apply bind_Fault. by eapply store_reply_full.
  - destruct (store_reply_ok N r x rs F HN ltac:(lia)) as (x1 & E & F1 & _ & _).
    rewrite (bind_Ok _ _ _ _ _ E). apply (IH _ _ (rs ++ [r])); try done; rewrite length_app; cbn [length]; lia.
Qed.

(** A phase starts to fill the arrays anew. *)
Lemma filled_new N x : length (se_msg_rtt x) = N -> length (se_msg_seq x) = N ->
  filled N (set_replies 0 x) [].
Proof. by split. Qed.

Lemma recv_msgs_ok N msg targets mtype recv now x :
  length (se_msg_rtt x) = N -> length (se_msg_seq x) = N -> Z.of_nat N <= LONG_MAX ->
  i64 (se_num2send x * targets) <= Z.of_nat N ->
  wp only_exit (recv_msgs msg targets mtype recv now) x (fun _ x' => exists got,
    filled N x' got /\ received mtype recv 0 (Z.to_nat (i64 (se_num2send x * targets))) got /\
    same_sending x x').
Proof.
  intros H1 H2 HN Hn. unfold recv_msgs. apply wp_bind, wp_modify, wp_bind, wp_gets, wp_bind.
  change (se_num2send (set_replies 0 x)) with (se_num2send x). set (n := i64 _) in *.
  unfold when. destruct (_ && _); [done|]. apply wp_ret, wp_bind.
  eapply wp_mono; [apply (recv_loop_ok N _ _ _ _ _ [] (filled_new N x H1 H2) HN); cbn [length]; lia|].
  intros [] x1 (got & F & Hgot & S). apply wp_bind, wp_gets. destruct (se_replies x1 =? 0).
  - apply wp_modify. exists got. split; [by destruct F|]. by split.
  - apply wp_ret. by exists got.
Qed.

(** ** The sending *)

(** Sending changes the number of retries at most; NULL from RMR is
    dereferenced, and some states end the program. *)
Definition send_faults (f : fault) : Prop := f = Exit \/ f = NullDeref.

Definition same_receiving (x x' : sender_st) : Prop :=
  se_num2send x' = se_num2send x /\ se_replies x' = se_replies x /\
  se_msg_rtt x' = se_msg_rtt x /\ se_msg_seq x' = se_msg_seq x.

#[export] Instance same_receiving_preorder : PreOrder same_receiving.
Proof. split; [by intros x|]. intros x y z (?&?&?&?) (?&?&?&?). repeat split; congruence. Qed.

Lemma send_msg_ok send clock i x :
  wp send_faults (send_msg send clock i) x (fun p x' => same_receiving x x' /\
    p = Mpl (se_num2send x) (Z.of_nat i + 1) (clock i)).
Proof.
  unfold send_msg. apply wp_bind, wp_gets, wp_bind, wp_from_opt. destruct (send i) as [[]|];
    try (by left); try (by right); by repeat split.
Qed.

Lemma send_loop_ok n i send clock x :
  wp send_faults (send_loop n i send clock) x (fun ps x' => same_receiving x x' /\
    ps = (fun j => Mpl (se_num2send x) (Z.of_nat j + 1) (clock j)) <$> seq i n).
Proof.
  revert i x. induction n as [|n IH]; intros i x; cbn [send_loop seq]; [by apply wp_ret|].
  apply wp_bind. eapply wp_mono; [apply send_msg_ok|]. intros p x1 (S1 & ->).
  apply wp_bind. eapply wp_mono; [apply IH|]. intros ps x2 (S2 & ->). apply wp_ret.
  split; [by etrans|]. destruct S1 as (-> & _). done.
Qed.

(** The messages carry the numbers from 1 on. *)
Lemma send_msgs_ok mbuf now send clock x :
  wp send_faults (send_msgs mbuf now send clock) x (fun ps x' => same_receiving x x' /\
    ps = (fun j => Mpl (se_num2send x) (Z.of_nat j + 1) (clock j)) <$> seq 0 (Z.to_nat (se_num2send x))).
Proof.
  unfold send_msgs. apply wp_bind, wp_modify, wp_bind, wp_gets, wp_bind. unfold when.
  destruct (_ && _); [by left|]. apply wp_ret. apply (send_loop_ok _ _ _ _ (set_begin_ts now x)).
Qed.

(** ** One phase *)

Lemma run_phase_ok N targets mtype n ph x :
  length (se_msg_rtt x) = N -> length (se_msg_seq x) = N -> Z.of_nat N <= LONG_MAX ->
  i64 (n * targets) <= Z.of_nat N ->
  wp send_faults (run_phase targets mtype n ph) x (fun sent x' => exists got,
    filled N x' got /\ received mtype (ph_recv ph) 0 (Z.to_nat (i64 (n * targets))) got /\
    se_num2send x' = n).
Proof.
  intros H1 H2 HN Hn. unfold run_phase. apply wp_bind, wp_modify, wp_bind.
  eapply wp_mono; [apply send_msgs_ok|]. intros sent x1 ((E1 & E2 & E3 & E4) & _). cbn in E1, E3, E4.
  apply wp_bind. eapply wp_fault_mono, wp_mono;
    [|apply (recv_msgs_ok N _ targets mtype (ph_recv ph) _ x1); congruence|].
  { intros f Hf. by left. }
  intros [] x2 (got & F & Hgot & E & _). rewrite E1 in *. apply wp_ret. by exists got.
Qed.

(** ** The report *)

Lemma report_ok N x r rs : filled N x (r :: rs) -> Z.of_nat N <= LONG_MAX ->
  wp never report x (fun rep x' => x' = x /\ rp_requests rep = se_num2send x /\
    rp_replies_ rep = Z.of_nat (length (r :: rs)) /\ rp_retries rep = se_retries x).
Proof.
  intros F HN. pose proof F as [H1 H2 H3 H4 H5]. rewrite list_fmap_compose in H4.
  assert (se_replies x <> 0) as Hne by (rewrite H3; cbn [length]; lia).
  pose proof (fun S s => cells_filled (S := S) (rtt_of <$> (r :: rs)) (se_msg_rtt x) s) as Hc.
  rewrite length_fmap in Hc. unfold report. apply wp_bind. unfold get at 1. cbn [wp].
  apply wp_bind. eapply (wp_eq _ _ _ (rtt_of r)).
  { assert (se_msg_rtt x !! 0%nat = Some (Some (rtt_of r))) as Ha.
    { rewrite <- (lookup_take_lt _ (length (r :: rs))) by (cbn [length]; lia). by rewrite H4. }
    unfold get_cell. pose proof (lookup_lt_Some _ _ _ Ha). rewrite (proj2 (Z.ltb_lt 0 _)) by lia.
    change (Z.to_nat 0) with 0%nat. by rewrite Ha. }
  apply wp_bind. eapply wp_eq.
  { apply (Hc _ x 1%nat _ H4). rewrite H3. cbn [length]. lia. }
  destruct (latencies _ _ _ _) as [[sum max] min]. unfold truthy.
  rewrite (proj2 (Z.eqb_neq _ 0)) by done. cbn [negb]. apply wp_bind. unfold calculate_stddev.
  apply wp_bind. unfold get at 1. cbn [wp]. apply wp_bind. eapply wp_eq.
  { apply (Hc _ x 0%nat _ H4). rewrite H3. lia. }
  apply wp_ret, wp_ret. by rewrite H3.
Qed.

(** Without a reply the report reads a cell that was never written, or is left
    from the warm-up. *)
Lemma report_nothing x N : filled N x [] -> (0 < N)%nat ->
  wp (fun f => f = Uninitialised) report x (fun rep x' => x' = x /\
    rp_requests rep = se_num2send x /\ rp_replies_ rep = 0).
Proof.
  intros [H1 H2 H3 H4 H5] HN. unfold report. apply wp_bind. unfold get at 1. cbn [wp].
  apply wp_bind. unfold get_cell. rewrite (proj2 (Z.ltb_lt 0 _)) by lia. cbn [Z.leb Z.compare andb].
  apply wp_from_opt. destruct (mjoin _) as [first|]; [|done].
  rewrite H3. cbn [length Z.of_nat]. apply wp_bind, wp_ret. cbn [latencies truthy Z.eqb negb].
  by apply wp_ret.
Qed.

(** ** The program *)

Lemma new_array_ok alloc msgs targets x :
  0 <= msgs * targets < 2 ^ 60 ->
  wp only_exit (new_array alloc msgs targets) x (fun a x' =>
    x' = x /\ a = replicate (Z.to_nat (msgs * targets)) None).
Proof.
  intros Hn. unfold new_array. rewrite i64_small by (unfold LONG_MIN, LONG_MAX; lia).
  rewrite (u64_small (msgs * targets)), u64_small by lia. destruct (alloc _); [|done].
  apply wp_ret. split; [done|]. by rewrite Z.div_mul by lia.
Qed.

(** What the report may still meet: the first answer is no reply. *)
Definition no_reply (mtype : Z) (recv : nat -> option reply_t) : Prop :=
  exists r, recv 0%nat = Some r /\ ~ good mtype r.

Definition main_faults (mtype : Z) (recv : nat -> option reply_t) (f : fault) : Prop :=
  send_faults f \/ f = Uninitialised /\ no_reply mtype recv.

Lemma sender_main_ok alloc init create warm main args o :
  sender_options args sender_defaults sender0 = Ok o sender0 ->
  0 < so_msgs o * so_targets o < 2 ^ 60 -> - 2 ^ 60 < so_warmup o * so_targets o ->
  so_warmup o * so_targets o <= so_msgs o * so_targets o ->
  wp (main_faults (so_mtype o) (ph_recv main)) (sender_main alloc init create warm main args) sender0
    (fun rep x => exists got, filled (Z.to_nat (so_msgs o * so_targets o)) x got /\
      received (so_mtype o) (ph_recv main) 0 (Z.to_nat (so_msgs o * so_targets o)) got /\
      rp_requests rep = so_msgs o * so_targets o /\ rp_replies_ rep = Z.of_nat (length got)).
Proof.
  intros Eo Hn Hw1 Hw2. set (N := Z.to_nat (so_msgs o * so_targets o)).
  assert (Z.of_nat N <= LONG_MAX) as HN by (unfold N, LONG_MAX; lia).
  assert (i64 (so_msgs o * so_targets o) = Z.of_nat N) as Em
    by (rewrite i64_small by (unfold LONG_MIN, LONG_MAX; lia); lia).
  assert (i64 (so_warmup o * so_targets o) <= Z.of_nat N) as Ew
    by (rewrite i64_small by (unfold LONG_MIN, LONG_MAX; lia); lia).
  assert (forall f, only_exit f -> main_faults (so_mtype o) (ph_recv main) f) as Hx by (intros f ->; by left; left).
  assert (forall f, send_faults f -> main_faults (so_mtype o) (ph_recv main) f) as Hs by (intros f ?; by left).
  unfold sender_main. apply wp_bind. eapply wp_eq; [exact Eo|].
  apply wp_bind. eapply wp_fault_mono, wp_mono; [exact Hx|apply new_array_ok; lia|]. intros a x1 (-> & ->).
  apply wp_bind. eapply wp_fault_mono, wp_mono; [exact Hx|apply new_array_ok; lia|]. intros b x1 (-> & ->).
  fold N. apply wp_bind, wp_modify. set (x0 := set_arrays _ _ _).
  apply wp_bind. destruct init; cbn [negb when]; [|by left; left]. apply wp_ret.
  apply wp_bind, (wp_mono _ _ _ (fun _ x => length (se_msg_rtt x) = N /\ length (se_msg_seq x) = N)).
  { destruct (truthy _); [|apply wp_ret; split; apply length_replicate]. apply wp_bind.
    eapply wp_fault_mono, wp_mono; [exact Hs| |].
    - by apply (run_phase_ok N); [apply length_replicate..| |].
    - intros sent x (got & [H1 H2 _ _ _] & _). by apply wp_ret. }
  intros [] x1 (H1 & H2). apply wp_bind. destruct create; cbn [negb when]; [|by left; left].
  apply wp_ret, wp_bind. eapply wp_fault_mono, wp_mono; [exact Hs|apply (run_phase_ok N); try done; by rewrite Em|].
  rewrite Em, Nat2Z.id. intros sent x2 (got & F & Hgot & E). apply wp_bind, wp_modify. rewrite E, Em.
  set (x3 := set_num2send _ x2). assert (filled N x3 got) as F3 by (by destruct F).
  destruct got as [|r rs].
  - eapply wp_fault_mono, wp_mono; [|apply (report_nothing x3 N F3); lia|].
    + intros f ->. right. split; [done|]. destruct Hgot as (_ & _ & [He|(r & Er & Hr)]); [cbn [length] in He; lia|].
      by exists r.
    + intros rep x (-> & Eq & Er). exists []. split_and!; try done. rewrite Eq. cbn. lia.
  - apply never_wp. eapply wp_mono; [by apply (report_ok N x3 r rs F3)|].
    intros rep x (-> & Eq & Er & _). exists (r :: rs). split_and!; try done. rewrite Eq. cbn [se_num2send set_num2send x3]. lia.
Qed.

(** ** Too many replies

    A warm-up with more messages than the measurement is answered in full. *)
Definition answers_all (mtype : Z) (ph : phase) : Prop :=
  ph_mbuf ph = true /\ ph_msg ph = true /\ (forall i, ph_send ph i = Some MB_OK) /\
  (forall i, exists r, ph_recv ph i = Some r /\ good mtype r).

Lemma send_loop_sent n i send clock x : (forall i, send i = Some MB_OK) ->
  exists ps, send_loop n i send clock x = Ok ps x.
Proof.
  intros Hs. revert i. induction n as [|n IH]; intros i; cbn [send_loop]; [by eexists|].
  erewrite bind_Ok.
  2: { unfold send_msg, gets. rewrite (bind_Ok _ _ x (se_num2send x) x) by done. by rewrite Hs. }
  destruct (IH (S i)) as [ps E]. erewrite bind_Ok by exact E. by eexists.
Qed.

Lemma run_phase_overflow N targets mtype n ph x :
  length (se_msg_rtt x) = N -> length (se_msg_seq x) = N -> Z.of_nat N <= LONG_MAX ->
  Z.of_nat N < i64 (n * targets) -> answers_all mtype ph ->
  run_phase targets mtype n ph x = Fault OutOfBounds.
Proof.
  intros H1 H2 HN Hn (Hm & Hr & Hs & Ha). unfold run_phase.
  rewrite (bind_Ok _ _ x tt (set_num2send n x)) by done.
  assert (exists ps, send_msgs (ph_mbuf ph) (ph_begin ph) (ph_send ph) (ph_clock ph) (set_num2send n x) =
    Ok ps (set_begin_ts (ph_begin ph) (set_num2send n x))) as [ps E].
  { unfold send_msgs. rewrite Hm. erewrite (bind_Ok _ _ _ tt) by done.
    erewrite (bind_Ok (gets se_num2send)) by done. rewrite andb_false_r. erewrite (bind_Ok _ _ _ tt) by done.
    by apply send_loop_sent. }
  erewrite bind_Ok by exact E. apply bind_Fault. unfold recv_msgs. rewrite Hr.
  erewrite (bind_Ok _ _ _ tt) by done. erewrite (bind_Ok (gets se_num2send)) by done.
  rewrite andb_false_r. erewrite (bind_Ok _ _ _ tt) by done. apply bind_Fault.
  cbn [se_num2send set_replies set_begin_ts set_num2send].
  apply (recv_loop_overflow N _ _ _ _ _ []); try done; cbn [length]; lia.
Qed.

Lemma warmup_overflow alloc create warm main args o :
  sender_options args sender_defaults sender0 = Ok o sender0 -> (forall n, alloc n = true) ->
  0 <= so_msgs o * so_targets o < so_warmup o * so_targets o -> so_warmup o * so_targets o < 2 ^ 60 ->
  answers_all (so_mtype o) warm ->
  sender_main alloc true create warm main args sender0 = Fault OutOfBounds.
Proof.
  intros Eo Hal Hn Hw Hans. set (N := Z.to_nat (so_msgs o * so_targets o)).
  assert (forall x, new_array alloc (so_msgs o) (so_targets o) x = Ok (replicate N None) x) as Ea.
  { intros x. pose proof (new_array_ok alloc (so_msgs o) (so_targets o) x ltac:(lia)) as W.
    unfold wp in W. unfold new_array in *. rewrite Hal in *. cbn in *. by destruct W as [_ ->]. }
  unfold sender_main. erewrite bind_Ok by exact Eo. erewrite bind_Ok by apply Ea.
  erewrite bind_Ok by apply Ea. erewrite (bind_Ok _ _ _ tt) by done. erewrite (bind_Ok _ _ _ tt) by done.
  assert (truthy (so_warmup o) = true) as -> by (unfold truthy; rewrite (proj2 (Z.eqb_neq _ _)) by nia; done).
  apply bind_Fault. cbn [when]. apply bind_Fault, (run_phase_overflow N); try done.
  - apply length_replicate.
  - apply length_replicate.
  - unfold LONG_MAX. lia.
  - rewrite i64_small by (unfold LONG_MIN, LONG_MAX; lia). lia.
Qed.

(** ** The second sender

    Its receiver takes everything that has arrived after each message. *)
Lemma receive2_ok N mtype r x rs :
  filled N x rs -> Z.of_nat N <= LONG_MAX -> (length rs < N)%nat ->
  exists x' got, receive2 mtype r x = Ok tt x' /\ filled N x' (rs ++ got) /\
    (length got <= 1)%nat /\ Forall (good mtype) got /\ se_num2send x' = se_num2send x.
Proof.
  intros F HN Hl. assert (exists x' got, Ok tt x = Ok tt x' /\ filled N x' (rs ++ got) /\
    (length got <= 1)%nat /\ Forall (good mtype) got /\ se_num2send x' = se_num2send x) as Hskip.
  { exists x, []. rewrite app_nil_r. split_and!; try done. apply Nat.le_0_l. }
  destruct r as [r|]; [|done]. unfold receive2, when. case_bool_decide as Hst; cbn [andb]; [|done].
  destruct (Z.eqb_spec (re_mtype r) mtype) as [Ht|]; [|done].
  destruct (store_reply_ok N r x rs F HN Hl) as (x' & E & F' & (E1 & _) & _).
  exists x', [r]. split; [exact E|]. split_and!; try done. by repeat constructor.
Qed.

(** [n] buffers at most leave room in the arrays. *)
Lemma receive_ready_ok N mtype ready x rs :
  filled N x rs -> Z.of_nat N <= LONG_MAX -> (length rs + length ready <= N)%nat ->
  exists x' got, receive_ready mtype ready x = Ok tt x' /\ filled N x' (rs ++ got) /\
    (length got <= length ready)%nat /\ Forall (good mtype) got /\ se_num2send x' = se_num2send x.
Proof.
  revert x rs. induction ready as [|r ready IH]; intros x rs F HN Hl; cbn [receive_ready length] in *.
  { exists x, []. rewrite app_nil_r. by split_and!. }
  destruct (receive2_ok N mtype r x rs F HN ltac:(lia)) as (x1 & g1 & E1 & F1 & L1 & G1 & S1).
  destruct (IH x1 (rs ++ g1) F1 HN) as (x2 & g2 & E2 & F2 & L2 & G2 & S2); [rewrite length_app; lia|].
  exists x2, (g1 ++ g2). rewrite (bind_Ok _ _ _ _ _ E1), app_assoc, length_app.
  split_and!; try done; [lia|by apply Forall_app|congruence].
Qed.

(** A reply more than the arrays have cells: the loop that receives between two
    messages does not look at the number of replies. *)
Lemma receive_ready_overflow N mtype ready x rs :
  filled N x rs -> Z.of_nat N <= LONG_MAX -> (length rs <= N < length rs + length ready)%nat ->
  Forall (fun r => exists r', r = Some r' /\ good mtype r') ready ->
  receive_ready mtype ready x = Fault OutOfBounds.
Proof.
  intros F HN Hl Hg. revert x rs F Hl.
  induction Hg as [|r ready (r' & -> & Hst & Ht) Hg IH]; intros x rs F Hl; cbn [receive_ready length] in *; [lia|].
  assert (receive2 mtype (Some r') x = store_reply r' x) as E.
  { unfold receive2. by rewrite bool_decide_eq_true_2, Ht, Z.eqb_refl. }
  destruct (decide (length rs = N)).
  - apply bind_Fault. rewrite E. by eapply store_reply_full.
  - destruct (store_reply_ok N r' x rs F HN ltac:(lia)) as (x1 & E1 & F1 & _ & _).
    rewrite (bind_Ok _ _ x tt x1) by congruence.
    apply (IH _ (rs ++ [r'])); [done|]. rewrite length_app. cbn [length]. lia.
Qed.

(** ** The results *)

(** The file gets one summary, and with [-s] one line for each reply, in the
    order they came. *)
Lemma write_results_ok N o rep file x rs :
  filled N x rs -> so_filename o <> None -> so_rtt o = true ->
  write_results o rep (Some file) true x = Ok (Some ([ResultHeader; ResultSummary (so_interval o) rep; RttHeader] ++
    ((fun r => RttLine (seq_of r) (d_div (to_double (rtt_of r)) (to_double 1000))) <$> rs))) x.
Proof.
  intros [H1 H2 H3 H4 H5] Hf Hr. unfold write_results. destruct (so_filename o); [|done]. rewrite Hr.
  rewrite list_fmap_compose in H4, H5.
  assert (rtt_lines x = Ok (zip (seq_of <$> rs)
    ((fun rtt => d_div (to_double rtt) (to_double 1000)) <$> (rtt_of <$> rs))) x) as E.
  { unfold rtt_lines. rewrite (bind_Ok _ _ x x x) by done. rewrite H3, Nat2Z.id.
    erewrite bind_Ok by (apply (cells_filled (seq_of <$> rs) _ x 0); rewrite length_fmap; done).
    erewrite bind_Ok by (apply (cells_filled (rtt_of <$> rs) _ x 0); rewrite length_fmap; done).
    by rewrite !drop_0. }
  rewrite (bind_Ok _ _ x file x) by done. rewrite (bind_Ok _ _ x tt x) by done.
  erewrite bind_Ok by (rewrite (bind_Ok _ _ _ _ _ E); done). unfold mret, M_ret. do 2 f_equal.
  cbn [app]. do 3 f_equal. clear. induction rs as [|r rs IH]; [done|]. by rewrite !fmap_cons, <- IH.
Qed.
