(* ===== verification/Cluster.v ===== *)
(** * A cluster of servers

    The servers of a cluster between two changes of its membership: each is the
    state of its library, the network keeps every vote request and answer that
    was sent and delivers any of them at any time, any number of times or
    never. A step is one stretch of code of one thread of one server, from the
    definitions of rft.c; a server that has ended its process takes no more. *)

From S2P Require Import Prelude Monad Types LogRing Mtl Config Quorum HashTable HashMap State.
From S2P Require Import Utils Log Serialize Snapshot RaftLog Raft XApp Server Invariant Commit.
From S2P Require Import Election Replication.
Open Scope Z_scope.

Section Threads.
Context `{Rmr} `{Host} (k : sys) (mem : allocs).

(** The election thread: from its look at the timer to the wait of
    [become_candidate], which gives the mutex back. *)
Definition stand : M St (option request_vote_t) :=
  action ← trigger_election_timeout;
  match action with
  | START_ELECTION =>
      r ← candidate_round k mem;
      unlock state_lock_l;;
      mret r
  | _ => mret None
  end.

(** The end of that wait: the next round, unless the candidacy is over. *)
Definition stand_again : M St (option request_vote_t) :=
  lock raft_state_lock state_lock_l;;
  m ← me;
  if decide (m_state m = CANDIDATE) then
    r ← candidate_round k mem;
    unlock state_lock_l;;
    mret r
  else
    unlock state_lock_l;;
    mret None.

End Threads.

(** What is on its way: a vote request to all, an answer to a candidate. *)
Inductive packet :=
| Ask (req : request_vote_t)
| Answer (to : server_id_t) (reply : reply_vote_t).

Record cluster := MkCluster { servers : gmap server_id_t St; net : list packet }.

(** The members in the order of the array. *)
Definition members_of (s : St) : list server_t :=
  omap (fun p => cf_heap (g_config s) !! p) (c_servers (cf (g_config s))).

(** The clock goes on, and [rand( )] has other results to come. *)
Definition time_passes (now : timespec) (rands : list Z) (s : St) : St :=
  let e := g_elec s in
  set_elec (ElecSt (el_timeout e) (el_lock e) (el_rand_timeout_ms e) now rands) s.

Section Cluster.
Context `{Rmr} `{Host}.

Definition update (c : cluster) (i : server_id_t) (s : St) (out : list packet) : cluster :=
  MkCluster (<[i := s]> (servers c)) (out ++ net c).

Definition asks (r : option request_vote_t) : list packet :=
  match r with Some req => [Ask req] | None => [] end.

(** The requests to append entries may be any, as long as they change no
    member. *)
Definition append_wf (req : request_append_entries_t) : Prop :=
  is_u64 (ra_term req) /\ is_u64 (ra_prev_log_index req) /\ is_u64 (ra_leader_commit req) /\
  Forall entry_ok (ra_entries req) /\ ra_n_entries req = Z.of_nat (length (ra_entries req)).

Inductive step (c : cluster) : cluster -> Prop :=
| step_stand i s k mem r s' : servers c !! i = Some s -> room 1 s ->
    stand k mem s = Ok r s' -> step c (update c i s' (asks r))
| step_stand_again i s k mem r s' : servers c !! i = Some s -> room 1 s ->
    stand_again k mem s = Ok r s' -> step c (update c i s' (asks r))
| step_ask i s req r s' : servers c !! i = Some s -> Ask req ∈ net c ->
    handle_vote_request req s = Ok r s' ->
    step c (update c i s' [Answer (rv_candidate_id req) r])
| step_answer i s k mem reply s' : servers c !! i = Some s -> room 1 s -> Answer i reply ∈ net c ->
    handle_vote_reply k mem reply s = Ok tt s' -> step c (update c i s' [])
| step_append i s k req r s' : servers c !! i = Some s -> append_wf req ->
    room (Z.of_nat (length (ra_entries req))) s -> handle_append_entries_request k req s = Ok r s' ->
    members_of s' = members_of s -> step c (update c i s' [])
| step_append_reply i s reply s' : servers c !! i = Some s -> room 0 s ->
    is_u64 (pa_term reply) -> is_u64 (pa_last_log_index reply) ->
    handle_append_entries_reply reply s = Ok tt s' -> step c (update c i s' [])
| step_time i s now rands : servers c !! i = Some s -> Forall (fun r => 0 <= r) rands ->
    step c (update c i (time_passes now rands s) []).

Definition run : cluster -> cluster -> Prop := rtc step.

(** Followers (or servers that have not joined yet) that agree on the members
    [conf]; they may have voted before. *)
Definition initial (conf : list (server_id_t * Z)) (c : cluster) : Prop :=
  net c = [] /\ forall i s, servers c !! i = Some s -> i <> "" /\ m_self_id (g_me s) = i /\
    m_state (g_me s) <> CANDIDATE /\ m_state (g_me s) <> LEADER /\ locks s = no_locks /\
    exists L C, inv s L C /\ roster C = conf.

(** ** The invariant *)

(** A vote: the voter, the term, the candidate. *)
Definition vote : Type := server_id_t * term_t * server_id_t.

Definition unique (cast : list vote) : Prop :=
  forall v t a b, (v, t, a) ∈ cast -> (v, t, b) ∈ cast -> a = b.

Definition contends (s : St) : Prop := m_state (g_me s) = CANDIDATE \/ m_state (g_me s) = LEADER.

(** What the cluster knows of a server: the votes it has given bind it, and a
    candidate or leader has only votes that were given to it in its term. *)
Record known (conf : list (server_id_t * Z)) (cast : list vote) (i : server_id_t) (s : St)
    (L : list log_entry_t) (C : list server_t) : Prop := {
  kn_inv : inv s L C;
  kn_locks : locks s = no_locks;
  kn_id : i <> "" /\ m_self_id (g_me s) = i;
  kn_roster : roster C = conf;
  kn_count : votes_ok s C;
  kn_ballot : contends s -> forall v, v ∈ voted_ids C -> (v, m_current_term (g_me s), i) ∈ cast;
  kn_leader : m_state (g_me s) = LEADER -> voters C < 2 * votes C;
  kn_cast : forall t a, (i, t, a) ∈ cast -> a <> "" /\
    (t < m_current_term (g_me s) \/ t = m_current_term (g_me s) /\ m_voted_for (g_me s) = a) }.

Definition packet_ok (cast : list vote) (p : packet) : Prop :=
  match p with
  | Ask req => is_u64 (rv_term req) /\ rv_candidate_id req <> ""
  | Answer to r => is_u64 (pv_term r) /\ (pv_granted r <> 0 -> (pv_voter r, pv_term r, to) ∈ cast)
  end.

Record cluster_inv (conf : list (server_id_t * Z)) (cast : list vote) (c : cluster) : Prop := {
  ci_unique : unique cast;
  ci_servers : forall i s, servers c !! i = Some s -> exists L C, known conf cast i s L C;
  ci_net : Forall (packet_ok cast) (net c) }.

(** Votes of one server do not matter for what is known of the others. *)
Lemma known_mono conf cast w i s L C :
  known conf cast i s L C -> (forall t a, (i, t, a) ∈ w ++ cast -> (i, t, a) ∈ cast) ->
  known conf (w ++ cast) i s L C.
Proof.
  intros [] Hw. split; try done.
  - intros Hc v Hv. apply elem_of_app. right. by apply kn_ballot0.
  - intros t a Ha. by apply kn_cast0, Hw.
Qed.

(** A step of server [i] with the votes [w] it gives. *)
Definition own_votes (i : server_id_t) (s' : St) (w : list vote) : Prop :=
  forall p, p ∈ w -> p = (i, m_current_term (g_me s'), m_voted_for (g_me s')) /\ m_voted_for (g_me s') <> "".

Lemma vote_binds conf cast i s L C s' a :
  known conf cast i s L C -> votes_kept s s' -> (i, m_current_term (g_me s'), a) ∈ cast ->
  m_voted_for (g_me s') = a.
Proof.
  intros K [Vt Vv] Ha. destruct (kn_cast _ _ _ _ _ _ K _ _ Ha) as [Hne [Hlt|[Et Ev]]]; [lia|].
  rewrite <- Ev. apply Vv; [done|by rewrite Ev].
Qed.

Lemma unique_step conf cast i s L C s' w :
  known conf cast i s L C -> votes_kept s s' -> own_votes i s' w -> unique cast -> unique (w ++ cast).
Proof.
  intros K V Hw U v t a b. rewrite !elem_of_app.
  intros [Ha|Ha] [Hb|Hb]; [..|by eapply U].
  - apply Hw in Ha as [[= -> -> ->] _], Hb as [[= ->] _]. done.
  - apply Hw in Ha as [[= -> -> ->] _]. by eapply vote_binds.
  - apply Hw in Hb as [[= -> -> ->] _]. symmetry. by eapply vote_binds.
Qed.

Lemma known_step conf cast i s L C s' L' C' w :
  known conf cast i s L C -> inv s' L' C' -> locks s' = no_locks ->
  m_self_id (g_me s') = m_self_id (g_me s) -> roster C' = roster C -> votes_ok s' C' ->
  votes_kept s s' -> own_votes i s' w ->
  (contends s' -> forall v, v ∈ voted_ids C' -> (v, m_current_term (g_me s'), i) ∈ w ++ cast) ->
  (m_state (g_me s') = LEADER -> voters C' < 2 * votes C') ->
  known conf (w ++ cast) i s' L' C'.
Proof.
  intros K I' Hk' Hs Hr Hv V Hw Hb Hl. pose proof K as []. split; try done.
  - rewrite Hs. apply kn_id0.
  - by rewrite Hr.
  - intros t a [Ha|Ha]%elem_of_app.
    + apply Hw in Ha as [[= -> ->] Hne]. auto.
    + destruct (kn_cast0 t a Ha) as [Hne Ht]. split; [done|]. destruct V as [Vt Vv].
      destruct (Z.eq_dec t (m_current_term (g_me s'))) as [->|]; [|lia]. right. split; [done|].
      eapply vote_binds; [exact K|by split|done].
Qed.

Lemma packet_mono cast w p : packet_ok cast p -> packet_ok (w ++ cast) p.
Proof.
  destruct p as [req|to r]; [done|]. intros [? Hg]. split; [done|]. intros Hne.
  apply elem_of_app. right. by apply Hg.
Qed.

(** The cluster after the step. *)
Lemma cluster_step conf cast c i s L C s' L' C' w out :
  cluster_inv conf cast c -> servers c !! i = Some s -> known conf cast i s L C ->
  votes_kept s s' -> own_votes i s' w -> known conf (w ++ cast) i s' L' C' ->
  Forall (packet_ok (w ++ cast)) out ->
  cluster_inv conf (w ++ cast) (update c i s' out).
Proof.
  intros [U S N] Hi K V Hw K' Ho. split; cbn.
  - by eapply unique_step.
  - intros j sj. destruct (decide (i = j)) as [<-|Hne].
    + rewrite lookup_insert_eq. intros [= <-]. by exists L', C'.
    + rewrite lookup_insert_ne by done. intros Hj. destruct (S j sj Hj) as (Lj & Cj & Kj).
      exists Lj, Cj. apply known_mono; [done|]. intros t a [Ha|Ha]%elem_of_app; [|done].
      by apply Hw in Ha as [[= ->] _].
  - apply Forall_app. split; [done|]. eapply Forall_impl; [exact N|]. intros p. apply packet_mono.
Qed.

(** ** The steps *)

(** What a step of a server has to establish. *)
Definition advances (conf : list (server_id_t * Z)) (cast : list vote) (i : server_id_t) (s s' : St)
    (out : list packet) : Prop :=
  exists L' C' w, known conf (w ++ cast) i s' L' C' /\ own_votes i s' w /\ votes_kept s s' /\
    Forall (packet_ok (w ++ cast)) out.

Lemma own_votes_nil i s : own_votes i s [].
Proof. by intros p ?%elem_of_nil. Qed.

(** The voting members of a roster. *)
Lemma voters_roster C : Z.of_nat (length (filter (fun p : server_id_t * Z => p.2 = VOTING_MEMBER) (roster C))) = voters C.
Proof.
  unfold voters, roster. induction C as [|x C IH]; [done|]. rewrite fmap_cons, !filter_cons.
  unfold voting in *. cbn. repeat case_decide; cbn; try lia; tauto.
Qed.

(** A round of a candidacy, which ends with the release of the mutex. *)
Lemma round_advances conf cast k mem i s L C s1 :
  known conf cast i s L C -> inv s1 L C -> locks s1 = state_locked -> m_state (g_me s1) = CANDIDATE ->
  m_self_id (g_me s1) = m_self_id (g_me s) ->
  m_current_term (g_me s1) = m_current_term (g_me s) -> m_current_term (g_me s) + 1 < 2 ^ 64 ->
  roomy s1 L C 1 ->
  wp tolerated (r ← candidate_round k mem; unlock state_lock_l;; mret r) s1
    (fun r s' => advances conf cast i s s' (asks r)).
Proof.
  intros K I1 Hk1 Hc Hs Et Hroom Hr. apply wp_bind.
  eapply wp_mono; [apply (candidate_round_ok k mem s1 L C); try done; by rewrite Et|].
  intros r s2 (L' & C' & I2 & Hk2 & []). apply wp_bind, wp_unlock, wp_ret.
  set (s' := lput state_lock_l false s2).
  destruct (kn_id _ _ _ _ _ _ K) as [Hne Hid]. rewrite Hs in *.
  assert (own_votes i s' [(i, m_current_term (g_me s'), i)]) as Hw.
  { intros p ->%list_elem_of_singleton. cbn. by rewrite ro_vote, Hid. }
  assert (votes_kept s s') as V by (split; cbn; [lia|lia|done]).
  destruct ro_members as (_ & Hvo & Hvs).
  exists L', C', [(i, m_current_term (g_me s'), i)]. split; [|split; [done|split; [done|]]].
  - eapply known_step; try done.
    + by apply inv_state_lock.
    + by apply locks_unlock.
    + intros _ v Hv. rewrite (ro_ballot v Hv), Hid. by left.
    + cbn. intros Hl. destruct r; destruct ro_request as [Hst Hv]; [congruence|lia].
  - destruct r as [req|]; cbn; [|done]. constructor; [|done]. destruct ro_request as (_ & _ & e & _ & ->).
    cbn. split; [apply (co_term _ _ _ (inv_core _ _ _ I2))|by rewrite Hid].
Qed.

(** Nothing happens that is known of the server. *)
Lemma stays_advances conf cast i s L C s' L' C' :
  known conf cast i s L C -> inv s' L' C' -> locks s' = no_locks -> stays s s' ->
  roster C' = roster C -> (forall v, v ∈ voted_ids C' -> v ∈ voted_ids C) -> votes C' = votes C ->
  advances conf cast i s s' [].
Proof.
  intros K I' Hk' [V R] Hr Hb Hn. exists L', C', []. split; [|split; [apply own_votes_nil|done]].
  assert (voters C' = voters C) as Hvo.
  { rewrite <- !voters_roster. by rewrite Hr. }
  eapply known_step; try done.
  - apply V.
  - intros Hc. destruct (R (or_introl Hc)) as (Er & _ & ->). rewrite Hn. apply K. congruence.
  - apply own_votes_nil.
  - intros Hc v Hv'. destruct (R Hc) as (Er & Et & _). rewrite Et. eapply kn_ballot; [exact K| |by apply Hb].
    unfold contends. by rewrite <- Er.
  - intros Hl. destruct (R (or_intror Hl)) as (Er & _). rewrite Hvo, Hn. apply K. congruence.
Qed.

Lemma members_of_core s L C : inv s L C -> members_of s = C.
Proof.
  intros I. pose proof (objs_heap _ _ (rep_objs _ _ (co_cfg _ _ _ (inv_core _ _ _ I)))) as Hh.
  unfold members_of. clear I. induction Hh as [|p x l C' Hp _ IH]; [done|]. cbn. rewrite Hp. f_equal. exact IH.
Qed.

(** The election thread at its timer. *)
Lemma trigger_ok s : locks s = no_locks ->
  wp only_exit trigger_election_timeout s (fun a s' =>
    (a = START_ELECTION /\ s' = set_me (me_state CANDIDATE (g_me s)) (set_state_lock true s)) \/
    (a <> START_ELECTION /\ s' = s)).
Proof.
  destruct s as [m sl rl xl cf sn rp [to lk rt now rs] ax]. intros [= -> _ _ _ _ _ _ _ _ -> _].
  destruct (m_state m) eqn:Em; unfold wp, trigger_election_timeout, become_candidate; mrun; cbn; rewrite Em; cbn;
    try (by right); [|done].
  destruct (timespec_lt now to); cbn; [by right|]. rewrite Em. by left.
Qed.

Lemma stand_advances conf cast k mem i s L C :
  known conf cast i s L C -> m_current_term (g_me s) + 1 < 2 ^ 64 -> roomy s L C 1 ->
  wp tolerated (stand k mem) s (fun r s' => advances conf cast i s s' (asks r)).
Proof.
  intros K Ht Hr. pose proof K as [I Hk _ _ _ _ _ _].
  unfold stand. apply wp_bind. eapply (wp_fault_mono only_exit); [by left|].
  eapply wp_mono; [by apply trigger_ok|]. intros a s1 [[-> ->]|[Ha ->]].
  2: { destruct a; try done; apply wp_ret; by eapply stays_advances; try apply I. }
  set (s1 := set_me _ _). eapply (round_advances conf cast k mem i s L C s1); try done.
  - apply (eframe_inv (set_state_lock true s)); [by split; try done; intros []|apply I|by auto with server].
  - by apply (locks_lock s).
Qed.

Lemma stand_again_advances conf cast k mem i s L C :
  known conf cast i s L C -> m_current_term (g_me s) + 1 < 2 ^ 64 -> roomy s L C 1 ->
  wp tolerated (stand_again k mem) s (fun r s' => advances conf cast i s s' (asks r)).
Proof.
  intros K Ht Hr. pose proof K as [I Hk _ _ _ _ _ _].
  unfold stand_again. apply wp_bind, wp_state_lock; [done|]. apply wp_bind, wp_gets. cbn [g_me set_state_lock].
  destruct (decide (m_state (g_me s) = CANDIDATE)) as [Hc|Hc].
  - eapply (round_advances conf cast k mem i s L C); try done; [by auto with server|by auto with server].
  - apply wp_bind, wp_unlock, wp_ret. eapply stays_advances; try done.
    + by apply inv_state_lock, inv_state_lock.
    + by apply (locks_unlock (set_state_lock true s)), locks_lock.
Qed.

(** A server answers a vote request. *)
Lemma ask_advances conf cast req i s L C :
  known conf cast i s L C -> packet_ok cast (Ask req) ->
  wp tolerated (handle_vote_request req) s (fun r s' =>
    advances conf cast i s s' [Answer (rv_candidate_id req) r]).
Proof.
  intros K [Ht Hid]. pose proof K as [I Hk [Hi Hs] _ _ _ _ _].
  eapply wp_mono; [by apply (handle_vote_request_ok req s L C)|]. intros r s' (I' & Hk' & []).
  set (w := if decide (pv_granted r = 0) then [] else [(i, m_current_term (g_me s'), m_voted_for (g_me s'))]).
  assert (own_votes i s' w) as Hw.
  { unfold w. case_decide; [apply own_votes_nil|]. intros p ->%list_elem_of_singleton.
    split; [done|]. destruct vs_granted as [|(_ & -> & _)]; done. }
  assert (contends s' -> m_state (g_me s') = m_state (g_me s) /\
    m_current_term (g_me s') = m_current_term (g_me s)) as Hrole.
  { unfold contends. rewrite vs_role. destruct vs_term as [_ ->].
    destruct (Z.ltb_spec (m_current_term (g_me s)) (rv_term req)); [|split; [done|lia]].
    by intros [[]%step_down_not_candidate|[]%step_down_not_leader]. }
  exists L, C, w. split; [|split; [done|split; [done|]]].
  - eapply known_step; try done; [apply vs_votes|..].
    + intros Hc. rewrite vs_count. apply K. destruct (Hrole (or_introl Hc)) as [<- _]. done.
    + intros Hc v Hv. destruct (Hrole Hc) as [Er Et]. apply elem_of_app. right. rewrite Et.
      eapply kn_ballot; [done| |done]. unfold contends. by rewrite <- Er.
    + intros Hl. destruct (Hrole (or_intror Hl)) as [Er _]. apply K. congruence.
  - constructor; [|done]. destruct vs_term as [Er _]. cbn [packet_ok]. rewrite Er.
    split; [apply (co_term _ _ _ (inv_core _ _ _ I'))|]. intros Hg. apply elem_of_app. left.
    unfold w. rewrite decide_False by done. rewrite vs_voter, Hs.
    destruct vs_granted as [|(_ & -> & _)]; [done|]. by apply list_elem_of_singleton.
Qed.

(** A candidate counts an answer. *)
Lemma answer_advances conf cast k mem reply i s L C :
  known conf cast i s L C -> packet_ok cast (Answer i reply) -> roomy s L C 1 ->
  wp tolerated (handle_vote_reply k mem reply) s (fun _ s' => advances conf cast i s s' []).
Proof.
  intros K [Ht Hg] Hr. pose proof K as [I Hk _ _ _ _ _ _].
  eapply wp_mono; [by apply (handle_vote_reply_ok k mem reply s L C)|].
  intros [] s' (L' & C' & I' & Hk' & []).
  exists L', C', []. split; [|split; [apply own_votes_nil|done]].
  eapply known_step; try done.
  - apply cv_votes.
  - apply cv_ok, K.
  - apply own_votes_nil.
  - intros Hc v Hv. destruct (cv_role Hc) as [-> Hs].
    destruct (cv_ballot v Hv) as [Hv'|(-> & _ & -> & Hne)]; [|by apply Hg].
    eapply kn_ballot; [done| |done]. unfold contends. tauto.
  - intros Hl. destruct (cv_elected Hl) as [Hs|(_ & _ & _ & Hm & _)]; [|by apply Hm, K].
    rewrite cv_same by congruence. by apply K.
Qed.

(** AppendEntries and its answer. *)
Lemma append_advances conf cast k req i s L C r s' :
  known conf cast i s L C -> append_wf req -> roomy s L C (Z.of_nat (length (ra_entries req))) ->
  handle_append_entries_request k req s = Ok r s' -> members_of s' = members_of s ->
  advances conf cast i s s' [].
Proof.
  intros K (Ht & Hp & Hc & He & Hn) Hr E Hm. pose proof K as [I Hk _ _ _ _ _ _].
  pose proof (wp_eq_inv _ _ _ _ _ _ E (handle_append_ok k req s L C I Hk Ht Hp Hc He Hn Hr))
    as (L' & C' & I' & Hk' & A).
  rewrite (members_of_core _ _ _ I), (members_of_core _ _ _ I') in Hm. subst C'.
  eapply stays_advances; try done. apply A.
Qed.

Lemma noted_granted now reply x : granted (noted now reply x) <-> granted x.
Proof. unfold noted. by destruct (truthy _). Qed.

Lemma append_reply_advances conf cast reply i s L C :
  known conf cast i s L C -> is_u64 (pa_term reply) -> is_u64 (pa_last_log_index reply) ->
  roomy s L C 0 ->
  wp tolerated (handle_append_entries_reply reply) s (fun _ s' => advances conf cast i s s' []).
Proof.
  intros K Ht Hl [_ Hr]. pose proof K as [I Hk _ _ _ _ _ _].
  eapply wp_mono; [apply (handle_append_reply_ok reply s L C); try done; lia|].
  intros [] s' (C' & I' & Hk' & []).
  eapply stays_advances; try done.
  - destruct rp_noted as [->|(j & x & Hj & _ & _ & _ & ->)]; [done|].
    by eapply roster_insert; [|apply noted_keeps..].
  - destruct rp_noted as [->|(j & x & Hj & _ & _ & _ & ->)]; [done|]. intros v Hv.
    eapply voted_ids_insert in Hv as [?|[-> Hg]]; [done| |done|apply noted_keeps].
    apply elem_of_voted_ids. exists x. split; [by eapply list_elem_of_lookup_2|].
    split; [|done]. by apply noted_granted in Hg.
  - destruct rp_noted as [->|(j & x & Hj & _ & _ & _ & ->)]; [done|].
    rewrite (votes_insert _ _ x) by done.
    rewrite (bool_decide_ext _ _ (noted_granted (el_now (g_elec s)) reply x)). lia.
Qed.

Lemma time_advances conf cast now rands i s L C :
  known conf cast i s L C -> Forall (fun r => 0 <= r) rands ->
  advances conf cast i s (time_passes now rands s) [].
Proof.
  intros K Hr. pose proof K as [[Co [E1 _] Ha] Hk _ _ _ _ _ _].
  apply (stays_advances conf cast i s L C _ L C); try done.
  split; [by eapply core_same; try exact Co|by split|done].
Qed.

(** ** Runs *)

Lemma advances_cluster conf cast c i s L C s' out :
  cluster_inv conf cast c -> servers c !! i = Some s -> known conf cast i s L C ->
  advances conf cast i s s' out ->
  exists cast', cast ⊆ cast' /\ cluster_inv conf cast' (update c i s' out).
Proof.
  intros CI Hi K (L' & C' & w & K' & Hw & V & Ho). exists (w ++ cast). split.
  - intros p Hp. apply elem_of_app. by right.
  - by eapply cluster_step.
Qed.

(** Every step keeps the invariant, with the votes it adds. *)
Lemma cluster_step_inv conf cast c c' :
  cluster_inv conf cast c -> step c c' -> exists cast', cast ⊆ cast' /\ cluster_inv conf cast' c'.
Proof.
  intros CI St.
  assert (forall i s, servers c !! i = Some s -> exists L C, known conf cast i s L C) as HS
    by apply CI.
  assert (forall p, p ∈ net c -> packet_ok cast p) as HN
    by (apply list.Forall_forall, CI).
  destruct St as [i s k mem r s' Hi Hr E|i s k mem r s' Hi Hr E|i s req r s' Hi Hp E
    |i s k mem reply s' Hi Hr Hp E|i s k req r s' Hi Hw Hr E Hm|i s reply s' Hi Hr Ht Hl E|i s now rands Hi Hr];
    destruct (HS i s Hi) as (L & C & K); eapply advances_cluster; try done;
    try (pose proof (proj1 Hr) as Ht'; apply (room_roomy s L C) in Hr; [|apply K]).
  - by apply (wp_eq_inv _ _ _ _ _ _ E (stand_advances conf cast k mem i s L C K Ht' Hr)).
  - by apply (wp_eq_inv _ _ _ _ _ _ E (stand_again_advances conf cast k mem i s L C K Ht' Hr)).
  - by apply (wp_eq_inv _ _ _ _ _ _ E (ask_advances conf cast req i s L C K (HN _ Hp))).
  - by apply (wp_eq_inv _ _ _ _ _ _ E (answer_advances conf cast k mem reply i s L C K (HN _ Hp) Hr)).
  - by eapply append_advances.
  - by apply (wp_eq_inv _ _ _ _ _ _ E (append_reply_advances conf cast reply i s L C K Ht Hl Hr)).
  - by eapply time_advances.
Qed.

Lemma cluster_run_inv conf cast c c' :
  cluster_inv conf cast c -> run c c' -> exists cast', cast ⊆ cast' /\ cluster_inv conf cast' c'.
Proof.
  intros CI R. revert cast CI. induction R as [c|c1 c2 c3 St _ IH]; intros cast CI; [by exists cast|].
  destruct (cluster_step_inv _ _ _ _ CI St) as (cast1 & Hc1 & CI1).
  destruct (IH cast1 CI1) as (cast2 & Hc2 & CI2). exists cast2. split; [|done]. by transitivity cast1.
Qed.

Lemma initial_inv conf c : initial conf c -> cluster_inv conf [] c.
Proof.
  intros [Hn Hs]. split.
  - by intros v t a b ?%elem_of_nil.
  - intros i s Hi. destruct (Hs i s Hi) as (Hne & Hid & Hc & Hl & Hk & L & C & I & Hr).
    exists L, C. split; try done.
    + by intros ?%Hc.
    + by intros [?%Hc|?%Hl].
    + by intros t a ?%elem_of_nil.
  - by rewrite Hn.
Qed.

(** Two majorities of the same members share a voter. *)
Lemma quorums_meet C1 C2 :
  roster C1 = roster C2 -> voters C1 < 2 * votes C1 -> voters C2 < 2 * votes C2 ->
  exists v, v ∈ voted_ids C1 /\ v ∈ voted_ids C2.
Proof.
  intros Hr H1 H2. assert (voters C1 < votes C1 + votes C2) as Hsum.
  { assert (voters C1 = voters C2) by (by rewrite <- !voters_roster, Hr). lia. }
  clear H1 H2. unfold voters, votes in Hsum. revert C2 Hr Hsum.
  induction C1 as [|x C1 IH]; intros [|y C2] Hr Hsum; try done.
  unfold roster in Hr. rewrite !fmap_cons in Hr. injection Hr as Hid Hst Hr.
  destruct (decide (granted x /\ granted y)) as [[Hx Hy]|Hn].
  - exists (s_server_id x). split; apply elem_of_voted_ids; [exists x|exists y]; by (split; [left|]).
  - destruct (IH C2) as (v & Hv1 & Hv2); [done| |].
    + assert (voting x <-> voting y) by (unfold voting; by rewrite Hst).
      rewrite !filter_cons in Hsum. unfold granted in *.
      repeat case_decide; simpl in *; try lia; tauto.
    + exists v. rewrite elem_of_voted_ids in *. destruct Hv1 as (a & ? & ?), Hv2 as (b & Hb & ?).
      split; [exists a|apply elem_of_voted_ids; exists b]; (split; [by right|done]).
Qed.

(** A leader of a term has the votes of that term. *)
Lemma one_leader conf cast1 cast2 c1 c2 i j s1 s2 :
  cluster_inv conf cast1 c1 -> cluster_inv conf cast2 c2 -> cast1 ⊆ cast2 ->
  servers c1 !! i = Some s1 -> servers c2 !! j = Some s2 ->
  m_state (g_me s1) = LEADER -> m_state (g_me s2) = LEADER ->
  m_current_term (g_me s1) = m_current_term (g_me s2) -> i = j.
Proof.
  intros I1 I2 Hsub Hi Hj Hl1 Hl2 Et.
  destruct (ci_servers _ _ _ I1 i s1 Hi) as (L1 & C1 & K1), (ci_servers _ _ _ I2 j s2 Hj) as (L2 & C2 & K2).
  destruct (quorums_meet C1 C2) as (v & Hv1 & Hv2).
  { by rewrite (kn_roster _ _ _ _ _ _ K1), (kn_roster _ _ _ _ _ _ K2). }
  { by apply K1. }
  { by apply K2. }
  eapply (ci_unique _ _ _ I2 v (m_current_term (g_me s1))).
  - by apply Hsub, (kn_ballot _ _ _ _ _ _ K1); [right|].
  - rewrite Et. by apply (kn_ballot _ _ _ _ _ _ K2); [right|].
Qed.

End Cluster.
