(* ===== verification/Sample.v ===== *)
(** * A sample cluster

    A server of a three-member cluster with two entries in its log, on which
    the theorems of the consensus are evaluated: each has an instance here
    whose hypotheses hold. *)

From S2P Require Import Prelude Monad Types LogRing Mtl Config Quorum HashTable.
From S2P Require Import HashMap State Utils Log Serialize Snapshot RaftLog Raft XApp.
From S2P Require Import Server Invariant Commit Election Replication Install XRepl.
From S2P Require Import Worker.
Open Scope Z_scope.

#[global] Existing Instance rmr_64.
#[global] Existing Instance little_host.

Definition state_of {S A} (d : S) (o : outcome S A) : S :=
  match o with Ok _ s => s | Fault _ => d end.

Definition value_of {S A} (d : A) (o : outcome S A) : A :=
  match o with Ok a _ => a | Fault _ => d end.

Definition returns {S A} (o : outcome S A) : bool :=
  match o with Ok _ _ => true | Fault _ => false end.

Lemma returns_ok {S A} (m : M S A) s d e :
  returns (m s) = true -> m s = Ok (value_of e (m s)) (state_of d (m s)).
Proof. by destruct (m s). Qed.

(** ** The log *)

Definition noop (term : term_t) (index : index_t) : log_entry_t :=
  LogEntry term index 0 0 0 RAFT_NOOP 0 None None [].

Definition log0 : log_st := state_of init_log_st (init_log true true RAFT_LOG 16 1 init_log_st).
Definition log1 : log_st := state_of init_log_st (append_log_entry (noop 1 0) log0).
Definition log2 : log_st := state_of init_log_st (append_log_entry (noop 1 0) log1).
Definition entries : list log_entry_t := [noop 1 1; noop 1 2].

Lemma log0_rep : log_rep log0 [].
Proof.
  destruct (init_log_rep RAFT_LOG 16 1 init_log_st) as (s & E & R & _);
    [by left|done|done|by exists 4|done|]. unfold log0. by rewrite E.
Qed.

Lemma log1_rep : log_rep log1 [noop 1 1].
Proof.
  destruct (append_room log0 [] log0_rep (noop 1 0)) as (s & E & R & _); [done|done|].
  unfold log1. by rewrite E.
Qed.

Lemma log2_rep : log_rep log2 entries.
Proof.
  destruct (append_room log1 [noop 1 1] log1_rep (noop 1 0)) as (s & E & R & _); [done|done|].
  unfold log2. by rewrite E.
Qed.

(** ** The members *)

Definition srv (id : string) (match_index : index_t) : server_t :=
  Server id (id ++ ":4560") VOTING_MEMBER 0 (match_index + 1) match_index SHUTDOWN (Timespec 0 0)
    0 0 0.
Definition members : list server_t := [srv "a" 0; srv "b" 2; srv "c" 0].

Definition config0 : config_st :=
  ConfigSt (RaftConfig 3 3 0 [1%positive; 2%positive; 3%positive])
    (list_to_map (zip [1%positive; 2%positive; 3%positive] members)) false [].

Lemma config0_rep : cfg_rep config0 members.
Proof.
  split; [split|..]; try done.
  - apply (bool_decide_unpack _). by vm_compute.
  - by repeat constructor.
  - apply (bool_decide_unpack _). by vm_compute.
  - by repeat constructor.
Qed.

(** ** The role tables *)

Definition table0 : hashtable_t :=
  default (HashTable 0 [] STRING_KEY ∅) (hashtable_new true true STRING_KEY 8).

Lemma table0_rep : ht_rep table0 ∅.
Proof. destruct (hashtable_new_ok STRING_KEY 8) as (t & E & R & _); [done|]. unfold table0. by rewrite E. Qed.

(** ** The server *)

Definition server (role : role) (voted leader : string) (commit : index_t) : St :=
  MkSt (RaftState role 1 0 "a" voted leader commit commit) false log2 log2 config0 init_snap_st
    (ReplSt [] false GLOBAL 1) (ElecSt (Timespec 10 0) false 3000 (Timespec 5 0) [])
    (AppSt table0 table0 true true [] [] false false).

Lemma server_core role voted leader commit :
  0 <= commit <= 2 -> core (server role voted leader commit) entries members.
Proof.
  intros Hc. split; cbn [server g_raft_log g_config g_me g_snap m_current_term m_last_applied m_commit_index].
  - apply log2_rep.
  - repeat constructor; by intros.
  - apply config0_rep.
  - constructor.
  - done.
  - change (0 <= commit). lia.
  - lia.
  - change (commit <= 2). lia.
  - done.
Qed.

Lemma server_inv role voted leader commit :
  0 <= commit <= 2 -> inv (server role voted leader commit) entries members.
Proof. intros Hc. split; [by apply server_core|split; [done|constructor]|done]. Qed.

Lemma server_server_ok role voted leader commit :
  0 <= commit <= 2 -> server_ok (server role voted leader commit) entries members.
Proof.
  intros Hc. split; [by apply server_inv|done|]. exists ∅, ∅. split; [|done| |done]; apply table0_rep.
Qed.
