(* ===== verification/Consensus.v ===== *)
(** * The properties of the consensus

    What the handlers of src/rft.c, with the log, the configuration and the
    snapshots below them, promise to a cluster, each with an instance on the
    sample cluster. *)

From S2P Require Import Prelude Monad Types LogRing Mtl Config Quorum HashTable.
From S2P Require Import HashMap State Utils Log Serialize Snapshot RaftLog Raft XApp.
From S2P Require Import Server Invariant Commit Election Replication Install XRepl.
From S2P Require Import Worker Sample.
Open Scope Z_scope.

Section Properties.
Context `{Rmr} `{Host}.


(** C7. The defect C1 tolerates: with an empty log (as after a compaction) a
    vote request of the current or a newer term, to a server whose election
    timer has not expired or that is no follower, locks [raft_state_lock]
    twice. *)
Theorem vote_request_deadlock req s C :
  inv s [] C -> locks s = no_locks -> is_u64 (rv_term req) ->
  m_current_term (g_me s) <= rv_term req ->
  timespec_lt (el_now (g_elec s)) (el_timeout (g_elec s)) = true ->
  handle_vote_request req s = Fault (SelfDeadlock raft_state_lock).
Proof.
  intros I Hk Ht Hge Hin. unfold handle_vote_request.
  rewrite (bind_Ok _ _ s (m_self_id (g_me s)) s) by done.
  rewrite (bind_Ok _ _ s true s) by (rewrite <- Hin; apply timer_read; by rewrite Hk).
  rewrite (bind_Ok _ _ s tt (set_state_lock true s)).
  2: { unfold lock. pose proof (f_equal k_state Hk) as Hs. cbn in Hs. cbn. by rewrite Hs. }
  destruct (match_terms_inv (rv_term req) s [] C I Hk Ht)
    as (s2 & E2 & _ & I2 & Hk2 & _ & _ & _).
  rewrite (bind_Ok _ _ _ _ _ E2), (bind_Ok _ _ s2 (g_me s2) s2) by done. cbn [negb andb].
  apply bind_Fault. rewrite (proj2 (Z.ltb_ge _ _)) by lia.
  rewrite decide_False by (by destruct (rv_term req =? _)).
  apply bind_Fault. unfold candidate_log_ok. apply bind_Fault.
  rewrite (last_log_term_ok s2 [] C (inv_core _ _ _ I2)) by (by rewrite Hk2).
  by assert (g_state_lock s2 = true) as -> by (by injection Hk2).
Qed.



(** A follower whose election timer has expired refuses every vote, even
    to an up-to-date candidate of a newer term: the test is the opposite of
    the comment next to it, which rejects votes before the timeout is over. *)
Theorem expired_follower_refuses req s L C :
  inv s L C -> locks s = no_locks -> is_u64 (rv_term req) -> rv_candidate_id req <> "" ->
  m_state (g_me s) = FOLLOWER ->
  timespec_lt (el_now (g_elec s)) (el_timeout (g_elec s)) = false ->
  wp tolerated (handle_vote_request req) s (fun r s' =>
    pv_granted r = 0 /\ m_current_term (g_me s') = Z.max (m_current_term (g_me s)) (rv_term req)).
Proof.
  intros I Hk Ht Hid Hf Hexp. eapply wp_mono; [by apply (handle_vote_request_ok req s L C)|].
  intros r s' (_ & _ & S). split; [|apply (vs_term _ _ _ _ _ S)].
  apply (vs_expired _ _ _ _ _ S); [|done]. rewrite (vs_role _ _ _ _ _ S).
  destruct (_ <? _); [|done]. unfold step_down. cbn. by rewrite Hf.
Qed.

(** C10. A candidate becomes the leader only when more than half of the voting
    members, each counted once, have given it their vote in its current term;
    it then appends an entry of its term, and every other answer leaves the log
    as it was. *)
Theorem elected_by_majority k mem reply s L C :
  inv s L C -> votes_ok s C -> locks s = no_locks -> is_u64 (pv_term reply) -> roomy s L C 1 ->
  wp tolerated (handle_vote_reply k mem reply) s (fun _ s' => exists L' C',
    inv s' L' C' /\ locks s' = no_locks /\ votes_ok s' C' /\ ids C' = ids C /\
    (m_state (g_me s') = LEADER -> m_state (g_me s) <> LEADER ->
     m_state (g_me s) = CANDIDATE /\ m_current_term (g_me s) = pv_term reply /\
     voters C' < 2 * votes C' /\ L' = L ++ [noop_entry s]) /\
    (m_state (g_me s') <> LEADER -> L' = L)).
Proof.
  intros I Hv Hk Ht Hr. eapply wp_mono; [by apply (handle_vote_reply_ok k mem reply s L C)|].
  intros [] s' (L' & C' & I' & Hk' & [S1 S2 S3 [S4 S4'] S5 S6]). exists L', C'.
  split; [done|]. split; [done|]. split; [by apply S2|]. split; [done|]. split.
  - intros Hl Hnl. destruct (S5 Hl) as [|(? & ? & ? & ? & ?)]; [done|]. auto.
  - intros Hnl. apply S6. by left.
Qed.

(** Two majorities of the same members share a voter. *)
Theorem majorities_intersect (C1 C2 : list server_t) :
  Forall2 (fun x y => s_server_id x = s_server_id y /\ s_status x = s_status y) C1 C2 ->
  voters C1 < 2 * votes C1 -> voters C2 < 2 * votes C2 ->
  exists i x y, C1 !! i = Some x /\ C2 !! i = Some y /\ granted x /\ granted y.
Proof.
  intros HF H1 H2. assert (voters C1 < votes C1 + votes C2) as Hsum.
  { assert (voters C1 = voters C2) as E; [|lia]. clear H1 H2. unfold voters.
    induction HF as [|x y C1 C2 [_ Hs] HF IH]; [done|]. rewrite !filter_cons.
    assert (voting x <-> voting y) by (unfold voting; by rewrite Hs).
    repeat case_decide; simpl; try lia; tauto. }
  clear H1 H2. unfold voters, votes in Hsum.
  induction HF as [|x y C1 C2 [_ Hs] HF IH]; [simpl in Hsum; lia|].
  destruct (decide (granted x /\ granted y)) as [[Hx Hy]|Hn]; [by exists 0%nat, x, y|].
  destruct IH as (i & x' & y' & ? & ? & ? & ?); [|by exists (S i), x', y'].
  assert (voting x <-> voting y) by (unfold voting; by rewrite Hs).
  rewrite !filter_cons in Hsum. unfold granted in *.
  repeat case_decide; simpl in *; try lia; tauto.
Qed.

(** A round of a candidacy: the next term, the candidate's own vote counted
    once, and a request that carries the index and the term of its last entry;
    it leads at once only in a cluster with a single voting member. *)
Theorem candidacy_round k mem s L C :
  inv s L C -> locks s = state_locked -> m_state (g_me s) = CANDIDATE ->
  m_current_term (g_me s) + 1 < 2 ^ 64 -> roomy s L C 1 ->
  wp tolerated (candidate_round k mem) s (fun r s' => exists L' C',
    inv s' L' C' /\ locks s' = state_locked /\ round_spec r s s' L L' C C').
Proof. apply candidate_round_ok. Qed.

(** C11. AppendEntries at a follower: an entry the follower has committed stays
    where it is; on success the log is a prefix of the old one, which holds the
    previous entry of the request (or ends where the follower's snapshot does),
    followed by the entries of the request with consecutive indices; otherwise
    only uncommitted entries after the last match are removed. *)
Theorem append_keeps_committed k req s L C :
  inv s L C -> locks s = no_locks -> is_u64 (ra_term req) -> is_u64 (ra_prev_log_index req) ->
  is_u64 (ra_leader_commit req) -> Forall entry_ok (ra_entries req) ->
  ra_n_entries req = Z.of_nat (length (ra_entries req)) ->
  roomy s L C (Z.of_nat (length (ra_entries req))) ->
  wp tolerated (handle_append_entries_request k req) s (fun r s' => exists L' C',
    inv s' L' C' /\ locks s' = no_locks /\
    take (committed s) L `prefix_of` L' /\
    m_commit_index (g_me s) <= m_commit_index (g_me s') /\
    (ra_term req < m_current_term (g_me s) -> pa_success r = 0 /\ L' = L) /\
    (m_current_term (g_me s) <= ra_term req -> exists L1, checked req s L L1 /\
       (pa_success r = 1 /\ consistent req s L1 /\
          L' = L1 ++ renumber (l_index_offset (lg (g_raft_log s)) + Z.of_nat (length L1) + 1)
                       (ra_entries req) \/
        pa_success r = 0 /\ ~ consistent req s L1 /\ L' = L1))).
Proof.
  intros. eapply wp_mono; [by apply (handle_append_ok k req s L C)|].
  intros r s' (L' & C' & I' & Hk' & []). exists L', C'. repeat (split; [done|]). split; [|done].
  intros Hst. destruct (as_stale Hst) as (? & ? & ?). done.
Qed.

(** C16. A follower commits and applies exactly up to the smaller of the
    leader's commit index and its own last index, never less than before, and
    nothing when it refuses. *)
Theorem append_commits k req s L C :
  inv s L C -> locks s = no_locks -> is_u64 (ra_term req) -> is_u64 (ra_prev_log_index req) ->
  is_u64 (ra_leader_commit req) -> Forall entry_ok (ra_entries req) ->
  ra_n_entries req = Z.of_nat (length (ra_entries req)) ->
  roomy s L C (Z.of_nat (length (ra_entries req))) -> m_state (g_me s) <> LEADER ->
  wp tolerated (handle_append_entries_request k req) s (fun r s' =>
    m_last_applied (g_me s') = m_commit_index (g_me s') /\
    m_commit_index (g_me s') =
      if pa_success r =? 1
      then Z.max (m_commit_index (g_me s))
             (Z.min (ra_leader_commit req) (l_last_log_index (lg (g_raft_log s'))))
      else m_commit_index (g_me s)).
Proof.
  intros. eapply wp_mono; [by apply (handle_append_ok k req s L C)|].
  intros r s' (L' & C' & I' & Hk' & []). split; [apply I'|].
  destruct (Z.eqb_spec (pa_success r) 1) as [Hs|Hs]; [apply as_follower; [by left|done]|].
  apply as_rejected. destruct (Z.lt_ge_cases (ra_term req) (m_current_term (g_me s))) as [Hlt|Hge].
  - by destruct (as_stale Hlt).
  - by destruct (as_log Hge) as (? & _ & [(? & _)|(? & _)]).
Qed.

(** C17. The leader learns from an answer of its term only: it notes the
    follower's indices, and moves its commit index forward only to an entry of
    its own term that a majority holds. *)
Theorem leader_commits_quorum reply s L C :
  inv s L C -> locks s = no_locks -> is_u64 (pa_term reply) ->
  is_u64 (pa_last_log_index reply) -> Z.of_nat (length C) + 1 < 2 ^ 32 ->
  wp tolerated (handle_append_entries_reply reply) s (fun _ s' => exists C',
    inv s' L C' /\ locks s' = no_locks /\
    (C' = C \/ exists i x, C !! i = Some x /\ s_server_id x = pa_server_id reply /\
       m_state (g_me s) = LEADER /\ pa_term reply = m_current_term (g_me s) /\
       C' = <[i := noted (el_now (g_elec s)) reply x]> C) /\
    m_commit_index (g_me s) <= m_commit_index (g_me s') /\
    (m_commit_index (g_me s) < m_commit_index (g_me s') ->
     m_state (g_me s) = LEADER /\ pa_success reply <> 0 /\
     quorum (m_commit_index (g_me s')) C' /\
     exists e, entry_at s L (m_commit_index (g_me s')) = Some e /\
       e_term e = m_current_term (g_me s))).
Proof.
  intros. eapply wp_mono; [by apply (handle_append_reply_ok reply s L C)|].
  intros [] s' (C' & I' & Hk' & []). exists C'. repeat (split; [done|]).
  intros Hgt. destruct (rp_safe Hgt) as (? & _ & ? & _ & ? & ?). done.
Qed.

(** Committing: the leader commits the newest index it is asked for when
    a majority holds its entry and the entry is of the leader's term; the flag
    that blocks configuration changes is cleared exactly when a configuration
    entry becomes committed; everything committed is applied on return. *)
Theorem commit_newest_and_release n s L C :
  inv s L C -> k_raft (locks s) = false -> k_cfg (locks s) = false -> k_repl (locks s) = false ->
  Z.of_nat (length C) + 1 < 2 ^ 32 -> m_commit_index (g_me s) <= n < 2 ^ 64 ->
  m_state (g_me s) = LEADER ->
  wp never (raft_commit_log_entries n) s (fun _ s' =>
    inv s' L C /\
    m_commit_index (g_me s) <= m_commit_index (g_me s') <= n /\
    (forall e, m_commit_index (g_me s) < n -> entry_at s L n = Some e ->
      e_term e = m_current_term (g_me s) -> quorum n C -> m_commit_index (g_me s') = n) /\
    g_config s' = (if existsb is_config (entries_between s L (m_commit_index (g_me s) + 1)
                                           (m_commit_index (g_me s')))
                   then with_changing 0 (g_config s) else g_config s)).
Proof.
  intros I Hr Hc Hp Hmax Hn Hl.
  eapply wp_mono; [by apply (commit_ok s L C n); try apply I|].
  intros [] s' (Co' & F & []). split; [split; [done|by apply F, I|done]|].
  split; [lia|]. split; [by eauto|]. by apply cs_released.
Qed.

(** C18. The snapshot of the configuration a server takes restores, installed
    at another server, the same members with the same addresses and statuses;
    the installed indices are those of the snapshot and the log is empty. *)
Theorem snapshot_restores_members x s1 L1 C1 s2 L2 C2 :
  core s1 L1 C1 -> Forall member_wf C1 -> 0 < Z.of_nat (length C1) < 2 ^ 31 ->
  inv s2 L2 C2 -> k_raft (locks s2) = false -> k_cfg (locks s2) = false ->
  k_repl (locks s2) = false -> sn_raft_pipe (g_snap s2) = None ->
  exists meta data, create_raft_config_snapshot true s1 = Ok (meta, data) s1 /\
    (x = RaftSnapshot (pm_last_term meta) (pm_last_index meta) (pm_dlen meta) (pm_items meta)
           (Some data) ->
     wp never (commit_raft_config_snapshot x) s2 (fun _ s' => exists C',
       core s' [] C' /\ member_of <$> C' = member_of <$> C1 /\
       m_commit_index (g_me s') = m_last_applied (g_me s1) /\
       m_last_applied (g_me s') = m_last_applied (g_me s1) /\
       l_last_log_index (lg (g_raft_log s')) = m_last_applied (g_me s1))).
Proof.
  intros Co1 Hw Hlen I2 Hr Hc Hp Hn. eexists _, _. split; [by apply (create_snapshot_ok s1 L1 C1)|].
  cbn [pm_last_term pm_last_index pm_dlen pm_items]. intros ->.
  assert (snapshot_ok (snapshot_of (m_current_term (g_me s1)) (m_last_applied (g_me s1)) C1)
    (member_of <$> C1)) as K.
  { pose proof (lr_max _ _ (co_log _ _ _ Co1)). pose proof (lr_offset _ _ (co_log _ _ _ Co1)).
    pose proof (co_applied _ _ _ Co1). pose proof (co_commit _ _ _ Co1).
    pose proof (co_last _ _ _ Co1). pose proof (co_term _ _ _ Co1).
    apply snapshot_of_ok; try done; [lia|]. apply (rep_ids _ _ (co_cfg _ _ _ Co1)). }
  eapply wp_mono; [by apply (commit_snapshot_ok _ (member_of <$> C1) s2 L2 C2 I2)|].
  intros [] s' [Co' _ Em _ _ _ Ho]. eexists. split; [exact Co'|]. rewrite Em, <- list_fmap_compose.
  split; [|split; [done|split; [done|]]].
  - apply list_eq. intros i. rewrite !list_lookup_fmap. destruct (C1 !! i) as [y|] eqn:Ey; [|done].
    cbn. f_equal. apply installed_member. by eapply Forall_lookup_1.
  - pose proof (core_last_length _ _ _ Co') as Hl. cbn in Hl, Ho. rewrite Hl, Ho. lia.
Qed.

(** C19. A snapshot request that is neither outdated nor already installed
    replaces the whole state: members, empty log, indices, the stored snapshot;
    any other request changes nothing but the term. *)
Theorem snapshot_request realloc_ok req X s L C :
  inv s L C -> locks s = no_locks -> is_u64 (rq_term req) -> snapshot_ok (rq_snapshot req) X ->
  wp (oom realloc_ok) (handle_raft_snapshot_request realloc_ok req) s (fun r s' => exists L' C',
    inv s' L' C' /\ locks s' = no_locks /\ snapshot_spec req X s s' L L' C C' r).
Proof. apply handle_snapshot_ok. Qed.

(** The term of a server is not monotonic: after the installation of a
    snapshot it is the term at which the snapshot was taken, even below the
    server's own term, so that it may vote again in a term in which it has
    voted. *)
Theorem snapshot_lowers_term req X s L C :
  inv s L C -> locks s = no_locks -> is_u64 (rq_term req) -> snapshot_ok (rq_snapshot req) X ->
  m_current_term (g_me s) <= rq_term req -> sn_raft_in_progress (g_snap s) = false ->
  ~ same_snapshot (rq_snapshot req) (sn_raft_snapshot (g_snap s)) ->
  rs_last_term (rq_snapshot req) < m_current_term (g_me s) ->
  exists r s', handle_raft_snapshot_request true req s = Ok r s' /\ rp_success r = 1 /\
    m_current_term (g_me s') < m_current_term (g_me s).
Proof.
  intros I Hk Ht K Hge Hip Hne Hlow.
  pose proof (handle_snapshot_ok true req X s L C I Hk Ht K) as W. unfold wp in W.
  destruct (handle_raft_snapshot_request true req s) as [r s'|f]; [|by destruct W].
  destruct W as (L' & C' & _ & _ & Sp). exists r, s'. split; [done|].
  destruct (ss_installed _ _ _ _ _ _ _ _ _ Sp Hge Hip Hne) as (? & _ & _ & Et & _).
  split; [done|]. by rewrite Et.
Qed.

(** C22. A server joins at the leader only: a new one becomes a non-voting
    member behind the others, a known one starts again from the index it asks
    for; nobody else's membership changes. *)
Theorem membership_request req src s L C :
  inv s L C -> locks s = no_locks -> (String.length (mr_server_id req) < sizeof_server_id)%nat ->
  Z.of_nat (length C) + 1 < 2 ^ 32 ->
  wp never (handle_membership_request req src) s (fun _ s' => exists C',
    inv s' L C' /\ locks s' = no_locks /\ voters C' = voters C /\
    C' = if bool_decide (m_state (g_me s) = LEADER) &&
            negb (bool_decide (mr_server_id req = m_self_id (g_me s)))
         then joined req src C else C).
Proof.
  intros. eapply wp_mono; [by apply (handle_membership_ok req src s L C)|].
  intros [] s' (C' & I' & Hk' & _ & _ & _ & EC). exists C'. split; [done|]. split; [done|].
  split; [|done]. subst C'. destruct (_ && _); [|done]. unfold joined.
  destruct (list_find _ C) as [[i x]|] eqn:Hf.
  - apply list_find_Some in Hf as (Hi & _). rewrite (voters_insert _ _ x) by done.
    assert (b2z (bool_decide (voting (restart_indexes (mr_last_log_index req) x))) =
      b2z (bool_decide (voting x))) by (f_equal; by apply bool_decide_ext). lia.
  - rewrite voters_app, voters_cons. rewrite bool_decide_false by done. by rewrite Z.add_0_r.
Qed.

End Properties.

(** ** The properties at work *)

Definition follower : St := server FOLLOWER "" "" 0.
Definition candidate : St := server CANDIDATE "a" "" 0.
Definition leader : St := server LEADER "a" "a" 0.

Definition ask_b : request_vote_t := ReqVote 2 2 1 "b".


(** The follower after a compaction of its whole log. *)
Definition compacted : St := set_raft_log (LogSt (LogEntries 0 1048576 12 2 2 (l_entries (lg log0))) false) (server FOLLOWER "" "" 2).

Lemma compacted_inv : inv compacted [] members.
Proof.
  destruct (server_core FOLLOWER "" "" 2) as [C1 C2 C3 C4 C5 C6 C7 C8 C9]; [lia|].
  split; [|split; [done|constructor]|done]. split; try done.
  destruct log0_rep as [[r [E R]] ? ? ? ? ?]. split; try done. by exists r.
Qed.

Lemma vote_request_deadlock_witness :
  handle_vote_request ask_b compacted = Fault (SelfDeadlock raft_state_lock).
Proof. apply (vote_request_deadlock ask_b compacted members); [apply compacted_inv|done..]. Defined.

(** The follower after it voted for [b]. *)
Definition voted : St := state_of follower (handle_vote_request ask_b follower).

Lemma voted_run : handle_vote_request ask_b follower = Ok (RepVote 2 1 "a") voted.
Proof. by vm_compute. Qed.

Lemma follower_inv : inv follower entries members.
Proof. by apply server_inv. Qed.

Lemma voted_inv : inv voted entries members /\ locks voted = no_locks.
Proof.
  destruct (wp_eq_inv _ _ _ _ _ _ voted_run
    (handle_vote_request_ok ask_b follower entries members follower_inv eq_refl ltac:(done) ltac:(done)))
    as (I & K & _). done.
Qed.



(** The follower at an instant after its deadline. *)
Definition expired : St := set_elec (ElecSt (Timespec 4 0) false 3000 (Timespec 5 0) []) follower.

Lemma expired_inv : inv expired entries members.
Proof. destruct follower_inv as [Co [] Ha]. split; [by apply (core_same follower)|by split; [|constructor]|done]. Qed.

Lemma expired_follower_refuses_witness :
  wp tolerated (handle_vote_request ask_b) expired (fun r s' =>
    pv_granted r = 0 /\
    m_current_term (g_me s') = Z.max (m_current_term (g_me expired)) (rv_term ask_b)) /\
  up_to_date ask_b expired entries.
Proof.
  split; [by apply (expired_follower_refuses ask_b expired entries members expired_inv)|].
  exists (noop 1 2). split; [done|]. by right.
Defined.

(** The candidate with its own vote counted. *)
Definition standing : St :=
  set_config (state_of config0 (raft_config_set_new_vote "a" config0))
    (set_me (me_rcv_votes 1 (g_me candidate)) candidate).
Definition standing_members : list server_t := <[0%nat := upd_voted_for_me 1 (srv "a" 0)]> members.

Lemma standing_inv : inv standing entries standing_members.
Proof.
  destruct (set_new_vote_rep config0 members "a" 0%nat (srv "a" 0) config0_rep eq_refl eq_refl)
    as (c & E & R & L & T & _).
  unfold standing, standing_members. rewrite E. cbn [state_of].
  destruct (server_inv CANDIDATE "a" "" 0) as [Co [] Ha]; [lia|].
  destruct Co as [D1 D2 D3 D4 D5 D6 D7 D8 D9].
  split; [split; try done; cbn; rewrite T; constructor|by split; [|constructor]|done].
Qed.

Lemma elected_by_majority_witness :
  wp tolerated (handle_vote_reply sys_ok mem_ok (RepVote 1 1 "b")) standing (fun _ s' =>
    exists L' C',
    inv s' L' C' /\ locks s' = no_locks /\ votes_ok s' C' /\ ids C' = ids standing_members /\
    (m_state (g_me s') = LEADER -> m_state (g_me standing) <> LEADER ->
     m_state (g_me standing) = CANDIDATE /\
     m_current_term (g_me standing) = pv_term (RepVote 1 1 "b") /\
     voters C' < 2 * votes C' /\ L' = entries ++ [noop_entry standing]) /\
    (m_state (g_me s') <> LEADER -> L' = entries)) /\
  m_state (g_me (state_of standing (handle_vote_reply sys_ok mem_ok (RepVote 1 1 "b") standing)))
    = LEADER.
Proof.
  split; [|by vm_compute].
  apply (elected_by_majority sys_ok mem_ok _ standing entries standing_members standing_inv);
    [by vm_compute|by vm_compute|done|by vm_compute].
Defined.

Lemma majorities_intersect_witness :
  exists i x y, standing_members !! i = Some x /\ standing_members !! i = Some y /\
    granted x /\ granted y.
Proof.
  destruct (majorities_intersect (take 1 standing_members) (take 1 standing_members))
    as (i & x & y & Hx & Hy & Gx & Gy); [by repeat constructor|by vm_compute|by vm_compute|].
  exists i, x, y. rewrite lookup_take_Some in Hx. rewrite lookup_take_Some in Hy.
  by destruct Hx, Hy.
Defined.

Lemma candidacy_round_witness :
  wp tolerated (candidate_round sys_ok mem_ok) (set_state_lock true candidate) (fun r s' =>
    exists L' C', inv s' L' C' /\ locks s' = state_locked /\
      round_spec r (set_state_lock true candidate) s' entries L' members C') /\
  returns (candidate_round sys_ok mem_ok (set_state_lock true candidate)) = true.
Proof.
  split; [|by vm_compute].
  apply (candidacy_round sys_ok mem_ok _ entries members);
    [by apply inv_state_lock, server_inv|done..].
Defined.

Definition heartbeat : request_append_entries_t := ReqAppend 1 "b" 2 1 2 1 [noop 1 0].

Lemma append_keeps_committed_witness :
  wp tolerated (handle_append_entries_request sys_ok heartbeat) follower (fun r s' => exists L' C',
    inv s' L' C' /\ locks s' = no_locks /\
    take (committed follower) entries `prefix_of` L' /\
    m_commit_index (g_me follower) <= m_commit_index (g_me s') /\
    (ra_term heartbeat < m_current_term (g_me follower) -> pa_success r = 0 /\ L' = entries) /\
    (m_current_term (g_me follower) <= ra_term heartbeat ->
     exists L1, checked heartbeat follower entries L1 /\
       (pa_success r = 1 /\ consistent heartbeat follower L1 /\
          L' = L1 ++ renumber (l_index_offset (lg (g_raft_log follower)) + Z.of_nat (length L1) + 1)
                       (ra_entries heartbeat) \/
        pa_success r = 0 /\ ~ consistent heartbeat follower L1 /\ L' = L1))).
Proof.
  apply (append_keeps_committed sys_ok heartbeat follower entries members follower_inv); try done.
  by repeat constructor.
Defined.

Lemma append_commits_witness :
  wp tolerated (handle_append_entries_request sys_ok heartbeat) follower (fun r s' =>
    m_last_applied (g_me s') = m_commit_index (g_me s') /\
    m_commit_index (g_me s') =
      if pa_success r =? 1
      then Z.max (m_commit_index (g_me follower))
             (Z.min (ra_leader_commit heartbeat) (l_last_log_index (lg (g_raft_log s'))))
      else m_commit_index (g_me follower)) /\
  m_commit_index (g_me (state_of follower (handle_append_entries_request sys_ok heartbeat follower))) = 2.
Proof.
  split; [|by vm_compute].
  apply (append_commits sys_ok heartbeat follower entries members follower_inv); try done.
  by repeat constructor.
Defined.

Definition answer_b : reply_append_entries_t := RepAppend 1 2 1 "b".

Lemma leader_inv : inv leader entries members.
Proof. by apply server_inv. Qed.

Lemma leader_commits_quorum_witness :
  wp tolerated (handle_append_entries_reply answer_b) leader (fun _ s' => exists C',
    inv s' entries C' /\ locks s' = no_locks /\
    (C' = members \/ exists i x, members !! i = Some x /\ s_server_id x = pa_server_id answer_b /\
       m_state (g_me leader) = LEADER /\ pa_term answer_b = m_current_term (g_me leader) /\
       C' = <[i := noted (el_now (g_elec leader)) answer_b x]> members) /\
    m_commit_index (g_me leader) <= m_commit_index (g_me s') /\
    (m_commit_index (g_me leader) < m_commit_index (g_me s') ->
     m_state (g_me leader) = LEADER /\ pa_success answer_b <> 0 /\
     quorum (m_commit_index (g_me s')) C' /\
     exists e, entry_at leader entries (m_commit_index (g_me s')) = Some e /\
       e_term e = m_current_term (g_me leader))) /\
  m_commit_index (g_me (state_of leader (handle_append_entries_reply answer_b leader))) = 2.
Proof.
  split; [|by vm_compute].
  by apply (leader_commits_quorum answer_b leader entries members leader_inv).
Defined.

Lemma commit_newest_and_release_witness :
  wp never (raft_commit_log_entries 2) leader (fun _ s' =>
    inv s' entries members /\
    m_commit_index (g_me leader) <= m_commit_index (g_me s') <= 2 /\
    (forall e, m_commit_index (g_me leader) < 2 -> entry_at leader entries 2 = Some e ->
      e_term e = m_current_term (g_me leader) -> quorum 2 members ->
      m_commit_index (g_me s') = 2) /\
    g_config s' = (if existsb is_config (entries_between leader entries
                        (m_commit_index (g_me leader) + 1) (m_commit_index (g_me s')))
                   then with_changing 0 (g_config leader) else g_config leader)).
Proof. by apply (commit_newest_and_release 2 leader entries members leader_inv). Defined.

Lemma members_wf : Forall member_wf members.
Proof. repeat constructor; try (by left); done. Qed.

(** The snapshot of the members, taken in term 0 at index 7. *)
Definition old_snapshot : raft_snapshot_request_t := ReqRsnap 1 "b" (snapshot_of 0 7 members).

Lemma old_snapshot_ok : snapshot_ok (rq_snapshot old_snapshot) (member_of <$> members).
Proof. apply snapshot_of_ok; try done; [apply config0_rep|apply members_wf]. Qed.

Lemma snapshot_restores_members_witness : exists meta data,
  create_raft_config_snapshot true leader = Ok (meta, data) leader /\
  wp never (commit_raft_config_snapshot (RaftSnapshot (pm_last_term meta) (pm_last_index meta)
      (pm_dlen meta) (pm_items meta) (Some data))) follower (fun _ s' => exists C',
    core s' [] C' /\ member_of <$> C' = member_of <$> members /\
    m_commit_index (g_me s') = m_last_applied (g_me leader) /\
    m_last_applied (g_me s') = m_last_applied (g_me leader) /\
    l_last_log_index (lg (g_raft_log s')) = m_last_applied (g_me leader)).
Proof.
  pose proof (fun x => snapshot_restores_members x leader entries members follower entries members
    (inv_core _ _ _ leader_inv) members_wf ltac:(done) follower_inv eq_refl eq_refl eq_refl eq_refl) as P.
  destruct (P (RaftSnapshot 0 0 0 0 None)) as (meta & data & E & _). exists meta, data.
  split; [done|]. destruct (P (RaftSnapshot (pm_last_term meta) (pm_last_index meta)
      (pm_dlen meta) (pm_items meta) (Some data))) as (meta' & data' & E' & Q).
  rewrite E in E'. injection E' as -> ->. by apply Q.
Defined.

Lemma snapshot_request_witness :
  wp (oom true) (handle_raft_snapshot_request true old_snapshot) follower (fun r s' => exists L' C',
    inv s' L' C' /\ locks s' = no_locks /\
    snapshot_spec old_snapshot (member_of <$> members) follower s' entries L' members C' r).
Proof.
  by apply (snapshot_request true old_snapshot _ follower entries members follower_inv eq_refl);
    [|apply old_snapshot_ok].
Defined.

Lemma snapshot_lowers_term_witness : exists r s',
  handle_raft_snapshot_request true old_snapshot follower = Ok r s' /\ rp_success r = 1 /\
  m_current_term (g_me s') < m_current_term (g_me follower).
Proof.
  apply (snapshot_lowers_term old_snapshot (member_of <$> members) follower entries members
    follower_inv eq_refl); try done; [apply old_snapshot_ok|]. by intros [_ ?].
Defined.

Lemma membership_request_witness :
  wp never (handle_membership_request (ReqMember 0 "d") "d:4560") leader (fun _ s' => exists C',
    inv s' entries C' /\ locks s' = no_locks /\ voters C' = voters members /\
    C' = if bool_decide (m_state (g_me leader) = LEADER) &&
            negb (bool_decide (mr_server_id (ReqMember 0 "d") = m_self_id (g_me leader)))
         then joined (ReqMember 0 "d") "d:4560" members else members).
Proof.
  by apply (membership_request (ReqMember 0 "d") "d:4560" leader entries members leader_inv eq_refl);
    [apply (bool_decide_unpack _); vm_compute|].
Defined.
