(* ===== verification/Components.v ===== *)
(** * The properties of the containers and of the configuration

    Each container against its specification, over whole histories of
    operations, with an instance on a concrete history. *)

From S2P Require Import Prelude Monad Refine Types LogRing Mtl Config Quorum.
From S2P Require Import Membership HashTable HashMap State Log Containers Serialize.
From S2P Require Import Snapshot PrimaryCtx Sample.
Open Scope Z_scope.

(** C23. The ring of log entries: whatever operations are called on a new ring,
    in any order and number, each answers as the bounded double-ended queue
    does; the ring holds one entry less than its slots. *)
Theorem log_ring_history size r ops :
  is_u32 size -> log_ring_create true true size = inr r ->
  exists r', run_all Ring.run ops r = Ok (spec_all (Ring.spec (Z.max 16 size - 1)) ops []).1 r' /\
    ring_rep r' (spec_all (Ring.spec (Z.max 16 size - 1)) ops []).2.
Proof.
  intros Hs Hc. destruct (create_ok size r Hs Hc) as [R E].
  assert (Ring.rep (Z.max 16 size - 1) r []) as R0
    by (split; [done|]; by rewrite (log_ring_size_rep r [] R), E).
  assert (ok_all (Ring.spec (Z.max 16 size - 1)) (fun _ _ => True) ops []) as Hok
    by (generalize (@nil log_entry_t); induction ops; by intros).
  destruct (refines_all Ring.run _ _ _ ops r [] R0 Hok) as (r' & E' & [R' _]). by exists r'.
Qed.

(** Eighteen insertions: the ring of 16 slots takes the first fifteen. *)
Lemma log_ring_history_witness :
  let ops := replicate 18 (Ring.Insert (noop 1 1)) ++ [Ring.Count; Ring.Extract; Ring.ExtractR; Ring.Count] in
  exists r r', log_ring_create true true 10 = inr r /\
    run_all Ring.run ops r = Ok (spec_all (Ring.spec 15) ops []).1 r' /\
    drop 15 (spec_all (Ring.spec 15) ops []).1 =
      [Ring.Int 0; Ring.Int 0; Ring.Int 0; Ring.Int 15; Ring.Ptr (Some (noop 1 1));
       Ring.Ptr (Some (noop 1 1)); Ring.Int 13].
Proof.
  intros ops. destruct (log_ring_create true true 10) as [|r] eqn:E; [done|].
  destruct (log_ring_history 10 r ops ltac:(done) E) as (r' & E' & _).
  exists r, r'. split; [done|]. split; [exact E'|by vm_compute].
Defined.

(** C24. The log of the xApp: from its initialisation on, appends, lookups by
    index, compactions and complete removals answer as on a list of entries
    behind an offset. An append to a full log is refused and changes nothing,
    the indices are consecutive, the size is exact modulo 2^64. *)
Theorem log_history size threshold s ops :
  is_u32 size -> size <> 0 -> threshold <> 0 -> (exists k, 0 <= k /\ Z.max 16 size = 2 ^ k) ->
  lg_lock s = false ->
  let cap := Z.max 16 size - 1 in
  let spec := LogOps.spec cap (u32 (threshold * 1048576)) ((4 * cap) / 5) in
  ok_all spec (LogOps.ok entry_size) ops (0, []) ->
  exists s0 s', init_log true true SERVER_LOG size threshold s = Ok (1, ENONE) s0 /\
    run_all (LogOps.run server_log_lock entry_size) ops s0 = Ok (spec_all spec ops (0, [])).1 s' /\
    log_rep s' (spec_all spec ops (0, [])).2.2 /\
    l_index_offset (lg s') = (spec_all spec ops (0, [])).2.1.
Proof.
  intros Hs H0 Ht Hp Hk cap spec Hok.
  destruct (init_log_rep SERVER_LOG size threshold s) as (s0 & E & R & Ho & Hc & Hct & Hmt & Hl);
    [by right|done..|].
  assert (LogOps.rep entry_size cap (u32 (threshold * 1048576)) ((4 * cap) / 5) s0 (0, [])) as R0
    by (split; try done; by rewrite Hl).
  pose proof (LogOps.refines server_log_lock entry_size (fun _ _ => eq_refl) cap
    (u32 (threshold * 1048576)) ((4 * cap) / 5)) as Rf.
  destruct (refines_all (LogOps.run server_log_lock entry_size) _ _ _ ops s0 (0, []) R0 Hok) as (s' & E' & [R' _ Ho' _ _ _ _]).
  by exists s0, s'.
Qed.

Lemma log_history_witness :
  let ops := [LogOps.Append (noop 1 0); LogOps.Append (noop 2 0); LogOps.Append (noop 2 0);
    LogOps.Compact 2; LogOps.Get 2; LogOps.Get 3; LogOps.Last; LogOps.FreeAll 9;
    LogOps.Append (noop 4 0); LogOps.Get 10] in
  exists s0 s', init_log true true SERVER_LOG 16 1 init_log_st = Ok (1, ENONE) s0 /\
    run_all (LogOps.run server_log_lock entry_size) ops s0 =
      Ok [LogOps.Int 1; LogOps.Int 1; LogOps.Int 1; LogOps.Int 0; LogOps.Ptr None;
          LogOps.Ptr (Some (noop 2 3)); LogOps.Int 3; LogOps.Int 0; LogOps.Int 1;
          LogOps.Ptr (Some (noop 4 10))] s'.
Proof.
  intros ops. destruct (log_history 16 1 init_log_st ops) as (s0 & s' & E0 & E & _);
    [done|done|done|by exists 4|done|by repeat split|].
  exists s0, s'. split; [exact E0|exact E].
Defined.

(** C25. The hash table: from its construction on, insertions (with or without
    memory), removals and lookups answer as on a finite map; the heap holds
    exactly its elements. *)
Theorem hashtable_history kt n ops :
  0 < n -> ok_all Table.spec (Table.ok kt) ops ∅ ->
  exists t t', hashtable_new true true kt n = Some t /\
    run_all Table.run ops t = Ok (spec_all Table.spec ops ∅).1 t' /\
    ht_rep t' (spec_all Table.spec ops ∅).2 /\ t_key_type t' = kt.
Proof.
  intros Hn Hok. destruct (hashtable_new_ok kt n Hn) as (t & E & R & Hkt & _).
  destruct (refines_all Table.run _ _ (Table.rep kt) ops t ∅ (conj R Hkt) Hok) as (t' & E' & R' & K').
  by exists t, t'.
Qed.

(** Two buckets and five keys: the chains collide. *)
Lemma hashtable_history_witness :
  let ops := [Table.Insert true true (KStr "a") 1; Table.Insert true true (KStr "b") 2;
    Table.Insert true true (KStr "c") 3; Table.Insert true true (KStr "d") 4;
    Table.Insert false true (KStr "e") 5; Table.Insert false false (KStr "c") 7;
    Table.Delete (KStr "a"); Table.Get (KStr "c"); Table.Get (KStr "a"); Table.Get (KStr "d")] in
  exists t t', hashtable_new true true STRING_KEY 2 = Some t /\
    run_all Table.run ops t = Ok
      [(1, ENONE); (1, ENONE); (1, ENONE); (1, ENONE); (0, ENOMEM); (1, ENONE); (1, ENONE);
       (7, ENONE); (0, ENONE); (4, ENONE)] t'.
Proof.
  intros ops. destruct (hashtable_history STRING_KEY 2 ops) as (t & t' & E & E' & _);
    [done|by repeat split|].
  exists t, t'. split; [exact E|exact E'].
Defined.

(** C26. The contexts a snapshot of the xApp covers are exactly those this
    server is the primary of, each once, for any number of contexts; the array
    that collects them is never overrun and the table is unchanged. *)
Theorem primary_contexts_exact t m :
  ht_rep t m -> t_key_type t = STRING_KEY -> Z.of_nat (size m) < 2 ^ 31 ->
  exists names, primary_contexts true t = Ok names t /\ NoDup names /\
    forall name, name ∈ names <-> m !! KStr name = Some RFT_PRIMARY.
Proof. apply primary_contexts_ok. Qed.

Definition three_roles : list Table.op :=
  [Table.Insert true true (KStr "x") RFT_PRIMARY; Table.Insert true true (KStr "y") RFT_BACKUP;
   Table.Insert true true (KStr "z") RFT_PRIMARY].

Lemma primary_contexts_exact_witness : exists t names,
  ht_rep t (spec_all Table.spec three_roles ∅).2 /\
  primary_contexts true t = Ok names t /\ "x" ∈ names /\ "y" ∉ names.
Proof.
  assert (ok_all Table.spec (Table.ok STRING_KEY) three_roles ∅) as Hok by (by repeat split).
  destruct (refines_all Table.run _ _ (Table.rep STRING_KEY) three_roles table0 ∅
    (conj table0_rep eq_refl) Hok) as (t & _ & R & K).
  destruct (primary_contexts_exact t _ R K) as (names & E & _ & Hn); [by vm_compute|].
  exists t, names. split; [exact R|]. split; [exact E|]. rewrite !Hn. split; [by vm_compute|].
  by vm_compute.
Defined.

Section Members.
Context `{Rmr}.

(** C27. The configuration: from the empty configuration on, joining, removing,
    status changes, votes and quorum tests answer as on a list of members with
    distinct identifiers; the counter of voting members is exact, so that a
    majority is more than half of them (the leader counted in addition for
    replication). *)
Theorem members_history self ops :
  ok_all Members.spec Members.ok ops ([], 0) ->
  exists s', run_all (Members.run self) ops init_config = Ok (spec_all Members.spec ops ([], 0)).1 s' /\
    cfg_rep s' (spec_all Members.spec ops ([], 0)).2.1 /\ cf_lock s' = false.
Proof.
  intros Hok. assert (Members.rep init_config ([], 0)) as R0.
  { split; [apply cfg_rep_init|done|constructor|done]. }
  destruct (refines_all (Members.run self) _ _ _ ops init_config ([], 0) R0 Hok) as (s' & E & [R F _ _]).
  by exists s'.
Qed.
End Members.

Lemma members_history_witness :
  let ops := [Members.Add "a" "a:4560" 0; Members.SetStatus "a" VOTING_MEMBER;
    Members.Add "b" "b:4560" 3; Members.SetStatus "b" VOTING_MEMBER; Members.Add "b" "b:1" 5;
    Members.NewVote "b"; Members.NewVote "b"; Members.MajorityOfVotes 1; Members.MajorityOfVotes 2;
    Members.MajorityOfMatch 4; Members.MajorityOfMatch 6; Members.Remove "b"; Members.Number;
    Members.SetStatus "c" VOTING_MEMBER; Members.SetStatus "a" 7] in
  exists s', run_all (Members.run "a") ops init_config =
    Ok [(1, ENONE); (1, ENONE); (1, ENONE); (1, ENONE); (0, ENONE); (1, ENONE); (0, ENONE);
        (0, ENONE); (1, ENONE); (1, ENONE); (0, ENONE); (0, ENONE); (1, ENONE); (0, ENODATA);
        (0, EINVAL)] s'.
Proof.
  intros ops. destruct (members_history "a" ops) as (s' & E & _).
  - repeat split; try (simpl; lia); by vm_compute.
  - exists s'. exact E.
Defined.
