(* ===== verification/WireProps.v ===== *)
(** * The properties of the messages and of the numbers

    Serialization against deserialization with its bounds, the byte order of
    the headers, the parsers of the configuration values and the arithmetic of
    time. *)

From S2P Require Import Prelude Monad Types LogRing Mtl State Utils Log Serialize Sample.
Open Scope Z_scope.

Section Wire.
Context `{Rmr} `{Host} (pad : bytes) (pad_len : length pad = 4%nat).

(** C28. Raft entries survive the trip: what the leader serializes from an index
    on is the longest run of entries that fits in the message, it stays within
    the limit and within its buffer, and the receiver reads exactly these
    entries from it, whatever follows in the payload. *)
Theorem raft_entries_roundtrip max from n lbuf s l :
  log_rep s l -> 0 < max < 2 ^ 31 -> 0 <= n ->
  l_index_offset (lg s) < from -> from - 1 + n <= l_last_log_index (lg s) ->
  let m := log_range s l from n in
  Forall raft_wire m -> Forall (fun e => esize RAFT_LOG e <= Z.of_nat (length lbuf)) m ->
  Forall (fun e => raft_entry e /\ e_context e = None /\ e_key e = None) m ->
  exists c z, serialize_log_entries pad true from n lbuf (Z.of_nat (length lbuf)) max RAFT_LOG s =
      Ok (Z.of_nat (length c), z, None) s /\
    c `prefix_of` m /\
    (forall e, m !! length c = Some e -> max < z_bytes z + esize RAFT_LOG e) /\
    z_bytes z <= max /\ z_bytes z <= Z.of_nat (length (z_buf z)) /\
    forall post, deserialize_raft_log_entries (take (Z.to_nat (z_bytes z)) (z_buf z) ++ post)
      (Z.of_nat (length c)) = Some c.
Proof using pad_len.
  intros R Hmax Hn Hfrom Hlast m Hw Hsz Hraft.
  destruct (raft_transfer pad pad_len max from n lbuf s l R Hmax Hn Hfrom Hlast Hw Hsz Hraft)
    as (c & z & E & Hp & Hnext & _ & Hrest). by exists c, z.
Qed.

(** C29. Server entries survive the trip too, when the payload goes on behind
    them for as many bytes as their context and key have: the receiver reads
    that much too far. *)
Theorem server_entries_roundtrip max from n lbuf s l :
  log_rep s l -> 0 < max < 2 ^ 31 -> 0 <= n ->
  l_index_offset (lg s) < from -> from - 1 + n <= l_last_log_index (lg s) ->
  let m := log_range s l from n in
  Forall (wire SERVER_LOG) m ->
  Forall (fun e => esize SERVER_LOG e <= Z.of_nat (length lbuf)) m ->
  exists c z, serialize_log_entries pad true from n lbuf (Z.of_nat (length lbuf)) max SERVER_LOG s =
      Ok (Z.of_nat (length c), z, None) s /\
    c `prefix_of` m /\ z_bytes z <= max /\
    forall post, Forall (fun e => e_clen e + e_klen e <= Z.of_nat (length post)) c ->
      exists es, deserialize_server_log_entries (take (Z.to_nat (z_bytes z)) (z_buf z) ++ post)
        (Z.of_nat (length c)) = Some es /\ Forall2 server_echo c es.
Proof using pad_len.
  intros R Hmax Hn Hfrom Hlast m Hw Hsz.
  destruct (server_transfer pad pad_len max from n lbuf s l R Hmax Hn Hfrom Hlast Hw Hsz)
    as (c & z & E & Hp & _ & _ & Hle & _ & Hrest). by exists c, z.
Qed.

(** What the sender has compacted is not serialized: the caller gets
    [ENODATA] and sends a snapshot instead; a range beyond the last entry ends
    the process. *)
Theorem serialize_unavailable type max from n lbuf buf_len s l :
  log_rep s l -> 0 < max -> 0 < n -> 0 < from -> from - 1 + n < 2 ^ 64 ->
  from <= l_index_offset (lg s) \/ l_last_log_index (lg s) < from - 1 + n ->
  serialize_log_entries pad true from n lbuf buf_len max type s =
    if from - 1 + n <=? l_last_log_index (lg s)
    then Ok (0, Srlz 0 lbuf buf_len, Some ENODATA) s else Fault Exit.
Proof using Type.
  clear pad_len. intros R Hmax Hn Hf Hm Hcase.
  destruct (Z.leb_spec (from - 1 + n) (l_last_log_index (lg s))).
  - apply (serialize_compacted pad type max from n lbuf buf_len s l R); lia.
  - apply (serialize_out_of_range pad type max from n lbuf buf_len s l R); lia.
Qed.

(** C30. The defect of the growing buffer: two raft entries that fit in the
    message, the second one larger than what the doubled buffer has left,
    are written past the end of the buffer. *)
Theorem serialize_buffer_overflow max e1 e2 n lbuf s l :
  log_rep s (e1 :: e2 :: l) -> 0 < max < 2 ^ 31 -> 2 <= n ->
  l_index_offset (lg s) + n <= l_last_log_index (lg s) -> raft_wire e1 -> raft_wire e2 ->
  esize RAFT_LOG e1 <= Z.of_nat (length lbuf) < 2 ^ 30 ->
  esize RAFT_LOG e1 + esize RAFT_LOG e2 <= max ->
  Z.max (2 * Z.of_nat (length lbuf)) (esize RAFT_LOG e2) < esize RAFT_LOG e1 + esize RAFT_LOG e2 ->
  serialize_log_entries pad true (l_index_offset (lg s) + 1) n lbuf (Z.of_nat (length lbuf)) max
    RAFT_LOG s = Fault OutOfBounds.
Proof using pad_len. intros. by apply (serialize_overflow pad pad_len max e1 e2 n lbuf s l). Qed.

(** The defect of the receiver: a payload that ends with a server entry is
    read past its end. *)
Theorem server_entry_overread e context key pre :
  server_wire e context key -> 0 < e_clen e ->
  deserialize_server_entry (pre ++ image pad SERVER_LOG e) (Z.of_nat (length pre)) = None.
Proof using pad_len. intros W Hc. by eapply (deserialize_server_overread pad pad_len). Qed.

(** The byte order macros are inverse to each other on 64-bit values, on
    hosts of either byte order, and their image in memory is the big-endian
    one: the snapshot headers arrive with the numbers that were put in. *)
Theorem network_byte_order x :
  is_u64 x -> NTOHLL (HTONLL x) = x /\ HTONLL (NTOHLL x) = x /\
    mem_bytes 8 (HTONLL x) = rev (le_bytes 8 x).
Proof using Type.
  clear pad_len. intros Hx. split; [by apply NTOHLL_HTONLL_id|].
  split; [by apply NTOHLL_HTONLL_id|by apply HTONLL_image].
Qed.

End Wire.

Section Numbers.
Context {S : Type} (einval_empty : bool).

(** The parsers of the environment variables read back every number of
    their type from its decimal notation, and a signed value that is out of
    range, like anything else that is no number, ends the process: a value
    that is returned is in the range of its type. *)
Theorem parse_numbers n str (s : S) :
  (INT_MIN <= n <= INT_MAX -> parse_int einval_empty (dec_string n) s = Ok n s) /\
  (is_u32 n -> parse_uint einval_empty (dec_string n) s = Ok n s) /\
  (LONG_MIN <= n <= LONG_MAX -> parse_long einval_empty (dec_string n) s = Ok n s) /\
  (is_u64 n -> parse_ulong einval_empty (dec_string n) s = Ok n s) /\
  wp only_exit (parse_int einval_empty str) s (fun v s' => INT_MIN <= v <= INT_MAX /\ s' = s) /\
  wp only_exit (parse_uint einval_empty str) s (fun v s' => is_u32 v /\ s' = s).
Proof.
  split; [apply parse_int_dec|]. split; [apply parse_uint_dec|]. split; [apply parse_long_dec|].
  split; [apply parse_ulong_dec|]. split; [|apply parse_uint_sound].
  eapply wp_mono; [apply parse_int_sound|]. by intros v s' (? & ? & _).
Qed.
End Numbers.

(** The election timer: the interval of a term lies between the minimum
    election timeout and twice that, the deadline is the clock plus this
    interval to the nanosecond, and it stays a normalised time. *)
Theorem election_timer s :
  rands_ok s -> timespec_wf (el_now s) ->
  exists t s', randomize_election_timeout s = Ok t s' /\
    ELECTION_TIMEOUT <= t <= 2 * ELECTION_TIMEOUT /\
    timespec_wf (timespec_add_ms (el_now s) t) /\
    nanos (timespec_add_ms (el_now s) t) = nanos (el_now s) + t * 1000000 /\
    timespec_lt (el_now s) (timespec_add_ms (el_now s) t) = true.
Proof.
  intros Hr Hw. destruct (randomize_range s Hr) as (t & s' & E & Ht & _). exists t, s'.
  unfold ELECTION_TIMEOUT in Ht. destruct (timespec_add_ms_nanos (el_now s) t Hw) as [Hw' Hn]; [lia|].
  split; [done|]. split; [unfold ELECTION_TIMEOUT; lia|]. split; [done|]. split; [done|].
  rewrite timespec_lt_nanos by done. apply Z.ltb_lt. lia.
Qed.

(** ** Instances *)

Definition pad4 : bytes := replicate 4 NUL.
Definition buf64 : bytes := replicate 64 NUL.

Lemma raft_entries_roundtrip_witness : exists c z,
  serialize_log_entries pad4 true 1 2 buf64 64 96 RAFT_LOG log2 = Ok (2, z, None) log2 /\
  c = entries /\
  deserialize_raft_log_entries (take (Z.to_nat (z_bytes z)) (z_buf z) ++ [NUL; NUL]) 2 = Some c.
Proof.
  destruct (raft_entries_roundtrip pad4 eq_refl 96 1 2 buf64 log2 entries log2_rep)
    as (c & z & E & Hp & _ & _ & _ & D); [done|done|done|done|..].
  1-3: by repeat constructor.
  assert (length c = 2%nat) as Hl.
  { assert (Z.of_nat (length c) = 2); [|lia].
    assert (serialize_log_entries pad4 true 1 2 buf64 64 96 RAFT_LOG log2 = Ok (2, z, None) log2) as E2.
    { revert E. vm_compute. congruence. }
    change (Z.of_nat (length buf64)) with 64 in E. rewrite E2 in E. by injection E. }
  exists c, z. rewrite Hl in E, D. split; [exact E|]. split; [|exact (D [NUL; NUL])].
  destruct Hp as [r Er]. change (log_range log2 entries 1 2) with entries in Er.
  destruct c as [|x [|y [|? ?]]]; try done. by injection Er as <- <- _.
Defined.

(** A log of the xApp with one command. *)
Definition command1 : log_entry_t := LogEntry 0 1 3 1 2 SERVER_COMMAND 5 (Some "x") (Some "ky") (replicate 3 NUL).
Definition xlog1 : log_st := state_of init_log_st (append_log_entry command1 log0).

Lemma xlog1_rep : log_rep xlog1 [command1].
Proof.
  destruct (append_room log0 [] log0_rep command1) as (s & E & R & _); [done|done|].
  unfold xlog1. by rewrite E.
Qed.

Lemma command1_wire : server_wire command1 "x" "ky".
Proof. split; try done; by repeat constructor. Qed.

Lemma server_entries_roundtrip_witness : exists c z es,
  serialize_log_entries pad4 true 1 1 buf64 64 96 SERVER_LOG xlog1 = Ok (Z.of_nat (length c), z, None) xlog1 /\
  deserialize_server_log_entries (take (Z.to_nat (z_bytes z)) (z_buf z) ++ [NUL; NUL; NUL])
    (Z.of_nat (length c)) = Some es /\ Forall2 server_echo c es.
Proof.
  destruct (server_entries_roundtrip pad4 eq_refl 96 1 1 buf64 xlog1 [command1] xlog1_rep)
    as (c & z & E & Hp & _ & D); [done|done|done|done|..].
  - repeat constructor. exists "x", "ky". exact command1_wire.
  - by repeat constructor.
  - destruct (D [NUL; NUL; NUL]) as (es & De & Hes).
    { destruct Hp as [r Er]. change (log_range xlog1 [command1] 1 1) with [command1] in Er.
      assert (Forall (fun e => e_clen e + e_klen e <= 3) (c ++ r)) as HF by (rewrite <- Er; by repeat constructor).
      by apply Forall_app in HF as [? _]. }
    exists c, z, es. split; [exact E|]. by split.
Defined.

Lemma serialize_unavailable_witness :
  serialize_log_entries pad4 true 2 2 buf64 64 96 RAFT_LOG log2 = Fault Exit.
Proof. apply (serialize_unavailable pad4 RAFT_LOG 96 2 2 buf64 64 log2 entries log2_rep); try done. by right. Defined.

(** Two entries of 40 and 100 bytes of data, and a buffer of 80 bytes. *)
Definition with_data (n : nat) : log_entry_t :=
  LogEntry 1 0 (Z.of_nat n) 0 0 RAFT_COMMAND 0 None None (replicate n NUL).
Definition blog1 : log_st := state_of init_log_st (append_log_entry (with_data 40) log0).
Definition blog2 : log_st := state_of init_log_st (append_log_entry (with_data 100) blog1).
Definition big_entries : list log_entry_t := [set_index 1 (with_data 40); set_index 2 (with_data 100)].

Lemma blog2_rep : log_rep blog2 big_entries.
Proof.
  destruct (append_room log0 [] log0_rep (with_data 40)) as (s1 & E1 & R1 & _); [done|done|].
  assert (blog1 = s1) as <- by (unfold blog1; by rewrite E1).
  destruct (append_room blog1 _ R1 (with_data 100)) as (s2 & E2 & R2 & _); [done|done|].
  unfold blog2. by rewrite E2.
Qed.

Lemma serialize_buffer_overflow_witness :
  serialize_log_entries pad4 true 1 2 (replicate 80 NUL) 80 1000 RAFT_LOG blog2 = Fault OutOfBounds.
Proof.
  apply (serialize_buffer_overflow pad4 eq_refl 1000 (set_index 1 (with_data 40))
    (set_index 2 (with_data 100)) 2 (replicate 80 NUL) blog2 [] blog2_rep); done.
Defined.

Lemma server_entry_overread_witness :
  deserialize_server_entry (image pad4 SERVER_LOG command1) 0 = None.
Proof. apply (server_entry_overread pad4 eq_refl command1 "x" "ky" [] command1_wire). done. Defined.

Lemma network_byte_order_witness :
  NTOHLL (HTONLL 258) = 258 /\ HTONLL (NTOHLL 258) = 258 /\
  mem_bytes 8 (HTONLL 258) = rev (le_bytes 8 258).
Proof. apply (network_byte_order 258). done. Defined.

Lemma parse_numbers_witness : parse_int false (dec_string (-42)) tt = Ok (-42) tt /\ dec_string (-42) = "-42".
Proof. split; [|done]. by apply (proj1 (parse_numbers false (-42) "" tt)). Defined.

Definition timer0 : elec_st := ElecSt (Timespec 0 0) false 0 (Timespec 5 900000000) [4000].

Lemma election_timer_witness : exists t s', randomize_election_timeout timer0 = Ok t s' /\
  nanos (timespec_add_ms (el_now timer0) t) = nanos (el_now timer0) + t * 1000000.
Proof.
  destruct (election_timer timer0) as (t & s' & E & _ & _ & Hn & _); [by repeat constructor|done|].
  by exists t, s'.
Defined.
