(* ===== verification/TaskProps.v ===== *)
(** * The properties of the queues and of the path to the worker

    The ring of tasks and the linked queue as first-in first-out buffers, the
    ring between its threads, and the worker's loop around it. *)

From S2P Require Import Prelude Monad Types RingBuf Queue Fifo RingConc Mtl Config HashTable State.
From S2P Require Import Log Snapshot Server Invariant Worker Tasks Sample.
Open Scope Z_scope.
Import Threads.

(** C34. The two queues of the library: from their creation on, every history of
    insertions and timed extractions answers as on a list. The ring refuses an
    element exactly when it holds one less than its slots, the linked queue
    when there is no memory for a node. So the extracted elements, and then the
    ones still held, are the accepted ones in their order: nothing is lost,
    duplicated or reordered, whatever turn the indices of the ring are in. *)
Theorem fifo_histories {D} size flags (r : ringbuf D) (rops : list (fifo_op unit D))
    (qops : list (fifo_op bool D)) :
  is_u32 size -> ring_create ring_mem_ok size flags = Ok (inr r) tt ->
  (exists put got rest r', fifo_run (F := ringbuf_fifo (Z.max 16 size)) rops r = Ok (put, got) r' /\
    fifo_spec (F := ringbuf_fifo (Z.max 16 size)) rops [] = (put, got, rest) /\
    put = got ++ rest /\ ringbuf_rep r' rest /\ Z.of_nat (length rest) < Z.max 16 size) /\
  (exists put got rest q, fifo_run qops (new_queue true) = Ok (put, got) q /\
    fifo_spec qops [] = (put, got, rest) /\ put = got ++ rest /\ queue_rep q rest).
Proof.
  intros Hs Hc. destruct (ring_create_rep _ size flags r Hs Hc) as (R & Es & _).
  destruct (fifo_run_ok (F := ringbuf_fifo (Z.max 16 size)) rops r [] (conj R Es)) as (r' & E & [R' Es']).
  destruct (fifo_run_ok (F := queue_fifo) qops (new_queue true) [] new_queue_rep) as (q & Eq & Rq).
  split.
  - destruct (fifo_spec (F := ringbuf_fifo (Z.max 16 size)) rops []) as [[put got] rest] eqn:Ep.
    exists put, got, rest, r'. split; [exact E|]. split; [done|].
    split; [exact (fifo_spec_order _ _ _ _ _ Ep)|]. split; [exact R'|]. rewrite <- Es'. by apply ringbuf_rep_lt.
  - destruct (fifo_spec qops []) as [[put got] rest] eqn:Ep.
    exists put, got, rest, q. split; [exact Eq|]. split; [done|].
    by split; [exact (fifo_spec_order _ _ _ _ _ Ep)|].
Qed.

(** Sixteen insertions into a ring of sixteen slots: the last one is refused. *)
Definition ring16 : ringbuf nat :=
  RingBuf 0 0 16 15 RING_NONE 0 None (Some false) None None (replicate 16 None).

Lemma fifo_histories_witness :
  let ops := (Put tt <$> seq 0 16) ++ [Take; Put tt 99%nat; Take] in
  exists r', ring_create ring_mem_ok 3 RING_NONE = Ok (inr ring16) tt /\
    fifo_run (F := ringbuf_fifo 16) ops ring16 = Ok (seq 0 15 ++ [99%nat], [0%nat; 1%nat]) r' /\
    ringbuf_rep r' (seq 2 13 ++ [99%nat]).
Proof.
  intros ops. assert (ring_create ring_mem_ok 3 RING_NONE = Ok (inr ring16) tt) as E by reflexivity.
  destruct (fifo_histories 3 RING_NONE ring16 ops [] ltac:(done) E)
    as ((put & got & rest & r' & Er & Es & Ep & R & _) & _).
  exists r'. split; [exact E|].
  assert ((put, got, rest) = (seq 0 15 ++ [99%nat], [0%nat; 1%nat], seq 2 13 ++ [99%nat])) as Epg
    by (rewrite <- Es; reflexivity).
  injection Epg as -> -> ->. split; [exact Er|exact R].
Defined.

(** C31. The ring between its threads: in every interleaving of the accesses of
    the producers, that take turns, and of the consumer, that works without
    their lock, and with any early end of its waits, the extracted pointers are
    the inserted elements in their order, without gap, duplicate or NULL; the
    count that both sides read is the number of elements in between, which
    fits the ring; the producer is held up only by a consumer about to sleep,
    and the consumer only asleep. *)
Theorem ring_interleavings {D} size (r0 : ringbuf D) s (d : D) :
  is_u32 size -> ring_create ring_mem_ok size TASKS_FLAGS = Ok (inr r0) tt -> reachable r0 s ->
  (exists rest, Some <$> s_put s = s_got s ++ (Some <$> rest) /\
    ring_count (s_ring s) = Z.of_nat (length rest) /\ Z.of_nat (length rest) < b_size (s_ring s)) /\
  (s_c s <> CChecked \/ s_p s <> PSignal -> exists s', producer_step s s') /\
  (s_c s <> CWait -> exists s', consumer_step s s').
Proof.
  intros Hs Hc R. destruct (ring_create_rep _ size _ r0 Hs Hc) as (R0 & _ & _ & Ht & _).
  pose proof (reachable_inv r0 s R0 ltac:(by rewrite Ht) R) as I.
  split; [|split; [by apply producer_progress|by apply consumer_progress]].
  destruct I as [[w I] _]. exists (pending s). pose proof (di_view _ _ I) as V.
  split; [|split; [by apply (view_count _ _ _ V)|]].
  - rewrite (di_got _ _ I) at 1. rewrite <- fmap_app. unfold pending. by rewrite take_drop.
  - pose proof (bv_count _ _ _ V). pose proof (bv_len _ _ _ V). lia.
Qed.

(** The tasks of a small ring, with one message under way. *)
Definition tasks16 : ringbuf nat :=
  RingBuf 0 0 16 15 TASKS_FLAGS 0 (Some false) (Some true) (Some false) None (replicate 16 None).

Lemma ring_interleavings_witness : exists r1 s,
  reachable tasks16 s /\ s = Sys r1 (PStore 7%nat) CIdle [] [] /\ exists s', producer_step s s'.
Proof.
  assert (ring_create ring_mem_ok 3 TASKS_FLAGS = Ok (inr tasks16) tt) as E by reflexivity.
  assert (reachable tasks16 (Sys (set_b_wlock (Some true) tasks16) (PStore 7%nat) CIdle [] [])) as R.
  { eapply reach_step; [constructor|]. apply s_producer. eapply p_room; reflexivity. }
  eexists _, _. split; [exact R|]. split; [reflexivity|].
  destruct (ring_interleavings 3 tasks16 _ 7%nat ltac:(done) E R) as (_ & P & _). apply P. by left.
Defined.

(** C32. No wake-up is lost and every element arrives: in any state a run can
    reach, if elements are waiting, then a sleeping consumer is about to be
    woken by the very next step of the producer; and a run of the two threads
    alone hands the oldest element to the consumer, while nothing new needs
    to be inserted. *)
Theorem ring_delivers {D} size (r0 : ringbuf D) s :
  is_u32 size -> ring_create ring_mem_ok size TASKS_FLAGS = Ok (inr r0) tt -> reachable r0 s ->
  pending s <> [] ->
  (s_c s = CWait -> s_p s = PSignal /\ forall s', producer_step s s' -> s_c s' = CWoken true) /\
  exists s', rtc run s s' /\ s_put s' = s_put s /\ s_got s' = s_got s ++ [head (pending s)].
Proof.
  intros Hs Hc R Hp. destruct (ring_create_rep _ size _ r0 Hs Hc) as (R0 & _ & _ & Ht & _).
  pose proof (reachable_inv r0 s R0 ltac:(by rewrite Ht) R) as I.
  split; [intros Hw; by apply sleeper_woken|by apply delivered].
Qed.

Lemma ring_delivers_witness : exists s s',
  reachable tasks16 s /\ rtc run s s' /\ s_got s' = s_got s ++ [Some 7%nat].
Proof.
  assert (ring_create ring_mem_ok 3 TASKS_FLAGS = Ok (inr tasks16) tt) as E by reflexivity.
  assert (exists r, reachable tasks16 (Sys r PSignal CIdle [7%nat] [])) as [r R].
  { assert (reachable tasks16 (Sys (set_b_wlock (Some true) tasks16) (PStore 7%nat) CIdle [] [])) as R1.
    { eapply reach_step; [apply reach_init|]. apply s_producer. eapply p_room; reflexivity. }
    assert (exists r, reachable tasks16 (Sys r (PPublish 7%nat) CIdle [] [])) as [r2 R2].
    { eexists. eapply reach_step; [exact R1|]. apply s_producer, p_store. reflexivity. }
    eexists. eapply reach_step; [exact R2|].
    exact (s_producer _ _ (p_publish 7%nat r2 _ CIdle [] [] eq_refl)). }
  destruct (ring_delivers 3 tasks16 _ ltac:(done) E R) as (_ & s' & Hr & _ & Hg); [done|].
  exists (Sys r PSignal CIdle [7%nat] []), s'. split; [exact R|]. split; [exact Hr|exact Hg].
Defined.

(** C33. The race of the blocking extraction: with the signals of the producer
    only, and no early end of a wait, the consumer of a new blocking ring can
    be woken on an empty ring and return NULL; the worker ends the process
    then. *)
Theorem ring_wakes_empty {D} size (r0 : ringbuf D) (d : D) :
  is_u32 size -> ring_create ring_mem_ok size TASKS_FLAGS = Ok (inr r0) tt ->
  exists r r' x, rtc run (Sys r0 PIdle CIdle [] []) (Sys r PIdle (CWoken true) [d] [x]) /\
    consumer_step (Sys r PIdle (CWoken true) [d] [x]) (Sys r' PIdle CIdle [d] [x]).
Proof.
  intros Hs Hc. destruct (ring_create_rep _ size _ r0 Hs Hc) as (R0 & _ & Hb & Ht & _).
  apply wakes_empty; [by apply init_inv; [|rewrite Ht]|exact Hb].
Qed.

Lemma ring_wakes_empty_witness : exists r r' x,
  rtc run (Sys tasks16 PIdle CIdle [] []) (Sys r PIdle (CWoken true) [7%nat] [x]) /\
  consumer_step (Sys r PIdle (CWoken true) [7%nat] [x]) (Sys r' PIdle CIdle [7%nat] [x]).
Proof. apply (ring_wakes_empty 3 tasks16 7%nat); done. Defined.

Section Worker.
Context `{Rmr} `{Host}.

(** Handing a message over: without a message or without memory for its
    copy nothing happens but the errno; otherwise the copy is the newest
    element of the ring, or the ring is full and the caller gets ENOBUFS. In
    the last case the ring is unchanged, but the copy stays allocated and
    nobody has its address: it is leaked. *)
Theorem enqueue_outcomes copy m t l :
  ringbuf_rep (tk_ring t) l ->
  rft_enqueue_msg copy None t = Ok (0, EINVAL) t /\
  (forall error, rft_enqueue_msg (inl error) (Some m) t = Ok (0, error) t) /\
  exists t', tk_copies t' = tk_copies t + 1 /\ tk_st t' = tk_st t /\
    (if bool_decide (Z.of_nat (length l) < b_size (tk_ring t) - 1)
     then rft_enqueue_msg (inr tt) (Some m) t = Ok (1, ENONE) t' /\ ringbuf_rep (tk_ring t') (l ++ [m])
     else rft_enqueue_msg (inr tt) (Some m) t = Ok (0, ENOBUFS) t' /\ ringbuf_rep (tk_ring t') l).
Proof.
  intros R. split; [done|]. split; [done|].
  destruct (rft_enqueue_ok m t l R) as (t' & E & R' & _ & _ & Ec & Es). exists t'.
  split; [done|]. split; [done|]. by case_bool_decide.
Qed.

(** A turn of the worker's loop: on an empty ring it sleeps and the server
    is unchanged; otherwise it takes the oldest message, and if that is well
    formed it answers what [worker_step] answers to it, keeps the invariant of
    the server, frees the copy and leaves the other messages in their order. *)
Theorem worker_serves k mem t l L C :
  ringbuf_rep (tk_ring t) l -> b_cond (tk_ring t) = Some true -> server_ok (tk_st t) L C ->
  match l with
  | [] => exists t', worker k mem t = Ok SLEEPS t' /\ tk_copies t' = tk_copies t /\ tk_st t' = tk_st t
  | msg :: rest => msg_ok (tk_st t) L C msg ->
      wp tolerated (worker k mem) t (fun res t' => exists reply L' C', res = HANDLED reply /\
        worker_step k mem msg (tk_st t) = Ok reply (tk_st t') /\ ringbuf_rep (tk_ring t') rest /\
        server_ok (tk_st t') L' C' /\ tk_copies t' = tk_copies t - 1)
  end.
Proof.
  intros R Hc S. destruct l as [|msg rest].
  - destruct (worker_empty k mem t R Hc) as (t' & E & Ec & Es & _). by exists t'.
  - intros Hm. eapply wp_mono; [by apply (worker_nonempty k mem msg t L C rest)|].
    intros res t' (reply & L' & C' & ? & ? & ? & ? & ? & _). by exists reply, L', C'.
Qed.

End Worker.

(** ** Instances on the sample server *)

Definition msg_ring : ringbuf rft_msg :=
  RingBuf 0 0 16 15 TASKS_FLAGS 0 (Some false) (Some true) (Some false) None (replicate 16 None).

Lemma msg_ring_rep : ringbuf_rep msg_ring [].
Proof. by apply (ring_create_rep ring_mem_ok 3 TASKS_FLAGS). Qed.

Definition tasks0 : tasks := MkTasks msg_ring 0 (server FOLLOWER "" "" 2).

Lemma enqueue_outcomes_witness : exists t',
  rft_enqueue_msg (inr tt) (Some (UNRECOGNIZED 7)) tasks0 = Ok (1, ENONE) t' /\
  ringbuf_rep (tk_ring t') [UNRECOGNIZED 7] /\ tk_copies t' = 1.
Proof.
  destruct (enqueue_outcomes (inr tt) (UNRECOGNIZED 7) tasks0 [] msg_ring_rep) as (_ & _ & t' & Ec & _ & E & R).
  exists t'. split; [exact E|]. split; [exact R|exact Ec].
Defined.

(** The candidate b asks for a vote, and another message waits behind. *)
Definition tasks2 : tasks :=
  let t1 := state_of tasks0 (rft_enqueue_msg (inr tt) (Some (VOTE_REQ (ReqVote 2 2 1 "b"))) tasks0) in
  state_of t1 (rft_enqueue_msg (inr tt) (Some (UNRECOGNIZED 7)) t1).

Lemma tasks2_rep : ringbuf_rep (tk_ring tasks2) [VOTE_REQ (ReqVote 2 2 1 "b"); UNRECOGNIZED 7].
Proof.
  destruct (rft_enqueue_ok (VOTE_REQ (ReqVote 2 2 1 "b")) tasks0 [] msg_ring_rep) as (t1 & E1 & R1 & Es & _).
  destruct (rft_enqueue_ok (UNRECOGNIZED 7) t1 _ R1) as (t2 & E2 & R2 & _).
  assert (tasks2 = t2) as -> by (unfold tasks2; rewrite E1; cbn [state_of]; by rewrite E2).
  rewrite Es in R2. exact R2.
Qed.

Lemma worker_serves_witness :
  wp tolerated (worker sys_ok mem_ok) tasks2 (fun res t' => exists reply L' C',
    res = HANDLED reply /\
    worker_step sys_ok mem_ok (VOTE_REQ (ReqVote 2 2 1 "b")) (tk_st tasks2) = Ok reply (tk_st t') /\
    ringbuf_rep (tk_ring t') [UNRECOGNIZED 7] /\
    server_ok (tk_st t') L' C' /\ tk_copies t' = 1) /\
  returns (worker sys_ok mem_ok tasks2) = true.
Proof.
  split; [|by vm_compute].
  exact (worker_serves sys_ok mem_ok tasks2 _ entries members tasks2_rep eq_refl
    (server_server_ok FOLLOWER "" "" 2 ltac:(lia)) ltac:(by split)).
Defined.

(** ** Sending *)

(** The calls after the first one: all but the last asked for a repetition. *)
Lemma send_retry_ok retries calls send state :
  exists n, (n <= retries)%nat /\
    let result i := match i with O => state | S i => send (calls + i)%nat end in
    send_retry retries calls send state = (result n, (calls + n)%nat) /\
    (forall i, (i < n)%nat -> result i = Some RMR_ERR_RETRY) /\
    ((n < retries)%nat -> result n <> Some RMR_ERR_RETRY).
Proof.
  revert calls state. induction retries as [|retries IH]; intros calls state; cbn [send_retry].
  { exists 0%nat. split; [done|]. rewrite Nat.add_0_r. split; [done|]. split; lia. }
  destruct (decide (state = Some RMR_ERR_RETRY)) as [Hs|Hs].
  - destruct (IH (S calls) (send calls)) as (n & Hn & E & Hi & Hl). exists (S n). split; [lia|].
    assert (forall i, match i with O => send calls | S i => send (S calls + i)%nat end = send (calls + i)%nat)
      as Er by (intros [|i]; f_equal; lia).
    rewrite Er in E, Hl. rewrite E. split; [f_equal; lia|]. split.
    + intros [|i] Hlt; [done|]. rewrite <- Er. apply Hi. lia.
    + intros Hlt. apply Hl. lia.
  - exists 0%nat. rewrite Nat.add_0_r. split; [lia|]. split; [done|]. split; [lia|done].
Qed.

(** Sending a message takes at most eleven calls of RMR, whatever they
    answer: a message longer than the limit takes none; otherwise the calls go
    on while RMR asks for a repetition, and the result is 1 exactly when the
    last call has sent the message. A NULL from RMR is dereferenced. *)
Theorem send_terminates {S} (s : S) max_msg_size payload_size send :
  (max_msg_size < payload_size -> rft_send max_msg_size payload_size send s = Ok (0, 0%nat) s) /\
  (payload_size <= max_msg_size -> exists n, (n <= MAX_RMR_RETRIES)%nat /\
    (forall i, (i < n)%nat -> send i = Some RMR_ERR_RETRY) /\
    ((n < MAX_RMR_RETRIES)%nat -> send n <> Some RMR_ERR_RETRY) /\
    rft_send max_msg_size payload_size send s =
      match send n with
      | Some state => Ok (b2z (bool_decide (state = RMR_OK)), Datatypes.S n) s
      | None => Fault NullDeref
      end).
Proof.
  unfold rft_send. split; intros Hsize; [by rewrite (proj2 (Z.ltb_lt _ _))|].
  rewrite (proj2 (Z.ltb_ge _ _)) by lia.
  destruct (send_retry_ok MAX_RMR_RETRIES 1 send (send 0%nat)) as (n & Hn & E & Hi & Hl).
  assert (forall i, match i with O => send 0%nat | Datatypes.S i => send (1 + i)%nat end = send i) as Er
    by (by intros [|i]).
  rewrite Er in E, Hl. exists n. split; [done|]. split; [|split; [done|]].
  - intros i Hlt. rewrite <- Er. by apply Hi.
  - rewrite E. by destruct (send n) as [[]|].
Qed.

(** Two repetitions, then success; and ten that are not enough. *)
Lemma send_terminates_witness :
  let twice i := if decide (i < 2)%nat then Some RMR_ERR_RETRY else Some RMR_OK in
  rft_send 512 100 twice tt = Ok (1, 3%nat) tt /\
  rft_send 512 100 (fun _ => Some RMR_ERR_RETRY) tt = Ok (0, 11%nat) tt /\
  rft_send 512 600 twice tt = Ok (0, 0%nat) tt.
Proof.
  intros twice. split; [done|]. split; [done|].
  apply (proj1 (send_terminates tt 512 600 twice)). lia.
Defined.
