(* ===== verification/StartProps.v ===== *)
(** * The properties of the start and the end of a server

    [rft_init], the bootstrap of a cluster through Redis, also by several
    servers at once, and the removal of the leader's key. *)

From S2P Require Import Prelude Monad Types LogRing RingBuf Fifo Redis Mtl Config Quorum.
From S2P Require Import HashTable HashMap State Utils Log Snapshot Serialize RaftLog Raft XApp.
From S2P Require Import Server Invariant Commit Election Worker Tasks Init Bootstrap Lifecycle Sample.
Open Scope Z_scope.

(** ** A server of Redis *)

(** For the instances: a server with one client that never fails. *)
Record mini := Mini {
  mi_db : gmap string string;
  mi_watch : option (string * option string);
  mi_dirty : bool;
  mi_queue : option (list string);
  mi_events : list event }.

Definition reply_ok : redisReply := RedisReply (Some "OK") 2 0.
Definition reply_nil : redisReply := RedisReply None 0 0.
Definition reply_str (s : option string) : redisReply :=
  RedisReply s (Z.of_nat (String.length (default "" s))) 0.

Definition mini_changed (r : mini) : bool :=
  mi_dirty r || match mi_watch r with Some (k, v) => negb (bool_decide (mi_db r !! k = v)) | None => false end.
Definition mini_event (e : event) (r : mini) : mini :=
  Mini (mi_db r) (mi_watch r) (mini_changed r) (mi_queue r) (mi_events r ++ [e])%list.
Definition mini_put (k : string) (v : option string) (r : mini) : mini :=
  Mini (partial_alter (fun _ => v) k (mi_db r)) (mi_watch r) (mini_changed r) (mi_queue r) (mi_events r).

Definition mini_command (words : list string) (r : mini) : option redisReply * mini :=
  match words with
  | ["SET"; k; v; "NX"] =>
      match mi_db r !! k with
      | None => (Some reply_ok, mini_event (Wrote k None (Some v)) (mini_put k (Some v) r))
      | Some v' => (Some reply_nil, mini_event (Read k (Some v')) r)
      end
  | ["WATCH"; k] => (Some reply_ok, Mini (mi_db r) (Some (k, mi_db r !! k)) false (mi_queue r) (mi_events r))
  | ["UNWATCH"] => (Some reply_ok, Mini (mi_db r) None false (mi_queue r) (mi_events r))
  | ["GET"; k] => (Some (reply_str (mi_db r !! k)), mini_event (Read k (mi_db r !! k)) r)
  | ["MULTI"] => (Some reply_ok, Mini (mi_db r) (mi_watch r) (mini_changed r) (Some []) (mi_events r))
  | ["DEL"; k] =>
      (Some (RedisReply (Some "QUEUED") 6 0),
       Mini (mi_db r) (mi_watch r) (mini_changed r) ((fun q => (q ++ [k])%list) <$> mi_queue r) (mi_events r))
  | ["EXEC"] =>
      if mini_changed r then (Some reply_nil, Mini (mi_db r) None false None (mi_events r))
      else match mi_queue r with
      | Some [k] =>
          (Some (RedisReply None 0 1),
           Mini (delete k (mi_db r)) None false None (mi_events r ++ [Wrote k (mi_db r !! k) None])%list)
      | _ => (Some reply_nil, Mini (mi_db r) None false None (mi_events r))
      end
  | _ => (None, r)
  end.

#[global] Instance mini_hiredis : Hiredis mini := {|
  redisCommand := mini_command; redisReconnect := fun r => (true, r) |}.

Lemma mini_unchanged r : mini_changed r = false -> mi_dirty r = false /\
  forall k v, mi_watch r = Some (k, v) -> mi_db r !! k = v.
Proof.
  unfold mini_changed. destruct (mi_dirty r); [done|]. split; [done|]. intros k v E.
  rewrite E in H. by case_bool_decide.
Qed.

#[global] Instance mini_server : RedisServer mini.
Proof.
  refine {| rs_events := mi_events; rs_watch := mi_watch; rs_dirty := mi_dirty; rs_queue := mi_queue |};
    cbn -[decide]; unfold mini_event, mini_put.
  - intros k v r x r' Hq. destruct (mi_db r !! k) as [v'|] eqn:E; intros [= <- <-]; cbn.
    + split; [done|]. right. split; [done|]. split; [done|]. by eexists.
    + split; [done|]. by left.
  - intros k r x r' Hq [= <- <-]. cbn. split; [done|]. split; [done|]. split; [done|].
    split; [done|]. by eexists.
  - intros k r x r' Hq [= <- <-]. cbn. split; [done|]. split; [done|]. split; [done|].
    intros Hd v Hw. by eapply mini_unchanged.
  - by intros r x r' Hq [= <- <-].
  - intros r x r' Hq [= <- <-]. cbn. split; [done|]. intros y [= <-]. split; [done|].
    split; [done|]. split; [done|]. apply mini_unchanged.
  - intros k q r x r' Hq [= <- <-]. cbn. rewrite Hq. split; [done|]. intros y [= <-]. split; [done|].
    split; [done|]. split; [done|]. apply mini_unchanged.
  - intros k v r x r' Hq Hw. destruct (mini_changed r) eqn:Hc.
    + intros [= <- <-]. left. split; [done|]. by intros y [= <-].
    + rewrite Hq. intros [= <- <-]. right. apply mini_unchanged in Hc as [Hd Hv].
      split; [done|]. cbn. rewrite (Hv k v Hw). split; [done|]. by intros y [= <-].
  - by intros r ok r' [= <- <-].
Defined.

Definition mini0 : mini := Mini ∅ None false None [].

(** ** The properties *)

Section Start.
Context `{Rmr} `{Host} {R : Type} `{RedisServer R}.

(** A server between [rft_init] and the bootstrap. *)
Record booting (binfo : bootstrap_info_t) (g : library) : Prop := {
  bt_ok : server_ok (li_st g) [] [];
  bt_state : m_state (g_me (li_st g)) = INIT_SERVER;
  bt_commit : m_commit_index (g_me (li_st g)) = 0;
  bt_last : l_last_log_index (lg (g_raft_log (li_st g))) = 0;
  bt_self : fits sizeof_server_id (m_self_id (g_me (li_st g)));
  bt_binfo : li_binfo g = Some binfo }.

(** What [getenv] and [gethostname] give: no name is empty. *)
Record names_ok (env : string -> option string) (hostname : option string) : Prop := {
  no_id : env "RFT_SELF_ID" <> Some "";
  no_host : hostname <> Some "";
  no_nul_name : forall id, env "RFT_SELF_ID" = Some id \/ hostname = Some id -> no_nul id }.

(** The name a server gives itself. *)
Definition own_name (env : string -> option string) (hostname : option string) (id : server_id_t) : Prop :=
  exists name, (env "RFT_SELF_ID" = Some name \/ env "RFT_SELF_ID" = None /\ hostname = Some name) /\
    id = str_cut (sizeof_server_id - 1) name.

Lemma own_name_fits env hostname id :
  names_ok env hostname -> own_name env hostname id -> fits sizeof_server_id id.
Proof.
  pose proof RMR_MAX_SRC_pos. intros N (name & Hn & ->). split.
  - apply no_nul_cut. apply N. destruct Hn as [?|[_ ?]]; auto.
  - pose proof (str_cut_length (sizeof_server_id - 1) name). unfold sizeof_server_id in *. lia.
Qed.

Lemma rft_init_booting einval_empty env hostname port rmr_max acb icb now rands :
  names_ok env hostname -> Forall (fun r => 0 <= r) rands -> timespec_wf now ->
  wp only_exit (rft_init einval_empty env hostname init_mem_ok true port rmr_max acb icb)
    (library0 now rands) (fun _ g => exists binfo r, booting binfo g /\
      own_name env hostname (m_self_id (g_me (li_st g))) /\
      li_tasks g = Some r /\ ringbuf_rep r [] /\ b_size r = TASKS_SIZE /\ b_cond r = Some true /\
      log_rep (g_xapp_log (li_st g)) [] /\ 512 <= li_max_msg_size g).
Proof.
  intros N Hr Hn. eapply wp_mono; [by apply rft_init_established; [|apply N|apply N|..]|].
  intros [] g (id & r & Ht & Rr & Es & Ec & _ & Ok & Hs & Hid & _ & Hfrom & Rx & _ & _ & _ & [b Hb] & Hm & Hc & Hl).
  assert (own_name env hostname (m_self_id (g_me (li_st g)))) as Hown by (by exists id).
  exists b, r. split; [|done]. split; try done. by eapply own_name_fits.
Qed.

(** Initialization: [rft_init], whatever the environment, ends the process
    with [exit( 1 )] or establishes the invariant of the worker with an empty
    log and no member, all mutexes free, in the state INIT_SERVER, with the
    name of the environment or of the host, an empty task ring that blocks its
    reader and an empty xApp log. *)
Theorem init_establishes einval_empty env hostname port rmr_max acb icb now rands :
  names_ok env hostname -> Forall (fun r => 0 <= r) rands -> timespec_wf now ->
  wp only_exit (rft_init einval_empty env hostname init_mem_ok true port rmr_max acb icb)
    (library0 now rands) (fun _ g => exists binfo r, booting binfo g /\
      own_name env hostname (m_self_id (g_me (li_st g))) /\
      li_tasks g = Some r /\ ringbuf_rep r [] /\ b_size r = TASKS_SIZE /\ b_cond r = Some true /\
      log_rep (g_xapp_log (li_st g)) [] /\ 512 <= li_max_msg_size g).
Proof. apply rft_init_booting. Qed.

(** C35. From the start to the first entry: a server that runs [rft_init] and
    then tries to bootstrap the cluster either sets the key in Redis, and is
    then a follower with a configuration of itself as the only, voting, member
    by the first entry of the log, committed and applied; or another server
    holds the key, and nothing of the server has changed. *)
Theorem start_bootstraps einval_empty env hostname port rmr_max acb icb now rands k mem r :
  names_ok env hostname -> Forall (fun r => 0 <= r) rands -> timespec_wf now -> rs_queue r = None ->
  wp redis_fault
    (zoom lib_l (rft_init einval_empty env hostname init_mem_ok true port rmr_max acb icb);;
     bootstrap_cluster k mem true)
    (library0 now rands, r) (fun z g' => exists binfo g, booting binfo g /\
      own_name env hostname (m_self_id (g_me (li_st g))) /\
      bootstrapped (b_redis_key binfo) binfo g (fst g') r (snd g') z).
Proof.
  intros N Hr Hn Hq. apply wp_bind, wp_zoom. cbn [lget lput lib_l fst snd].
  eapply (wp_fault_mono only_exit); [by right; left|]. eapply wp_mono; [by apply rft_init_booting|].
  intros [] g (binfo & _ & [Hok Hs Hc Hl Hf Hb] & Hown & _).
  eapply wp_mono; [by eapply bootstrap_cluster_ok|]. intros z g' [_ Hz]. by exists binfo, g.
Qed.

(** A server that has bootstrapped: its events are a part of its history. *)
Definition founder (key : string) (h : list (nat * event)) (c : nat) : Prop :=
  exists k mem binfo g g' (r r' : R), booting binfo g /\ b_redis_key binfo = key /\ rs_queue r = None /\
    bootstrap_cluster k mem true (g, r) = Ok 1 (g', r') /\ rs_events r' `prefix_of` events_of c h.

(** C39. A cluster has one founder: whatever the interleaving of the commands of
    all the servers at Redis, as long as nobody removes the key at most one of
    the servers that run the bootstrap succeeds. *)
Theorem one_founder key d h c1 c2 :
  consistent d h -> kept key h -> founder key h c1 -> founder key h c2 -> c1 = c2.
Proof.
  intros Hh Hk F1 F2.
  assert (forall c, founder key h c -> exists v, Wrote key None (Some v) ∈ events_of c h) as HW.
  { intros c (k & mem & binfo & g & g' & r & r' & [Hok Hs Hc Hl Hf Hb] & <- & Hq & E & [t ->]).
    assert (wp redis_fault (bootstrap_cluster k mem true) (g, r) (fun z g' => rs_queue (snd g') = None /\
      bootstrapped (b_redis_key binfo) binfo g (fst g') r (snd g') z)) as W by (by apply bootstrap_cluster_ok).
    apply (wp_eq_inv _ _ _ _ _ _ E) in W as [_ [(_ & Hev & _)|(Hz & _)]]; [|done]. cbn in Hev.
    eexists. rewrite Hev, <- app_assoc, !elem_of_app, elem_of_cons. by right; left; left. }
  destruct (HW c1 F1) as [v1 W1], (HW c2 F2) as [v2 W2]. by eapply first_write_once.
Qed.

(** C40. Shutdown: a leader that stops gives the key of the cluster back only if
    it still holds the own target: whatever the other servers do at Redis in
    the meantime, its only write is the removal of its own target, atomic with
    the comparison. A server that has lost the leadership during the wait does
    not touch the key; the state of the server is unchanged, its locks free. *)
Theorem shutdown_gives_back connected g r L C binfo :
  server_ok (li_st g) L C -> li_binfo g = Some binfo -> rs_queue r = None ->
  wp no_reply (rft_shutdown_leader connected) (g, r) (fun _ g' => fst g' = g /\
    (snd g' = r \/ m_state (g_me (li_st g)) = LEADER /\ exists x l, x ∈ C /\
       s_server_id x = m_self_id (g_me (li_st g)) /\ rs_events (snd g') = (rs_events r ++ l)%list /\
       Forall (own_removal (b_redis_key binfo) (s_target x)) l)).
Proof. apply rft_shutdown_leader_ok. Qed.

End Start.

(** ** Instances *)

Definition env0 (name : string) : option string :=
  if decide (name = "RFT_SELF_ID") then Some "a" else
  if decide (name = "RFT_REPLICA_SERVERS") then Some "2" else None.
Definition clock0 : timespec := Timespec 100 0.
Definition init0 : M library unit :=
  rft_init false env0 (Some "host") init_mem_ok true (Some "4560") 8192 true true.

Lemma env0_names : names_ok env0 (Some "host").
Proof.
  split; [done|done|]. intros id [[= <-]|[= <-]]; repeat constructor; done.
Qed.

Lemma init_establishes_witness :
  returns (init0 (library0 clock0 [1; 2; 3])) = true /\
  wp only_exit init0 (library0 clock0 [1; 2; 3]) (fun _ g => exists binfo r, booting binfo g /\
    own_name env0 (Some "host") (m_self_id (g_me (li_st g))) /\
    li_tasks g = Some r /\ ringbuf_rep r [] /\ b_size r = TASKS_SIZE /\ b_cond r = Some true /\
    log_rep (g_xapp_log (li_st g)) [] /\ 512 <= li_max_msg_size g).
Proof.
  split; [by vm_compute|].
  apply init_establishes; [apply env0_names|by repeat constructor|done].
Defined.

(** The start of the first server, with the outcome. *)
Definition start0 : M (library * mini) Z :=
  zoom lib_l init0;; bootstrap_cluster sys_ok mem_ok true.

Lemma start_bootstraps_witness :
  (match start0 (library0 clock0 [1; 2; 3], mini0) with
   | Ok z (g, r) => z = 1 /\ m_state (g_me (li_st g)) = FOLLOWER /\
       mi_events r = [Wrote "rft.leader" None (Some "a:4560")]
   | Fault _ => False
   end) /\
  wp redis_fault start0 (library0 clock0 [1; 2; 3], mini0) (fun z g' => exists binfo g, booting binfo g /\
    own_name env0 (Some "host") (m_self_id (g_me (li_st g))) /\
    bootstrapped (b_redis_key binfo) binfo g (fst g') mini0 (snd g') z).
Proof.
  split; [vm_compute; done|].
  apply start_bootstraps; [apply env0_names|by repeat constructor|done|done].
Defined.

(** The library after [rft_init], and after the bootstrap. *)
Definition booted : library := state_of (library0 clock0 []) (init0 (library0 clock0 [1; 2; 3])).
Definition founded : library * mini :=
  state_of (booted, mini0) (bootstrap_cluster sys_ok mem_ok true (booted, mini0)).

Lemma booted_booting : exists binfo, booting binfo booted /\ b_redis_key binfo = "rft.leader".
Proof.
  pose proof (rft_init_booting false env0 (Some "host") (Some "4560") 8192 true true clock0 [1; 2; 3]
    env0_names ltac:(by repeat constructor) ltac:(done)) as W.
  assert (init0 (library0 clock0 [1; 2; 3]) = Ok tt booted) as E.
  { assert (returns (init0 (library0 clock0 [1; 2; 3])) = true) as Hr by (by vm_compute).
    unfold booted. by destruct (init0 _) as [[] ?|]. }
  apply (wp_eq_inv _ _ _ _ _ _ E) in W as (binfo & r & B & _). exists binfo. split; [exact B|].
  assert (b_redis_key <$> li_binfo booted = Some "rft.leader") as Hk by (by vm_compute).
  rewrite (bt_binfo _ _ B) in Hk. by injection Hk.
Qed.

Lemma bootstrap_founded :
  bootstrap_cluster sys_ok mem_ok true (booted, mini0) = Ok 1 founded /\
  mi_events (snd founded) = [Wrote "rft.leader" None (Some "a:4560")].
Proof.
  assert (match bootstrap_cluster sys_ok mem_ok true (booted, mini0) with Ok z _ => z = 1 | _ => False end)
    as Hz by (by vm_compute).
  split; [|by vm_compute]. unfold founded. destruct (bootstrap_cluster _ _ _ _); [by rewrite Hz|done].
Qed.

(** Two servers meet at Redis: the second one finds the key of the first. *)
Definition meeting : list (nat * event) :=
  [(0%nat, Wrote "rft.leader" None (Some "a:4560")); (1%nat, Read "rft.leader" (Some "a:4560"))].

Lemma one_founder_witness :
  consistent ∅ meeting /\ founder (R := mini) "rft.leader" meeting 0 /\
  forall c, founder (R := mini) "rft.leader" meeting c -> 0%nat = c.
Proof.
  assert (consistent ∅ meeting) as Hc by (by vm_compute).
  assert (founder (R := mini) "rft.leader" meeting 0) as F.
  { destruct booted_booting as (binfo & B & Hk), bootstrap_founded as [E Ev].
    exists sys_ok, mem_ok, binfo, booted, (fst founded), mini0, (snd founded).
    split; [exact B|]. split; [exact Hk|]. split; [done|]. split; [by rewrite E; destruct founded|].
    cbn [rs_events mini_server]. rewrite Ev. by exists []. }
  split; [exact Hc|]. split; [exact F|]. intros c Fc.
  apply (one_founder (R := mini) "rft.leader" ∅ meeting); [exact Hc|by repeat constructor|exact F|exact Fc].
Defined.

Definition binfo0 : bootstrap_info_t := BootstrapInfo 4560 6379 "redis" "rft.leader".
Definition leading : library := Library None (Some binfo0) 10 8192 false (server LEADER "a" "a" 0).
Definition mini_key (target : string) : mini := Mini {["rft.leader" := target]} None false None [].

(** The own target is removed, another one stays. *)
Lemma shutdown_gives_back_witness :
  (match rft_shutdown_leader true (leading, mini_key "a:4560") with
   | Ok _ (_, r) => mi_db r = ∅ | Fault _ => False end) /\
  (match rft_shutdown_leader true (leading, mini_key "b:4560") with
   | Ok _ (_, r) => mi_db r = {["rft.leader" := "b:4560"]} | Fault _ => False end) /\
  let r := mini_key "a:4560" in
  wp no_reply (rft_shutdown_leader true) (leading, r) (fun _ g' => fst g' = leading /\
    (snd g' = r \/ m_state (g_me (li_st leading)) = LEADER /\ exists x l, x ∈ members /\
       s_server_id x = m_self_id (g_me (li_st leading)) /\ rs_events (snd g') = (rs_events r ++ l)%list /\
       Forall (own_removal (b_redis_key binfo0) (s_target x)) l)).
Proof.
  split; [vm_compute; reflexivity|]. split; [vm_compute; reflexivity|]. intros r.
  refine (shutdown_gives_back true leading r entries members binfo0 _ eq_refl eq_refl).
  apply (server_server_ok LEADER "a" "a" 0). lia.
Defined.
