(* ===== verification/DeliveryProps.v ===== *)
(** * The properties of the replication between servers

    What AppendEntries does to a log, what an exchange between a leader and a
    follower transfers, how a follower catches up, and how two servers come to
    commit different entries. *)

From S2P Require Import Prelude Monad Types LogRing Mtl Config Quorum HashTable.
From S2P Require Import HashMap State Utils Log Serialize Snapshot RaftLog Raft XApp.
From S2P Require Import Server Invariant Commit Election Replication Install XRepl.
From S2P Require Import Worker Delivery CatchUp Replicas Sample.
Open Scope Z_scope.

Section Properties.
Context `{Rmr} `{Host}.

(** C12. AppendEntries of the current or a newer term, as a function of the log:
    the request is accepted exactly when the entry at its previous index has
    its previous term; the log is kept up to the larger of the commit index
    and the previous index, and the entries of the request follow from there
    on. A request whose previous index lies below the commit index therefore
    has its entries at other indices than the leader. *)
Theorem append_exact k req s L C :
  inv s L C -> locks s = no_locks -> anchored s -> is_u64 (ra_term req) ->
  is_u64 (ra_prev_log_index req) -> is_u64 (ra_leader_commit req) -> Forall entry_ok (ra_entries req) ->
  ra_n_entries req = Z.of_nat (length (ra_entries req)) ->
  roomy s L C (Z.of_nat (length (ra_entries req))) -> m_current_term (g_me s) <= ra_term req ->
  wp tolerated (handle_append_entries_request k req) s (fun r s' => exists C',
    let keep := kept_index req s L in
    let L' := upto s L keep ++
      (if decide (consistent req s L) then renumber (keep + 1) (ra_entries req) else []) in
    inv s' L' C' /\ locks s' = no_locks /\ anchored s' /\
    pa_success r = b2z (bool_decide (consistent req s L)) /\
    pa_last_log_index r = l_index_offset (lg (g_raft_log s)) + Z.of_nat (length L')).
Proof.
  intros I Hk An H1 H2 H3 H4 H5 H6 Ht.
  eapply wp_mono; [by apply (handle_append_ok k req s L C)|]. intros r s' (L' & C' & I' & Hk' & A).
  destruct (append_effect req s s' L L' C C' r (inv_core _ _ _ I) (inv_core _ _ _ I') An Ht A) as (Hs & -> & Hl).
  exists C'. cbv zeta. split; [done|]. split; [done|]. split; [|split; [done|]].
  - unfold anchored. by rewrite (as_snap _ _ _ _ _ _ A), (as_offset _ _ _ _ _ _ A).
  - destruct (as_reply _ _ _ _ _ _ A) as (_ & _ & _ & ->).
    by rewrite (core_last_length _ _ _ (inv_core _ _ _ I')), (as_offset _ _ _ _ _ _ A).
Qed.

Context (pad : bytes) (pad_len : length pad = 4%nat) (max_msg_size : Z).

(** C13. An exchange between a leader and a follower always comes to its end. If
    the logs agree at the index before the next one, the follower's log is
    afterwards its own up to there and then the entries sent: the leader's
    next entries, at least one if there are any, and all of them if they fit.
    Otherwise the follower goes back to its committed entries. The leader
    knows the outcome, and both keep their invariants. *)
Theorem exchange_transfers buf kl kf rmr p lbuf payload rest sl sf Ll Lf Cl Cf i x :
  pairing max_msg_size buf sl sf Ll Lf Cl Cf i p x -> buf <= Z.of_nat (length lbuf) ->
  m_state (g_me sl) = LEADER -> sys_alloc kl = true -> pair_room sl sf ->
  wp tolerated (exchange pad max_msg_size kl kf rmr p lbuf payload rest) (sl, sf) (fun _ q =>
    exists Lf' Cl' Cf' c x',
      (if s_match_index x =? s_next_index x - 1
       then batch max_msg_size sl Ll (s_next_index x - 1) c else c = []) /\
      exchanged_to sl sf Ll Lf x c (snd q) Lf' x' /\
      (inv (fst q) Ll Cl' /\ locks (fst q) = no_locks) /\ (inv (snd q) Lf' Cf' /\ locks (snd q) = no_locks) /\
      (m_state (g_me (fst q)) = LEADER ->
       pairing max_msg_size buf (fst q) (snd q) Ll Lf' Cl' Cf' i p x')).
Proof using pad_len.
  intros. eapply wp_mono; [by apply (exchange_ok pad pad_len max_msg_size buf kl kf rmr p lbuf payload rest
    sl sf Ll Lf Cl Cf i x)|].
  intros [] q (Lf' & Cl' & Cf' & c & x' & ? & ? & ? & ? & _ & _ & _ & ?). by exists Lf', Cl', Cf', c, x'.
Qed.

(** C14. A follower catches up: whatever it holds behind its committed entries,
    if its last committed entry is one of the leader's log, then after two
    exchanges and one more for each entry of the leader behind it, its log is
    the leader's from an index on at which both agree, and the leader knows it. *)
Theorem follower_catches_up buf p k sl sf q Ll Lf Cl Cf i x :
  pairing max_msg_size buf sl sf Ll Lf Cl Cf i p x ->
  agree sl sf Ll Lf (m_commit_index (g_me sf)) ->
  nsteps (exchanged pad max_msg_size buf p) k (sl, sf) q -> m_state (g_me (fst q)) = LEADER ->
  2 + (l_last_log_index (lg (g_raft_log sl)) - m_commit_index (g_me sf)) <= Z.of_nat k ->
  exists Lf' Cl' Cf' x' base, inv (fst q) Ll Cl' /\ inv (snd q) Lf' Cf' /\ Cl' !! i = Some x' /\
    s_match_index x' = l_last_log_index (lg (g_raft_log sl)) /\
    m_commit_index (g_me sf) <= base <= l_last_log_index (lg (g_raft_log sl)) /\
    agree sl sf Ll Lf base /\ Lf' = upto sf Lf base ++ beyond sl Ll base.
Proof using pad_len.
  intros P Ha R Hl Hk.
  destruct (catch_up pad pad_len max_msg_size buf p k sl sf q Ll Lf Cl Cf i x P Ha R Hl Hk)
    as (Lf' & Cl' & Cf' & x' & base & P' & Hm & Hb & Hab & HL). exists Lf', Cl', Cf', x', base.
  split; [apply P'|]. split; [apply P'|]. split; [|done].
  by pose proof (pr_found _ _ _ _ _ _ _ _ _ _ _ P') as (Hi & _)%list_find_Some.
Qed.

End Properties.

(** ** Instances

    The leader [a] of the sample cluster and a follower [b] that holds only the
    first of its entries. *)

Definition behind : St :=
  MkSt (RaftState FOLLOWER 1 0 "b" "" "" 0 0) false log1 log2 config0 init_snap_st
    (ReplSt [] false GLOBAL 1) (ElecSt (Timespec 10 0) false 3000 (Timespec 5 0) [])
    (AppSt table0 table0 true true [] [] false false).
Definition ahead : St := server LEADER "a" "a" 0.

Lemma behind_inv : inv behind [noop 1 1] members.
Proof.
  split; [|split; [done|constructor]|done].
  split; try done; [exact log1_rep| |exact config0_rep]. constructor; [by split|constructor].
Qed.

Lemma append_exact_witness :
  wp tolerated (handle_append_entries_request sys_ok (ReqAppend 1 "a" 1 1 0 1 [noop 1 0])) behind
    (fun r s' => exists C',
    let req := ReqAppend 1 "a" 1 1 0 1 [noop 1 0] in
    let keep := kept_index req behind [noop 1 1] in
    let L' := upto behind [noop 1 1] keep ++
      (if decide (consistent req behind [noop 1 1]) then renumber (keep + 1) (ra_entries req) else []) in
    inv s' L' C' /\ locks s' = no_locks /\ anchored s' /\
    pa_success r = b2z (bool_decide (consistent req behind [noop 1 1])) /\
    pa_last_log_index r = l_index_offset (lg (g_raft_log behind)) + Z.of_nat (length L')) /\
  returns (handle_append_entries_request sys_ok (ReqAppend 1 "a" 1 1 0 1 [noop 1 0]) behind) = true.
Proof.
  split; [|by vm_compute].
  apply (append_exact sys_ok (ReqAppend 1 "a" 1 1 0 1 [noop 1 0]) behind [noop 1 1] members behind_inv);
    try done. by repeat constructor.
Defined.

Definition pad4 : bytes := replicate 4 NUL.
Definition buffer : bytes := replicate 64 NUL.

Lemma noop_wire t i : is_u64 t -> is_u64 i -> raft_wire (noop t i).
Proof. by split. Qed.

Lemma sample_pairing : pairing 1000 64 ahead behind entries [noop 1 1] members members 1 2%positive (srv "b" 2).
Proof.
  split; try done.
  - split; [by apply server_inv|done].
  - split; [apply behind_inv|done].
  - split; try done; repeat (apply list.Forall_cons; split; [by try apply noop_wire|]); apply list.Forall_nil, I.
  - by left.
Qed.

Definition meet (q : St * St) : St * St :=
  state_of q (exchange pad4 1000 sys_ok sys_ok (fun _ _ => None) 2%positive buffer [] [] q).

Lemma exchange_transfers_witness :
  wp tolerated (exchange pad4 1000 sys_ok sys_ok (fun _ _ => None) 2%positive buffer [] []) (ahead, behind)
   (fun _ q => exists Lf' Cl' Cf' c x',
      (if s_match_index (srv "b" 2) =? s_next_index (srv "b" 2) - 1
       then batch 1000 ahead entries (s_next_index (srv "b" 2) - 1) c else c = []) /\
      exchanged_to ahead behind entries [noop 1 1] (srv "b" 2) c (snd q) Lf' x' /\
      (inv (fst q) entries Cl' /\ locks (fst q) = no_locks) /\ (inv (snd q) Lf' Cf' /\ locks (snd q) = no_locks) /\
      (m_state (g_me (fst q)) = LEADER ->
       pairing 1000 64 (fst q) (snd q) entries Lf' Cl' Cf' 1 2%positive x')) /\
  returns (exchange pad4 1000 sys_ok sys_ok (fun _ _ => None) 2%positive buffer [] [] (ahead, behind)) = true.
Proof.
  split; [|by vm_compute].
  by apply (exchange_transfers pad4 eq_refl 1000 64 sys_ok sys_ok (fun _ _ => None) 2%positive buffer [] []
    ahead behind entries [noop 1 1] members members 1 (srv "b" 2) sample_pairing).
Defined.

Lemma meet_exchanged q : m_state (g_me (fst q)) = LEADER -> pair_room (fst q) (snd q) ->
  returns (exchange pad4 1000 sys_ok sys_ok (fun _ _ => None) 2%positive buffer [] [] q) = true ->
  exchanged pad4 1000 64 2%positive q (meet q).
Proof.
  destruct q as [sl sf]. intros Hl Hr E.
  apply (exchanged_intro _ _ _ _ sys_ok sys_ok (fun _ _ => None) buffer [] []); try done.
  unfold meet. by destruct (exchange _ _ _ _ _ _ _ _ _ _) as [[] q|].
Qed.

(** Four exchanges. *)
Lemma follower_catches_up_witness : exists Lf' Cl' Cf' x' base,
  let q := meet (meet (meet (meet (ahead, behind)))) in
  inv (fst q) entries Cl' /\ inv (snd q) Lf' Cf' /\ Cl' !! 1%nat = Some x' /\ s_match_index x' = 2 /\
  0 <= base <= 2 /\ agree ahead behind entries [noop 1 1] base /\
  Lf' = upto behind [noop 1 1] base ++ beyond ahead entries base.
Proof.
  refine (follower_catches_up pad4 eq_refl 1000 64 2%positive 4 ahead behind
    (meet (meet (meet (meet (ahead, behind))))) entries [noop 1 1] members members 1 (srv "b" 2)
    sample_pairing eq_refl _ _ _).
  - do 4 (eapply nsteps_l; [apply meet_exchanged; by vm_compute|]). constructor.
  - by vm_compute.
  - by vm_compute.
Defined.

(** ** Two servers commit different entries

    Four servers, one of which no longer answers: [a] leads. The leader sends
    the removal of [d] to [b] again before it has taken in the answer of [b];
    the second request arrives when [b] has committed the entry, so that [b]
    appends it once more, at the index at which the leader has meanwhile put
    the removal of [c]. *)
Definition peer (id : server_id_t) (match_index hb : Z) : server_t :=
  Server id (id ++ ":4560") VOTING_MEMBER 0 (match_index + 1) match_index SHUTDOWN (Timespec 0 0) hb 0 0.
Definition peers : list server_t := [peer "a" 0 0; peer "b" 1 0; peer "c" 1 0; peer "d" 0 5].
Definition places : list loc := [1; 2; 3; 4]%positive.
Definition config4 : config_st :=
  ConfigSt (RaftConfig 4 4 0 places) (list_to_map (zip places peers)) false [].

Lemma config4_rep : cfg_rep config4 peers.
Proof.
  split; [split|..]; try done.
  - apply (bool_decide_unpack _). by vm_compute.
  - by repeat constructor.
  - apply (bool_decide_unpack _). by vm_compute.
  - by repeat constructor.
Qed.

Definition replica (id : server_id_t) (r : role) : St :=
  MkSt (RaftState r 1 0 id "a" "a" 1 1) false log1 log1 config4 init_snap_st
    (ReplSt [] false GLOBAL 1) (ElecSt (Timespec 10 0) false 3000 (Timespec 5 0) [])
    (AppSt table0 table0 true true [] [] false false).

Lemma replica_inv id r : inv (replica id r) [noop 1 1] peers.
Proof.
  split; [|split; [done|constructor]|done].
  split; try done; [exact log1_rep| |exact config4_rep]. constructor; [by split|constructor].
Qed.

Definition quiet : rnet :=
  RNet {["a" := replica "a" LEADER; "b" := replica "b" FOLLOWER; "c" := replica "c" FOLLOWER]} [] [].

(** The removal of [d] goes to [c], which answers, and twice to [b]; the first
    answer of [b] comes back, [c] falls silent, then the second answer. *)
Definition overtaking : list action :=
  [Rest "a" 4%positive; Send "a" 3%positive; Deliver; Answered; Send "a" 2%positive;
   Send "a" 2%positive; Deliver; Deliver; Answered] ++
  replicate 6 (Rest "a" 3%positive) ++ [Answered; Send "a" 2%positive; Deliver].

(** All servers hold the same log, have committed all of it, and at most one
    of them leads; nothing is on its way. *)
Definition agreed (c : rnet) : Prop :=
  requests c = [] /\ answers c = [] /\
  (exists L C, forall i s, nodes c !! i = Some s -> m_self_id (g_me s) = i /\ inv s L C /\
     locks s = no_locks /\ anchored s /\ m_commit_index (g_me s) = l_last_log_index (lg (g_raft_log s))) /\
  (forall i j si sj, nodes c !! i = Some si -> nodes c !! j = Some sj ->
     m_state (g_me si) = LEADER -> m_state (g_me sj) = LEADER -> i = j).

Definition diverged (c : rnet) (i j : server_id_t) (idx : index_t) : Prop :=
  exists si sj a b, nodes c !! i = Some si /\ nodes c !! j = Some sj /\
    committed_entry si idx = Some a /\ committed_entry sj idx = Some b /\
    e_term a = e_term b /\ e_data a <> e_data b.

Definition diverged_b (c : rnet) (i j : server_id_t) (idx : index_t) : bool :=
  match nodes c !! i, nodes c !! j with
  | Some si, Some sj =>
      match committed_entry si idx, committed_entry sj idx with
      | Some a, Some b => (e_term a =? e_term b) && negb (bool_decide (e_data a = e_data b))
      | _, _ => false
      end
  | _, _ => false
  end.

Lemma diverged_b_true c i j idx : diverged_b c i j idx = true -> diverged c i j idx.
Proof.
  unfold diverged_b, diverged. destruct (nodes c !! i) as [si|], (nodes c !! j) as [sj|]; try done.
  destruct (committed_entry si idx) as [a|] eqn:Ea, (committed_entry sj idx) as [b|] eqn:Eb; try done.
  rewrite andb_true_iff, Z.eqb_eq, negb_true_iff, bool_decide_eq_false. intros [? ?]. by exists si, sj, a, b.
Qed.

Lemma quiet_agreed : agreed quiet.
Proof.
  split; [done|]. split; [done|]. split.
  - exists [noop 1 1], peers. intros i s. unfold quiet. cbn [nodes].
    rewrite !lookup_insert_Some, lookup_singleton_Some.
    intros [[<- <-]|[_ [[<- <-]|[_ [<- <-]]]]]; (split; [done|split; [apply replica_inv|done]]).
  - intros i j si sj. unfold quiet. cbn [nodes]. rewrite !lookup_insert_Some, !lookup_singleton_Some.
    by intros [[<- <-]|[_ [[<- <-]|[_ [<- <-]]]]] [[<- <-]|[_ [[<- <-]|[_ [<- <-]]]]].
Qed.

