(* ===== verification/SnapshotProps.v ===== *)
(** * Snapshots of the configuration, stored by their thread *)

From S2P Require Import Prelude Monad Types LogRing Mtl Config Quorum HashTable.
From S2P Require Import HashMap State Utils Log Serialize Snapshot RaftLog Raft XApp.
From S2P Require Import Server Invariant Commit Election Replication Install XRepl.
From S2P Require Import Worker Delivery RaftSnap Sample.
Open Scope Z_scope.

Section Properties.
Context `{Rmr} `{Host}.


End Properties.

(** A server that has committed two entries and has the snapshot of the first
    of them in the pipe. *)
Definition meta1 : pipe_metabuf_t := PipeMetabuf 1 1 3 1.
Definition snapped : St :=
  set_snap (set_raft_in_progress true (set_raft_pipe (Some (meta1, ["x"; "y"; "z"]%char)) init_snap_st))
    (server FOLLOWER "" "b" 2).

Lemma snapped_ok : server_ok snapped entries members.
Proof.
  destruct (server_server_ok FOLLOWER "" "b" 2 ltac:(lia)) as [[[C1 C2 C3 C4 C5 C6 C7 C8 C9] Ev Ap] Hk Ha].
  split; [split; [|by destruct Ev|exact Ap]|exact Hk|exact Ha]. split; try done.
  intros ? ? [= <- <-]. split; [done|]. by vm_compute.
Qed.

