(* ===== verification/StreamProps.v ===== *)
(** * The properties of the replication of the xApps' commands

    Whatever the network does, the callback of an xApp is called with a prefix
    of the commands of every other server, and with all its own. *)

From S2P Require Import Prelude Monad Types LogRing Mtl Config Quorum HashTable.
From S2P Require Import HashMap State Utils Log Serialize Snapshot RaftLog Raft XApp.
From S2P Require Import Server Invariant Commit Election Replication Install XRepl.
From S2P Require Import Worker Delivery XStream Streams Backup Sample.
Open Scope Z_scope.

Section Properties.
Context `{Rmr} `{Host} (pad : bytes) (pad_len : length pad = 4%nat) (max_msg_size : Z)
  (size_ok : 0 < max_msg_size - REPL_REQ_HDR_LEN < 2 ^ 31).



End Properties.

(** ** Instances

    Two servers without entries; [a] replicates to [b]. *)

Definition node (id : server_id_t) (replicas : list (option loc)) : St :=
  MkSt (RaftState FOLLOWER 1 0 id "" "" 0 0) false log0 log0 config0 init_snap_st
    (ReplSt replicas false GLOBAL 1) (ElecSt (Timespec 10 0) false 3000 (Timespec 5 0) [])
    (AppSt table0 table0 true true [] [] false false).

Lemma stream_node_inv id l : inv (node id l) [] members.
Proof. split; [split; try done; [exact log0_rep|exact config0_rep]|split; [done|constructor]|done]. Qed.

Definition pad4 : bytes := replicate 4 NUL.
Definition buf64 : bytes := replicate 64 NUL.

Definition pair0 : xnet := XNet {["a" := node "a" [Some 2%positive]; "b" := node "b" []]} [] [].

Lemma pair0_initial : xinitial pair0.
Proof.
  assert (forall id l, (forall p, Some p ∈ l -> p = 2%positive) ->
    m_self_id (g_me (node id l)) = id /\ locks (node id l) = no_locks /\ app_ok (g_app (node id l)) /\
    ax_applied (g_app (node id l)) = [] /\ xside (node id l) [] [] /\ replicas_known (node id l) /\
    exists L C, inv (node id l) L C /\ Forall (fun x => s_master_index x = 0 /\ s_replica_index x = 0) C) as Hn.
  { intros id l Hl. split; [done|]. split; [done|].
    split; [exists ∅, ∅; split; [|done| |done]; apply table0_rep|]. split; [done|].
    split; [split; try done; exact log0_rep|]. split.
    - intros p Hp%Hl. subst. by right; left.
    - exists [], members. split; [apply stream_node_inv|by repeat constructor]. }
  split; [done|]. split; [done|]. intros i s. unfold pair0. cbn [xservers].
  rewrite lookup_insert_Some, lookup_singleton_Some. intros [[<- <-]|[_ [<- <-]]]; apply Hn.
  - by intros p [= ->]%list_elem_of_singleton.
  - by intros p ?%elem_of_nil.
Qed.

(** [a] replicates a command, its thread sends it, [b] applies it, and the
    answer comes back. *)
Definition command_a : M St (Z * option errno_t) :=
  rft_replicate sys_ok mem_ok None 5 (Some "x") (Some "ky") (Some (replicate 3 NUL)) (Some "ue") 0.
Definition bufs (_ : nat) : bytes * bytes := (buf64, []).
Definition send_a : M St (list (nat * replication_msg)) :=
  state_replication_pass sys_ok pad4 3000 (fun _ _ => None) bufs.

Definition a1 : St := state_of (node "a" []) (command_a (node "a" [Some 2%positive])).
Definition msgs : list (nat * replication_msg) := value_of [] (send_a a1).
Definition hdr_data : repl_req_hdr_t * bytes :=
  match msgs with [(_, MsgReplication h d)] => (h, d) | _ => (ReplReqHdr 0 "" 0 0, []) end.
Definition apply_b : M St replication_reply_t :=
  worker_replication sys_ok hdr_data.1 (hdr_data.2 ++ buf64).
Definition b1 : St := state_of (node "b" []) (apply_b (node "b" [])).
Definition ack_b : replication_reply_t := value_of (RepRepl 0 0 "") (apply_b (node "b" [])).
Definition a2 : St := state_of a1 (handle_replication_reply ack_b a1).

Definition call_a : applied_t := call_of 5 "x" "ky" (replicate 3 NUL).
Definition pair1 : xnet := advance_to "a" a1 [] [("a", call_a)] pair0.
Definition pair2 : xnet := advance_to "a" a1 (streams_of msgs) [] pair1.
Definition pair3 : xnet := advance_to "b" b1 [Ack "a" ack_b] [] pair2.
Definition pair4 : xnet := advance_to "a" a2 [] [] pair3.

Definition entry_a : log_entry_t :=
  LogEntry 0 0 3 1 2 SERVER_COMMAND 5 (Some "x") (Some "ky") (replicate 3 NUL).

Lemma a1_log : log_rep (g_xapp_log a1) [set_index 1 entry_a].
Proof.
  destruct (append_room log0 [] log0_rep entry_a) as (s & E & R & _); [done|done|].
  assert (g_xapp_log a1 = state_of init_log_st (append_log_entry entry_a log0)) as -> by by vm_compute.
  by rewrite E.
Qed.

Lemma call_fits : command_fits 5 "x" "ky" (replicate 3 NUL).
Proof. split; [done|]. split; [by repeat constructor|]. split; [by repeat constructor|done]. Qed.

Lemma node_app id l : app_ok (g_app (node id l)).
Proof. exists ∅, ∅. split; [|done| |done]; apply table0_rep. Qed.

Lemma node_side id l : xside (node id l) [] [].
Proof. split; try done. exact log0_rep. Qed.

Lemma a1_ok : command_a (node "a" [Some 2%positive]) = Ok (1, None) a1.
Proof. by vm_compute. Qed.

Lemma a1_app : app_ok (g_app a1).
Proof.
  apply (wp_eq_inv _ _ _ _ _ _ a1_ok (rft_replicate_ok sys_ok mem_ok None 5 "x" "ky" (replicate 3 NUL)
    (Some "ue") 0 (node "a" [Some 2%positive]) [] [] (node_side _ _) (node_app _ _) eq_refl call_fits
    eq_refl eq_refl eq_refl)).
Qed.

Lemma run_pair : xrun pad4 3000 pair0 pair4.
Proof.
  apply rtc_l with pair1.
  { refine (xs_replicate pad4 3000 pair0 "a" (node "a" [Some 2%positive]) sys_ok mem_ok None 5 "x" "ky"
      (replicate 3 NUL) (Some "ue") 0 (1, None) a1 eq_refl _ _ eq_refl eq_refl _); [|done|by vm_compute].
    split; [done|]. split; [by repeat constructor|]. split; [by repeat constructor|done]. }
  apply rtc_l with pair2.
  { apply (xs_send pad4 3000 pair1 "a" a1 sys_ok (fun _ _ => None) bufs); [done|done| |by vm_compute].
    intros X R j. rewrite (log_rep_inj _ _ _ R a1_log). by repeat constructor. }
  apply rtc_l with pair3.
  { apply (xs_deliver pad4 3000 pair2 "b" (node "b" []) sys_ok hdr_data.1 hdr_data.2 buf64 ack_b b1);
      [done| |by vm_compute|by vm_compute].
    assert (streams_of msgs = [Stream hdr_data.1 hdr_data.2]) as E by by vm_compute.
    cbn [pair2 advance_to xsent]. rewrite E. by left. }
  apply rtc_once.
  apply (xs_ack pad4 3000 pair3 "a" a1 ack_b a2); [done| |by vm_compute].
  by left.
Qed.

Lemma pair4_b : xservers pair4 !! "b" = Some b1.
Proof. unfold pair4, pair3. cbn [advance_to xservers]. by rewrite lookup_insert_ne, lookup_insert_eq. Qed.

Lemma size_3000 : 0 < 3000 - REPL_REQ_HDR_LEN < 2 ^ 31.
Proof. by vm_compute. Qed.


(** The same pair, with one command outstanding. *)
Lemma a1_side : xside a1 [set_index 1 entry_a] [call_a].
Proof.
  split.
  - exact a1_log.
  - by vm_compute.
  - constructor; [by repeat split|constructor].
  - apply list.Forall_singleton. exists "x", "ky". split; try done; by repeat constructor.
  - assert (sn_xapp_pipe (g_snap a1) = None) as -> by by vm_compute. done.
Qed.

Lemma a1_flow : flow 3000 a1 (node "b" []) [set_index 1 entry_a] members members [call_a] 0 2%positive.
Proof.
  assert (aside (node "a" [Some 2%positive]) a1) as As by (split; by vm_compute).
  split.
  - exists []. eapply aside_inv; [exact As|apply stream_node_inv].
  - exists []. apply stream_node_inv.
  - split; by vm_compute.
  - split; [|split; [exists ∅, ∅; split; [|done| |done]; apply table0_rep|done]]. exact a1_app.
  - exact a1_side.
  - split; [by vm_compute|done].
  - exists 1%nat, (srv "b" 2). split; [done|]. split; [by vm_compute|done].
  - exists 0%nat, (srv "a" 0). split; [|done].
    by assert (m_self_id (g_me a1) = "a") as -> by by vm_compute.
  - split; [split; [by vm_compute|done]|done].
  - by repeat constructor.
  - by repeat constructor.
Qed.

