(* ===== verification/TypeProps.v ===== *)
(** * The memory holds values of its C types

    Whatever the threads of a server do, with whatever messages of the declared
    structures, results of system calls and buffers: the integers of the state
    stay within the width of their fields, the names within their arrays and
    the flags among their constants, from the state [rft_init] leaves on. *)

From S2P Require Import Prelude Monad Refine Typing Types LogRing Mtl Config HashTable State Utils.
From S2P Require Import Log RingBuf Serialize Snapshot RaftLog Raft XApp Server RaftServer Init StateTypes ServerTypes ThreadTypes.
From S2P Require Import Sample StartProps.
Open Scope Z_scope.

(** ** What a thread or the xApp runs under no interruption *)

Inductive turn :=
| WORKER (msg : rft_msg)
| TRIGGER
| CANDIDATE_ROUND
| JOIN_START
| JOIN_TURN (value : option (option string)) (wh_open : string -> bool) (conn : server_id_t * bool)
| BOOTSTRAP (connected key_set : bool) (binfo : bootstrap_info_t)
| SERVER_TURN (server : loc) (i : rs_input) (l : rs_local) (ph : rs_phase)
| REPLICATION_PASS (f : bytes -> Z -> option bytes) (bufs : nat -> bytes * bytes)
| RAFT_SNAPSHOT (realloc_ok read_meta : bool) (got : option nat)
| XAPP_SNAPSHOT (realloc_ok read_meta : bool) (got : option nat)
| REPLICATE (cb : option take_snapshot_cb_t) (command : Z) (context key : option string)
    (value : option bytes) (meid : option string) (role : Z).

Section Turns.
Context `{Rmr} `{Host} (pad : bytes) (max_msg_size : Z).

(** A message from the network holds its structure; the xApp passes an [int]
    and a [size_t]. *)
Definition turn_typed (t : turn) : Prop :=
  match t with
  | WORKER msg => typed msg
  | REPLICATE cb command _ _ value _ _ =>
      cb_typed cb /\ is_int command /\ forall v, value = Some v -> is_u64 (Z.of_nat (length v))
  | _ => True
  end.

Definition of_leader (m : leader_msg) : list rft_msg :=
  match m with MsgAppend h p => [APPEND_ENTRIES_REQ h p] | MsgSnapshot _ => [] end.
Definition of_primary (m : nat * replication_msg) : list rft_msg :=
  match m.2 with MsgReplication h p => [REPLICATION_REQ h p] | MsgXappSnapshot _ => [] end.

(** The turn, with the structures it sends. *)
Definition take_turn (k : sys) (mem : allocs) (t : turn) : M St (list rft_msg) :=
  match t with
  | WORKER msg => r ← worker_step k mem msg; mret (option_list r)
  | TRIGGER => trigger_election_timeout;; mret []
  | CANDIDATE_ROUND => r ← candidate_round k mem; mret (option_list (VOTE_REQ <$> r))
  | JOIN_START => membership_start;; mret []
  | JOIN_TURN value wh_open conn =>
      r ← membership_turn value wh_open conn;
      mret (match r.2 with WAIT_STATE (Some q) => [MEMBERSHIP_REQ q None] | _ => [] end)
  | BOOTSTRAP connected key_set binfo => bootstrap_rft_cluster k mem connected key_set binfo;; mret []
  | SERVER_TURN server i l ph =>
      r ← raft_server_turn k mem pad max_msg_size server i l ph;
      mret (match r.1.1 with Some m => of_leader m | None => [] end)
  | REPLICATION_PASS f bufs =>
      r ← state_replication_pass k pad max_msg_size f bufs; mret (mjoin (of_primary <$> r))
  | RAFT_SNAPSHOT a b got => parent_raft_thread a b got;; mret []
  | XAPP_SNAPSHOT a b got => parent_xapp_thread a b got;; mret []
  | REPLICATE cb command context key value meid role =>
      rft_replicate k mem cb command context key value meid role;; mret []
  end.

Fixpoint take_turns (ts : list (sys * allocs * turn)) : M St (list rft_msg) :=
  match ts with
  | [] => mret []
  | (k, mem, t) :: ts => out ← take_turn k mem t; outs ← take_turns ts; mret (out ++ outs)
  end.

Context (names : Z.of_nat (sizeof_server_id + sizeof_target) < 2 ^ 64).

Lemma then_nothing {A} (m : M St A) R : ty m R -> ty (m;; mret ([] : list rft_msg)) typed.
Proof. intros Hm. eapply ty_bind; [exact Hm|]. intros _ _. by apply ty_ret; constructor. Qed.

Lemma of_primaries ms : Forall (fun m : nat * replication_msg => replication_typed m.2) ms ->
  typed (mjoin (of_primary <$> ms)).
Proof.
  induction ms as [|[i m] ms IH]; intros Hms; [by constructor|]. apply Forall_cons_iff in Hms as [Hm Hms].
  apply Forall_app. split; [|by apply IH]. destruct m; [constructor; [exact Hm|constructor]|constructor].
Qed.

Lemma take_turn_ty k mem t : turn_typed t -> ty (take_turn k mem t) typed.
Proof using names.
  intros Ht. destruct t; cbn [take_turn].
  - eapply ty_bind; [by apply worker_step_ty|]. intros [m|] Hm; apply ty_ret; [by constructor|constructor].
  - by eapply then_nothing, trigger_election_timeout_ty.
  - eapply ty_bind; [by apply candidate_round_ty|]. intros [q|] Hq; apply ty_ret; [by constructor|constructor].
  - by eapply then_nothing, membership_start_ty.
  - eapply ty_bind; [by apply membership_turn_ty|]. intros [c w] Hw. apply ty_ret. cbn in *.
    destruct w as [| |[q|]|]; try by constructor.
  - by eapply then_nothing, bootstrap_ty.
  - eapply ty_bind; [by apply raft_server_turn_ty|]. intros [[[m|] l'] ph'] Hm; apply ty_ret; [|constructor].
    cbn in *. destruct m; [constructor; [exact Hm|constructor]|constructor].
  - eapply ty_bind; [by apply state_replication_pass_ty|]. intros ms Hms. apply ty_ret. by apply of_primaries.
  - by eapply then_nothing, parent_raft_thread_ty.
  - by eapply then_nothing, parent_xapp_thread_ty.
  - destruct Ht as (? & ? & ?). by eapply then_nothing, rft_replicate_ty.
Qed.

Lemma take_turns_ty ts : Forall (fun t => turn_typed t.2) ts -> ty (take_turns ts) typed.
Proof using names.
  induction ts as [|[[k mem] t] ts IH]; intros Hts; [by apply ty_ret; constructor|].
  apply Forall_cons_iff in Hts as [Ht Hts]. eapply ty_bind; [by apply take_turn_ty|]. intros out Ho.
  eapply ty_bind; [by apply IH|]. intros outs Hos. apply ty_ret. by apply Forall_app.
Qed.

End Turns.

(** ** The memory [rft_init] leaves *)

Section Start.
Context `{Rmr} `{Host}.

#[local] Instance typed_library : Typed library := fun g => typed (li_st g).
#[local] Instance li_st_typed : TypedLens li_st_l. Proof. by split. Qed.

Lemma ty_of_wp {S A} `{Typed S} E (m : M S A) (R : A -> Prop) :
  (forall s, wp E m s (fun a s' => R a /\ s' = s)) -> ty m R.
Proof.
  intros Hm s Hs. specialize (Hm s). unfold wp in Hm. destruct (m s); [|done]. destruct Hm as [? ->]. done.
Qed.

Lemma init_log_ty a b type size threshold : ty (init_log a b type size threshold) anything.
Proof.
  unfold init_log. do 2 (ty_step; [by apply ty_ret|]).
  destruct (log_ring_create a b size) as [err|r] eqn:E.
  - eapply ty_bind; [apply mod_lg_ty|intros _ _; by apply ty_ret].
    intros g l (H1 & H2 & H3 & _). by split.
  - eapply ty_bind; [apply ty_modify|intros _ _; by apply ty_ret]. intros s _.
    assert (is_u64 0) by lia. split; [done|]. split; [done|]. split; [done|]. cbn.
    revert E. unfold log_ring_create. destruct (size =? 0); [done|]. destruct (negb (_ =? 0)); [done|].
    destruct (negb a), (negb b); try done. intros [= <-]. assert (is_u32 0) by lia.
    split; [done|]. split; [done|]. split; [apply u32_range|]. cbn. by apply Forall_replicate.
Qed.

Section Library.
Context (einval_empty : bool) (env : string -> option string) (hostname : option string) (mem : init_mem).

Lemma parse_uint_ty str : ty (parse_uint einval_empty str : M library Z) (fun n => is_u32 n).
Proof. apply (ty_of_wp only_exit). intros s. apply parse_uint_sound. Qed.

Lemma parse_int_ty str : ty (parse_int einval_empty str : M library Z) is_int.
Proof.
  apply (ty_of_wp only_exit). intros s. eapply wp_mono; [apply parse_int_sound|]. by intros v s' (? & -> & _).
Qed.

Lemma on_st_ty {A} (m : M St A) R : ty m R -> ty (zoom li_st_l m) R.
Proof. intros Hm. by apply ty_zoom; [apply _|]. Qed.

Lemma set_replication_ty type n : is_u32 n -> ty (set_replication type n) anything.
Proof.
  intros Hn. apply on_st_ty, ty_modify. intros s (? & ? & ? & ? & ? & ?). by repeat (split; [done|]).
Qed.

Lemma env_value_ty name parse d R :
  R d -> (forall str, ty (parse str : M library Z) R) -> ty (env_value env name parse d) R.
Proof. intros Hd Hp. unfold env_value. destruct (env name); [done|by apply ty_ret]. Qed.

Lemma init_replicas_ty : ty (init_replicas einval_empty env) anything.
Proof.
  unfold init_replicas. destruct (env _); [|apply set_replication_ty; lia]. case_decide.
  - eapply ty_bind; [apply ty_gets|]. intros n (g & (_ & _ & _ & _ & _ & Hg) & ->). by apply set_replication_ty.
  - eapply ty_bind; [apply parse_uint_ty|]. intros n Hn. by apply set_replication_ty.
Qed.

Lemma init_self_id_ty : ty (init_self_id env hostname) anything.
Proof.
  unfold init_self_id. cbv zeta. ty_go. destruct H3 as (Hm & Hs). split; [|exact Hs].
  destruct Hm as (? & ? & _ & ?). split; [done|]. split; [done|]. split; [|done].
  pose proof (str_cut_length (sizeof_server_id - 1) a0). pose proof RMR_MAX_SRC_pos.
  unfold is_id, sizeof_server_id in *. cbn. lia.
Qed.

Lemma init_logs_ty threshold : ty (init_logs mem threshold) anything.
Proof. unfold init_logs. pose proof init_log_ty. ty_go. Qed.

Lemma set_app_ty f : ty (zoom li_st_l (modify (fun s => set_app (f s) s))) anything.
Proof.
  apply on_st_ty, ty_modify. intros s (? & ? & ? & ? & ? & ?). by repeat (split; [done|]).
Qed.

Lemma init_tables_ty : ty (init_tables mem) anything.
Proof.
  unfold init_tables. eapply ty_bind with (R := anything).
  - destruct (ring_create _ _ _) as [[e|r] u|f]; [apply ty_fail| |apply ty_fail].
    by apply ty_modify.
  - intros _ _. ty_step. eapply ty_bind; [apply set_app_ty|]. intros _ _. ty_step.
    apply (set_app_ty (fun s => set_roletab a0 (g_app s))).
Qed.

Lemma init_binfo_ty port : ty (init_binfo einval_empty env mem port) anything.
Proof.
  unfold init_binfo. cbv zeta. do 2 (ty_step; [apply ty_fail|]). eapply ty_bind.
  { apply env_value_ty with (R := is_int); [unfold is_int, INT_MIN, INT_MAX, BOOTSTRAP_REDIS_PORT; lia|].
    intros str. apply parse_int_ty. }
  intros p _. eapply ty_bind; [apply parse_int_ty|]. intros v _. by apply ty_modify.
Qed.

Lemma rft_init_ty mrc port max acb icb :
  ty (rft_init einval_empty env hostname mem mrc port max acb icb) anything.
Proof.
  pose proof init_replicas_ty. pose proof init_self_id_ty. pose proof init_logs_ty.
  pose proof init_binfo_ty. pose proof init_tables_ty. pose proof parse_int_ty. pose proof parse_uint_ty.
  unfold rft_init. do 2 (ty_step; [apply ty_fail|]). do 2 ty_step. destruct (set_max_msg_size _ _) as [m ok].
  ty_step; [done|]. ty_step; [apply ty_fail|]. eapply ty_bind; [apply set_app_ty|]. intros _ _.
  assert (forall name d, ty (env_value env name (parse_int einval_empty) d) anything) as Hpi
    by (intros; apply env_value_ty; [done|intros; by eapply ty_any]).
  assert (forall name d, ty (env_value env name (parse_uint einval_empty) d) anything) as Hpu
    by (intros; apply env_value_ty; [done|intros; by eapply ty_any]).
  ty_go.
Qed.

End Library.

Lemma library0_typed now rands : typed (library0 now rands).
Proof.
  assert (is_u64 0) by lia. assert (is_u32 0) by lia. pose proof RMR_MAX_SRC_pos.
  assert (is_id "") by (unfold is_id, sizeof_server_id; cbn; lia).
  change (typed (init_st now rands)). unfold init_st.
  refine (conj _ (conj _ (conj _ (conj _ (conj _ _))))); cbn -[Z.pow].
  - by repeat (split; [done|]).
  - by repeat (split; [done|]).
  - by repeat (split; [done|]).
  - split; [done|]. split; [done|]. split; [by left|apply map_Forall_empty].
  - split; [done|]. split; [done|]. by split.
  - done.
Qed.

End Start.

(** ** The property *)


(** A server that starts, founds the cluster, is elected and replicates two
    commands of its xApp, the second from the wrong role. *)
Definition first_turns : list (sys * allocs * turn) :=
  [(sys_ok, mem_ok, BOOTSTRAP true true (BootstrapInfo 4560 6379 "redis" "rft.leader"));
   (sys_ok, mem_ok, TRIGGER);
   (sys_ok, mem_ok, CANDIDATE_ROUND);
   (sys_ok, mem_ok, REPLICATE None 7 (Some "ue") (Some "count") (Some ["1"%char]) (Some "gnb") RFT_PRIMARY);
   (sys_ok, mem_ok, REPLICATE None 7 (Some "ue") (Some "count") (Some ["2"%char]) (Some "gnb") RFT_BACKUP);
   (sys_ok, mem_ok, REPLICATION_PASS (fun _ _ => None) (fun _ => ([], [])))].

Lemma first_turns_typed : Forall (fun t => turn_typed t.2) first_turns.
Proof.
  assert (is_int 7) by (unfold is_int, INT_MIN, INT_MAX; lia).
  assert (forall role c, turn_typed (REPLICATE None 7 (Some "ue") (Some "count") (Some [c]) (Some "gnb") role)) as Hr.
  { intros role c. split; [done|]. split; [done|]. intros v [= <-]. cbn. lia. }
  unfold first_turns. do 3 (constructor; [exact I|]). do 2 (constructor; [apply Hr|]).
  constructor; [exact I|constructor].
Qed.

Lemma names_64 : Z.of_nat (sizeof_server_id + sizeof_target) < 2 ^ 64.
Proof. by vm_compute. Qed.

Lemma init0_returns : returns (init0 (library0 clock0 [1; 2; 3])) = true.
Proof. by vm_compute. Qed.

Lemma booted_typed : typed (li_st booted).
Proof.
  pose proof (rft_init_ty false env0 (Some "host") init_mem_ok true (Some "4560") 8192 true true _
    (library0_typed clock0 [1; 2; 3])) as Hi.
  pose proof (returns_ok init0 _ (library0 clock0 []) tt init0_returns) as E.
  unfold init0 in E at 1. rewrite E in Hi. apply Hi.
Qed.

