(* ===== verification/ExampleProps.v ===== *)
(** * The properties of the sample programs

    The counter of the sample xApp reaches its replicas, and the sample sender
    stays inside its arrays. *)

From S2P Require Import Prelude Monad Types LogRing RingBuf Fifo RingConc Mtl Config Quorum HashTable.
From S2P Require Import HashMap State Utils Log Serialize Snapshot RaftLog Raft XApp Server.
From S2P Require Import Invariant Commit Election Replication XRepl Worker Tasks Init Delivery XStream.
From S2P Require Import Streams Examples Xapp Xapp2 XappRuns Sender Sender2 SenderRuns Sample StartProps StreamProps.
Open Scope Z_scope.

(** ** The counter *)

Section Counter.
Context `{Rmr} `{Host} (k : sys) (mem : allocs).
Context (einval_empty : bool) (env : string -> option string) (hostname : option string).
Context (copy : errno_t + unit) (cb : option take_snapshot_cb_t) (icb : bool) (meid : option string).
Let rft : rft_calls :=
  with_rft k mem einval_empty env hostname init_mem_ok copy cb icb meid RFT_PRIMARY.

End Counter.


(** ** The sender *)

(** C38. The sample sender stays inside its arrays: when it warms up with no more
    messages than it measures, the program never accesses a cell outside them,
    in both phases and in the report, whatever RMR returns; the report counts
    the replies, which are the first ones that arrived, each in its cell with
    its round trip time. It can end by [exit( 1 )], by a NULL buffer, or by a
    cell that was never written, the last only when there was no reply. *)
Theorem sender_stays_inside alloc init create warm main args o :
  sender_options args sender_defaults sender0 = Ok o sender0 ->
  0 < so_msgs o * so_targets o < 2 ^ 60 -> - 2 ^ 60 < so_warmup o * so_targets o ->
  so_warmup o * so_targets o <= so_msgs o * so_targets o ->
  wp (main_faults (so_mtype o) (ph_recv main)) (sender_main alloc init create warm main args) sender0
    (fun rep x => exists got, filled (Z.to_nat (so_msgs o * so_targets o)) x got /\
      received (so_mtype o) (ph_recv main) 0 (Z.to_nat (so_msgs o * so_targets o)) got /\
      rp_requests rep = so_msgs o * so_targets o /\ rp_replies_ rep = Z.of_nat (length got)).
Proof. apply sender_main_ok. Qed.

(** ** Instances *)

(** Two requests and a message of the library, with a first answer that is
    retried. *)
Definition rmr0 : rmr_env := RmrEnv true (fun i => bool_decide (i = 1)%nat) Z.of_nat.
Definition rts0 (i : nat) : option mbuf_state := if decide (i = 0%nat) then Some MB_ERR_RETRY else Some MB_OK.
Definition requests : list (option (mbuf_state * xapp_msg) * (nat -> option mbuf_state)) :=
  [(Some (MB_OK, RAN RAN1_MSG (Mpl 2 1 (Timespec 0 0))), rts0);
   (Some (MB_OK, RFT (UNRECOGNIZED 7)), rts0);
   (Some (MB_OK, RAN RAN2_MSG (Mpl 2 2 (Timespec 0 0))), rts0)].
Definition rft0 : rft_calls :=
  with_rft sys_ok mem_ok false env0 (Some "host") init_mem_ok (inr tt) None true (Some "ue") RFT_PRIMARY.
Definition xargs : list string := ["-p"; "4560"; "-l"; "1"].


(** [a] serves one request with the counter at 41, and [b] applies it. *)
Definition sample_a : M St (Z * option errno_t) :=
  rft_replicate sys_ok mem_ok None SET_RSTATE (Some "REL1") (Some "counter") (Some (mem_bytes 8 42)) (Some "ue") 1.
Definition buf128 : bytes := replicate 128 NUL.
Definition sample_bufs (_ : nat) : bytes * bytes := (buf128, []).
Definition sa1 : St := state_of (node "a" []) (sample_a (node "a" [Some 2%positive])).
Definition sample_msgs : list (nat * replication_msg) :=
  value_of [] (state_replication_pass sys_ok pad4 3000 (fun _ _ => None) sample_bufs sa1).
Definition sample_hd : repl_req_hdr_t * bytes :=
  match sample_msgs with [(_, MsgReplication h d)] => (h, d) | _ => (ReplReqHdr 0 "" 0 0, []) end.
Definition apply_sample : M St replication_reply_t :=
  worker_replication sys_ok sample_hd.1 (sample_hd.2 ++ buf64).
Definition sb1 : St := state_of (node "b" []) (apply_sample (node "b" [])).
Definition sample_ack : replication_reply_t := value_of (RepRepl 0 0 "") (apply_sample (node "b" [])).

Definition sample1 : xnet := advance_to "a" sa1 [] [("a", set_counter 42)] pair0.
Definition sample2 : xnet := advance_to "a" sa1 (streams_of sample_msgs) [] sample1.
Definition sample3 : xnet := advance_to "b" sb1 [Ack "a" sample_ack] [] sample2.

Definition sample_entry : log_entry_t :=
  LogEntry 0 0 8 4 7 SERVER_COMMAND SET_RSTATE (Some "REL1") (Some "counter") (mem_bytes 8 42).

Lemma sa1_log : log_rep (g_xapp_log sa1) [set_index 1 sample_entry].
Proof.
  destruct (append_room log0 [] log0_rep sample_entry) as (s & E & R & _); [done|done|].
  assert (g_xapp_log sa1 = state_of init_log_st (append_log_entry sample_entry log0)) as -> by by vm_compute.
  by rewrite E.
Qed.

Lemma run_sample : xrun pad4 3000 pair0 sample3.
Proof.
  apply rtc_l with sample1.
  { refine (xs_replicate pad4 3000 pair0 "a" (node "a" [Some 2%positive]) sys_ok mem_ok None SET_RSTATE
      "REL1" "counter" (mem_bytes 8 42) (Some "ue") 1 (1, None) sa1 eq_refl _ _ eq_refl eq_refl _);
      [apply counter_fits|done|by vm_compute]. }
  apply rtc_l with sample2.
  { apply (xs_send pad4 3000 sample1 "a" sa1 sys_ok (fun _ _ => None) sample_bufs); [done|done| |by vm_compute].
    intros X R j. rewrite (log_rep_inj _ _ _ R sa1_log). by repeat constructor. }
  apply rtc_once.
  apply (xs_deliver pad4 3000 sample2 "b" (node "b" []) sys_ok sample_hd.1 sample_hd.2 buf64 sample_ack sb1);
    [done| |by vm_compute|by vm_compute].
  assert (streams_of sample_msgs = [Stream sample_hd.1 sample_hd.2]) as E by by vm_compute.
  cbn [sample2 advance_to xsent]. rewrite E. by left.
Qed.


(** Ten messages with a warm-up of two; every message is answered in its time. *)
Definition reply0 (n : nat) : option reply_t :=
  Some (Reply MB_OK RAN1_MSG (Mpl 10 (Z.of_nat n + 1) (Timespec 5 0)) (Timespec 5 2000000)).
Definition phase0 : phase :=
  Phase true (Timespec 5 0) (fun _ => Some MB_OK) (fun _ => Timespec 5 0) true reply0 (Timespec 6 0).
Definition sargs : list string := ["-w"; "2"].
Definition sopts : sender_opts := SenderOpts 0 10 RAN1_MSG 0 2000 2 1 1 None false false.

Lemma sender_stays_inside_witness :
  (match sender_main (fun _ => true) true true phase0 phase0 sargs sender0 with
   | Ok rep _ => rp_requests rep = 10 /\ rp_replies_ rep = 10 /\ rp_unreplied rep = 0
   | Fault _ => False
   end) /\
  wp (main_faults RAN1_MSG reply0) (sender_main (fun _ => true) true true phase0 phase0 sargs) sender0
    (fun rep x => exists got, filled (Z.to_nat (10 * 1)) x got /\
      received RAN1_MSG reply0 0 (Z.to_nat (10 * 1)) got /\
      rp_requests rep = 10 * 1 /\ rp_replies_ rep = Z.of_nat (length got)).
Proof.
  split; [vm_compute; by split|].
  apply (sender_stays_inside (fun _ => true) true true phase0 phase0 sargs sopts); [by vm_compute|cbn; lia..].
Defined.

(** ** What the samples get wrong *)

(** More warm-up messages than messages to measure: the replies of the warm-up
    are written behind the arrays. *)
Example warmup_overflows :
  sender_main (fun _ => true) true true phase0 phase0 ["-n"; "1"; "-w"; "2"] sender0 = Fault OutOfBounds.
Proof. by vm_compute. Qed.

(** Without a reply the report reads a cell that was never written. *)
Definition silent : phase :=
  Phase true (Timespec 5 0) (fun _ => Some MB_OK) (fun _ => Timespec 5 0) true
    (fun _ => Some (Reply MB_ERR_TIMEOUT 0 (Mpl 0 0 (Timespec 0 0)) (Timespec 7 0))) (Timespec 7 0).
Example report_reads_unwritten :
  sender_main (fun _ => true) true true phase0 silent [] sender0 = Fault Uninitialised.
Proof. by vm_compute. Qed.

(** The deviation of equal latencies is not zero: the latencies are in
    microseconds, the mean that is subtracted is in milliseconds. *)
Example stddev_of_equal_latencies :
  (match sender_main (fun _ => true) true true phase0 phase0 sargs sender0 with
   | Ok rep _ => SpecFloat.SFcompare (rp_stddev rep) (to_double 2)
   | Fault _ => None
   end) = Some Gt.
Proof. by vm_compute. Qed.
